(* ===== verification/_CoqProject ===== *)
-Q . S2P
Prelude.v
Kernel.v
Spinlock.v
SpinlockSmp.v
StringLib.v
Ulib.v
Bytes.v
Words.v
Kalloc.v
ProcCore.v
Pipe.v
Bio.v
BioSpec.v
FsLayout.v
IdeDisk.v
LogCopy.v
Log.v
LogProof.v
LogOps.v
Fs.v
FsTx.v
FsRead.v
FsWrite.v
FsAlloc.v
Icache.v
Dir.v
DirPath.v
DirProof.v
Mkfs.v
MkfsProof.v
MkfsMain.v
Printf.v
Console.v
Kbd.v
Uart.v
Vm.v
VmProof.v
VmDealloc.v
VmFree.v
VmCopy.v
File.v
Proc.v
ProcWait.v
Scheduler.v
SchedProof.v
Syscall.v
SyscallProof.v
Exec.v
Sysproc.v
Sysfile.v
Trap.v
KernelTypes.v
TypesFs.v
TypesProc.v
TypesTrap.v
TypesDev.v
Segments.v
Asm.v
TrapEntry.v
Irq.v
Mp.v
Lapic.v
Boot.v
BootProof.v
Umalloc.v
UmallocProof.v
UmallocMain.v
Programs.v
Grep.v
Sh.v
ShProof.v
ShRun.v
