(* ===== verification/Prelude.v ===== *)
(** Prelude: notation, machine integers, the kernel's effect monad, and the
    generic lemmas the components share. *)

From stdpp Require Export base numbers list gmap strings.

Declare Scope xv6_scope.
Delimit Scope xv6_scope with xv6.
Global Open Scope Z_scope.

(** ** Machine integers

    C integers are kept as [Z]; every operation whose result the source
    stores in a fixed-width object goes through one of these functions. *)

Definition u8 (x : Z) : Z := x mod 2 ^ 8.
Definition u16 (x : Z) : Z := x mod 2 ^ 16.
Definition u32 (x : Z) : Z := x mod 2 ^ 32.

(** Two's complement reading of the low [w] bits, as gcc stores an [int]
    ([w = 32]), a [short] ([w = 16]) or a [char] ([w = 8]). *)
Definition sint (w x : Z) : Z := (x + 2 ^ (w - 1)) mod 2 ^ w - 2 ^ (w - 1).
Definition i8 (x : Z) : Z := sint 8 x.
Definition i16 (x : Z) : Z := sint 16 x.
Definition i32 (x : Z) : Z := sint 32 x.

Lemma u32_range x : 0 <= u32 x < 2 ^ 32.
Proof. apply Z.mod_pos_bound. lia. Qed.

Lemma u8_range x : 0 <= u8 x < 256.
Proof. apply Z.mod_pos_bound. lia. Qed.

Lemma u32_small x : 0 <= x < 2 ^ 32 -> u32 x = x.
Proof. apply Z.mod_small. Qed.

Lemma u8_small x : 0 <= x < 256 -> u8 x = x.
Proof. apply Z.mod_small. Qed.

Lemma u32_idemp x : u32 (u32 x) = u32 x.
Proof. apply u32_small, u32_range. Qed.

Lemma sint_small w x : 0 < w -> - 2 ^ (w - 1) <= x < 2 ^ (w - 1) -> sint w x = x.
Proof.
  intros Hw Hx. unfold sint.
  assert (2 ^ w = 2 * 2 ^ (w - 1)) as E.
  { rewrite <- Z.pow_succ_r by lia. f_equal. lia. }
  rewrite Z.mod_small by lia. lia.
Qed.

Lemma i32_small x : - 2 ^ 31 <= x < 2 ^ 31 -> i32 x = x.
Proof. intros. apply sint_small; simpl; lia. Qed.

Lemma i32_range x : - 2 ^ 31 <= i32 x < 2 ^ 31.
Proof.
  unfold i32, sint. pose proof (Z.mod_pos_bound (x + 2 ^ (32 - 1)) (2 ^ 32)). lia.
Qed.

Lemma u32_add_l x y : u32 (u32 x + y) = u32 (x + y).
Proof. apply Zplus_mod_idemp_l. Qed.

Lemma u32_add_r x y : u32 (x + u32 y) = u32 (x + y).
Proof. apply Zplus_mod_idemp_r. Qed.

(** ** Effects

    Kernel code runs against a state [S].  A run returns, panics (the
    kernel's [panic] never returns), faults on a pointer the code never
    checked, or hands the CPU to the scheduler: [Switched s k] is a call of
    [swtch] in state [s], and [k] is the rest of the run, resumed in whatever
    state the other processes left.  [Exhausted] is only reached when the
    fuel of an unbounded loop runs out. *)

Inductive outcome (S A : Type) : Type :=
| Done (a : A) (s : S)
| Panicked (msg : string) (s : S)
| Faulted (msg : string) (s : S)
| Switched (s : S) (k : S -> outcome S A)
| Exhausted.
Arguments Done {S A} a s.
Arguments Panicked {S A} msg s.
Arguments Faulted {S A} msg s.
Arguments Switched {S A} s k.
Arguments Exhausted {S A}.

Definition M (S A : Type) : Type := S -> outcome S A.

Fixpoint obind {S A B} (o : outcome S A) (f : A -> M S B) : outcome S B :=
  match o with
  | Done a s => f a s
  | Panicked m s => Panicked m s
  | Faulted m s => Faulted m s
  | Switched s k => Switched s (fun s' => obind (k s') f)
  | Exhausted => Exhausted
  end.

Definition ret {S A} (a : A) : M S A := fun s => Done a s.
Definition bind {S A B} (m : M S A) (f : A -> M S B) : M S B :=
  fun s => obind (m s) f.
Definition panic {S A} (msg : string) : M S A := fun s => Panicked msg s.
Definition fault {S A} (msg : string) : M S A := fun s => Faulted msg s.
Definition exhausted {S A} : M S A := fun _ => Exhausted.
Definition gets {S A} (f : S -> A) : M S A := fun s => Done (f s) s.
Definition modify {S} (f : S -> S) : M S unit := fun s => Done tt (f s).
Definition swtch {S} : M S unit := fun s => Switched s (fun s' => Done tt s').
Definition when {S} (b : bool) (m : M S unit) : M S unit :=
  if b then m else ret tt.

Notation "'let!' x ':=' m 'in' k" := (bind m (fun x => k))
  (at level 200, x name, m at level 100, k at level 200, right associativity,
   format "'[v' 'let!'  x  ':='  m  'in' '/' k ']'") : xv6_scope.
Notation "m ';;;' k" := (bind m (fun _ => k))
  (at level 199, right associativity, format "'[v' m ';;;' '/' k ']'") : xv6_scope.
Global Open Scope xv6_scope.

Lemma bind_ret {S A B} (a : A) (f : A -> M S B) s : bind (ret a) f s = f a s.
Proof. done. Qed.
Lemma bind_gets {S A B} (g : S -> A) (f : A -> M S B) s : bind (gets g) f s = f (g s) s.
Proof. done. Qed.
Lemma bind_modify {S B} (g : S -> S) (f : unit -> M S B) s :
  bind (modify g) f s = f tt (g s).
Proof. done. Qed.
Lemma bind_panic {S A B} msg (f : A -> M S B) s : bind (panic msg) f s = Panicked msg s.
Proof. done. Qed.
Lemma bind_Done {S A B} (m : M S A) (f : A -> M S B) s a s' :
  m s = Done a s' -> bind m f s = f a s'.
Proof. intros H. unfold bind. by rewrite H. Qed.
Lemma bind_Panicked {S A B} (m : M S A) (f : A -> M S B) s msg s' :
  m s = Panicked msg s' -> bind m f s = Panicked msg s'.
Proof. intros H. unfold bind. by rewrite H. Qed.

Create HintDb kmonad.
#[export] Hint Rewrite @bind_ret @bind_gets @bind_modify @bind_panic : kmonad.

(** Weakest precondition of a run that must return: no panic, no fault, no
    exhausted fuel.  [R s s'] is what the other processes may do to the state
    while this one is switched out. *)
Fixpoint owp {S A} (R : S -> S -> Prop) (o : outcome S A) (Q : A -> S -> Prop) : Prop :=
  match o with
  | Done a s => Q a s
  | Panicked _ _ | Faulted _ _ | Exhausted => False
  | Switched s k => forall s', R s s' -> owp R (k s') Q
  end.

Definition wp {S A} (R : S -> S -> Prop) (m : M S A) (Q : A -> S -> Prop) (s : S) : Prop :=
  owp R (m s) Q.

Lemma owp_obind {S A B} R (o : outcome S A) (f : A -> M S B) Q :
  owp R o (fun a s => owp R (f a s) Q) -> owp R (obind o f) Q.
Proof. induction o as [| | |s k IH|]; simpl; auto. Qed.

Lemma wp_bind {S A B} R (m : M S A) (f : A -> M S B) Q s :
  wp R m (fun a s' => wp R (f a) Q s') s -> wp R (bind m f) Q s.
Proof. apply owp_obind. Qed.

Lemma owp_mono {S A} R (o : outcome S A) (Q Q' : A -> S -> Prop) :
  (forall a s, Q a s -> Q' a s) -> owp R o Q -> owp R o Q'.
Proof. intros H. induction o as [| | |s k IH|]; simpl; auto. Qed.

(** The liberal version: if the run returns, the result is as stated. *)
Fixpoint owlp {S A} (R : S -> S -> Prop) (o : outcome S A) (Q : A -> S -> Prop) : Prop :=
  match o with
  | Done a s => Q a s
  | Panicked _ _ | Faulted _ _ => False
  | Exhausted => True
  | Switched s k => forall s', R s s' -> owlp R (k s') Q
  end.

Lemma owlp_obind {S A B} R (o : outcome S A) (f : A -> M S B) Q :
  owlp R o (fun a s => owlp R (f a s) Q) -> owlp R (obind o f) Q.
Proof. induction o as [| | |s k IH|]; simpl; auto. Qed.

(** Every state the run passes to the scheduler, and the state it ends in,
    satisfies [I], as long as the other processes keep [I]. *)
Fixpoint osafe {S A} (I : S -> Prop) (o : outcome S A) : Prop :=
  match o with
  | Done _ s | Panicked _ s | Faulted _ s => I s
  | Exhausted => True
  | Switched s k => I s /\ forall s', I s' -> osafe I (k s')
  end.

Lemma osafe_obind {S A B} (I : S -> Prop) (o : outcome S A) (f : A -> M S B) :
  osafe I o -> (forall a s, I s -> osafe I (f a s)) -> osafe I (obind o f).
Proof.
  intros Ho Hf. induction o as [a s|m s|m s|s k IH|]; simpl in *; auto.
  destruct Ho as [HI Hk]. split; auto.
Qed.

(** Preservation of an invariant by a command, compositional over [bind]. *)
Definition preserves {S A} (I : S -> Prop) (m : M S A) : Prop :=
  forall s, I s -> osafe I (m s).

Lemma preserves_bind {S A B} (I : S -> Prop) (m : M S A) (f : A -> M S B) :
  preserves I m -> (forall a, preserves I (f a)) -> preserves I (bind m f).
Proof. intros Hm Hf s HI. apply osafe_obind; [by apply Hm|]. intros a s'. apply Hf. Qed.
Lemma preserves_ret {S A} (I : S -> Prop) (a : A) : preserves I (ret a).
Proof. by intros s HI. Qed.
Lemma preserves_gets {S A} (I : S -> Prop) (g : S -> A) : preserves I (gets g).
Proof. by intros s HI. Qed.
Lemma preserves_panic {S A} (I : S -> Prop) msg : preserves I (@panic S A msg).
Proof. by intros s HI. Qed.
Lemma preserves_fault {S A} (I : S -> Prop) msg : preserves I (@fault S A msg).
Proof. by intros s HI. Qed.
Lemma preserves_exhausted {S A} (I : S -> Prop) : preserves I (@exhausted S A).
Proof. by intros s HI. Qed.
Lemma preserves_modify {S} (I : S -> Prop) (g : S -> S) :
  (forall s, I s -> I (g s)) -> preserves I (modify g).
Proof. intros H s HI. by apply H. Qed.
Lemma preserves_swtch {S} (I : S -> Prop) : preserves I (@swtch S).
Proof. intros s HI. simpl. auto. Qed.
Lemma preserves_when {S} (I : S -> Prop) b (m : M S unit) :
  preserves I m -> preserves I (when b m).
Proof. destruct b; [done|]. intros _. apply preserves_ret. Qed.
Lemma preserves_if {S A} (I : S -> Prop) (b : bool) (m1 m2 : M S A) :
  (b = true -> preserves I m1) -> (b = false -> preserves I m2) ->
  preserves I (if b then m1 else m2).
Proof. destruct b; auto. Qed.

#[export] Hint Resolve preserves_ret preserves_gets preserves_panic
  preserves_fault preserves_exhausted preserves_swtch : kmonad.

(** ** Table scans

    The kernel's tables are arrays scanned from the first slot; [find_idx p l]
    is the index of the first slot that satisfies the loop's test. *)

Fixpoint find_idx {A} (p : A -> bool) (l : list A) : option nat :=
  match l with
  | [] => None
  | x :: l => if p x then Some O else S <$> find_idx p l
  end.

Lemma find_idx_Some {A} (p : A -> bool) (l : list A) (i : nat) :
  find_idx p l = Some i <->
  (exists x, l !! i = Some x /\ p x = true) /\
  (forall j y, (j < i)%nat -> l !! j = Some y -> p y = false).
Proof.
  revert i. induction l as [|x l IH]; intros i; simpl.
  { split; [done|]. intros [(y & H & _) _]. done. }
  destruct (p x) eqn:Hp.
  - split.
    + intros [= <-]. split; [by exists x|]. intros; lia.
    + intros [_ H2]. destruct i as [|i]; [done|].
      rewrite (H2 O x) in Hp; [done|lia|done].
  - destruct i as [|i].
    { split; [by destruct (find_idx p l)|]. intros [(y & [= ->] & Hy) _]. congruence. }
    transitivity (find_idx p l = Some i).
    { destruct (find_idx p l); simpl; split; congruence. }
    rewrite IH. split; intros [H1 H2]; split; try done.
    + intros [|j] y Hj Hl; [by simplify_eq/=|]. apply (H2 j); [lia|done].
    + intros j y Hj Hl. apply (H2 (S j)); [lia|done].
Qed.

Lemma find_idx_None {A} (p : A -> bool) (l : list A) :
  find_idx p l = None <-> Forall (fun x => p x = false) l.
Proof.
  induction l as [|x l IH]; simpl; [by split|].
  rewrite Forall_cons, <- IH. destruct (p x), (find_idx p l); simpl; naive_solver.
Qed.

Lemma find_idx_lookup {A} (p : A -> bool) (l : list A) i :
  find_idx p l = Some i -> exists x, l !! i = Some x /\ p x = true.
Proof. intros H. by apply find_idx_Some in H as [? _]. Qed.

(** ** Lists *)

(** Number of slots satisfying a test. *)
Definition count {A} (p : A -> bool) (l : list A) : nat :=
  length (List.filter p l).

Lemma count_insert {A} (p : A -> bool) (l : list A) i x y :
  l !! i = Some x ->
  (count p (<[i:=y]> l) + (if p x then 1 else 0) =
   count p l + (if p y then 1 else 0))%nat.
Proof.
  unfold count. revert i. induction l as [|z l IH]; intros [|i] H; simplify_eq/=.
  - destruct (p x), (p y); simpl; lia.
  - specialize (IH _ H). destruct (p z); simpl; lia.
Qed.

Lemma list_alter_Some {A} (f : A -> A) (l : list A) i x :
  l !! i = Some x -> alter f i l = <[i := f x]> l.
Proof. revert i. induction l; intros [|i] H; simplify_eq/=; f_equal; auto. Qed.

Lemma gmap_alter_Some {K A} `{Countable K} (f : A -> A) (m : gmap K A) i x :
  m !! i = Some x -> alter f i m = <[i := f x]> m.
Proof.
  intros Hi. apply map_eq. intros j. destruct (decide (i = j)) as [<-|Hne].
  - by rewrite lookup_alter_eq, lookup_insert_eq, Hi.
  - by rewrite lookup_alter_ne, lookup_insert_ne.
Qed.

Definition sum_list (l : list Z) : Z := foldr Z.add 0 l.

Lemma sum_list_app l1 l2 : sum_list (l1 ++ l2) = sum_list l1 + sum_list l2.
Proof. induction l1; simpl; lia. Qed.

Lemma sum_list_insert (l : list Z) i x y :
  l !! i = Some x -> sum_list (<[i:=y]> l) = sum_list l - x + y.
Proof.
  revert i. induction l as [|z l IH]; intros [|i] H; simplify_eq/=; [lia|].
  rewrite (IH _ H). lia.
Qed.

(** ** Tactics *)

(** Turn boolean comparisons in the context into propositions. *)
Ltac b2p :=
  repeat match goal with
  | H : (_ && _)%bool = true |- _ => apply andb_prop in H as [??]
  | H : (_ || _)%bool = false |- _ => apply orb_false_elim in H as [??]
  | H : negb _ = true |- _ => apply negb_true_iff in H
  | H : negb _ = false |- _ => apply negb_false_iff in H
  | H : bool_decide _ = true |- _ => apply bool_decide_eq_true in H
  | H : bool_decide _ = false |- _ => apply bool_decide_eq_false in H
  | H : (_ =? _) = true |- _ => apply Z.eqb_eq in H
  | H : (_ =? _) = false |- _ => apply Z.eqb_neq in H
  | H : (_ <? _) = true |- _ => apply Z.ltb_lt in H
  | H : (_ <? _) = false |- _ => apply Z.ltb_ge in H
  | H : (_ <=? _) = true |- _ => apply Z.leb_le in H
  | H : (_ <=? _) = false |- _ => apply Z.leb_gt in H
  end.

(** Case on the test of a conditional of the goal. *)
Ltac case_if :=
  match goal with
  | |- context [if ?b then _ else _] =>
      match type of b with bool => let E := fresh "E" in destruct b eqn:E end
  end.

(** Case on every integer comparison of the goal. *)
Ltac case_cmp :=
  repeat match goal with
  | |- context [?a <=? ?b] => destruct (Z.leb_spec a b)
  | |- context [?a <? ?b] => destruct (Z.ltb_spec a b)
  | |- context [?a =? ?b] => destruct (Z.eqb_spec a b)
  end; cbn [andb orb negb].

(** Break a [preserves] goal along the monad's combinators. *)
Ltac preserve := repeat (intros; first
  [ apply preserves_bind | apply preserves_ret | apply preserves_gets
  | apply preserves_panic | apply preserves_fault | apply preserves_exhausted
  | apply preserves_swtch | apply preserves_when | apply preserves_if ]).
