(* ===== verification/Kernel.v ===== *)
(** Kernel: the kernel's data model.  One record per C structure, one field
    of [kernel] per global variable or group of globals, the constants of
    param.h and mmu.h the components share, and the operations on spinlocks
    that the components call (their implementation is in Spinlock.v). *)

From S2P Require Import Prelude.

(** ** param.h, mmu.h, memlayout.h *)

Definition NPROC : nat := 64.
Definition NOFILE : nat := 16.
Definition NFILE : nat := 100.
Definition NINODE : nat := 50.
Definition NDEV : Z := 10.
Definition ROOTDEV : Z := 1.
Definition MAXARG : Z := 32.
Definition MAXOPBLOCKS : Z := 10.
Definition LOGSIZE : Z := MAXOPBLOCKS * 3.
Definition NBUF : nat := 30.
Definition KSTACKSIZE : Z := 4096.
Definition BSIZE : Z := 512.

Definition PGSIZE : Z := 4096.
Definition KERNBASE : Z := 0x80000000.
Definition PHYSTOP : Z := 0xE000000.
Definition EXTMEM : Z := 0x100000.
Definition DEVSPACE : Z := 0xFE000000.
Definition KERNLINK : Z := KERNBASE + EXTMEM.

Definition V2P (a : Z) : Z := u32 (a - KERNBASE).
Definition P2V (a : Z) : Z := u32 (a + KERNBASE).
Definition PGROUNDUP (sz : Z) : Z := Z.ldiff (u32 (sz + PGSIZE - 1)) (PGSIZE - 1).
Definition PGROUNDDOWN (a : Z) : Z := Z.ldiff a (PGSIZE - 1).

(** ** What the build and the linker fix

    [original] tells whether the preprocessor symbol of that name is defined:
    the Makefile's SPEC_FLAGS define it; without it fork is copy-on-write and
    pages are reference counted.  The addresses are those of the linked
    image: the end of the kernel, the array [kmem.runs], the start of the
    kernel's data, and the two entry points fork puts on a kernel stack. *)
Class Image := {
  original : bool;
  end_ : Z;
  runs_base : Z;
  data_ : Z;
  forkret_addr : Z;
  trapret_addr : Z
}.

(** The kernel image is linked at [KERNLINK] and, since entrypgdir maps only
    the first 4 megabytes, ends below [KERNBASE + 0x400000]. *)
Class ImageOk (I : Image) : Prop := {
  runs_base_range : KERNLINK <= runs_base /\ runs_base + 8 * (PHYSTOP / PGSIZE) <= end_;
  data_range : KERNLINK < data_ < end_;
  data_aligned : data_ mod PGSIZE = 0;
  end_range : end_ <= KERNBASE + 0x400000
}.

(** ** Enumerations *)

(** [enum procstate] (proc.h). *)
Inductive procstate := UNUSED | EMBRYO | SLEEPING | RUNNABLE | RUNNING | ZOMBIE.
#[export] Instance procstate_eq_dec : EqDecision procstate.
Proof. solve_decision. Defined.

(** The type of a [struct file] (file.h). *)
Inductive fdtype := FD_NONE | FD_PIPE | FD_INODE.
#[export] Instance fdtype_eq_dec : EqDecision fdtype.
Proof. solve_decision. Defined.

(** The kernel's spinlocks, by the object they protect; a pipe's lock lives
    in its page, whose address names it. *)
Inductive lock_id :=
| L_ptable | L_kmem | L_bcache | L_icache | L_ftable | L_log | L_ide | L_ticks
| L_cons | L_pipe (p : Z).
#[export] Instance lock_id_eq_dec : EqDecision lock_id.
Proof. solve_decision. Defined.

Definition lock_code (l : lock_id) : Z + Z :=
  match l with
  | L_ptable => inl 0 | L_kmem => inl 1 | L_bcache => inl 2 | L_icache => inl 3
  | L_ftable => inl 4 | L_log => inl 5 | L_ide => inl 6 | L_ticks => inl 7
  | L_cons => inl 8 | L_pipe p => inr p
  end.
Definition lock_decode (c : Z + Z) : lock_id :=
  match c with
  | inl 0 => L_ptable | inl 1 => L_kmem | inl 2 => L_bcache | inl 3 => L_icache
  | inl 4 => L_ftable | inl 5 => L_log | inl 6 => L_ide | inl 7 => L_ticks
  | inl _ => L_cons | inr p => L_pipe p
  end.
#[export] Instance lock_id_countable : Countable lock_id.
Proof. refine (inj_countable' lock_code lock_decode _). by intros []. Defined.

(** Sleep channels: the addresses the kernel sleeps on. *)
Inductive chan :=
| C_proc (i : nat) | C_buf (i : nat) | C_inode (i : nat) | C_log | C_ticks
| C_nread (p : Z) | C_nwrite (p : Z) | C_input.
#[export] Instance chan_eq_dec : EqDecision chan.
Proof. solve_decision. Defined.

(** ** Structures *)

(** [struct trapframe] (x86.h), padding left out. *)
Record trapframe := Trapframe {
  tf_edi : Z;
  tf_esi : Z;
  tf_ebp : Z;
  tf_oesp : Z;
  tf_ebx : Z;
  tf_edx : Z;
  tf_ecx : Z;
  tf_eax : Z;
  tf_gs : Z;
  tf_fs : Z;
  tf_es : Z;
  tf_ds : Z;
  tf_trapno : Z;
  tf_err : Z;
  tf_eip : Z;
  tf_cs : Z;
  tf_eflags : Z;
  tf_esp : Z;
  tf_ss : Z
}.

Definition set_tf_edi (v : Z) (tf : trapframe) : trapframe :=
  Trapframe v (tf_esi tf) (tf_ebp tf) (tf_oesp tf) (tf_ebx tf) (tf_edx tf)
    (tf_ecx tf) (tf_eax tf) (tf_gs tf) (tf_fs tf) (tf_es tf) (tf_ds tf)
    (tf_trapno tf) (tf_err tf) (tf_eip tf) (tf_cs tf) (tf_eflags tf) (tf_esp
    tf) (tf_ss tf).
Definition set_tf_esi (v : Z) (tf : trapframe) : trapframe :=
  Trapframe (tf_edi tf) v (tf_ebp tf) (tf_oesp tf) (tf_ebx tf) (tf_edx tf)
    (tf_ecx tf) (tf_eax tf) (tf_gs tf) (tf_fs tf) (tf_es tf) (tf_ds tf)
    (tf_trapno tf) (tf_err tf) (tf_eip tf) (tf_cs tf) (tf_eflags tf) (tf_esp
    tf) (tf_ss tf).
Definition set_tf_ebp (v : Z) (tf : trapframe) : trapframe :=
  Trapframe (tf_edi tf) (tf_esi tf) v (tf_oesp tf) (tf_ebx tf) (tf_edx tf)
    (tf_ecx tf) (tf_eax tf) (tf_gs tf) (tf_fs tf) (tf_es tf) (tf_ds tf)
    (tf_trapno tf) (tf_err tf) (tf_eip tf) (tf_cs tf) (tf_eflags tf) (tf_esp
    tf) (tf_ss tf).
Definition set_tf_oesp (v : Z) (tf : trapframe) : trapframe :=
  Trapframe (tf_edi tf) (tf_esi tf) (tf_ebp tf) v (tf_ebx tf) (tf_edx tf)
    (tf_ecx tf) (tf_eax tf) (tf_gs tf) (tf_fs tf) (tf_es tf) (tf_ds tf)
    (tf_trapno tf) (tf_err tf) (tf_eip tf) (tf_cs tf) (tf_eflags tf) (tf_esp
    tf) (tf_ss tf).
Definition set_tf_ebx (v : Z) (tf : trapframe) : trapframe :=
  Trapframe (tf_edi tf) (tf_esi tf) (tf_ebp tf) (tf_oesp tf) v (tf_edx tf)
    (tf_ecx tf) (tf_eax tf) (tf_gs tf) (tf_fs tf) (tf_es tf) (tf_ds tf)
    (tf_trapno tf) (tf_err tf) (tf_eip tf) (tf_cs tf) (tf_eflags tf) (tf_esp
    tf) (tf_ss tf).
Definition set_tf_edx (v : Z) (tf : trapframe) : trapframe :=
  Trapframe (tf_edi tf) (tf_esi tf) (tf_ebp tf) (tf_oesp tf) (tf_ebx tf) v
    (tf_ecx tf) (tf_eax tf) (tf_gs tf) (tf_fs tf) (tf_es tf) (tf_ds tf)
    (tf_trapno tf) (tf_err tf) (tf_eip tf) (tf_cs tf) (tf_eflags tf) (tf_esp
    tf) (tf_ss tf).
Definition set_tf_ecx (v : Z) (tf : trapframe) : trapframe :=
  Trapframe (tf_edi tf) (tf_esi tf) (tf_ebp tf) (tf_oesp tf) (tf_ebx tf)
    (tf_edx tf) v (tf_eax tf) (tf_gs tf) (tf_fs tf) (tf_es tf) (tf_ds tf)
    (tf_trapno tf) (tf_err tf) (tf_eip tf) (tf_cs tf) (tf_eflags tf) (tf_esp
    tf) (tf_ss tf).
Definition set_tf_eax (v : Z) (tf : trapframe) : trapframe :=
  Trapframe (tf_edi tf) (tf_esi tf) (tf_ebp tf) (tf_oesp tf) (tf_ebx tf)
    (tf_edx tf) (tf_ecx tf) v (tf_gs tf) (tf_fs tf) (tf_es tf) (tf_ds tf)
    (tf_trapno tf) (tf_err tf) (tf_eip tf) (tf_cs tf) (tf_eflags tf) (tf_esp
    tf) (tf_ss tf).
Definition set_tf_gs (v : Z) (tf : trapframe) : trapframe :=
  Trapframe (tf_edi tf) (tf_esi tf) (tf_ebp tf) (tf_oesp tf) (tf_ebx tf)
    (tf_edx tf) (tf_ecx tf) (tf_eax tf) v (tf_fs tf) (tf_es tf) (tf_ds tf)
    (tf_trapno tf) (tf_err tf) (tf_eip tf) (tf_cs tf) (tf_eflags tf) (tf_esp
    tf) (tf_ss tf).
Definition set_tf_fs (v : Z) (tf : trapframe) : trapframe :=
  Trapframe (tf_edi tf) (tf_esi tf) (tf_ebp tf) (tf_oesp tf) (tf_ebx tf)
    (tf_edx tf) (tf_ecx tf) (tf_eax tf) (tf_gs tf) v (tf_es tf) (tf_ds tf)
    (tf_trapno tf) (tf_err tf) (tf_eip tf) (tf_cs tf) (tf_eflags tf) (tf_esp
    tf) (tf_ss tf).
Definition set_tf_es (v : Z) (tf : trapframe) : trapframe :=
  Trapframe (tf_edi tf) (tf_esi tf) (tf_ebp tf) (tf_oesp tf) (tf_ebx tf)
    (tf_edx tf) (tf_ecx tf) (tf_eax tf) (tf_gs tf) (tf_fs tf) v (tf_ds tf)
    (tf_trapno tf) (tf_err tf) (tf_eip tf) (tf_cs tf) (tf_eflags tf) (tf_esp
    tf) (tf_ss tf).
Definition set_tf_ds (v : Z) (tf : trapframe) : trapframe :=
  Trapframe (tf_edi tf) (tf_esi tf) (tf_ebp tf) (tf_oesp tf) (tf_ebx tf)
    (tf_edx tf) (tf_ecx tf) (tf_eax tf) (tf_gs tf) (tf_fs tf) (tf_es tf) v
    (tf_trapno tf) (tf_err tf) (tf_eip tf) (tf_cs tf) (tf_eflags tf) (tf_esp
    tf) (tf_ss tf).
Definition set_tf_trapno (v : Z) (tf : trapframe) : trapframe :=
  Trapframe (tf_edi tf) (tf_esi tf) (tf_ebp tf) (tf_oesp tf) (tf_ebx tf)
    (tf_edx tf) (tf_ecx tf) (tf_eax tf) (tf_gs tf) (tf_fs tf) (tf_es tf)
    (tf_ds tf) v (tf_err tf) (tf_eip tf) (tf_cs tf) (tf_eflags tf) (tf_esp
    tf) (tf_ss tf).
Definition set_tf_err (v : Z) (tf : trapframe) : trapframe :=
  Trapframe (tf_edi tf) (tf_esi tf) (tf_ebp tf) (tf_oesp tf) (tf_ebx tf)
    (tf_edx tf) (tf_ecx tf) (tf_eax tf) (tf_gs tf) (tf_fs tf) (tf_es tf)
    (tf_ds tf) (tf_trapno tf) v (tf_eip tf) (tf_cs tf) (tf_eflags tf) (tf_esp
    tf) (tf_ss tf).
Definition set_tf_eip (v : Z) (tf : trapframe) : trapframe :=
  Trapframe (tf_edi tf) (tf_esi tf) (tf_ebp tf) (tf_oesp tf) (tf_ebx tf)
    (tf_edx tf) (tf_ecx tf) (tf_eax tf) (tf_gs tf) (tf_fs tf) (tf_es tf)
    (tf_ds tf) (tf_trapno tf) (tf_err tf) v (tf_cs tf) (tf_eflags tf) (tf_esp
    tf) (tf_ss tf).
Definition set_tf_cs (v : Z) (tf : trapframe) : trapframe :=
  Trapframe (tf_edi tf) (tf_esi tf) (tf_ebp tf) (tf_oesp tf) (tf_ebx tf)
    (tf_edx tf) (tf_ecx tf) (tf_eax tf) (tf_gs tf) (tf_fs tf) (tf_es tf)
    (tf_ds tf) (tf_trapno tf) (tf_err tf) (tf_eip tf) v (tf_eflags tf)
    (tf_esp tf) (tf_ss tf).
Definition set_tf_eflags (v : Z) (tf : trapframe) : trapframe :=
  Trapframe (tf_edi tf) (tf_esi tf) (tf_ebp tf) (tf_oesp tf) (tf_ebx tf)
    (tf_edx tf) (tf_ecx tf) (tf_eax tf) (tf_gs tf) (tf_fs tf) (tf_es tf)
    (tf_ds tf) (tf_trapno tf) (tf_err tf) (tf_eip tf) (tf_cs tf) v (tf_esp
    tf) (tf_ss tf).
Definition set_tf_esp (v : Z) (tf : trapframe) : trapframe :=
  Trapframe (tf_edi tf) (tf_esi tf) (tf_ebp tf) (tf_oesp tf) (tf_ebx tf)
    (tf_edx tf) (tf_ecx tf) (tf_eax tf) (tf_gs tf) (tf_fs tf) (tf_es tf)
    (tf_ds tf) (tf_trapno tf) (tf_err tf) (tf_eip tf) (tf_cs tf) (tf_eflags
    tf) v (tf_ss tf).
Definition set_tf_ss (v : Z) (tf : trapframe) : trapframe :=
  Trapframe (tf_edi tf) (tf_esi tf) (tf_ebp tf) (tf_oesp tf) (tf_ebx tf)
    (tf_edx tf) (tf_ecx tf) (tf_eax tf) (tf_gs tf) (tf_fs tf) (tf_es tf)
    (tf_ds tf) (tf_trapno tf) (tf_err tf) (tf_eip tf) (tf_cs tf) (tf_eflags
    tf) (tf_esp tf) v.

(** [struct context] (proc.h). *)
Record context := Context {
  cx_edi : Z;
  cx_esi : Z;
  cx_ebx : Z;
  cx_ebp : Z;
  cx_eip : Z
}.

Definition set_cx_edi (v : Z) (cx : context) : context :=
  Context v (cx_esi cx) (cx_ebx cx) (cx_ebp cx) (cx_eip cx).
Definition set_cx_esi (v : Z) (cx : context) : context :=
  Context (cx_edi cx) v (cx_ebx cx) (cx_ebp cx) (cx_eip cx).
Definition set_cx_ebx (v : Z) (cx : context) : context :=
  Context (cx_edi cx) (cx_esi cx) v (cx_ebp cx) (cx_eip cx).
Definition set_cx_ebp (v : Z) (cx : context) : context :=
  Context (cx_edi cx) (cx_esi cx) (cx_ebx cx) v (cx_eip cx).
Definition set_cx_eip (v : Z) (cx : context) : context :=
  Context (cx_edi cx) (cx_esi cx) (cx_ebx cx) (cx_ebp cx) v.

(** [struct proc] (proc.h).  Pointers into the kernel's tables are the index of
    the slot ([None] for a null pointer): [p_parent] into [ptable.proc],
    [p_ofile] into [ftable.file], [p_cwd] into [icache.inode].  [p_pgdir] and
    [p_kstack] are kernel virtual addresses.  [p_tf] and [p_context] are the
    structures the C pointers designate on the process's kernel stack. *)
Record proc := Proc {
  p_sz : Z;
  p_pgdir : Z;
  p_kstack : Z;
  p_state : procstate;
  p_pid : Z;
  p_parent : option nat;
  p_tf : trapframe;
  p_context : context;
  p_chan : option chan;
  p_killed : Z;
  p_ofile : list (option nat);
  p_cwd : option nat;
  p_nice : Z;
  p_tickets : Z;
  p_name : list Z
}.

Definition set_p_sz (v : Z) (p : proc) : proc :=
  Proc v (p_pgdir p) (p_kstack p) (p_state p) (p_pid p) (p_parent p) (p_tf p)
    (p_context p) (p_chan p) (p_killed p) (p_ofile p) (p_cwd p) (p_nice p)
    (p_tickets p) (p_name p).
Definition set_p_pgdir (v : Z) (p : proc) : proc :=
  Proc (p_sz p) v (p_kstack p) (p_state p) (p_pid p) (p_parent p) (p_tf p)
    (p_context p) (p_chan p) (p_killed p) (p_ofile p) (p_cwd p) (p_nice p)
    (p_tickets p) (p_name p).
Definition set_p_kstack (v : Z) (p : proc) : proc :=
  Proc (p_sz p) (p_pgdir p) v (p_state p) (p_pid p) (p_parent p) (p_tf p)
    (p_context p) (p_chan p) (p_killed p) (p_ofile p) (p_cwd p) (p_nice p)
    (p_tickets p) (p_name p).
Definition set_p_state (v : procstate) (p : proc) : proc :=
  Proc (p_sz p) (p_pgdir p) (p_kstack p) v (p_pid p) (p_parent p) (p_tf p)
    (p_context p) (p_chan p) (p_killed p) (p_ofile p) (p_cwd p) (p_nice p)
    (p_tickets p) (p_name p).
Definition set_p_pid (v : Z) (p : proc) : proc :=
  Proc (p_sz p) (p_pgdir p) (p_kstack p) (p_state p) v (p_parent p) (p_tf p)
    (p_context p) (p_chan p) (p_killed p) (p_ofile p) (p_cwd p) (p_nice p)
    (p_tickets p) (p_name p).
Definition set_p_parent (v : option nat) (p : proc) : proc :=
  Proc (p_sz p) (p_pgdir p) (p_kstack p) (p_state p) (p_pid p) v (p_tf p)
    (p_context p) (p_chan p) (p_killed p) (p_ofile p) (p_cwd p) (p_nice p)
    (p_tickets p) (p_name p).
Definition set_p_tf (v : trapframe) (p : proc) : proc :=
  Proc (p_sz p) (p_pgdir p) (p_kstack p) (p_state p) (p_pid p) (p_parent p) v
    (p_context p) (p_chan p) (p_killed p) (p_ofile p) (p_cwd p) (p_nice p)
    (p_tickets p) (p_name p).
Definition set_p_context (v : context) (p : proc) : proc :=
  Proc (p_sz p) (p_pgdir p) (p_kstack p) (p_state p) (p_pid p) (p_parent p)
    (p_tf p) v (p_chan p) (p_killed p) (p_ofile p) (p_cwd p) (p_nice p)
    (p_tickets p) (p_name p).
Definition set_p_chan (v : option chan) (p : proc) : proc :=
  Proc (p_sz p) (p_pgdir p) (p_kstack p) (p_state p) (p_pid p) (p_parent p)
    (p_tf p) (p_context p) v (p_killed p) (p_ofile p) (p_cwd p) (p_nice p)
    (p_tickets p) (p_name p).
Definition set_p_killed (v : Z) (p : proc) : proc :=
  Proc (p_sz p) (p_pgdir p) (p_kstack p) (p_state p) (p_pid p) (p_parent p)
    (p_tf p) (p_context p) (p_chan p) v (p_ofile p) (p_cwd p) (p_nice p)
    (p_tickets p) (p_name p).
Definition set_p_ofile (v : list (option nat)) (p : proc) : proc :=
  Proc (p_sz p) (p_pgdir p) (p_kstack p) (p_state p) (p_pid p) (p_parent p)
    (p_tf p) (p_context p) (p_chan p) (p_killed p) v (p_cwd p) (p_nice p)
    (p_tickets p) (p_name p).
Definition set_p_cwd (v : option nat) (p : proc) : proc :=
  Proc (p_sz p) (p_pgdir p) (p_kstack p) (p_state p) (p_pid p) (p_parent p)
    (p_tf p) (p_context p) (p_chan p) (p_killed p) (p_ofile p) v (p_nice p)
    (p_tickets p) (p_name p).
Definition set_p_nice (v : Z) (p : proc) : proc :=
  Proc (p_sz p) (p_pgdir p) (p_kstack p) (p_state p) (p_pid p) (p_parent p)
    (p_tf p) (p_context p) (p_chan p) (p_killed p) (p_ofile p) (p_cwd p) v
    (p_tickets p) (p_name p).
Definition set_p_tickets (v : Z) (p : proc) : proc :=
  Proc (p_sz p) (p_pgdir p) (p_kstack p) (p_state p) (p_pid p) (p_parent p)
    (p_tf p) (p_context p) (p_chan p) (p_killed p) (p_ofile p) (p_cwd p)
    (p_nice p) v (p_name p).
Definition set_p_name (v : list Z) (p : proc) : proc :=
  Proc (p_sz p) (p_pgdir p) (p_kstack p) (p_state p) (p_pid p) (p_parent p)
    (p_tf p) (p_context p) (p_chan p) (p_killed p) (p_ofile p) (p_cwd p)
    (p_nice p) (p_tickets p) v.

(** The globals of proc.c: [ptable.proc], the per-CPU variable [proc], and the
    scheduler's counters. *)
Record sched_state := Sched {
  procs : list proc;
  curproc : option nat;
  initproc : option nat;
  nextpid : Z;
  totalTickets : Z;
  random_number : Z;
  isLottery : Z
}.

Definition set_procs (v : list proc) (sc : sched_state) : sched_state :=
  Sched v (curproc sc) (initproc sc) (nextpid sc) (totalTickets sc)
    (random_number sc) (isLottery sc).
Definition set_curproc (v : option nat) (sc : sched_state) : sched_state :=
  Sched (procs sc) v (initproc sc) (nextpid sc) (totalTickets sc)
    (random_number sc) (isLottery sc).
Definition set_initproc (v : option nat) (sc : sched_state) : sched_state :=
  Sched (procs sc) (curproc sc) v (nextpid sc) (totalTickets sc)
    (random_number sc) (isLottery sc).
Definition set_nextpid (v : Z) (sc : sched_state) : sched_state :=
  Sched (procs sc) (curproc sc) (initproc sc) v (totalTickets sc)
    (random_number sc) (isLottery sc).
Definition set_totalTickets (v : Z) (sc : sched_state) : sched_state :=
  Sched (procs sc) (curproc sc) (initproc sc) (nextpid sc) v (random_number
    sc) (isLottery sc).
Definition set_random_number (v : Z) (sc : sched_state) : sched_state :=
  Sched (procs sc) (curproc sc) (initproc sc) (nextpid sc) (totalTickets sc)
    v (isLottery sc).
Definition set_isLottery (v : Z) (sc : sched_state) : sched_state :=
  Sched (procs sc) (curproc sc) (initproc sc) (nextpid sc) (totalTickets sc)
    (random_number sc) v.

(** [struct run] (kalloc.c); [next] is the index of a run, [None] for null. *)
Record run := Run {
  ref_count : Z;
  r_next : option nat
}.

Definition set_ref_count (v : Z) (r : run) : run :=
  Run v (r_next r).
Definition set_r_next (v : option nat) (r : run) : run :=
  Run (ref_count r) v.

(** [kmem] (kalloc.c), less its lock. *)
Record kmem_state := Kmem {
  use_lock : Z;
  freelist : option nat;
  runs : list run
}.

Definition set_use_lock (v : Z) (km : kmem_state) : kmem_state :=
  Kmem v (freelist km) (runs km).
Definition set_freelist (v : option nat) (km : kmem_state) : kmem_state :=
  Kmem (use_lock km) v (runs km).
Definition set_runs (v : list run) (km : kmem_state) : kmem_state :=
  Kmem (use_lock km) (freelist km) v.

(** [struct buf] (buf.h).  [b_prev] and [b_next] are buffer numbers; number
    [NBUF] is [bcache.head]. *)
Record buf := Buf {
  b_flags : Z;
  b_dev : Z;
  b_blockno : Z;
  b_prev : nat;
  b_next : nat;
  b_data : list Z
}.

Definition set_b_flags (v : Z) (b : buf) : buf :=
  Buf v (b_dev b) (b_blockno b) (b_prev b) (b_next b) (b_data b).
Definition set_b_dev (v : Z) (b : buf) : buf :=
  Buf (b_flags b) v (b_blockno b) (b_prev b) (b_next b) (b_data b).
Definition set_b_blockno (v : Z) (b : buf) : buf :=
  Buf (b_flags b) (b_dev b) v (b_prev b) (b_next b) (b_data b).
Definition set_b_prev (v : nat) (b : buf) : buf :=
  Buf (b_flags b) (b_dev b) (b_blockno b) v (b_next b) (b_data b).
Definition set_b_next (v : nat) (b : buf) : buf :=
  Buf (b_flags b) (b_dev b) (b_blockno b) (b_prev b) v (b_data b).
Definition set_b_data (v : list Z) (b : buf) : buf :=
  Buf (b_flags b) (b_dev b) (b_blockno b) (b_prev b) (b_next b) v.

(** [struct log] (log.c) less its lock; [l_n] and [l_block] are the in-memory
    header [log.lh]. *)
Record log_state := Log {
  l_start : Z;
  l_size : Z;
  l_outstanding : Z;
  l_committing : Z;
  l_dev : Z;
  l_n : Z;
  l_block : list Z
}.

Definition set_l_start (v : Z) (lg : log_state) : log_state :=
  Log v (l_size lg) (l_outstanding lg) (l_committing lg) (l_dev lg) (l_n lg)
    (l_block lg).
Definition set_l_size (v : Z) (lg : log_state) : log_state :=
  Log (l_start lg) v (l_outstanding lg) (l_committing lg) (l_dev lg) (l_n lg)
    (l_block lg).
Definition set_l_outstanding (v : Z) (lg : log_state) : log_state :=
  Log (l_start lg) (l_size lg) v (l_committing lg) (l_dev lg) (l_n lg)
    (l_block lg).
Definition set_l_committing (v : Z) (lg : log_state) : log_state :=
  Log (l_start lg) (l_size lg) (l_outstanding lg) v (l_dev lg) (l_n lg)
    (l_block lg).
Definition set_l_dev (v : Z) (lg : log_state) : log_state :=
  Log (l_start lg) (l_size lg) (l_outstanding lg) (l_committing lg) v (l_n
    lg) (l_block lg).
Definition set_l_n (v : Z) (lg : log_state) : log_state :=
  Log (l_start lg) (l_size lg) (l_outstanding lg) (l_committing lg) (l_dev
    lg) v (l_block lg).
Definition set_l_block (v : list Z) (lg : log_state) : log_state :=
  Log (l_start lg) (l_size lg) (l_outstanding lg) (l_committing lg) (l_dev
    lg) (l_n lg) v.

(** [struct superblock] (fs.h) of the block-group file system. *)
Record superblock := Superblock {
  sb_size : Z;
  sb_nblocks : Z;
  sb_ninodes : Z;
  sb_nlog : Z;
  sb_logstart : Z;
  sb_bgstart : Z;
  sb_nblockgroups : Z;
  sb_bpbg : Z;
  sb_ipbg : Z
}.

Definition set_sb_size (v : Z) (sb : superblock) : superblock :=
  Superblock v (sb_nblocks sb) (sb_ninodes sb) (sb_nlog sb) (sb_logstart sb)
    (sb_bgstart sb) (sb_nblockgroups sb) (sb_bpbg sb) (sb_ipbg sb).
Definition set_sb_nblocks (v : Z) (sb : superblock) : superblock :=
  Superblock (sb_size sb) v (sb_ninodes sb) (sb_nlog sb) (sb_logstart sb)
    (sb_bgstart sb) (sb_nblockgroups sb) (sb_bpbg sb) (sb_ipbg sb).
Definition set_sb_ninodes (v : Z) (sb : superblock) : superblock :=
  Superblock (sb_size sb) (sb_nblocks sb) v (sb_nlog sb) (sb_logstart sb)
    (sb_bgstart sb) (sb_nblockgroups sb) (sb_bpbg sb) (sb_ipbg sb).
Definition set_sb_nlog (v : Z) (sb : superblock) : superblock :=
  Superblock (sb_size sb) (sb_nblocks sb) (sb_ninodes sb) v (sb_logstart sb)
    (sb_bgstart sb) (sb_nblockgroups sb) (sb_bpbg sb) (sb_ipbg sb).
Definition set_sb_logstart (v : Z) (sb : superblock) : superblock :=
  Superblock (sb_size sb) (sb_nblocks sb) (sb_ninodes sb) (sb_nlog sb) v
    (sb_bgstart sb) (sb_nblockgroups sb) (sb_bpbg sb) (sb_ipbg sb).
Definition set_sb_bgstart (v : Z) (sb : superblock) : superblock :=
  Superblock (sb_size sb) (sb_nblocks sb) (sb_ninodes sb) (sb_nlog sb)
    (sb_logstart sb) v (sb_nblockgroups sb) (sb_bpbg sb) (sb_ipbg sb).
Definition set_sb_nblockgroups (v : Z) (sb : superblock) : superblock :=
  Superblock (sb_size sb) (sb_nblocks sb) (sb_ninodes sb) (sb_nlog sb)
    (sb_logstart sb) (sb_bgstart sb) v (sb_bpbg sb) (sb_ipbg sb).
Definition set_sb_bpbg (v : Z) (sb : superblock) : superblock :=
  Superblock (sb_size sb) (sb_nblocks sb) (sb_ninodes sb) (sb_nlog sb)
    (sb_logstart sb) (sb_bgstart sb) (sb_nblockgroups sb) v (sb_ipbg sb).
Definition set_sb_ipbg (v : Z) (sb : superblock) : superblock :=
  Superblock (sb_size sb) (sb_nblocks sb) (sb_ninodes sb) (sb_nlog sb)
    (sb_logstart sb) (sb_bgstart sb) (sb_nblockgroups sb) (sb_bpbg sb) v.

(** [struct inode] (file.h); the field [bgn] is never read or written by the
    code and is left out. *)
Record inode := Inode {
  i_dev : Z;
  i_inum : Z;
  i_ref : Z;
  i_flags : Z;
  i_type : Z;
  i_major : Z;
  i_minor : Z;
  i_nlink : Z;
  i_size : Z;
  i_addrs : list Z
}.

Definition set_i_dev (v : Z) (ip : inode) : inode :=
  Inode v (i_inum ip) (i_ref ip) (i_flags ip) (i_type ip) (i_major ip)
    (i_minor ip) (i_nlink ip) (i_size ip) (i_addrs ip).
Definition set_i_inum (v : Z) (ip : inode) : inode :=
  Inode (i_dev ip) v (i_ref ip) (i_flags ip) (i_type ip) (i_major ip)
    (i_minor ip) (i_nlink ip) (i_size ip) (i_addrs ip).
Definition set_i_ref (v : Z) (ip : inode) : inode :=
  Inode (i_dev ip) (i_inum ip) v (i_flags ip) (i_type ip) (i_major ip)
    (i_minor ip) (i_nlink ip) (i_size ip) (i_addrs ip).
Definition set_i_flags (v : Z) (ip : inode) : inode :=
  Inode (i_dev ip) (i_inum ip) (i_ref ip) v (i_type ip) (i_major ip) (i_minor
    ip) (i_nlink ip) (i_size ip) (i_addrs ip).
Definition set_i_type (v : Z) (ip : inode) : inode :=
  Inode (i_dev ip) (i_inum ip) (i_ref ip) (i_flags ip) v (i_major ip)
    (i_minor ip) (i_nlink ip) (i_size ip) (i_addrs ip).
Definition set_i_major (v : Z) (ip : inode) : inode :=
  Inode (i_dev ip) (i_inum ip) (i_ref ip) (i_flags ip) (i_type ip) v (i_minor
    ip) (i_nlink ip) (i_size ip) (i_addrs ip).
Definition set_i_minor (v : Z) (ip : inode) : inode :=
  Inode (i_dev ip) (i_inum ip) (i_ref ip) (i_flags ip) (i_type ip) (i_major
    ip) v (i_nlink ip) (i_size ip) (i_addrs ip).
Definition set_i_nlink (v : Z) (ip : inode) : inode :=
  Inode (i_dev ip) (i_inum ip) (i_ref ip) (i_flags ip) (i_type ip) (i_major
    ip) (i_minor ip) v (i_size ip) (i_addrs ip).
Definition set_i_size (v : Z) (ip : inode) : inode :=
  Inode (i_dev ip) (i_inum ip) (i_ref ip) (i_flags ip) (i_type ip) (i_major
    ip) (i_minor ip) (i_nlink ip) v (i_addrs ip).
Definition set_i_addrs (v : list Z) (ip : inode) : inode :=
  Inode (i_dev ip) (i_inum ip) (i_ref ip) (i_flags ip) (i_type ip) (i_major
    ip) (i_minor ip) (i_nlink ip) (i_size ip) v.

(** [struct file] (file.h); [f_pipe] is the address of a [struct pipe]. *)
Record file := File {
  f_type : fdtype;
  f_ref : Z;
  f_readable : Z;
  f_writable : Z;
  f_pipe : Z;
  f_ip : option nat;
  f_off : Z
}.

Definition set_f_type (v : fdtype) (f : file) : file :=
  File v (f_ref f) (f_readable f) (f_writable f) (f_pipe f) (f_ip f) (f_off
    f).
Definition set_f_ref (v : Z) (f : file) : file :=
  File (f_type f) v (f_readable f) (f_writable f) (f_pipe f) (f_ip f) (f_off
    f).
Definition set_f_readable (v : Z) (f : file) : file :=
  File (f_type f) (f_ref f) v (f_writable f) (f_pipe f) (f_ip f) (f_off f).
Definition set_f_writable (v : Z) (f : file) : file :=
  File (f_type f) (f_ref f) (f_readable f) v (f_pipe f) (f_ip f) (f_off f).
Definition set_f_pipe (v : Z) (f : file) : file :=
  File (f_type f) (f_ref f) (f_readable f) (f_writable f) v (f_ip f) (f_off
    f).
Definition set_f_ip (v : option nat) (f : file) : file :=
  File (f_type f) (f_ref f) (f_readable f) (f_writable f) (f_pipe f) v (f_off
    f).
Definition set_f_off (v : Z) (f : file) : file :=
  File (f_type f) (f_ref f) (f_readable f) (f_writable f) (f_pipe f) (f_ip f)
    v.

(** [struct pipe] (pipe.c) less its lock. *)
Record pipe := Pipe {
  pi_data : list Z;
  pi_nread : Z;
  pi_nwrite : Z;
  pi_readopen : Z;
  pi_writeopen : Z
}.

Definition set_pi_data (v : list Z) (pi : pipe) : pipe :=
  Pipe v (pi_nread pi) (pi_nwrite pi) (pi_readopen pi) (pi_writeopen pi).
Definition set_pi_nread (v : Z) (pi : pipe) : pipe :=
  Pipe (pi_data pi) v (pi_nwrite pi) (pi_readopen pi) (pi_writeopen pi).
Definition set_pi_nwrite (v : Z) (pi : pipe) : pipe :=
  Pipe (pi_data pi) (pi_nread pi) v (pi_readopen pi) (pi_writeopen pi).
Definition set_pi_readopen (v : Z) (pi : pipe) : pipe :=
  Pipe (pi_data pi) (pi_nread pi) (pi_nwrite pi) v (pi_writeopen pi).
Definition set_pi_writeopen (v : Z) (pi : pipe) : pipe :=
  Pipe (pi_data pi) (pi_nread pi) (pi_nwrite pi) (pi_readopen pi) v.

(** The console (console.c): the ring of typed characters with its read, write
    and edit indices, the cursor and the memory of the screen, the characters
    sent to the serial line, and the two flags; [cons.lock] is a spinlock. *)
Record console := Console {
  in_buf : list Z;
  in_r : Z;
  in_w : Z;
  in_e : Z;
  crt_pos : Z;
  crt : Z -> Z;
  uart_out : list Z;
  panicked : Z;
  locking : Z
}.

Definition set_in_buf (v : list Z) (c : console) : console :=
  Console v (in_r c) (in_w c) (in_e c) (crt_pos c) (crt c) (uart_out c)
    (panicked c) (locking c).
Definition set_in_r (v : Z) (c : console) : console :=
  Console (in_buf c) v (in_w c) (in_e c) (crt_pos c) (crt c) (uart_out c)
    (panicked c) (locking c).
Definition set_in_w (v : Z) (c : console) : console :=
  Console (in_buf c) (in_r c) v (in_e c) (crt_pos c) (crt c) (uart_out c)
    (panicked c) (locking c).
Definition set_in_e (v : Z) (c : console) : console :=
  Console (in_buf c) (in_r c) (in_w c) v (crt_pos c) (crt c) (uart_out c)
    (panicked c) (locking c).
Definition set_crt_pos (v : Z) (c : console) : console :=
  Console (in_buf c) (in_r c) (in_w c) (in_e c) v (crt c) (uart_out c)
    (panicked c) (locking c).
Definition set_crt (v : Z -> Z) (c : console) : console :=
  Console (in_buf c) (in_r c) (in_w c) (in_e c) (crt_pos c) v (uart_out c)
    (panicked c) (locking c).
Definition set_uart_out (v : list Z) (c : console) : console :=
  Console (in_buf c) (in_r c) (in_w c) (in_e c) (crt_pos c) (crt c) v
    (panicked c) (locking c).
Definition set_panicked (v : Z) (c : console) : console :=
  Console (in_buf c) (in_r c) (in_w c) (in_e c) (crt_pos c) (crt c)
    (uart_out c) v (locking c).
Definition set_locking (v : Z) (c : console) : console :=
  Console (in_buf c) (in_r c) (in_w c) (in_e c) (crt_pos c) (crt c)
    (uart_out c) (panicked c) v.

(** The IDE driver (ide.c): the queue of buffers, the flag of the second disk,
    the command the controller is working on, and the contents of disk 0, the
    disk the machine starts from; the file system is on disk 1. *)
Inductive ide_cmd :=
| Ide_read (disk sector : Z)
| Ide_write (disk sector : Z) (data : list Z).
Record ide_state := Ide {
  idequeue : list nat;
  havedisk1 : Z;
  ide_busy : option ide_cmd;
  boot_disk : Z -> list Z
}.

Definition set_idequeue (v : list nat) (d : ide_state) : ide_state :=
  Ide v (havedisk1 d) (ide_busy d) (boot_disk d).
Definition set_havedisk1 (v : Z) (d : ide_state) : ide_state :=
  Ide (idequeue d) v (ide_busy d) (boot_disk d).
Definition set_ide_busy (v : option ide_cmd) (d : ide_state) : ide_state :=
  Ide (idequeue d) (havedisk1 d) v (boot_disk d).
Definition set_boot_disk (v : Z -> list Z) (d : ide_state) : ide_state :=
  Ide (idequeue d) (havedisk1 d) (ide_busy d) v.

(** The kernel's global state as one CPU sees it: the spinlocks it holds, the
    globals of each file, memory by kernel virtual address, and the disk with
    the block writes it has completed, oldest first. *)
Record kernel := Kernel {
  k_held : gset lock_id;
  k_sched : sched_state;
  k_kmem : kmem_state;
  k_mem : Z -> Z;
  k_disk : Z -> list Z;
  k_writes : list (Z * list Z);
  k_bufs : list buf;
  k_log : log_state;
  k_sb : superblock;
  k_icache : list inode;
  k_ftable : list file;
  k_pipes : gmap Z pipe;
  k_ticks : Z;
  k_cons : console;
  k_ide : ide_state
}.

Definition set_k_held (v : gset lock_id) (k : kernel) : kernel :=
  Kernel v (k_sched k) (k_kmem k) (k_mem k) (k_disk k) (k_writes k) (k_bufs k)
    (k_log k) (k_sb k) (k_icache k) (k_ftable k) (k_pipes k) (k_ticks k)
    (k_cons k) (k_ide k).
Definition set_k_sched (v : sched_state) (k : kernel) : kernel :=
  Kernel (k_held k) v (k_kmem k) (k_mem k) (k_disk k) (k_writes k) (k_bufs k)
    (k_log k) (k_sb k) (k_icache k) (k_ftable k) (k_pipes k) (k_ticks k)
    (k_cons k) (k_ide k).
Definition set_k_kmem (v : kmem_state) (k : kernel) : kernel :=
  Kernel (k_held k) (k_sched k) v (k_mem k) (k_disk k) (k_writes k) (k_bufs k)
    (k_log k) (k_sb k) (k_icache k) (k_ftable k) (k_pipes k) (k_ticks k)
    (k_cons k) (k_ide k).
Definition set_k_mem (v : Z -> Z) (k : kernel) : kernel :=
  Kernel (k_held k) (k_sched k) (k_kmem k) v (k_disk k) (k_writes k)
    (k_bufs k) (k_log k) (k_sb k) (k_icache k) (k_ftable k) (k_pipes k)
    (k_ticks k) (k_cons k) (k_ide k).
Definition set_k_disk (v : Z -> list Z) (k : kernel) : kernel :=
  Kernel (k_held k) (k_sched k) (k_kmem k) (k_mem k) v (k_writes k) (k_bufs k)
    (k_log k) (k_sb k) (k_icache k) (k_ftable k) (k_pipes k) (k_ticks k)
    (k_cons k) (k_ide k).
Definition set_k_writes (v : list (Z * list Z)) (k : kernel) : kernel :=
  Kernel (k_held k) (k_sched k) (k_kmem k) (k_mem k) (k_disk k) v (k_bufs k)
    (k_log k) (k_sb k) (k_icache k) (k_ftable k) (k_pipes k) (k_ticks k)
    (k_cons k) (k_ide k).
Definition set_k_bufs (v : list buf) (k : kernel) : kernel :=
  Kernel (k_held k) (k_sched k) (k_kmem k) (k_mem k) (k_disk k) (k_writes k) v
    (k_log k) (k_sb k) (k_icache k) (k_ftable k) (k_pipes k) (k_ticks k)
    (k_cons k) (k_ide k).
Definition set_k_log (v : log_state) (k : kernel) : kernel :=
  Kernel (k_held k) (k_sched k) (k_kmem k) (k_mem k) (k_disk k) (k_writes k)
    (k_bufs k) v (k_sb k) (k_icache k) (k_ftable k) (k_pipes k) (k_ticks k)
    (k_cons k) (k_ide k).
Definition set_k_sb (v : superblock) (k : kernel) : kernel :=
  Kernel (k_held k) (k_sched k) (k_kmem k) (k_mem k) (k_disk k) (k_writes k)
    (k_bufs k) (k_log k) v (k_icache k) (k_ftable k) (k_pipes k) (k_ticks k)
    (k_cons k) (k_ide k).
Definition set_k_icache (v : list inode) (k : kernel) : kernel :=
  Kernel (k_held k) (k_sched k) (k_kmem k) (k_mem k) (k_disk k) (k_writes k)
    (k_bufs k) (k_log k) (k_sb k) v (k_ftable k) (k_pipes k) (k_ticks k)
    (k_cons k) (k_ide k).
Definition set_k_ftable (v : list file) (k : kernel) : kernel :=
  Kernel (k_held k) (k_sched k) (k_kmem k) (k_mem k) (k_disk k) (k_writes k)
    (k_bufs k) (k_log k) (k_sb k) (k_icache k) v (k_pipes k) (k_ticks k)
    (k_cons k) (k_ide k).
Definition set_k_pipes (v : gmap Z pipe) (k : kernel) : kernel :=
  Kernel (k_held k) (k_sched k) (k_kmem k) (k_mem k) (k_disk k) (k_writes k)
    (k_bufs k) (k_log k) (k_sb k) (k_icache k) (k_ftable k) v (k_ticks k)
    (k_cons k) (k_ide k).
Definition set_k_ticks (v : Z) (k : kernel) : kernel :=
  Kernel (k_held k) (k_sched k) (k_kmem k) (k_mem k) (k_disk k) (k_writes k)
    (k_bufs k) (k_log k) (k_sb k) (k_icache k) (k_ftable k) (k_pipes k) v
    (k_cons k) (k_ide k).
Definition set_k_cons (v : console) (k : kernel) : kernel :=
  Kernel (k_held k) (k_sched k) (k_kmem k) (k_mem k) (k_disk k) (k_writes k)
    (k_bufs k) (k_log k) (k_sb k) (k_icache k) (k_ftable k) (k_pipes k)
    (k_ticks k) v (k_ide k).
Definition set_k_ide (v : ide_state) (k : kernel) : kernel :=
  Kernel (k_held k) (k_sched k) (k_kmem k) (k_mem k) (k_disk k) (k_writes k)
    (k_bufs k) (k_log k) (k_sb k) (k_icache k) (k_ftable k) (k_pipes k)
    (k_ticks k) (k_cons k) v.

(** ** Access to the state *)

Definition upd_sched (f : sched_state -> sched_state) (k : kernel) : kernel :=
  set_k_sched (f (k_sched k)) k.
Definition upd_proc (i : nat) (f : proc -> proc) (k : kernel) : kernel :=
  upd_sched (fun sc => set_procs (alter f i (procs sc)) sc) k.
Definition upd_kmem (f : kmem_state -> kmem_state) (k : kernel) : kernel :=
  set_k_kmem (f (k_kmem k)) k.
Definition upd_buf (i : nat) (f : buf -> buf) (k : kernel) : kernel :=
  set_k_bufs (alter f i (k_bufs k)) k.
Definition upd_log (f : log_state -> log_state) (k : kernel) : kernel :=
  set_k_log (f (k_log k)) k.
Definition upd_inode (i : nat) (f : inode -> inode) (k : kernel) : kernel :=
  set_k_icache (alter f i (k_icache k)) k.
Definition upd_file (i : nat) (f : file -> file) (k : kernel) : kernel :=
  set_k_ftable (alter f i (k_ftable k)) k.
Definition upd_cons (f : console -> console) (k : kernel) : kernel :=
  set_k_cons (f (k_cons k)) k.
Definition upd_ide (f : ide_state -> ide_state) (k : kernel) : kernel :=
  set_k_ide (f (k_ide k)) k.
Definition upd_pipe (a : Z) (f : pipe -> pipe) (k : kernel) : kernel :=
  set_k_pipes (alter f a (k_pipes k)) k.

(** The current process; using [proc] while it is null dereferences address 0. *)
Definition myproc : M kernel nat := fun k =>
  match curproc (k_sched k) with
  | Some i => Done i k
  | None => Faulted "proc is null" k
  end.
Definition read_proc (i : nat) : M kernel proc := fun k =>
  match procs (k_sched k) !! i with
  | Some p => Done p k
  | None => Faulted "no such proc" k
  end.
Definition read_buf (i : nat) : M kernel buf := fun k =>
  match k_bufs k !! i with
  | Some b => Done b k
  | None => Faulted "no such buf" k
  end.
Definition read_inode (i : nat) : M kernel inode := fun k =>
  match k_icache k !! i with
  | Some ip => Done ip k
  | None => Faulted "no such inode" k
  end.
Definition read_file (i : nat) : M kernel file := fun k =>
  match k_ftable k !! i with
  | Some f => Done f k
  | None => Faulted "no such file" k
  end.
Definition read_pipe (a : Z) : M kernel pipe := fun k =>
  match k_pipes k !! a with
  | Some p => Done p k
  | None => Faulted "no such pipe" k
  end.

(** ** Spinlocks, as their clients see them

    [k_held] is the set of locks this CPU holds.  Acquiring a lock the CPU
    already holds and releasing one it does not hold panic; another CPU that
    holds the lock only delays [acquire].  Interrupts are off exactly while
    the set is not empty, and [cpu->ncli] is its size: Spinlock.v proves that
    spinlock.c implements this interface. *)

Definition holding (lk : lock_id) : M kernel bool :=
  gets (fun k => bool_decide (lk ∈ k_held k)).
Definition acquire (lk : lock_id) : M kernel unit :=
  let! h := holding lk in
  if h then panic "acquire"
  else modify (fun k => set_k_held ({[lk]} ∪ k_held k) k).
Definition release (lk : lock_id) : M kernel unit :=
  let! h := holding lk in
  if h then modify (fun k => set_k_held (k_held k ∖ {[lk]}) k)
  else panic "release".

Lemma acquire_free lk k :
  lk ∉ k_held k -> acquire lk k = Done tt (set_k_held ({[lk]} ∪ k_held k) k).
Proof.
  intros H. unfold acquire, holding. rewrite bind_gets.
  by rewrite bool_decide_eq_false_2 by done.
Qed.

Lemma release_held lk k :
  lk ∈ k_held k -> release lk k = Done tt (set_k_held (k_held k ∖ {[lk]}) k).
Proof.
  intros H. unfold release, holding. rewrite bind_gets.
  by rewrite bool_decide_eq_true_2 by done.
Qed.

Lemma bind_acquire {A} lk (f : unit -> M kernel A) k :
  lk ∉ k_held k -> bind (acquire lk) f k = f tt (set_k_held ({[lk]} ∪ k_held k) k).
Proof. intros H. by rewrite (bind_Done _ _ _ _ _ (acquire_free _ _ H)). Qed.

Lemma bind_release {A} lk (f : unit -> M kernel A) k :
  lk ∈ k_held k -> bind (release lk) f k = f tt (set_k_held (k_held k ∖ {[lk]}) k).
Proof. intros H. by rewrite (bind_Done _ _ _ _ _ (release_held _ _ H)). Qed.

Lemma held_release_acquire (lk : lock_id) (h : gset lock_id) :
  lk ∉ h -> ({[lk]} ∪ h) ∖ {[lk]} = h.
Proof. set_solver. Qed.

(** Replacing a field twice, and by itself. *)
Lemma set_k_held_twice a b k : set_k_held a (set_k_held b k) = set_k_held a k.
Proof. done. Qed.
Lemma set_k_held_same k : set_k_held (k_held k) k = k.
Proof. by destruct k. Qed.

(** ** The state before [main] runs: C's zero-initialised globals with the
    initial values proc.c gives *)

Definition zero_tf : trapframe :=
  Trapframe 0 0 0 0 0 0 0 0 0 0 0 0 0 0 0 0 0 0 0.
Definition zero_context : context := Context 0 0 0 0 0.
Definition zero_proc : proc :=
  Proc 0 0 0 UNUSED 0 None zero_tf zero_context None 0 (replicate NOFILE None) None 0 0
    (replicate 16 0).
Definition zero_block : list Z := replicate 512 0.
Definition zero_buf : buf := Buf 0 0 0 0 0 zero_block.
Definition zero_inode : inode := Inode 0 0 0 0 0 0 0 0 0 (replicate 13 0).
Definition zero_file : file := File FD_NONE 0 0 0 0 None 0.

Definition zero_kernel : kernel := {|
  k_held := ∅;
  k_sched := Sched (replicate NPROC zero_proc) None None 1 0 8 1;
  k_kmem := Kmem 0 None (replicate (Z.to_nat (PHYSTOP / PGSIZE)) (Run 0 None));
  k_mem := fun _ => 0;
  k_disk := fun _ => zero_block;
  k_writes := [];
  k_bufs := replicate (S NBUF) zero_buf;
  k_log := Log 0 0 0 0 0 0 (replicate (Z.to_nat LOGSIZE) 0);
  k_sb := Superblock 0 0 0 0 0 0 0 0 0;
  k_icache := replicate NINODE zero_inode;
  k_ftable := replicate NFILE zero_file;
  k_pipes := ∅;
  k_ticks := 0;
  k_cons := Console (replicate 128 0) 0 0 0 0 (fun _ => 0) [] 0 0;
  k_ide := Ide [] 0 None (fun _ => zero_block)
|}.
