(* ===== verification/Spinlock.v ===== *)
(** Spinlock: spinlock.c on a machine with several CPUs.

    [smach] is the state the file works on: one [cpu] per processor, the
    [struct spinlock]s, the array [seeds] that [pushcli] fills, and the words
    of the kernel stacks, which [getcallerpcs] reads.  The operations are
    written for the CPU [me] that executes them.  [step] interleaves the
    atomic actions of [acquire] and [release] of all CPUs. *)

From S2P Require Import Prelude Kernel.

Definition FL_IF : Z := 0x200.

(** The fields of [struct cpu] (proc.h) that spinlock.c uses, with the
    processor's own eflags register. *)
Record cpu := Cpu {
  c_ncli : Z;
  c_intena : Z;
  c_eflags : Z
}.

(** [struct spinlock] (spinlock.h); the name is for debugging only. *)
Record spinlock := Spinlock {
  lk_locked : Z;
  lk_cpu : option nat;
  lk_pcs : list Z
}.

Record smach := Smach {
  m_cpus : list cpu;
  m_locks : gmap lock_id spinlock;
  m_seeds : list Z;
  m_write_pointer : Z;
  m_word : Z -> Z
}.

Definition set_cpus v m := Smach v (m_locks m) (m_seeds m) (m_write_pointer m) (m_word m).
Definition set_locks v m := Smach (m_cpus m) v (m_seeds m) (m_write_pointer m) (m_word m).
Definition set_seeds v w m := Smach (m_cpus m) (m_locks m) v w (m_word m).

(** ** Atomic actions *)

Definition read_cpu (me : nat) : M smach cpu := fun m =>
  match m_cpus m !! me with Some c => Done c m | None => Faulted "no such cpu" m end.
Definition upd_cpu (me : nat) (f : cpu -> cpu) : M smach unit :=
  modify (fun m => set_cpus (alter f me (m_cpus m)) m).
Definition read_lock (lk : lock_id) : M smach spinlock := fun m =>
  match m_locks m !! lk with Some l => Done l m | None => Faulted "no such lock" m end.
Definition upd_lock (lk : lock_id) (f : spinlock -> spinlock) : M smach unit :=
  modify (fun m => set_locks (alter f lk (m_locks m)) m).

(** [lock; xchgl]: store [v], return what was there. *)
Definition xchg (lk : lock_id) (v : Z) : M smach Z :=
  let! l := read_lock lk in
  upd_lock lk (fun l => Spinlock v (lk_cpu l) (lk_pcs l)) ;;;
  ret (lk_locked l).

Definition cli (me : nat) : M smach unit :=
  upd_cpu me (fun c => Cpu (c_ncli c) (c_intena c) (Z.ldiff (c_eflags c) FL_IF)).
Definition sti (me : nat) : M smach unit :=
  upd_cpu me (fun c => Cpu (c_ncli c) (c_intena c) (Z.lor (c_eflags c) FL_IF)).

(** [seeds[i] = v]; an index outside the array writes some other object. *)
Definition store_seed (i v : Z) : M smach unit := fun m =>
  if (0 <=? i) && (i <? 10)
  then Done tt (set_seeds (<[Z.to_nat i := v]> (m_seeds m)) (m_write_pointer m) m)
  else Faulted "seeds: index out of range" m.

(** ** spinlock.c *)

Definition initlock (lk : lock_id) : M smach unit :=
  modify (fun m =>
    let pcs := match m_locks m !! lk with Some l => lk_pcs l | None => [] end in
    set_locks (<[lk := Spinlock 0 None pcs]> (m_locks m)) m).

Definition holding (me : nat) (lk : lock_id) : M smach bool :=
  let! l := read_lock lk in
  ret (negb (lk_locked l =? 0) && bool_decide (lk_cpu l = Some me)).

Definition pushcli (me : nat) : M smach unit :=
  let! c := read_cpu me in
  let eflags := c_eflags c in
  let! w := gets m_write_pointer in
  modify (fun m => set_seeds (m_seeds m) (i32 (w + 1)) m) ;;;
  store_seed (Z.rem w 10) eflags ;;;
  cli me ;;;
  upd_cpu me (fun c =>
    Cpu (i32 (c_ncli c + 1))
        (if c_ncli c =? 0 then Z.land eflags FL_IF else c_intena c) (c_eflags c)).

Definition popcli (me : nat) : M smach unit :=
  let! c := read_cpu me in
  if negb (Z.land (c_eflags c) FL_IF =? 0) then panic "popcli - interruptible"
  else
    upd_cpu me (fun c => Cpu (i32 (c_ncli c - 1)) (c_intena c) (c_eflags c)) ;;;
    let! c := read_cpu me in
    if c_ncli c <? 0 then panic "popcli"
    else when ((c_ncli c =? 0) && negb (c_intena c =? 0)) (sti me).

(** Follow the saved frame pointers upwards, at most [n] frames. *)
Fixpoint callerpcs (word : Z -> Z) (ebp : Z) (n : nat) : list Z :=
  match n with
  | O => []
  | S n' =>
      if (ebp =? 0) || (ebp <? KERNBASE) || (ebp =? 0xffffffff)
      then replicate n 0
      else word (u32 (ebp + 4)) :: callerpcs word (word ebp) n'
  end.

(** [getcallerpcs(v, pcs)]: [v] is the address of the caller's first argument. *)
Definition getcallerpcs (word : Z -> Z) (v : Z) : list Z :=
  callerpcs word (u32 (v - 8)) 10.

Fixpoint spin (fuel : nat) (lk : lock_id) : M smach unit :=
  match fuel with
  | O => exhausted
  | S fuel => let! old := xchg lk 1 in if old =? 0 then ret tt else spin fuel lk
  end.

(** [arg] is the address of the argument [lk] on the stack. *)
Definition acquire (fuel : nat) (arg : Z) (me : nat) (lk : lock_id) : M smach unit :=
  pushcli me ;;;
  let! h := holding me lk in
  if h then panic "acquire"
  else
    spin fuel lk ;;;
    let! word := gets m_word in
    upd_lock lk (fun l => Spinlock (lk_locked l) (Some me) (getcallerpcs word arg)).

Definition release (me : nat) (lk : lock_id) : M smach unit :=
  let! h := holding me lk in
  if negb h then panic "release"
  else
    upd_lock lk (fun l => Spinlock (lk_locked l) None (<[0%nat := 0]> (lk_pcs l))) ;;;
    let! _old := xchg lk 0 in
    popcli me.

(** ** Interrupt nesting *)

(** A CPU in a state [pushcli] and [popcli] can leave it in: interrupts are
    off whenever the nesting depth is positive, and the depth is far from the
    width of [int]. *)
Definition cpu_ok (c : cpu) : Prop :=
  0 <= c_ncli c < 2 ^ 31 - 1 /\ (0 < c_ncli c -> Z.land (c_eflags c) FL_IF = 0).

Definition seeds_ok (m : smach) : Prop :=
  length (m_seeds m) = 10%nat /\ 0 <= m_write_pointer m < 2 ^ 31.

(** The CPU's state once [pushcli] is done. *)
Definition pushed (c : cpu) : cpu :=
  Cpu (c_ncli c + 1)
      (if c_ncli c =? 0 then Z.land (c_eflags c) FL_IF else c_intena c)
      (Z.ldiff (c_eflags c) FL_IF).

Definition seeded (v : Z) (m : smach) : smach :=
  set_seeds (<[Z.to_nat (m_write_pointer m mod 10) := v]> (m_seeds m))
            (i32 (m_write_pointer m + 1)) m.

Lemma land_ldiff_same a b : Z.land (Z.ldiff a b) b = 0.
Proof.
  apply Z.bits_inj_0. intros n.
  rewrite Z.land_spec, Z.ldiff_spec. by destruct (Z.testbit a n), (Z.testbit b n).
Qed.

Lemma ldiff_lor_FL_IF a : Z.land a FL_IF <> 0 -> Z.lor (Z.ldiff a FL_IF) FL_IF = a.
Proof.
  intros H. change FL_IF with (2 ^ 9) in *.
  assert (Z.testbit a 9 = true) as H9.
  { destruct (Z.testbit a 9) eqn:E; [done|]. destruct H.
    apply Z.bits_inj_0. intros n. rewrite Z.land_spec.
    destruct (decide (n = 9)) as [->|Hn]; [by rewrite E|].
    by rewrite Z.pow2_bits_false, andb_false_r by lia. }
  apply Z.bits_inj. intros n. rewrite Z.lor_spec, Z.ldiff_spec.
  destruct (decide (n = 9)) as [->|Hn].
  - by rewrite H9, Z.pow2_bits_true.
  - rewrite Z.pow2_bits_false by lia. by destruct (Z.testbit a n).
Qed.

Lemma ldiff_FL_IF_off a : Z.land a FL_IF = 0 -> Z.ldiff a FL_IF = a.
Proof.
  intros H. apply Z.bits_inj. intros n. rewrite Z.ldiff_spec.
  assert (Z.testbit (Z.land a FL_IF) n = false) as E by by rewrite H, Z.bits_0.
  rewrite Z.land_spec in E. by destruct (Z.testbit a n), (Z.testbit FL_IF n).
Qed.

Lemma pushcli_run me m c :
  m_cpus m !! me = Some c -> cpu_ok c -> seeds_ok m ->
  pushcli me m =
  Done tt (set_cpus (<[me := pushed c]> (m_cpus m)) (seeded (c_eflags c) m)).
Proof.
  intros Hc [Hn _] [Hl Hw]. unfold pushcli.
  rewrite (bind_Done _ _ _ c m) by (unfold read_cpu; by rewrite Hc).
  rewrite bind_gets, bind_modify. unfold bind at 1, store_seed. simpl.
  rewrite Z.rem_mod_nonneg by lia.
  pose proof (Z.mod_pos_bound (m_write_pointer m) 10).
  assert ((0 <=? m_write_pointer m mod 10) && (m_write_pointer m mod 10 <? 10) = true) as ->
    by lia.
  simpl. unfold cli, upd_cpu. rewrite bind_modify. unfold modify.
  unfold set_cpus, seeded, set_seeds; simpl. do 2 f_equal.
  rewrite list_alter_alter_eq, (list_alter_Some _ _ _ _ Hc).
  unfold pushed. simpl. by rewrite i32_small by lia.
Qed.

(** The CPU's state once the matching [popcli] is done. *)
Definition popped (c : cpu) : cpu :=
  Cpu (c_ncli c - 1) (c_intena c)
      (if (c_ncli c =? 1) && negb (c_intena c =? 0)
       then Z.lor (c_eflags c) FL_IF else c_eflags c).

Lemma popcli_run me m c :
  m_cpus m !! me = Some c -> cpu_ok c -> 0 < c_ncli c ->
  popcli me m = Done tt (set_cpus (<[me := popped c]> (m_cpus m)) m).
Proof.
  intros Hc [Hn Hif] Hpos. unfold popcli.
  rewrite (bind_Done _ _ _ c m) by (unfold read_cpu; by rewrite Hc).
  rewrite Hif by done. simpl. unfold upd_cpu. rewrite bind_modify.
  rewrite (list_alter_Some _ _ _ _ Hc). rewrite i32_small by lia.
  set (c1 := Cpu (c_ncli c - 1) (c_intena c) (c_eflags c)).
  set (m1 := set_cpus _ m).
  assert (m_cpus m1 !! me = Some c1) as Hc1.
  { simpl. apply list_lookup_insert_eq. by eapply lookup_lt_Some. }
  rewrite (bind_Done _ _ _ c1 m1) by (unfold read_cpu; by rewrite Hc1).
  simpl. assert (c_ncli c - 1 <? 0 = false) as -> by lia.
  assert ((c_ncli c - 1 =? 0) = (c_ncli c =? 1)) as -> by lia.
  unfold popped, when. case_if.
  - unfold sti, upd_cpu, modify, m1, set_cpus. simpl.
    rewrite (list_alter_Some _ _ _ c1) by done.
    by rewrite list_insert_insert_eq.
  - done.
Qed.

(** Nesting restores the interrupt state: a [popcli] that matches a
    [pushcli] leaves the CPU as it was, whatever the depth, except that an
    outermost pair records the interrupt flag in [intena]. *)
Lemma popped_pushed c :
  cpu_ok c ->
  popped (pushed c) =
  Cpu (c_ncli c) (if c_ncli c =? 0 then Z.land (c_eflags c) FL_IF else c_intena c)
      (c_eflags c).
Proof.
  intros [Hn Hif]. unfold popped, pushed. simpl. f_equal; [lia|].
  destruct (c_ncli c =? 0) eqn:E; b2p.
  - rewrite E. simpl. case_if; b2p.
    + by apply ldiff_lor_FL_IF.
    + by apply ldiff_FL_IF_off.
  - assert ((c_ncli c + 1 =? 1) = false) as -> by lia. simpl.
    apply ldiff_FL_IF_off, Hif. lia.
Qed.

(** ** Spinlock.c implements the lock interface of Kernel.v *)

(** The machine state [m], seen from CPU [me], represents the abstract state
    [k]: the held set is what [holding] computes, the nesting depth is its
    size, interrupts are off while it is not empty, and a free lock names no
    CPU. *)
Record represents (me : nat) (m : smach) (k : kernel) : Prop := {
  rep_held : forall lk, lk ∈ k_held k <->
    exists l, m_locks m !! lk = Some l /\ lk_locked l <> 0 /\ lk_cpu l = Some me;
  rep_cpu : exists c, m_cpus m !! me = Some c /\ cpu_ok c /\
    c_ncli c = Z.of_nat (size (k_held k));
  rep_free : forall lk l, m_locks m !! lk = Some l -> lk_locked l = 0 -> lk_cpu l = None
}.

Lemma xchg_run lk v m l :
  m_locks m !! lk = Some l ->
  xchg lk v m =
  Done (lk_locked l)
       (set_locks (<[lk := Spinlock v (lk_cpu l) (lk_pcs l)]> (m_locks m)) m).
Proof.
  intros Hl. unfold xchg, bind, read_lock. rewrite Hl. simpl.
  by rewrite (gmap_alter_Some _ _ _ _ Hl).
Qed.

Lemma spin_free fuel lk m l :
  m_locks m !! lk = Some l -> lk_locked l = 0 -> (0 < fuel)%nat ->
  spin fuel lk m =
  Done tt (set_locks (<[lk := Spinlock 1 (lk_cpu l) (lk_pcs l)]> (m_locks m)) m).
Proof.
  intros Hl H0 Hf. destruct fuel as [|fuel]; [lia|]. simpl.
  rewrite (bind_Done _ _ _ _ _ (xchg_run lk 1 m l Hl)). by rewrite H0.
Qed.

Lemma spin_held fuel lk m l :
  m_locks m !! lk = Some l -> lk_locked l <> 0 -> spin fuel lk m = Exhausted.
Proof.
  revert m l. induction fuel as [|fuel IH]; intros m l Hl H0; [done|]. simpl.
  rewrite (bind_Done _ _ _ _ _ (xchg_run lk 1 m l Hl)).
  assert (lk_locked l =? 0 = false) as -> by lia.
  eapply IH; simpl; [by rewrite lookup_insert_eq|done].
Qed.

Lemma holding_run me lk m l :
  m_locks m !! lk = Some l ->
  holding me lk m =
  Done (negb (lk_locked l =? 0) && bool_decide (lk_cpu l = Some me)) m.
Proof. intros Hl. unfold holding, bind, read_lock. by rewrite Hl. Qed.

Lemma holding_spec me lk m k l :
  represents me m k -> m_locks m !! lk = Some l ->
  holding me lk m = Done (bool_decide (lk ∈ k_held k)) m.
Proof.
  intros R Hl. rewrite (holding_run _ _ _ _ Hl). f_equal.
  symmetry. case_bool_decide as Hin.
  - apply (rep_held _ _ _ R) in Hin as (l' & ? & H1 & H2). simplify_eq.
    rewrite bool_decide_eq_true_2 by done. lia.
  - destruct (lk_locked l =? 0) eqn:E; [done|]. b2p. simpl.
    symmetry. apply bool_decide_eq_false. intros Hme. apply Hin.
    apply (rep_held _ _ _ R). eauto.
Qed.

Lemma pushed_ok c : cpu_ok c -> c_ncli c < 2 ^ 31 - 2 -> cpu_ok (pushed c).
Proof.
  intros [H1 H2] H3. split; simpl; [lia|]. intros _. apply land_ldiff_same.
Qed.

Lemma popped_ok c : cpu_ok c -> 0 < c_ncli c -> cpu_ok (popped c).
Proof.
  intros [H1 H2] H3. split; simpl; [lia|]. intros H4.
  assert (c_ncli c =? 1 = false) as -> by lia. simpl. by apply H2.
Qed.

Lemma acquire_simulated fuel arg me lk m k l :
  represents me m k -> seeds_ok m -> m_locks m !! lk = Some l ->
  Z.of_nat (size (k_held k)) < 2 ^ 31 - 2 -> (0 < fuel)%nat ->
  match acquire fuel arg me lk m with
  | Done _ m' => exists k', Kernel.acquire lk k = Done tt k' /\ represents me m' k'
  | Panicked msg _ => Kernel.acquire lk k = Panicked msg k
  | Exhausted => lk_locked l <> 0 /\ lk_cpu l <> Some me
  | _ => False
  end.
Proof.
  intros R Hs Hl Hsz Hf.
  destruct (rep_cpu _ _ _ R) as (c & Hc & Hok & Hn).
  unfold acquire. rewrite (bind_Done _ _ _ _ _ (pushcli_run _ _ _ Hc Hok Hs)).
  set (m1 := set_cpus _ _).
  rewrite (bind_Done _ _ _ _ _ (holding_run me lk m1 l Hl)).
  pose proof (holding_spec _ _ _ _ _ R Hl) as Hh.
  rewrite (holding_run _ _ _ _ Hl) in Hh. injection Hh as Hh. rewrite Hh.
  unfold Kernel.acquire, Kernel.holding. rewrite bind_gets.
  clear Hh. case_bool_decide as Hin; [done|].
  destruct (decide (lk_locked l = 0)) as [H0|H0].
  - rewrite (bind_Done _ _ _ _ _ (spin_free fuel lk m1 l Hl H0 Hf)).
    rewrite bind_gets. unfold upd_lock, modify. simpl.
    eexists; split; [done|]. pose proof (rep_free _ _ _ R _ _ Hl H0) as Hnone.
    rewrite (gmap_alter_Some _ _ _ (Spinlock 1 (lk_cpu l) (lk_pcs l)))
      by (by rewrite lookup_insert_eq). simpl. rewrite insert_insert_eq.
    split.
    + intros lk'. simpl. rewrite elem_of_union, elem_of_singleton.
      destruct (decide (lk = lk')) as [<-|Hne].
      * rewrite lookup_insert_eq. split; [|tauto]. intros _.
        eexists; split; [done|]. by simpl.
      * rewrite lookup_insert_ne by done. rewrite (rep_held _ _ _ R). naive_solver.
    + exists (pushed c). simpl. split.
      { apply list_lookup_insert_eq. by eapply lookup_lt_Some. }
      split; [apply pushed_ok; [done|lia]|].
      rewrite size_union by set_solver. rewrite size_singleton. lia.
    + intros lk' l'. simpl. rewrite lookup_insert_Some.
      intros [[<- <-]|[Hne Hl']] H1; [done|]. eapply (rep_free _ _ _ R); eauto.
  - unfold bind at 1. rewrite (spin_held fuel lk m1 l Hl H0). simpl. split; [done|].
    intros Hme. apply Hin, (rep_held _ _ _ R). eauto.
Qed.

Lemma release_simulated me lk m k l :
  represents me m k -> m_locks m !! lk = Some l ->
  match release me lk m with
  | Done _ m' => exists k', Kernel.release lk k = Done tt k' /\ represents me m' k'
  | Panicked msg _ => Kernel.release lk k = Panicked msg k
  | _ => False
  end.
Proof.
  intros R Hl. destruct (rep_cpu _ _ _ R) as (c & Hc & Hok & Hn).
  unfold release. rewrite (bind_Done _ _ _ _ _ (holding_spec _ _ _ _ _ R Hl)).
  unfold Kernel.release, Kernel.holding. rewrite bind_gets.
  case_bool_decide as Hin; simpl; [|done].
  assert (size (k_held k) <> 0)%nat as Hsz.
  { intros H%size_empty_inv. set_solver. }
  unfold upd_lock. rewrite bind_modify. rewrite (gmap_alter_Some _ _ _ _ Hl).
  set (l1 := Spinlock _ None _). set (m1 := set_locks _ m).
  assert (m_locks m1 !! lk = Some l1) as Hl1 by by apply lookup_insert_eq.
  rewrite (bind_Done _ _ _ _ _ (xchg_run lk 0 m1 l1 Hl1)). set (m2 := set_locks _ m1).
  rewrite (popcli_run me m2 c) by (done || lia).
  eexists; split; [done|]. unfold m2, m1, set_locks. simpl. rewrite insert_insert_eq.
  split.
  - intros lk'. simpl. rewrite elem_of_difference, elem_of_singleton.
    destruct (decide (lk = lk')) as [<-|Hne].
    + rewrite lookup_insert_eq. split; [tauto|]. naive_solver.
    + rewrite lookup_insert_ne by done. rewrite (rep_held _ _ _ R). naive_solver.
  - exists (popped c). simpl. split.
    { apply list_lookup_insert_eq. by eapply lookup_lt_Some. }
    split; [apply popped_ok; [done|lia]|].
    rewrite size_difference by set_solver. rewrite size_singleton. lia.
  - intros lk' l'. simpl. rewrite lookup_insert_Some.
    intros [[<- <-]|[Hne Hl']] H1; [done|]. eapply (rep_free _ _ _ R); eauto.
Qed.

(** C22: spinlock.c refines the lock interface the rest of the kernel is
    verified against.  From a machine state that represents an abstract one,
    [acquire] and [release] on an existing lock return exactly when the
    abstract operation does and end in states that again correspond (held
    set, nesting depth, interrupts), they panic with the same message in the
    same cases, and [acquire] spins forever only on a lock that another CPU
    holds. *)
Theorem spinlock_refines_interface fuel arg me lk m k l :
  represents me m k -> seeds_ok m -> m_locks m !! lk = Some l ->
  Z.of_nat (size (k_held k)) < 2 ^ 31 - 2 -> (0 < fuel)%nat ->
  match acquire fuel arg me lk m with
  | Done _ m' => exists k', Kernel.acquire lk k = Done tt k' /\ represents me m' k'
  | Panicked msg _ => Kernel.acquire lk k = Panicked msg k
  | Exhausted => lk_locked l <> 0 /\ lk_cpu l <> Some me
  | _ => False
  end /\
  match release me lk m with
  | Done _ m' => exists k', Kernel.release lk k = Done tt k' /\ represents me m' k'
  | Panicked msg _ => Kernel.release lk k = Panicked msg k
  | _ => False
  end.
Proof.
  intros R Hs Hl Hsz Hf. split.
  - by apply acquire_simulated.
  - by apply (release_simulated _ _ _ _ l).
Qed.

(** [pushcli] and [popcli] nest.  A matched pair returns, leaves the
    nesting depth and the processor's interrupt flag as they were (on if they
    were on, off if they were off, at any depth), and changes no lock. *)
Theorem pushcli_popcli_nest me m c :
  m_cpus m !! me = Some c -> cpu_ok c -> c_ncli c < 2 ^ 31 - 2 -> seeds_ok m ->
  exists m' c', (pushcli me ;;; popcli me) m = Done tt m' /\
    m_cpus m' !! me = Some c' /\ c_ncli c' = c_ncli c /\
    c_eflags c' = c_eflags c /\ m_locks m' = m_locks m.
Proof.
  intros Hc Hok Hn Hs. rewrite (bind_Done _ _ _ _ _ (pushcli_run _ _ _ Hc Hok Hs)).
  pose proof (lookup_lt_Some _ _ _ Hc) as Hlt.
  rewrite (popcli_run _ _ (pushed c)); [| |by apply pushed_ok|].
  - rewrite popped_pushed by done. set (c' := Cpu _ _ _).
    eexists _, c'. split; [done|]. split_and!; [|done..]. simpl.
    apply list_lookup_insert_eq. by rewrite length_insert.
  - simpl. by apply list_lookup_insert_eq.
  - simpl. destruct Hok. lia.
Qed.

(** The entropy pool of [pushcli] overflows.  [write_pointer] is an [int]
    that only grows; once it has reached its largest value, the second
    [pushcli] from there stores outside [seeds]. *)
Theorem pushcli_seeds_overflow me m c :
  m_cpus m !! me = Some c -> cpu_ok c -> length (m_seeds m) = 10%nat ->
  m_write_pointer m = 2 ^ 31 - 1 ->
  exists m', (pushcli me ;;; pushcli me) m =
             Faulted "seeds: index out of range" m'.
Proof.
  intros Hc Hok Hl Hw.
  rewrite (bind_Done _ _ _ _ _ (pushcli_run _ _ _ Hc Hok ltac:(split; lia))).
  set (m1 := set_cpus _ _). pose proof (lookup_lt_Some _ _ _ Hc) as Hlt.
  assert (m_cpus m1 !! me = Some (pushed c)) as Hc1 by by apply list_lookup_insert_eq.
  assert (m_write_pointer m1 = - 2 ^ 31) as Hw1 by (simpl; by rewrite Hw).
  unfold pushcli. rewrite (bind_Done _ _ _ (pushed c) m1) by (unfold read_cpu; by rewrite Hc1).
  rewrite bind_gets, bind_modify, Hw1. simpl. eauto.
Qed.

(** ** Witnesses *)

Definition demo_mach : smach :=
  Smach [Cpu 0 0 FL_IF; Cpu 0 0 FL_IF]
        (<[L_ptable := Spinlock 0 None (replicate 10 0)]> ∅) (replicate 10 0) 0 (fun _ => 0).

Lemma pushcli_popcli_nest_witness :
  exists m' c', (pushcli 0 ;;; popcli 0) demo_mach = Done tt m' /\
    m_cpus m' !! 0%nat = Some c' /\ c_ncli c' = 0 /\ c_eflags c' = FL_IF /\
    m_locks m' = m_locks demo_mach.
Proof.
  apply (pushcli_popcli_nest 0 demo_mach (Cpu 0 0 FL_IF));
    [reflexivity|split; simpl; lia|simpl; lia|split; simpl; lia].
Defined.

Lemma pushcli_seeds_overflow_witness :
  exists m', (pushcli 0 ;;; pushcli 0) (set_seeds (replicate 10 0) (2 ^ 31 - 1) demo_mach) =
             Faulted "seeds: index out of range" m'.
Proof.
  apply (pushcli_seeds_overflow 0 _ (Cpu 0 0 FL_IF));
    [reflexivity|split; simpl; lia|reflexivity|reflexivity].
Defined.

Lemma demo_mach_represents : represents 0 demo_mach zero_kernel.
Proof.
  split.
  - intros lk. simpl. split; [set_solver|]. intros (l & Hl & H1 & H2).
    unfold demo_mach in Hl. simpl in Hl.
    apply lookup_insert_Some in Hl as [[_ <-]|[_ Hl]]; [done|].
    by rewrite lookup_empty in Hl.
  - eexists. split; [reflexivity|]. split; [split; simpl; lia|reflexivity].
  - intros lk l Hl _. unfold demo_mach in Hl. simpl in Hl.
    apply lookup_insert_Some in Hl as [[_ <-]|[_ Hl]]; [done|].
    by rewrite lookup_empty in Hl.
Defined.

Lemma spinlock_refines_interface_witness :
  match acquire 1 0x80100000 0 L_ptable demo_mach with
  | Done _ m' => exists k', Kernel.acquire L_ptable zero_kernel = Done tt k' /\
                            represents 0 m' k'
  | Panicked msg _ => Kernel.acquire L_ptable zero_kernel = Panicked msg zero_kernel
  | Exhausted => 0 <> 0 /\ None <> Some 0%nat
  | _ => False
  end /\
  match release 0 L_ptable demo_mach with
  | Done _ m' => exists k', Kernel.release L_ptable zero_kernel = Done tt k' /\
                            represents 0 m' k'
  | Panicked msg _ => Kernel.release L_ptable zero_kernel = Panicked msg zero_kernel
  | _ => False
  end.
Proof.
  apply (spinlock_refines_interface 1 0x80100000 0 L_ptable demo_mach zero_kernel
           (Spinlock 0 None (replicate 10 0)));
    [apply demo_mach_represents|split; simpl; lia|reflexivity|vm_compute; reflexivity|lia].
Defined.
