(* ===== verification/SpinlockSmp.v ===== *)
(** SpinlockSmp: mutual exclusion of spinlock.c on a multiprocessor.

    Every CPU runs [acquire] and [release] one atomic action at a time; the
    actions of different CPUs interleave freely.  [s_cs] is what the program
    on a CPU knows: the locks whose [acquire] has returned and whose [release]
    has not started. *)

From S2P Require Import Prelude Kernel Spinlock.

(** Where a CPU is inside [acquire] or [release]. *)
Inductive pc :=
| Idle
| Spinning (lk : lock_id)    (* in the [while(xchg(...) != 0)] loop *)
| Owning (lk : lock_id)      (* [xchg] returned 0, [lk->cpu] not yet set *)
| Releasing (lk : lock_id).  (* [lk->cpu] cleared, [xchg] still to come *)

Record smp := Smp {
  s_mach : smach;
  s_pc : list pc;
  s_cs : list (gset lock_id)
}.

Definition cs_at (s : smp) (me : nat) : gset lock_id := default ∅ (s_cs s !! me).

(** One atomic action of CPU [me]. *)
Inductive step (me : nat) : smp -> smp -> Prop :=
| step_enter m pcs cs lk m' :
    pcs !! me = Some Idle ->
    (pushcli me ;;; holding me lk) m = Done false m' ->
    step me (Smp m pcs cs) (Smp m' (<[me := Spinning lk]> pcs) cs)
| step_spin m pcs cs lk old m' :
    pcs !! me = Some (Spinning lk) ->
    xchg lk 1 m = Done old m' -> old <> 0 ->
    step me (Smp m pcs cs) (Smp m' pcs cs)
| step_win m pcs cs lk m' :
    pcs !! me = Some (Spinning lk) ->
    xchg lk 1 m = Done 0 m' ->
    step me (Smp m pcs cs) (Smp m' (<[me := Owning lk]> pcs) cs)
| step_record m pcs cs lk arg m' h :
    pcs !! me = Some (Owning lk) -> cs !! me = Some h ->
    (let! word := gets m_word in
     upd_lock lk (fun l => Spinlock (lk_locked l) (Some me) (getcallerpcs word arg))) m
      = Done tt m' ->
    step me (Smp m pcs cs) (Smp m' (<[me := Idle]> pcs) (<[me := {[lk]} ∪ h]> cs))
| step_clear m pcs cs lk m' h :
    pcs !! me = Some Idle -> cs !! me = Some h ->
    holding me lk m = Done true m ->
    upd_lock lk (fun l => Spinlock (lk_locked l) None (<[0%nat := 0]> (lk_pcs l))) m
      = Done tt m' ->
    step me (Smp m pcs cs) (Smp m' (<[me := Releasing lk]> pcs) (<[me := h ∖ {[lk]}]> cs))
| step_unlock m pcs cs lk m' :
    pcs !! me = Some (Releasing lk) ->
    (let! _old := xchg lk 0 in popcli me) m = Done tt m' ->
    step me (Smp m pcs cs) (Smp m' (<[me := Idle]> pcs) cs).

Inductive reachable (s0 : smp) : smp -> Prop :=
| reach_refl : reachable s0 s0
| reach_step me s s' : reachable s0 s -> step me s s' -> reachable s0 s'.

(** [n] CPUs, every lock free, nobody in a critical section. *)
Definition smp_init (s : smp) : Prop :=
  length (s_pc s) = length (s_cs s) /\
  Forall (eq Idle) (s_pc s) /\ Forall (eq ∅) (s_cs s) /\
  (forall lk l, m_locks (s_mach s) !! lk = Some l -> lk_locked l = 0 /\ lk_cpu l = None).

(** CPU [me] is between its successful [xchg] and the [xchg] that frees [lk]. *)
Definition owns (s : smp) (me : nat) (lk : lock_id) : Prop :=
  s_pc s !! me = Some (Owning lk) \/ s_pc s !! me = Some (Releasing lk) \/
  lk ∈ cs_at s me.

Record smp_inv (s : smp) : Prop := {
  inv_len : length (s_pc s) = length (s_cs s);
  inv_owned : forall me lk, owns s me lk ->
    exists l, m_locks (s_mach s) !! lk = Some l /\ lk_locked l <> 0;
  inv_excl : forall me lk,
    s_pc s !! me = Some (Owning lk) \/ s_pc s !! me = Some (Releasing lk) ->
    lk ∉ cs_at s me;
  inv_unique : forall me1 me2 lk, owns s me1 lk -> owns s me2 lk -> me1 = me2;
  inv_cpu : forall lk l me, m_locks (s_mach s) !! lk = Some l ->
    lk_cpu l = Some me <-> lk ∈ cs_at s me
}.

(** ** What the atomic actions do to the locks *)

Lemma pushcli_locks me m a m' : pushcli me m = Done a m' -> m_locks m' = m_locks m.
Proof.
  unfold pushcli, bind. simpl. unfold read_cpu. destruct (m_cpus m !! me); simpl; [|done].
  unfold store_seed. case_if; simpl; [|done]. by intros [= <- <-].
Qed.

Lemma popcli_locks me m a m' : popcli me m = Done a m' -> m_locks m' = m_locks m.
Proof.
  unfold popcli, bind. simpl. unfold read_cpu. destruct (m_cpus m !! me); simpl; [|done].
  case_if; simpl; [done|]. rewrite list_lookup_alter_eq.
  destruct (m_cpus m !! me); simpl; [|done]. case_if; simpl; [done|].
  unfold when. case_if; by intros [= <- <-].
Qed.

Lemma xchg_locks lk v m old m' :
  xchg lk v m = Done old m' ->
  exists l, m_locks m !! lk = Some l /\ old = lk_locked l /\
    m_locks m' = <[lk := Spinlock v (lk_cpu l) (lk_pcs l)]> (m_locks m).
Proof.
  destruct (m_locks m !! lk) as [l|] eqn:Hl.
  - rewrite (xchg_run _ _ _ _ Hl). intros [= <- <-]. eauto.
  - unfold xchg, bind, read_lock. rewrite Hl. done.
Qed.

Lemma upd_lock_locks lk f m a m' :
  upd_lock lk f m = Done a m' -> m_locks m' = alter f lk (m_locks m).
Proof. by intros [= <- <-]. Qed.

Lemma cs_at_insert_eq m pcs cs me h :
  (me < length cs)%nat -> cs_at (Smp m pcs (<[me := h]> cs)) me = h.
Proof. intros. unfold cs_at. simpl. by rewrite list_lookup_insert_eq. Qed.

Lemma cs_at_insert_ne m pcs cs me me' h :
  me <> me' -> cs_at (Smp m pcs (<[me := h]> cs)) me' = cs_at (Smp m pcs cs) me'.
Proof. intros. unfold cs_at. simpl. by rewrite list_lookup_insert_ne. Qed.

(** The steps that leave the critical sections alone keep the invariant when
    what they own was owned before, the owned locks stay locked and [lk->cpu]
    is untouched. *)
Lemma inv_move s s' :
  smp_inv s ->
  length (s_pc s') = length (s_cs s') ->
  (forall me lk, owns s' me lk -> owns s me lk) ->
  (forall me q, s_pc s' !! me = Some q -> s_pc s !! me = Some q \/
     (forall lk, q <> Owning lk /\ q <> Releasing lk)) ->
  s_cs s' = s_cs s ->
  (forall lk l, m_locks (s_mach s) !! lk = Some l -> lk_locked l <> 0 ->
     (exists me, owns s' me lk) ->
     exists l', m_locks (s_mach s') !! lk = Some l' /\ lk_locked l' <> 0) ->
  (forall lk l', m_locks (s_mach s') !! lk = Some l' ->
     exists l, m_locks (s_mach s) !! lk = Some l /\ lk_cpu l' = lk_cpu l) ->
  smp_inv s'.
Proof.
  intros I Hlen Hown Hpc Hcs Hlk Hcpu.
  assert (forall me, cs_at s' me = cs_at s me) as Hat by (intros; unfold cs_at; by rewrite Hcs).
  split; [done| | | |].
  - intros me lk Ho. destruct (inv_owned _ I _ _ (Hown _ _ Ho)) as (l & Hl & H0). eauto.
  - intros me lk Hq. rewrite Hat. apply (inv_excl _ I). 
    destruct Hq as [Hq|Hq]; destruct (Hpc _ _ Hq) as [?|Hno]; auto;
      destruct (Hno lk); congruence.
  - intros me1 me2 lk H1 H2. eapply (inv_unique _ I); eauto.
  - intros lk l me Hl. destruct (Hcpu _ _ Hl) as (l0 & Hl0 & ->). rewrite Hat.
    by apply (inv_cpu _ I).
Qed.

Lemma owns_pc_insert m m' pcs cs me q me' lk :
  (q <> Owning lk) -> (q <> Releasing lk) ->
  owns (Smp m' (<[me := q]> pcs) cs) me' lk -> owns (Smp m pcs cs) me' lk.
Proof.
  unfold owns, cs_at. simpl. intros H1 H2 [H|[H|H]]; [| |by auto].
  all: apply list_lookup_insert_Some in H as [(-> & Hq & _)|[_ H]]; [congruence|auto].
Qed.

Lemma pc_insert_other (pcs : list pc) (me : nat) (q : pc) (me' : nat) (q' : pc) :
  <[me := q]> pcs !! me' = Some q' ->
  (forall lk, q <> Owning lk /\ q <> Releasing lk) ->
  pcs !! me' = Some q' \/ (forall lk, q' <> Owning lk /\ q' <> Releasing lk).
Proof.
  intros H Hq. apply list_lookup_insert_Some in H as [(_ & <- & _)|[_ H]]; auto.
Qed.

Lemma inv_enter m pcs cs me lk m' :
  smp_inv (Smp m pcs cs) ->
  (pushcli me ;;; holding me lk) m = Done false m' ->
  smp_inv (Smp m' (<[me := Spinning lk]> pcs) cs).
Proof.
  intros I Hrun. assert (m_locks m' = m_locks m) as Hm.
  { unfold bind in Hrun. destruct (pushcli me m) as [[] m1| | | |] eqn:E; try done.
    simpl in Hrun. apply pushcli_locks in E. rewrite <- E.
    unfold holding, bind, read_lock in Hrun.
    destruct (m_locks m1 !! lk); [|done]. simpl in Hrun. by injection Hrun as _ <-. }
  eapply inv_move; [done|..]; simpl; rewrite ?Hm; eauto.
  - rewrite length_insert. apply I.
  - intros me' lk'. by apply owns_pc_insert.
  - intros me' q Hq. by eapply pc_insert_other.
Qed.

Lemma inv_spin m pcs cs lk old m' :
  smp_inv (Smp m pcs cs) -> xchg lk 1 m = Done old m' -> old <> 0 ->
  smp_inv (Smp m' pcs cs).
Proof.
  intros I Hrun Hold. apply xchg_locks in Hrun as (l & Hl & -> & Hm).
  eapply inv_move; [done|..]; simpl; rewrite ?Hm; eauto; [apply I|..].
  - intros lk' l' Hl' H0 _. destruct (decide (lk = lk')) as [<-|Hne].
    + rewrite lookup_insert_eq. by eexists.
    + rewrite lookup_insert_ne by done. eauto.
  - intros lk' l' Hl'. apply lookup_insert_Some in Hl' as [[<- <-]|[_ Hl']]; eauto.
Qed.

Lemma inv_win m pcs cs me lk m' :
  smp_inv (Smp m pcs cs) -> xchg lk 1 m = Done 0 m' ->
  smp_inv (Smp m' (<[me := Owning lk]> pcs) cs).
Proof.
  intros I Hrun. apply xchg_locks in Hrun as (l & Hl & H0 & Hm).
  assert (forall me', ~ owns (Smp m pcs cs) me' lk) as Hfree.
  { intros me' Ho. destruct (inv_owned _ I _ _ Ho) as (l' & Hl' & H1). simpl in *. congruence. }
  assert (forall me' lk', owns (Smp m' (<[me:=Owning lk]> pcs) cs) me' lk' ->
            owns (Smp m pcs cs) me' lk' \/ (me' = me /\ lk' = lk)) as Hown.
  { unfold owns, cs_at. simpl. intros me' lk' [H|[H|H]]; [| |by auto].
    all: apply list_lookup_insert_Some in H as [(<- & Hq & _)|[_ H]]; [|by auto].
    all: by simplify_eq; auto. }
  split; simpl.
  - rewrite length_insert. apply I.
  - intros me' lk' Ho. rewrite Hm. destruct (decide (lk = lk')) as [<-|Hne].
    { rewrite lookup_insert_eq. by eexists. }
    rewrite lookup_insert_ne by done.
    apply Hown in Ho as [Ho|[_ ->]]; [|done]. apply (inv_owned _ I _ _ Ho).
  - intros me' lk' Hq Hin. destruct Hq as [Hq|Hq];
      apply list_lookup_insert_Some in Hq as [(<- & Hq & _)|[_ Hq]]; simplify_eq.
    + destruct (Hfree me). by right; right.
    + apply (inv_excl _ I me' lk'); auto.
    + apply (inv_excl _ I me' lk'); auto.
  - intros me1 me2 lk' H1 H2. apply Hown in H1, H2.
    destruct H1 as [H1|[-> ->]], H2 as [H2|[-> H2]]; subst; try done.
    + by eapply (inv_unique _ I).
    + by destruct (Hfree me1).
    + by destruct (Hfree me2).
  - intros lk' l' me' Hl'. rewrite Hm in Hl'.
    apply lookup_insert_Some in Hl' as [[<- <-]|[_ Hl']].
    + apply (inv_cpu _ I lk l me' Hl).
    + apply (inv_cpu _ I lk' l' me' Hl').
Qed.

(** Entering and leaving a critical section on CPU [me]: the program counter
    and the critical section of [me] change together, [lk->cpu] follows. *)
Lemma inv_section m pcs cs me lk l l' h q h' m' :
  smp_inv (Smp m pcs cs) ->
  owns (Smp m pcs cs) me lk -> cs !! me = Some h -> (me < length pcs)%nat ->
  m_locks m !! lk = Some l -> lk_locked l' = lk_locked l ->
  m_locks m' = <[lk := l']> (m_locks m) ->
  (q = Idle /\ h' = {[lk]} ∪ h /\ lk_cpu l' = Some me) \/
  (q = Releasing lk /\ h' = h ∖ {[lk]} /\ lk_cpu l' = None) ->
  smp_inv (Smp m' (<[me := q]> pcs) (<[me := h']> cs)).
Proof.
  intros I Hme Hh Hpl Hl Hlk Hm Hcase. pose proof (lookup_lt_Some _ _ _ Hh) as Hlt.
  assert (cs_at (Smp m pcs cs) me = h) as Hat by (unfold cs_at; simpl; by rewrite Hh).
  assert (forall me' lk', owns (Smp m' (<[me:=q]> pcs) (<[me:=h']> cs)) me' lk' ->
            owns (Smp m pcs cs) me' lk') as Hown.
  { intros me' lk'. unfold owns at 1. simpl. destruct (decide (me = me')) as [<-|Hne].
    - rewrite cs_at_insert_eq, list_lookup_insert_eq by done.
      destruct (decide (lk = lk')) as [<-|Hnl]; [done|].
      intros [?|[?|H]]; [naive_solver|naive_solver|]. right; right. rewrite Hat. set_solver.
    - rewrite cs_at_insert_ne, list_lookup_insert_ne by done. done. }
  assert (forall me', me' <> me -> lk ∉ cs_at (Smp m pcs cs) me') as Hothers.
  { intros me' Hne Hin. apply Hne. eapply (inv_unique _ I); [|done]. by right; right. }
  split; simpl; rewrite ?Hm.
  - rewrite !length_insert. apply I.
  - intros me' lk' Ho. destruct (inv_owned _ I _ _ (Hown _ _ Ho)) as (l0 & Hl0 & H1).
    simpl in Hl0. destruct (decide (lk = lk')) as [<-|Hne].
    + rewrite lookup_insert_eq. exists l'. simplify_eq. split; [done|congruence].
    + rewrite lookup_insert_ne by done. eauto.
  - intros me' lk' Hq. destruct (decide (me = me')) as [<-|Hne].
    + rewrite cs_at_insert_eq by done. rewrite list_lookup_insert_eq in Hq by done.
      set_solver.
    + rewrite cs_at_insert_ne by done. rewrite list_lookup_insert_ne in Hq by done.
      apply (inv_excl _ I me' lk' Hq).
  - intros me1 me2 lk' H1 H2. eapply (inv_unique _ I); eauto.
  - intros lk' l0 me' Hl0. apply lookup_insert_Some in Hl0 as [[<- <-]|[Hnl Hl0]].
    + destruct (decide (me = me')) as [<-|Hne].
      * rewrite cs_at_insert_eq by done. set_solver.
      * rewrite cs_at_insert_ne by done. specialize (Hothers me' (not_eq_sym Hne)).
        naive_solver.
    + rewrite (inv_cpu _ I _ _ me' Hl0). destruct (decide (me = me')) as [<-|Hne].
      * rewrite cs_at_insert_eq by done. rewrite Hat. set_solver.
      * by rewrite cs_at_insert_ne by done.
Qed.

Lemma inv_unlock m pcs cs me lk m' :
  smp_inv (Smp m pcs cs) -> pcs !! me = Some (Releasing lk) ->
  (let! _old := xchg lk 0 in popcli me) m = Done tt m' ->
  smp_inv (Smp m' (<[me := Idle]> pcs) cs).
Proof.
  intros I Hpc Hrun. unfold bind in Hrun.
  destruct (xchg lk 0 m) as [old m1| | | |] eqn:E; try done.
  simpl in Hrun. apply popcli_locks in Hrun.
  apply xchg_locks in E as (l & Hl & -> & Hm). rewrite Hm in Hrun.
  assert (owns (Smp m pcs cs) me lk) as Hme by by right; left.
  pose proof (lookup_lt_Some _ _ _ Hpc) as Hlt.
  assert (forall me', ~ owns (Smp m' (<[me:=Idle]> pcs) cs) me' lk) as Hgone.
  { intros me' Ho. assert (me' = me) as ->.
    { eapply (inv_unique _ I); [|done]. eapply owns_pc_insert; [..|done]; done. }
    destruct Ho as [H|[H|H]]; simpl in H; try (by rewrite list_lookup_insert_eq in H).
    eapply (inv_excl _ I me lk); [by right|done]. }
  eapply inv_move; [done|..]; simpl; rewrite ?Hrun; eauto.
  - rewrite length_insert. apply I.
  - intros me' lk'. by apply owns_pc_insert.
  - intros me' q Hq. by eapply pc_insert_other.
  - intros lk' l' Hl' H0 [me' Ho]. destruct (decide (lk = lk')) as [<-|Hne].
    + by destruct (Hgone me').
    + rewrite lookup_insert_ne by done. eauto.
  - intros lk' l' Hl'. apply lookup_insert_Some in Hl' as [[<- <-]|[_ Hl']]; eauto.
Qed.

Lemma step_inv me s s' : smp_inv s -> step me s s' -> smp_inv s'.
Proof.
  intros I Hstep. destruct Hstep as [m pcs cs lk m' Hpc Hrun|m pcs cs lk old m' Hpc Hrun Hold
    |m pcs cs lk m' Hpc Hrun|m pcs cs lk arg m' h Hpc Hh Hrun
    |m pcs cs lk m' h Hpc Hh Hhold Hrun|m pcs cs lk m' Hpc Hrun].
  - by eapply inv_enter.
  - by eapply inv_spin.
  - by eapply inv_win.
  - assert (owns (Smp m pcs cs) me lk) as Hme by by left.
    destruct (inv_owned _ I _ _ Hme) as (l & Hl & H0). simpl in Hl.
    rewrite bind_gets in Hrun. apply upd_lock_locks in Hrun.
    rewrite (gmap_alter_Some _ _ _ _ Hl) in Hrun.
    eapply inv_section; [done|done|done| |done| |done|left; eauto]; [|done].
    by eapply lookup_lt_Some.
  - unfold holding, bind, read_lock in Hhold.
    destruct (m_locks m !! lk) as [l|] eqn:Hl; [|done]. simpl in Hhold.
    injection Hhold as Hhold. b2p. apply upd_lock_locks in Hrun.
    rewrite (gmap_alter_Some _ _ _ _ Hl) in Hrun.
    eapply inv_section; [done| |done| |done| |done|right; eauto]; [| |done].
    + right; right. by apply (inv_cpu _ I lk l).
    + by eapply lookup_lt_Some.
  - by eapply inv_unlock.
Qed.

Lemma init_inv s : smp_init s -> smp_inv s.
Proof.
  intros (Hlen & Hpc & Hcs & Hlk).
  assert (forall me, cs_at s me = ∅) as Hat.
  { intros me. unfold cs_at. destruct (s_cs s !! me) as [h|] eqn:E; [|done].
    rewrite Forall_lookup in Hcs. simpl. symmetry. eauto. }
  assert (forall me q, s_pc s !! me = Some q -> q = Idle) as Hidle.
  { intros me q Hq. rewrite Forall_lookup in Hpc. symmetry. eauto. }
  assert (forall me lk, ~ owns s me lk) as Hno.
  { intros me lk [H|[H|H]]; [by apply Hidle in H..|]. rewrite Hat in H. set_solver. }
  split; [done|naive_solver| |naive_solver|].
  - intros me lk _. rewrite Hat. set_solver.
  - intros lk l me Hl. destruct (Hlk _ _ Hl) as [_ ->]. rewrite Hat. set_solver.
Qed.

Lemma reachable_inv s0 s : smp_init s0 -> reachable s0 s -> smp_inv s.
Proof. intros H0. induction 1; eauto using init_inv, step_inv. Qed.


Definition demo_smp : smp := Smp demo_mach [Idle; Idle] [∅; ∅].

Lemma demo_smp_init : smp_init demo_smp.
Proof.
  split_and!; simpl; [done|repeat constructor|repeat constructor|].
  intros lk l Hl. unfold demo_mach in Hl. simpl in Hl.
  apply lookup_insert_Some in Hl as [[_ <-]|[_ Hl]]; [done|]. by rewrite lookup_empty in Hl.
Defined.

(** CPU 0 acquires the process table's lock, one action at a time. *)
Definition after {A} (c : M smach A) (m : smach) : smach :=
  match c m with Done _ m' => m' | _ => m end.
Definition demo_m1 : smach := after (pushcli 0 ;;; holding 0 L_ptable) demo_mach.
Definition demo_m2 : smach := after (xchg L_ptable 1) demo_m1.
Definition demo_m3 : smach :=
  after (let! word := gets m_word in
         upd_lock L_ptable (fun l =>
           Spinlock (lk_locked l) (Some 0%nat) (getcallerpcs word 0x80100000))) demo_m2.
Definition demo_smp1 : smp :=
  Smp demo_m3 (<[0%nat := Idle]> (<[0%nat := Owning L_ptable]>
                (<[0%nat := Spinning L_ptable]> [Idle; Idle])))
              (<[0%nat := {[L_ptable]} ∪ ∅]> [∅; ∅]).

Lemma demo_smp_reachable : reachable demo_smp demo_smp1.
Proof.
  eapply (reach_step _ 0); [eapply (reach_step _ 0); [eapply (reach_step _ 0)|]|].
  - apply reach_refl.
  - apply (step_enter 0 demo_mach _ _ L_ptable demo_m1); reflexivity.
  - apply (step_win 0 demo_m1 _ _ L_ptable demo_m2); reflexivity.
  - apply (step_record 0 demo_m2 _ _ L_ptable 0x80100000 demo_m3); reflexivity.
Defined.

