(* ===== verification/StringLib.v ===== *)
(** StringLib: string.c, the kernel's memory and string routines.

    Memory is a function from addresses to bytes.  Routines that only read
    take the objects they read as functions from the offset to the byte, so
    that the same definition serves memory ([from m p]) and the byte arrays
    inside structures ([of_list l]).  [strncpy] and [safestrcpy] give the
    bytes the C loop stores from [s] on; every caller passes a source and a
    destination that do not overlap.  [memmove] is modelled on one memory,
    since its callers rely on its treatment of overlapping ranges. *)

From S2P Require Import Prelude.

(** ** Memory *)

Definition upd (a v : Z) (m : Z -> Z) : Z -> Z := fun x => if x =? a then v else m x.
Definition from (m : Z -> Z) (p : Z) : Z -> Z := fun i => m (p + i).
Definition of_list (l : list Z) : Z -> Z := fun i => if i <? 0 then 0 else default 0 (l !! Z.to_nat i).

(** Store consecutive bytes. *)
Fixpoint store (p : Z) (l : list Z) (m : Z -> Z) : Z -> Z :=
  match l with
  | [] => m
  | b :: l => store (p + 1) l (upd p b m)
  end.

(** Load [n] consecutive bytes. *)
Definition load (m : Z -> Z) (p : Z) (n : nat) : list Z :=
  map (fun i => m (p + Z.of_nat i)) (seq 0 n).

(** The bytes of a 32-bit word, least significant first. *)
Definition word_bytes (w : Z) : list Z :=
  [u8 w; u8 (Z.shiftr w 8); u8 (Z.shiftr w 16); u8 (Z.shiftr w 24)].

(** The string instructions of x86.h. *)
Fixpoint stosb (dst data : Z) (cnt : nat) (m : Z -> Z) : Z -> Z :=
  match cnt with
  | O => m
  | S n => stosb (dst + 1) data n (upd dst (u8 data) m)
  end.
Fixpoint stosl (dst data : Z) (cnt : nat) (m : Z -> Z) : Z -> Z :=
  match cnt with
  | O => m
  | S n => stosl (dst + 4) data n (store dst (word_bytes data) m)
  end.

(** ** string.c *)

Definition memset (dst c n : Z) (m : Z -> Z) : Z -> Z :=
  if (Z.rem (i32 dst) 4 =? 0) && (n mod 4 =? 0) then
    let c := Z.land c 0xFF in
    stosl dst (Z.lor (Z.lor (Z.lor (Z.shiftl c 24) (Z.shiftl c 16)) (Z.shiftl c 8)) c)
      (Z.to_nat (n / 4)) m
  else stosb dst c (Z.to_nat n) m.

Fixpoint memcmp (s1 s2 : Z -> Z) (n : nat) : Z :=
  match n with
  | O => 0
  | S n =>
      if s1 0 =? s2 0 then memcmp (from s1 1) (from s2 1) n else s1 0 - s2 0
  end.

Fixpoint copy_up (d s : Z) (n : nat) (m : Z -> Z) : Z -> Z :=
  match n with
  | O => m
  | S n => copy_up (d + 1) (s + 1) n (upd d (m s) m)
  end.
Fixpoint copy_down (d s : Z) (n : nat) (m : Z -> Z) : Z -> Z :=
  match n with
  | O => m
  | S n => copy_down (d - 1) (s - 1) n (upd (d - 1) (m (s - 1)) m)
  end.
Definition memmove (dst src n : Z) (m : Z -> Z) : Z -> Z :=
  if (src <? dst) && (dst <? src + n)
  then copy_down (dst + n) (src + n) (Z.to_nat n) m
  else copy_up dst src (Z.to_nat n) m.
Definition memcpy (dst src n : Z) (m : Z -> Z) : Z -> Z := memmove dst src n m.

Fixpoint strncmp (p q : Z -> Z) (n : nat) : Z :=
  match n with
  | O => 0
  | S n' =>
      if negb (p 0 =? 0) && (p 0 =? q 0) then strncmp (from p 1) (from q 1) n'
      else u8 (p 0) - u8 (q 0)
  end.

(** The bytes stored from [s] on.  The first loop's [n--] is evaluated before
    the copy, so a NUL copied with [n] bytes left is followed by [n] zeros. *)
Fixpoint strncpy (t : Z -> Z) (n : nat) : list Z :=
  match n with
  | O => []
  | S n => if t 0 =? 0 then 0 :: replicate n 0 else t 0 :: strncpy (from t 1) n
  end.

(** [safestrcpy]'s loop with [--n] bytes left, then the final [*s = 0], which
    falls on the byte after the NUL when a NUL was copied. *)
Fixpoint safestrcpy_loop (t : Z -> Z) (n : nat) : list Z :=
  match n with
  | O => [0]
  | S n => if t 0 =? 0 then [0; 0] else t 0 :: safestrcpy_loop (from t 1) n
  end.
Definition safestrcpy (t : Z -> Z) (n : Z) : list Z :=
  if n <=? 0 then [] else safestrcpy_loop t (Z.to_nat (n - 1)).

(** The position of the NUL; [None] when it is not within [fuel] bytes. *)
Fixpoint strlen (fuel : nat) (s : Z -> Z) : option Z :=
  match fuel with
  | O => None
  | S f => if s 0 =? 0 then Some 0 else Z.succ <$> strlen f (from s 1)
  end.

(** ** Memory lemmas *)

Lemma upd_eq a v m : upd a v m a = v.
Proof. unfold upd. by rewrite Z.eqb_refl. Qed.
Lemma upd_ne a v m x : x <> a -> upd a v m x = m x.
Proof. unfold upd. intros. by destruct (Z.eqb_spec x a). Qed.

Lemma store_spec p l m x :
  store p l m x = if (p <=? x) && (x <? p + Z.of_nat (length l))
                  then default 0 (l !! Z.to_nat (x - p)) else m x.
Proof.
  revert p m. induction l as [|b l IH]; intros p m; simpl.
  { case_cmp; try done; lia. }
  rewrite IH. destruct (Z.eq_dec x p) as [->|Hne].
  - replace (p + 1 <=? p) with false by (symmetry; apply Z.leb_gt; lia). simpl.
    rewrite upd_eq, Z.leb_refl, Z.sub_diag. simpl. case_if; [done|b2p; lia].
  - rewrite upd_ne by done.
    replace (p + 1 <=? x) with (p <=? x) by (destruct (Z.leb_spec p x), (Z.leb_spec (p+1) x); lia).
    replace (p + 1 + Z.of_nat (length l)) with (p + Z.of_nat (S (length l))) by lia.
    case_if; [|done]. b2p.
    replace (Z.to_nat (x - p)) with (S (Z.to_nat (x - (p + 1)))) by lia. done.
Qed.

Lemma stosb_spec dst d n m x :
  stosb dst d n m x = if (dst <=? x) && (x <? dst + Z.of_nat n) then u8 d else m x.
Proof.
  revert dst m. induction n as [|n IH]; intros dst m; simpl.
  { case_cmp; try done; lia. }
  rewrite IH. unfold upd.
  destruct (Z.leb_spec (dst+1) x), (Z.ltb_spec x (dst+1+Z.of_nat n)),
    (Z.leb_spec dst x), (Z.ltb_spec x (dst+Z.of_nat (S n))), (Z.eqb_spec x dst); simpl; try done; lia.
Qed.

Lemma word_of_byte_bytes c :
  0 <= c < 256 ->
  word_bytes (Z.lor (Z.lor (Z.lor (Z.shiftl c 24) (Z.shiftl c 16)) (Z.shiftl c 8)) c)
  = [c; c; c; c].
Proof.
  intros Hc.
  assert (forallb (fun i => bool_decide (let c := Z.of_nat i in
    word_bytes (Z.lor (Z.lor (Z.lor (Z.shiftl c 24) (Z.shiftl c 16)) (Z.shiftl c 8)) c)
    = [c; c; c; c])) (seq 0 256) = true) as H by (vm_compute; reflexivity).
  rewrite forallb_forall in H. specialize (H (Z.to_nat c)).
  rewrite in_seq in H. specialize (H ltac:(lia)). apply bool_decide_eq_true in H.
  by rewrite Z2Nat.id in H by lia.
Qed.

Lemma stosl_spec dst w c n m x :
  word_bytes w = [c; c; c; c] ->
  stosl dst w n m x = if (dst <=? x) && (x <? dst + 4 * Z.of_nat n) then c else m x.
Proof.
  intros Hw. revert dst m. induction n as [|n IH]; intros dst m; cbn [stosl].
  { case_cmp; try done; lia. }
  rewrite IH, Hw, store_spec. simpl length.
  destruct (Z.leb_spec dst x), (Z.ltb_spec x (dst + 4 * Z.of_nat (S n))),
    (Z.leb_spec (dst+4) x), (Z.ltb_spec x (dst+4+4 * Z.of_nat n)),
    (Z.ltb_spec x (dst + Z.of_nat 4)); simpl; try done; try lia.
  assert (x - dst = 0 \/ x - dst = 1 \/ x - dst = 2 \/ x - dst = 3) as [->|[->|[->| ->]]] by lia;
    done.
Qed.

Lemma memset_spec dst c n m x :
  0 <= n ->
  memset dst c n m x = if (dst <=? x) && (x <? dst + n) then u8 c else m x.
Proof.
  intros Hn. unfold memset. case_if.
  - apply andb_prop in E as [_ E]. b2p.
    assert (0 <= Z.land c 255 < 256) as Hc.
    { change 255 with (Z.ones 8). rewrite Z.land_ones by lia. apply Z.mod_pos_bound. lia. }
    rewrite (stosl_spec _ _ (Z.land c 255)) by by apply word_of_byte_bytes.
    rewrite Z2Nat.id by (apply Z.div_pos; lia).
    replace (4 * (n / 4)) with n by (pose proof (Z.div_mod n 4); lia).
    change 255 with (Z.ones 8). by rewrite Z.land_ones by lia.
  - rewrite stosb_spec. by rewrite Z2Nat.id by lia.
Qed.

Lemma copy_up_spec d s n m x :
  (d <= s \/ s + Z.of_nat n <= d) ->
  copy_up d s n m x = if (d <=? x) && (x <? d + Z.of_nat n) then m (s + (x - d)) else m x.
Proof.
  revert d s m. induction n as [|n IH]; intros d s m Hd; cbn [copy_up].
  { case_cmp; try done; lia. }
  rewrite IH by lia.
  destruct (Z.leb_spec (d+1) x), (Z.ltb_spec x (d+1+Z.of_nat n)),
    (Z.leb_spec d x), (Z.ltb_spec x (d+Z.of_nat (S n))); simpl; try lia;
    try (by rewrite upd_ne by lia).
  - rewrite upd_ne by lia. f_equal. lia.
  - replace x with d by lia. rewrite upd_eq. f_equal. lia.
Qed.

Lemma copy_down_spec d s n m x :
  s <= d ->
  copy_down d s n m x = if (d - Z.of_nat n <=? x) && (x <? d) then m (s + (x - d)) else m x.
Proof.
  revert d s m. induction n as [|n IH]; intros d s m Hd; cbn [copy_down].
  { case_cmp; try done; lia. }
  rewrite IH by lia.
  destruct (Z.leb_spec (d-1-Z.of_nat n) x), (Z.ltb_spec x (d-1)),
    (Z.leb_spec (d-Z.of_nat (S n)) x), (Z.ltb_spec x d); simpl; try lia;
    try (by rewrite upd_ne by lia).
  - rewrite upd_ne by lia. f_equal. lia.
  - replace x with (d-1) by lia. rewrite upd_eq. f_equal. lia.
Qed.

(** [memmove] of string.c is correct for every pair of ranges, overlapping
    or not: the destination holds the bytes the source held before the call,
    and nothing else changes. *)
Theorem memmove_overlap_safe dst src n m x :
  0 <= n ->
  memmove dst src n m x = if (dst <=? x) && (x <? dst + n) then m (src + (x - dst)) else m x.
Proof.
  intros Hn. unfold memmove. case_if; b2p.
  - rewrite copy_down_spec by lia. rewrite Z2Nat.id by lia.
    replace (dst + n - n) with dst by lia. case_if; [|done]. f_equal. lia.
  - rewrite copy_up_spec.
    + by rewrite Z2Nat.id by lia.
    + apply andb_false_iff in E. destruct E; b2p; lia.
Qed.

Lemma memmove_overlap_safe_witness :
  0 <= 4 /\ memmove 2 0 4 (fun a => a) 5 = if (2 <=? 5) && (5 <? 2 + 4) then 0 + (5 - 2) else 5.
Proof. split; [lia|]. apply (memmove_overlap_safe 2 0 4 (fun a => a) 5). lia. Defined.

(** ** Strings *)

(** No NUL among the first [i] bytes. *)
Definition nonul (t : Z -> Z) (i : Z) : Prop := forall j, 0 <= j < i -> t j <> 0.

Lemma nonul_from t i : 0 <= i -> nonul t (i + 1) <-> t 0 <> 0 /\ nonul (from t 1) i.
Proof.
  intros Hi. unfold nonul, from. split.
  - intros H. split; [apply H; lia|]. intros j Hj. apply H. lia.
  - intros [H0 H] j Hj. destruct (Z.eq_dec j 0) as [->|Hne]; [done|].
    replace j with (1 + (j - 1)) by lia. apply H. lia.
Qed.

Lemma u8_byte x : 0 <= x < 256 -> u8 x = x.
Proof. apply u8_small. Qed.

(** [strncmp] finds no difference exactly when the strings agree up to the
    first NUL or for [n] bytes. *)
Lemma strncmp_zero p q n :
  (forall i, 0 <= p i < 256) -> (forall i, 0 <= q i < 256) ->
  strncmp p q n = 0 <-> forall i, 0 <= i < Z.of_nat n -> nonul p i -> p i = q i.
Proof.
  revert p q. induction n as [|n IH]; intros p q Hp Hq; cbn [strncmp].
  { split; [intros _ i Hi; lia|done]. }
  case_if; b2p.
  - rewrite IH by (intros i; unfold from; auto). unfold from. split.
    + intros Hr i Hi Hn. destruct (Z.eq_dec i 0) as [->|Hne]; [done|].
      replace i with (1 + (i - 1)) by lia. apply Hr; [lia|].
      intros j Hj. apply Hn. lia.
    + intros Hr i Hi Hn. apply Hr; [lia|]. replace (1 + i) with (i + 1) by lia.
      apply nonul_from; [lia|]. done.
  - rewrite !u8_byte by done. split.
    + intros Heq i Hi Hn. destruct (Z.eq_dec i 0) as [->|Hne]; [lia|].
      specialize (Hn 0 ltac:(lia)). apply andb_false_iff in E. destruct E; b2p; lia.
    + intros H. rewrite (H 0); [lia|lia|]. intros j Hj. lia.
Qed.

Lemma strncpy_length t n : length (strncpy t n) = n.
Proof.
  revert t. induction n as [|n IH]; intros t; simpl; [done|].
  case_if; simpl; [by rewrite length_replicate|by rewrite IH].
Qed.

Lemma of_list_cons b l i : 0 <= i -> of_list (b :: l) (1 + i) = of_list l i.
Proof.
  intros. unfold of_list. case_cmp; [lia..|].
  by replace (Z.to_nat (1 + i)) with (S (Z.to_nat i)) by lia.
Qed.

Lemma strncpy_prefix t n i :
  0 <= i < Z.of_nat n -> nonul t i -> of_list (strncpy t n) i = t i.
Proof.
  revert t i. induction n as [|n IH]; intros t i Hi Hn; [lia|]. cbn [strncpy].
  destruct (Z.eq_dec i 0) as [->|Hne]; [case_if; [b2p; by rewrite E|done]|].
  replace i with (1 + (i - 1)) by lia.
  case_if; [b2p; by destruct (Hn 0); [lia|]|]. rewrite of_list_cons by lia.
  rewrite IH; [by unfold from|lia|].
  intros j Hj. unfold from. apply Hn. lia.
Qed.

(** After the copied NUL, only zeros follow. *)
Lemma strncpy_padding t n i k :
  0 <= k < i -> i < Z.of_nat n -> t k = 0 -> of_list (strncpy t n) i = 0.
Proof.
  revert t i k. induction n as [|n IH]; intros t i k Hk Hi H0; [lia|]. cbn [strncpy].
  replace i with (1 + (i - 1)) by lia. case_if; rewrite of_list_cons by lia.
  - unfold of_list. case_cmp; [done|]. by rewrite lookup_replicate_2 by lia.
  - apply (IH _ _ (k - 1)); [|lia|].
    + destruct (Z.eq_dec k 0) as [->|]; [|lia]. b2p. done.
    + unfold from. by replace (1 + (k - 1)) with k by lia.
Qed.

Lemma of_list_byte l : Forall (fun b => 0 <= b < 256) l -> forall i, 0 <= of_list l i < 256.
Proof.
  intros H i. unfold of_list. case_if; [lia|].
  destruct (l !! Z.to_nat i) eqn:Hl; simpl; [|lia]. rewrite Forall_lookup in H. eauto.
Qed.

Lemma strncpy_bytes t n :
  (forall i, 0 <= t i < 256) -> Forall (fun b => 0 <= b < 256) (strncpy t n).
Proof.
  revert t. induction n as [|n IH]; intros t Ht; simpl; [done|].
  case_if; constructor; [lia| |done|].
  - apply Forall_replicate. lia.
  - apply IH. intros i. apply Ht.
Qed.

(** Round trip of a name through a fixed-size field: comparing the stored
    field with the name finds no difference. *)
Lemma strncmp_strncpy t n :
  (forall i, 0 <= t i < 256) -> strncmp t (of_list (strncpy t n)) n = 0.
Proof.
  intros Ht. apply strncmp_zero; [done|by apply of_list_byte, strncpy_bytes|].
  intros i Hi Hn. symmetry. by apply strncpy_prefix.
Qed.

Lemma safestrcpy_loop_spec t n :
  let l := safestrcpy_loop t n in
  (length l <= S n)%nat /\
  exists k, (k < length l)%nat /\ (k <= n)%nat /\ l !! k = Some 0 /\
    (forall i, (i < k)%nat -> l !! i = Some (t (Z.of_nat i)) /\ t (Z.of_nat i) <> 0) /\
    (t (Z.of_nat k) = 0 \/ k = n).
Proof.
  revert t. induction n as [|n IH]; intros t; cbn [safestrcpy_loop].
  { simpl. split; [lia|]. exists O. split_and!; [lia|lia|done|intros; lia|auto]. }
  case_if; b2p; simpl.
  - split; [lia|]. exists O. split_and!; [lia|lia|done|intros; lia|auto].
  - destruct (IH (from t 1)) as (Hlen & k & Hk & Hkn & H0 & Hpre & Hend).
    split; [lia|]. exists (S k). split_and!; [lia|lia|done| |].
    + intros [|i] Hi; [done|]. specialize (Hpre i ltac:(lia)). unfold from in Hpre.
      by replace (Z.of_nat (S i)) with (1 + Z.of_nat i) by lia.
    + unfold from in Hend. replace (1 + Z.of_nat k) with (Z.of_nat (S k)) in Hend by lia.
      destruct Hend as [?| ->]; auto.
Qed.

(** [safestrcpy] stays within its [n] bytes and always leaves a
    NUL-terminated string: the longest prefix of [t] that fits. *)
Theorem safestrcpy_terminates t n :
  0 < n ->
  let l := safestrcpy t n in
  Z.of_nat (length l) <= n /\
  exists k, Z.of_nat k < n /\ l !! k = Some 0 /\
    (forall i, (i < k)%nat -> l !! i = Some (t (Z.of_nat i)) /\ t (Z.of_nat i) <> 0) /\
    (t (Z.of_nat k) = 0 \/ Z.of_nat k = n - 1).
Proof.
  intros Hn. unfold safestrcpy. replace (n <=? 0) with false by (symmetry; apply Z.leb_gt; lia).
  destruct (safestrcpy_loop_spec t (Z.to_nat (n - 1))) as (Hlen & k & Hk & Hkn & H0 & Hpre & Hend).
  cbv zeta. split; [lia|]. exists k. split_and!; try done; [lia|].
  destruct Hend; [auto|right; lia].
Qed.

Lemma safestrcpy_terminates_witness :
  exists k, Z.of_nat k < 3 /\ safestrcpy (of_list [105; 110; 105; 116; 0]) 3 !! k = Some 0.
Proof.
  destruct (safestrcpy_terminates (of_list [105; 110; 105; 116; 0]) 3) as (_ & k & Hk & H0 & _);
    [lia|]. exists k. split; [exact Hk|exact H0].
Defined.
