(* ===== verification/Ulib.v ===== *)
(** Ulib: the string routines of ulib.c, the library user programs are linked
    with.  Strings are readers from an offset to a byte, memory is a function
    from addresses to bytes, as in StringLib.v. *)

From S2P Require Import Prelude StringLib.

(** The bytes stored by [strcpy], the NUL included. *)
Fixpoint strcpy (fuel : nat) (t : Z -> Z) : option (list Z) :=
  match fuel with
  | O => None
  | S f => if t 0 =? 0 then Some [0] else cons (t 0) <$> strcpy f (from t 1)
  end.

Fixpoint strcmp (fuel : nat) (p q : Z -> Z) : option Z :=
  match fuel with
  | O => None
  | S f =>
      if negb (p 0 =? 0) && (p 0 =? q 0) then strcmp f (from p 1) (from q 1)
      else Some (u8 (p 0) - u8 (q 0))
  end.

Fixpoint strlen (fuel : nat) (s : Z -> Z) : option Z :=
  match fuel with
  | O => None
  | S f => if s 0 =? 0 then Some 0 else Z.succ <$> strlen f (from s 1)
  end.

Definition memset (dst c n : Z) (m : Z -> Z) : Z -> Z := stosb dst c (Z.to_nat n) m.

(** The offset of the first [c]; [Some None] is the null pointer. *)
Fixpoint strchr (fuel : nat) (s : Z -> Z) (c : Z) : option (option Z) :=
  match fuel with
  | O => None
  | S f =>
      if s 0 =? 0 then Some None
      else if s 0 =? c then Some (Some 0)
      else option_map (option_map Z.succ) (strchr f (from s 1) c)
  end.

(** The accumulator is an [int]; [*s] is a [char]. *)
Fixpoint atoi_loop (fuel : nat) (s : Z -> Z) (n : Z) : option Z :=
  match fuel with
  | O => None
  | S f =>
      if (48 <=? i8 (s 0)) && (i8 (s 0) <=? 57)
      then atoi_loop f (from s 1) (i32 (n * 10 + i8 (s 0) - 48))
      else Some n
  end.
Definition atoi (fuel : nat) (s : Z -> Z) : option Z := atoi_loop fuel s 0.

(** The user library's [memmove] always copies upwards. *)
Definition memmove (vdst vsrc n : Z) (m : Z -> Z) : Z -> Z :=
  copy_up vdst vsrc (Z.to_nat n) m.

(** The user library's [memmove] is not safe for overlapping areas: with the destination above an
    overlapping source, it repeats the first [dst - src] bytes. *)
Theorem ulib_memmove_repeats dst src n m x :
  src < dst < src + n -> dst <= x < dst + n ->
  memmove dst src n m x = m (src + (x - dst) mod (dst - src)).
Proof.
  intros Hd Hx. unfold memmove.
  assert (forall k d s m', s = d - (dst - src) ->
    (forall y, src <= y < d -> m' y = m (src + (y - src) mod (dst - src))) ->
    dst <= d -> d <= dst + n -> Z.of_nat k = dst + n - d ->
    copy_up d s k m' x = m (src + (x - dst) mod (dst - src))) as Hloop.
  { induction k as [|k IH]; intros d s m' Hs Hm' Hd1 Hd2 Hk; cbn [copy_up].
    - rewrite Hm' by lia. f_equal. f_equal.
      replace (x - src) with (x - dst + 1 * (dst - src)) by lia. apply Z_mod_plus_full.
    - apply IH; [lia| |lia|lia|lia]. intros y Hy. destruct (Z.eq_dec y d) as [->|Hne].
      + rewrite upd_eq, Hm' by lia. f_equal. f_equal. rewrite Hs.
        replace (d - src) with (d - (dst - src) - src + 1 * (dst - src)) by lia.
        symmetry. apply Z_mod_plus_full.
      + rewrite upd_ne by lia. apply Hm'. lia. }
  apply Hloop; [lia| |lia|lia|lia]. intros y Hy. rewrite Z.mod_small by lia. f_equal. lia.
Qed.

Lemma ulib_memmove_repeats_witness :
  0 < 2 < 0 + 4 /\ 2 <= 5 < 2 + 4 /\ memmove 2 0 4 (fun a => a) 5 = 1.
Proof.
  split; [lia|]. split; [lia|].
  rewrite (ulib_memmove_repeats 2 0 4 (fun a => a) 5); [reflexivity|lia|lia].
Defined.
