(* ===== verification/Bytes.v ===== *)
(** Bytes: the fields of on-disk structures inside a block of bytes,
    little-endian as the x86 stores them. *)

From S2P Require Import Prelude StringLib.

Definition get8 (d : list Z) (off : nat) : Z := default 0 (d !! off).
Definition get16 (d : list Z) (off : nat) : Z := get8 d off + 256 * get8 d (off + 1).
Definition get32 (d : list Z) (off : nat) : Z :=
  get8 d off + 256 * get8 d (off + 1) + 65536 * get8 d (off + 2) + 16777216 * get8 d (off + 3).

Definition half_bytes (v : Z) : list Z := [u8 v; u8 (Z.shiftr v 8)].
Definition put16 (off : nat) (v : Z) (d : list Z) : list Z := list_inserts off (half_bytes v) d.
Definition put32 (off : nat) (v : Z) (d : list Z) : list Z := list_inserts off (word_bytes v) d.

Lemma put32_length off v d : length (put32 off v d) = length d.
Proof. apply length_inserts. Qed.
Lemma put16_length off v d : length (put16 off v d) = length d.
Proof. apply length_inserts. Qed.

Lemma get8_inserts_in off l d j :
  (off <= j < off + length l)%nat -> (off + length l <= length d)%nat ->
  get8 (list_inserts off l d) j = default 0 (l !! (j - off)%nat).
Proof.
  intros Hj Hl. unfold get8. rewrite list_lookup_inserts by lia. done.
Qed.
Lemma get8_inserts_out off l d j :
  (j < off \/ off + length l <= j)%nat -> get8 (list_inserts off l d) j = get8 d j.
Proof.
  intros [Hj|Hj]; unfold get8.
  - by rewrite list_lookup_inserts_lt.
  - by rewrite list_lookup_inserts_ge.
Qed.

Lemma word_split v :
  u8 v + 256 * u8 (Z.shiftr v 8) + 65536 * u8 (Z.shiftr v 16) + 16777216 * u8 (Z.shiftr v 24) = u32 v.
Proof.
  unfold u8, u32. rewrite !Z.shiftr_div_pow2 by lia.
  change (2 ^ 8) with 256. change (2 ^ 16) with (256 * 256). change (2 ^ 24) with (256 * 256 * 256).
  change (2 ^ 32) with (256 * 256 * 256 * 256).
  rewrite <- !Z.div_div by lia.
  pose proof (Z.div_mod v 256 ltac:(lia)). pose proof (Z.div_mod (v / 256) 256 ltac:(lia)).
  pose proof (Z.div_mod (v / 256 / 256) 256 ltac:(lia)).
  pose proof (Z.div_mod (v / 256 / 256 / 256) 256 ltac:(lia)).
  pose proof (Z.mod_pos_bound v 256 ltac:(lia)). pose proof (Z.mod_pos_bound (v / 256) 256 ltac:(lia)).
  pose proof (Z.mod_pos_bound (v / 256 / 256) 256 ltac:(lia)).
  pose proof (Z.mod_pos_bound (v / 256 / 256 / 256) 256 ltac:(lia)).
  apply Z.mod_unique with (v / 256 / 256 / 256 / 256); lia.
Qed.

Lemma get32_put32 off v d : (off + 4 <= length d)%nat -> get32 (put32 off v d) off = u32 v.
Proof.
  intros H. rewrite <- word_split. unfold get32, put32.
  rewrite !get8_inserts_in by (simpl; lia).
  replace (off - off)%nat with 0%nat by lia. replace (off + 1 - off)%nat with 1%nat by lia.
  replace (off + 2 - off)%nat with 2%nat by lia. replace (off + 3 - off)%nat with 3%nat by lia.
  done.
Qed.
Lemma get32_put32_ne off off' v d :
  (off' + 4 <= off \/ off + 4 <= off')%nat -> get32 (put32 off v d) off' = get32 d off'.
Proof.
  intros H. unfold get32, put32. rewrite !get8_inserts_out by (simpl; lia). done.
Qed.

Lemma half_split v : u8 v + 256 * u8 (Z.shiftr v 8) = u16 v.
Proof.
  unfold u8, u16. rewrite !Z.shiftr_div_pow2 by lia.
  change (2 ^ 8) with 256. change (2 ^ 16) with (256 * 256).
  pose proof (Z.div_mod v 256 ltac:(lia)). pose proof (Z.div_mod (v / 256) 256 ltac:(lia)).
  pose proof (Z.mod_pos_bound v 256 ltac:(lia)). pose proof (Z.mod_pos_bound (v / 256) 256 ltac:(lia)).
  apply Z.mod_unique with (v / 256 / 256); lia.
Qed.
Lemma get16_put16 off v d : (off + 2 <= length d)%nat -> get16 (put16 off v d) off = u16 v.
Proof.
  intros H. rewrite <- half_split. unfold get16, put16.
  rewrite !get8_inserts_in by (simpl; lia).
  replace (off - off)%nat with 0%nat by lia. replace (off + 1 - off)%nat with 1%nat by lia.
  done.
Qed.
Lemma get16_put16_ne off off' v d :
  (off' + 2 <= off \/ off + 2 <= off')%nat -> get16 (put16 off v d) off' = get16 d off'.
Proof.
  intros H. unfold get16, put16. rewrite !get8_inserts_out by (simpl; lia). done.
Qed.
Lemma get16_put32_ne off off' v d :
  (off' + 2 <= off \/ off + 4 <= off')%nat -> get16 (put32 off v d) off' = get16 d off'.
Proof.
  intros H. unfold get16, put32. rewrite !get8_inserts_out by (simpl; lia). done.
Qed.
Lemma get32_put16_ne off off' v d :
  (off' + 4 <= off \/ off + 2 <= off')%nat -> get32 (put16 off v d) off' = get32 d off'.
Proof.
  intros H. unfold get32, put16. rewrite !get8_inserts_out by (simpl; lia). done.
Qed.
