(* ===== verification/Words.v ===== *)
(** Words: 32-bit words in a byte memory, little-endian. *)

From S2P Require Import Prelude StringLib Bytes.

Definition ld32 (m : Z -> Z) (a : Z) : Z :=
  m a + 256 * m (a + 1) + 65536 * m (a + 2) + 16777216 * m (a + 3).
(** Store a word. *)
Definition wr (a v : Z) (m : Z -> Z) : Z -> Z := store a (word_bytes v) m.

Lemma store_out a l m x : x < a \/ a + Z.of_nat (length l) <= x -> store a l m x = m x.
Proof. intros H. rewrite store_spec. case_cmp; first [done|lia]. Qed.
Lemma wr_out a v m x : x < a \/ a + 4 <= x -> wr a v m x = m x.
Proof. intros H. apply store_out. change (Z.of_nat (length (word_bytes v))) with 4. lia. Qed.

Lemma ld32_ext m m' a : (forall x, a <= x < a + 4 -> m' x = m x) -> ld32 m' a = ld32 m a.
Proof. intros H. unfold ld32. by rewrite !H by lia. Qed.
Lemma ld32_store_eq a v m : ld32 (store a (word_bytes v) m) a = u32 v.
Proof.
  rewrite <- word_split. unfold ld32. rewrite !store_spec. simpl length.
  replace (a + 1 - a) with 1 by lia. replace (a + 2 - a) with 2 by lia.
  replace (a + 3 - a) with 3 by lia. rewrite Z.sub_diag. case_cmp; first [done|lia].
Qed.
Lemma ld32_store_ne a b v m : a + 4 <= b \/ b + 4 <= a -> ld32 (store a (word_bytes v) m) b = ld32 m b.
Proof. intros H. apply ld32_ext. intros x Hx. apply store_out. change (Z.of_nat (length (word_bytes v))) with 4. lia. Qed.
Lemma ld32_wr a v m : ld32 (wr a v m) a = u32 v.
Proof. apply ld32_store_eq. Qed.
Lemma ld32_wr_far a b v m : b + 4 <= a \/ a + 4 <= b -> ld32 (wr a v m) b = ld32 m b.
Proof. intros H. apply ld32_store_ne. lia. Qed.
