(* ===== verification/Kalloc.v ===== *)
(** Kalloc: kalloc.c, the physical page allocator, in both builds: without
    reference counts ([original]) and with them (copy-on-write fork).

    A page is named by its index in [kmem.runs], its physical address divided
    by the page size. *)

From S2P Require Import Prelude Kernel StringLib.

Definition MAXPAGES : Z := PHYSTOP / PGSIZE.

Section Kalloc.
Context `{I : Image}.

(** [if(kmem.use_lock) acquire(&kmem.lock)] and its counterpart. *)
Definition lock_kmem : M kernel unit :=
  let! ul := gets (fun k => use_lock (k_kmem k)) in
  when (negb (ul =? 0)) (acquire L_kmem).
Definition unlock_kmem : M kernel unit :=
  let! ul := gets (fun k => use_lock (k_kmem k)) in
  when (negb (ul =? 0)) (release L_kmem).

(** [kmem.runs[V2P(v) / PGSIZE]]; an index outside the array is an invalid
    access. *)
Definition run_index (v : Z) : nat := Z.to_nat (V2P v / PGSIZE).
Definition read_run (i : nat) : M kernel run := fun k =>
  match runs (k_kmem k) !! i with
  | Some r => Done r k
  | None => Faulted "kmem.runs" k
  end.
Definition upd_run (i : nat) (f : run -> run) : M kernel unit :=
  modify (upd_kmem (fun km => set_runs (alter f i (runs km)) km)).

Definition _kfree (v isStartup : Z) : M kernel unit :=
  if negb (v mod PGSIZE =? 0) || (v <? end_) || (PHYSTOP <=? V2P v)
  then panic "kfree"
  else
    (* Fill with junk to catch dangling refs. *)
    modify (fun k => set_k_mem (memset v 1 PGSIZE (k_mem k)) k) ;;;
    lock_kmem ;;;
    let r := run_index v in
    (if original then
       let! fl := gets (fun k => freelist (k_kmem k)) in
       upd_run r (set_r_next fl) ;;;
       modify (upd_kmem (set_freelist (Some r)))
     else
       when (isStartup =? 0)
         (let! x := read_run r in
          if negb (ref_count x =? 0)
          then upd_run r (set_ref_count (i32 (ref_count x - 1)))
          else panic "ref_count < 1 when freeing") ;;;
       let! x := read_run r in
       when (ref_count x =? 0)
         (let! fl := gets (fun k => freelist (k_kmem k)) in
          upd_run r (set_r_next fl) ;;;
          modify (upd_kmem (set_freelist (Some r))))) ;;;
    unlock_kmem.

Definition kfree (v : Z) : M kernel unit := _kfree v 0.
Definition kfree_sys (v : Z) : M kernel unit := _kfree v 1.

(** [p + PGSIZE <= vend] on pointers; [fuel] bounds the iterations. *)
Fixpoint freerange_loop (fuel : nat) (p vend : Z) : M kernel unit :=
  match fuel with
  | O => exhausted
  | S f =>
      if u32 (p + PGSIZE) <=? vend
      then kfree_sys p ;;; freerange_loop f (u32 (p + PGSIZE)) vend
      else ret tt
  end.
Definition freerange (vstart vend : Z) : M kernel unit :=
  freerange_loop (Z.to_nat (vend / PGSIZE + 1)) (PGROUNDUP vstart) vend.

Definition kinit1 (vstart vend : Z) : M kernel unit :=
  modify (upd_kmem (set_use_lock 0)) ;;;
  freerange vstart vend.

Definition kinit2 (vstart vend : Z) : M kernel unit :=
  freerange vstart vend ;;;
  modify (upd_kmem (set_use_lock 1)).

(** [r - kmem.runs]: the distance in elements of 8 bytes; for the null
    pointer that is the distance from the array back to address 0. *)
Definition run_offset (r : option nat) : Z :=
  match r with
  | Some i => Z.of_nat i
  | None => Z.shiftr (i32 (0 - runs_base)) 3
  end.

Definition kalloc : M kernel Z :=
  lock_kmem ;;;
  let! r := gets (fun k => freelist (k_kmem k)) in
  match r with
  | Some i =>
      let! x := read_run i in
      modify (upd_kmem (set_freelist (r_next x)))
  | None => ret tt
  end ;;;
  (if original then ret tt
   else match r with
        | Some i => upd_run i (fun x => set_ref_count (i32 (ref_count x + 1)) x)
        | None => fault "kalloc: r->ref_count"
        end) ;;;
  unlock_kmem ;;;
  ret (P2V (u32 (run_offset r * PGSIZE))).

Definition getRefCount (va : Z) : M kernel Z :=
  lock_kmem ;;;
  let! x := read_run (run_index va) in
  unlock_kmem ;;;
  ret (ref_count x).

Definition incRefCount (va : Z) : M kernel unit :=
  lock_kmem ;;;
  let! x := read_run (run_index va) in
  upd_run (run_index va) (set_ref_count (i32 (ref_count x + 1))) ;;;
  unlock_kmem.

Definition decRefCount (va : Z) : M kernel unit :=
  lock_kmem ;;;
  let! x := read_run (run_index va) in
  upd_run (run_index va) (set_ref_count (i32 (ref_count x - 1))) ;;;
  unlock_kmem.

End Kalloc.

(** ** The free list

    [chain rs o l]: following [next] from [o] visits exactly the runs [l]. *)
Inductive chain (rs : list run) : option nat -> list nat -> Prop :=
| chain_nil : chain rs None []
| chain_cons i r l :
    rs !! i = Some r -> chain rs (r_next r) l -> chain rs (Some i) (i :: l).

(** The kernel virtual address of page [i]. *)
Definition page_addr (i : nat) : Z := KERNBASE + Z.of_nat i * PGSIZE.

(** The allocator may be called: [kmem.lock] is not held by this CPU. *)
Definition kmem_unlocked (k : kernel) : Prop :=
  use_lock (k_kmem k) <> 0 -> L_kmem ∉ k_held k.

(** The allocator's invariant; [l] is the list of free pages. *)
Record kmem_inv `{I : Image} (k : kernel) (l : list nat) : Prop := {
  ki_len : Z.of_nat (length (runs (k_kmem k))) = MAXPAGES;
  ki_chain : chain (runs (k_kmem k)) (freelist (k_kmem k)) l;
  ki_nodup : NoDup l;
  ki_range : forall i, i ∈ l -> end_ <= page_addr i /\ Z.of_nat i < MAXPAGES;
  ki_refs : original = false -> forall i r, runs (k_kmem k) !! i = Some r ->
    0 <= ref_count r < 2 ^ 31 - 1 /\ (i ∈ l -> ref_count r = 0)
}.

Lemma chain_insert rs o l i r :
  chain rs o l -> i ∉ l -> chain (<[i := r]> rs) o l.
Proof.
  induction 1 as [|j r' l Hj Hc IH]; intros Hi; [constructor|].
  rewrite not_elem_of_cons in Hi. destruct Hi as [Hne Hi].
  econstructor; [rewrite list_lookup_insert_ne by done; done|auto].
Qed.

(** Changing only reference counts does not disturb the list. *)
Lemma chain_refs rs o l i x c :
  rs !! i = Some x -> chain rs o l -> chain (<[i := set_ref_count c x]> rs) o l.
Proof.
  intros Hx. induction 1 as [|j r' l Hj Hc IH]; [constructor|].
  destruct (decide (i = j)) as [<-|Hne].
  - rewrite Hx in Hj. injection Hj as <-. apply (chain_cons _ _ (set_ref_count c x)); [|exact IH].
    apply list_lookup_insert_eq. by eapply lookup_lt_Some.
  - econstructor; [rewrite list_lookup_insert_ne by done; done|exact IH].
Qed.

Lemma page_addr_V2P i : Z.of_nat i < MAXPAGES -> V2P (page_addr i) = Z.of_nat i * PGSIZE.
Proof.
  unfold V2P, page_addr, MAXPAGES, PHYSTOP, PGSIZE, KERNBASE. intros Hi.
  change (0xE000000 / 4096) with 57344 in Hi. rewrite u32_small by lia. lia.
Qed.

Lemma run_index_page_addr i : Z.of_nat i < MAXPAGES -> run_index (page_addr i) = i.
Proof.
  intros Hi. unfold run_index. rewrite page_addr_V2P by done.
  rewrite Z.div_mul by done. lia.
Qed.

Lemma P2V_page i : Z.of_nat i < MAXPAGES -> P2V (u32 (Z.of_nat i * PGSIZE)) = page_addr i.
Proof.
  unfold P2V, page_addr, MAXPAGES, PHYSTOP, PGSIZE, KERNBASE. intros Hi.
  change (0xE000000 / 4096) with 57344 in Hi. rewrite (u32_small (Z.of_nat i * 4096)) by lia.
  rewrite u32_small by lia. lia.
Qed.

Lemma page_addr_aligned i : page_addr i mod PGSIZE = 0.
Proof. unfold page_addr, KERNBASE, PGSIZE. by rewrite Z.mod_add by lia. Qed.

Section KallocFacts.
Context `{I : Image}.

(** What the lock operations around an update come to. *)
Definition locked (k : kernel) : kernel :=
  if use_lock (k_kmem k) =? 0 then k else set_k_held ({[L_kmem]} ∪ k_held k) k.

Lemma lock_kmem_run k : kmem_unlocked k -> lock_kmem k = Done tt (locked k).
Proof.
  intros H. unfold lock_kmem, locked. rewrite bind_gets. destruct (Z.eqb_spec (use_lock (k_kmem k)) 0).
  - done.
  - simpl. apply acquire_free, H. done.
Qed.

Lemma unlock_locked k : kmem_unlocked k -> unlock_kmem (locked k) = Done tt k.
Proof.
  intros H. unfold unlock_kmem, locked. rewrite bind_gets. unfold kmem_unlocked in H.
  destruct (Z.eqb_spec (use_lock (k_kmem k)) 0) as [E|E]; simpl.
  - by rewrite E.
  - destruct (Z.eqb_spec (use_lock (k_kmem k)) 0); [done|]. simpl.
    rewrite release_held by (simpl; set_solver). simpl.
    rewrite held_release_acquire by auto. by rewrite set_k_held_twice, set_k_held_same.
Qed.

Lemma locked_kmem k : k_kmem (locked k) = k_kmem k.
Proof. unfold locked. by case_if. Qed.

Lemma locked_upd f k :
  use_lock (f (k_kmem k)) = use_lock (k_kmem k) ->
  upd_kmem f (locked k) = locked (upd_kmem f k).
Proof. intros H. unfold locked. simpl. rewrite H. by case_if. Qed.

Lemma upd_kmem_upd f g k : upd_kmem f (upd_kmem g k) = upd_kmem (fun km => f (g km)) k.
Proof. done. Qed.

Lemma read_run_run i x k : runs (k_kmem k) !! i = Some x -> read_run i k = Done x k.
Proof. unfold read_run. by intros ->. Qed.

Lemma unlocked_upd f k :
  use_lock (f (k_kmem k)) = use_lock (k_kmem k) ->
  kmem_unlocked k -> kmem_unlocked (upd_kmem f k).
Proof. unfold kmem_unlocked. simpl. by intros ->. Qed.

(** [kalloc] pops the free list. *)
Definition popped_kmem (i : nat) (x : run) (km : kmem_state) : kmem_state :=
  if original then set_freelist (r_next x) km
  else set_runs (<[i := set_ref_count (i32 (ref_count x + 1)) x]> (runs km))
         (set_freelist (r_next x) km).

Lemma kalloc_run k i x :
  kmem_unlocked k -> freelist (k_kmem k) = Some i -> runs (k_kmem k) !! i = Some x ->
  Z.of_nat i < MAXPAGES ->
  kalloc k = Done (page_addr i) (upd_kmem (popped_kmem i x) k).
Proof.
  intros H Hfl Hx Hi. unfold kalloc.
  rewrite (bind_Done _ _ _ _ _ (lock_kmem_run _ H)).
  rewrite bind_gets, locked_kmem, Hfl.
  rewrite (bind_Done _ _ _ tt (locked (upd_kmem (set_freelist (r_next x)) k))).
  2:{ rewrite (bind_Done _ _ _ x (locked k)) by (apply read_run_run; by rewrite locked_kmem).
      unfold modify. by rewrite locked_upd. }
  rewrite (bind_Done _ _ _ tt (locked (upd_kmem (popped_kmem i x) k))).
  2:{ unfold popped_kmem. destruct original; [done|]. unfold upd_run, modify.
      rewrite locked_upd by done. rewrite upd_kmem_upd. unfold upd_kmem. simpl.
      by rewrite (list_alter_Some _ _ _ _ Hx). }
  rewrite (bind_Done _ _ _ tt (upd_kmem (popped_kmem i x) k)).
  - unfold ret. simpl run_offset. by rewrite P2V_page.
  - apply unlock_locked, unlocked_upd; [|done]. unfold popped_kmem. by destruct original.
Qed.

(** [_kfree] pushes the page when no reference is left. *)
Definition unref (isStartup : Z) (x : run) : run :=
  if original then x
  else if isStartup =? 0 then set_ref_count (i32 (ref_count x - 1)) x else x.
Definition last_ref (isStartup : Z) (x : run) : bool :=
  original || (ref_count (unref isStartup x) =? 0).
Definition pushed_kmem (s : Z) (i : nat) (x : run) (km : kmem_state) : kmem_state :=
  if last_ref s x
  then set_freelist (Some i) (set_runs (<[i := set_r_next (freelist km) (unref s x)]> (runs km)) km)
  else set_runs (<[i := unref s x]> (runs km)) km.
Definition junked (v : Z) (k : kernel) : kernel := set_k_mem (memset v 1 PGSIZE (k_mem k)) k.

Lemma push_run i r k :
  (let! fl := gets (fun k => freelist (k_kmem k)) in
   upd_run i (set_r_next fl) ;;; modify (upd_kmem (set_freelist (Some i)))) k =
  Done r (upd_kmem (fun km => set_freelist (Some i)
    (set_runs (alter (set_r_next (freelist km)) i (runs km)) km)) k).
Proof. by destruct r. Qed.

Lemma runs_same_insert i x km :
  runs km !! i = Some x -> set_runs (<[i := x]> (runs km)) km = km.
Proof. intros H. rewrite list_insert_id by done. by destruct km. Qed.

Lemma kfree_guard i :
  end_ <= page_addr i -> Z.of_nat i < MAXPAGES ->
  negb (page_addr i mod PGSIZE =? 0) || (page_addr i <? end_) || (PHYSTOP <=? V2P (page_addr i))
  = false.
Proof.
  intros He Hi. rewrite page_addr_aligned, page_addr_V2P by done.
  change MAXPAGES with 57344 in Hi. change PHYSTOP with (57344 * 4096). unfold PGSIZE.
  case_cmp; simpl; lia.
Qed.

Lemma _kfree_run k i x s :
  kmem_unlocked k -> runs (k_kmem k) !! i = Some x ->
  end_ <= page_addr i -> Z.of_nat i < MAXPAGES ->
  (original = false -> s = 0 -> ref_count x <> 0) ->
  _kfree (page_addr i) s k =
  Done tt (upd_kmem (pushed_kmem s i x) (junked (page_addr i) k)).
Proof.
  intros H Hx He Hi Href. unfold _kfree. rewrite kfree_guard, bind_modify by done.
  fold (junked (page_addr i) k). set (k1 := junked (page_addr i) k).
  assert (kmem_unlocked k1) as H1 by done.
  assert (runs (k_kmem k1) !! i = Some x) as Hx1 by done. clearbody k1.
  rewrite (bind_Done _ _ _ _ _ (lock_kmem_run _ H1)), run_index_page_addr by done.
  rewrite (bind_Done _ _ _ tt (locked (upd_kmem (pushed_kmem s i x) k1))).
  { apply unlock_locked, unlocked_upd; [|done]. unfold pushed_kmem. by case_if. }
  unfold pushed_kmem, last_ref, unref. destruct original eqn:Ho; simpl.
  { rewrite (push_run i tt), locked_upd by done. f_equal. unfold upd_kmem. simpl.
    by rewrite (list_alter_Some _ _ _ _ Hx1). }
  set (y := if s =? 0 then set_ref_count (i32 (ref_count x - 1)) x else x).
  rewrite (bind_Done _ _ _ tt (locked (upd_kmem (fun km => set_runs (<[i := y]> (runs km)) km) k1))).
  2:{ unfold y, when. destruct (Z.eqb_spec s 0) as [Hs|Hs].
      - rewrite (bind_Done _ _ _ x (locked k1)) by (apply read_run_run; by rewrite locked_kmem).
        destruct (Z.eqb_spec (ref_count x) 0) as [E|E]; [by destruct (Href eq_refl Hs)|]. simpl.
        unfold upd_run, modify. rewrite locked_upd by done. unfold upd_kmem.
        by rewrite (list_alter_Some _ _ _ _ Hx1).
      - unfold ret, upd_kmem. rewrite runs_same_insert by done. by destruct k1. }
  rewrite (bind_Done _ _ _ y (locked (upd_kmem (fun km => set_runs (<[i := y]> (runs km)) km) k1))).
  2:{ apply read_run_run. rewrite locked_kmem. simpl. apply list_lookup_insert_eq.
      by eapply lookup_lt_Some. }
  unfold when. destruct (ref_count y =? 0); [|done].
  rewrite (push_run i tt), locked_upd by done. rewrite upd_kmem_upd. unfold upd_kmem. simpl.
  rewrite (list_alter_Some _ _ _ y).
  - by rewrite list_insert_insert_eq.
  - apply list_lookup_insert_eq. by eapply lookup_lt_Some.
Qed.

(** ** The invariant *)

Lemma kmem_inv_head k i l :
  kmem_inv k (i :: l) ->
  exists x, freelist (k_kmem k) = Some i /\ runs (k_kmem k) !! i = Some x /\
    chain (runs (k_kmem k)) (r_next x) l /\ i ∉ l /\
    end_ <= page_addr i /\ Z.of_nat i < MAXPAGES.
Proof.
  intros [_ Hc Hn Hr _]. inversion Hc as [|? x ? Hx Hc']; subst.
  apply NoDup_cons in Hn as [Hn _]. destruct (Hr i) as [He Hi]; [set_solver|]. eauto 10.
Qed.

Lemma kmem_inv_pop k i x l :
  kmem_inv k (i :: l) -> runs (k_kmem k) !! i = Some x -> freelist (k_kmem k) = Some i ->
  kmem_inv (upd_kmem (popped_kmem i x) k) l.
Proof.
  intros Hinv Hx Hfl. destruct (kmem_inv_head _ _ _ Hinv) as (x' & _ & Hx' & Hc & Hnin & _).
  rewrite Hx in Hx'. injection Hx' as <-.
  destruct Hinv as [Hlen _ Hn Hr Href]. apply NoDup_cons in Hn as [_ Hn].
  assert (forall j, j ∈ l -> end_ <= page_addr j /\ Z.of_nat j < MAXPAGES) as Hr'.
  { intros j Hj. apply Hr. by right. }
  unfold popped_kmem. destruct original eqn:Ho; split; simpl; rewrite ?length_insert; try done.
  - intros Ho'. congruence.
  - by apply chain_insert.
  - intros _ j r Hj. apply list_lookup_insert_Some in Hj as [(<- & <- & Hlt)|[Hne Hj]].
    + destruct (Href eq_refl _ _ Hx) as [_ H0]. simpl. rewrite H0 by set_solver.
      rewrite i32_small by lia. split; [lia|done].
    + destruct (Href eq_refl _ _ Hj) as [H0 H1]. split; [done|]. set_solver.
Qed.

Lemma kmem_inv_junk k l v : kmem_inv k l -> kmem_inv (junked v k) l.
Proof. intros [? ? ? ? ?]. by split. Qed.

Lemma kmem_inv_push k i x s l :
  kmem_inv k l -> runs (k_kmem k) !! i = Some x -> i ∉ l ->
  end_ <= page_addr i -> Z.of_nat i < MAXPAGES ->
  (original = false -> s = 0 -> ref_count x <> 0) ->
  kmem_inv (upd_kmem (pushed_kmem s i x) k) (if last_ref s x then i :: l else l).
Proof.
  intros [Hlen Hc Hn Hr Href] Hx Hnin He Hi Hpos.
  pose proof (lookup_lt_Some _ _ _ Hx) as Hlt.
  assert (original = false -> 0 <= ref_count (unref s x) < 2 ^ 31 - 1) as Hun.
  { intros Ho. destruct (Href Ho _ _ Hx) as [H0 _]. unfold unref. rewrite Ho.
    destruct (Z.eqb_spec s 0) as [->|]; [|done]. specialize (Hpos Ho eq_refl). simpl.
    rewrite i32_small; lia. }
  unfold pushed_kmem. destruct (last_ref s x) eqn:Hlast; split; simpl;
    rewrite ?length_insert; auto.
  - eapply (chain_cons _ _ (set_r_next (freelist (k_kmem k)) (unref s x))).
    + by apply list_lookup_insert_eq.
    + simpl. by apply chain_insert.
  - by apply NoDup_cons.
  - intros j. rewrite elem_of_cons. intros [->|Hj]; auto.
  - intros Ho j r Hj. apply list_lookup_insert_Some in Hj as [(<- & <- & _)|[Hne Hj]].
    + split; [by apply Hun|]. intros _. unfold last_ref in Hlast. rewrite Ho in Hlast.
      simpl in Hlast. by apply Z.eqb_eq in Hlast.
    + destruct (Href Ho _ _ Hj) as [H0 H1]. split; [done|]. rewrite elem_of_cons.
      intros [->|Hin]; [done|auto].
  - by apply chain_insert.
  - intros Ho j r Hj. apply list_lookup_insert_Some in Hj as [(<- & <- & _)|[Hne Hj]].
    + split; [by apply Hun|done].
    + by apply (Href Ho).
Qed.

(** ** What clients rely on *)

(** Freeing the last reference of an allocated page. *)
Lemma last_ref_kfree k i x l :
  kmem_unlocked k -> kmem_inv k l -> i ∉ l -> runs (k_kmem k) !! i = Some x ->
  end_ <= page_addr i -> Z.of_nat i < MAXPAGES ->
  (original = false -> ref_count x = 1) ->
  exists k', kfree (page_addr i) k = Done tt k' /\ kmem_inv k' (i :: l) /\
    k_held k' = k_held k /\ k_pipes k' = k_pipes k.
Proof.
  intros H Hinv Hnin Hx He Hi H1.
  assert (last_ref 0 x = true) as Hlast.
  { unfold last_ref, unref. destruct original; [done|]. simpl. by rewrite H1. }
  exists (upd_kmem (pushed_kmem 0 i x) (junked (page_addr i) k)).
  split; [apply _kfree_run; try done; intros Ho _; rewrite H1; done|].
  split; [|done].
  pose proof (kmem_inv_push (junked (page_addr i) k) i x 0 l) as Hp. rewrite Hlast in Hp.
  apply Hp; try done; [by apply kmem_inv_junk|]. intros Ho _. rewrite H1; done.
Qed.

(** C11: allocation.  As long as a page is free, [kalloc] returns the first
    free page: an address above the kernel, below [PHYSTOP], page aligned,
    with no other free page equal to it; it leaves memory alone, keeps the
    allocator's invariant with that page off the free list, and with
    reference counts gives the page exactly one reference. *)
Theorem kalloc_correct k i l :
  kmem_unlocked k -> kmem_inv k (i :: l) ->
  exists k', kalloc k = Done (page_addr i) k' /\
    kmem_inv k' l /\ i ∉ l /\ k_mem k' = k_mem k /\ k_held k' = k_held k /\
    end_ <= page_addr i < P2V PHYSTOP /\ page_addr i mod PGSIZE = 0 /\
    (original = false -> ref_count <$> runs (k_kmem k') !! i = Some 1).
Proof.
  intros H Hinv. destruct (kmem_inv_head _ _ _ Hinv) as (x & Hfl & Hx & Hc & Hnin & He & Hi).
  exists (upd_kmem (popped_kmem i x) k). split; [by apply kalloc_run|].
  split; [by eapply kmem_inv_pop|]. split_and!; try done.
  - change MAXPAGES with 57344 in Hi. change (P2V PHYSTOP) with (KERNBASE + 57344 * PGSIZE).
    unfold page_addr, PGSIZE. lia.
  - apply page_addr_aligned.
  - intros Ho. simpl. unfold popped_kmem. rewrite Ho. simpl.
    rewrite list_lookup_insert_eq by by eapply lookup_lt_Some.
    destruct (ki_refs _ _ Hinv Ho _ _ Hx) as [_ H0]. simpl.
    by rewrite H0 by set_solver.
Qed.

(** C12: release.  [kfree] of an allocated page keeps the invariant; the page
    goes to the head of the free list when it had its last reference, so the
    next [kalloc] returns it, and stays off the list otherwise. *)
Theorem kfree_correct k i x l :
  kmem_unlocked k -> kmem_inv k l -> i ∉ l -> runs (k_kmem k) !! i = Some x ->
  end_ <= page_addr i -> Z.of_nat i < MAXPAGES ->
  (original = false -> 0 < ref_count x) ->
  exists k', kfree (page_addr i) k = Done tt k' /\
    kmem_inv k' (if original || (ref_count x =? 1) then i :: l else l) /\
    k_held k' = k_held k /\
    forall a, k_mem k' a = if (page_addr i <=? a) && (a <? page_addr i + PGSIZE) then 1 else k_mem k a.
Proof.
  intros H Hinv Hnin Hx He Hi Hpos.
  exists (upd_kmem (pushed_kmem 0 i x) (junked (page_addr i) k)).
  assert (original = false -> 0 = 0 -> ref_count x <> 0) as Hp by (intros Ho _; specialize (Hpos Ho); lia).
  split; [by apply _kfree_run|]. split; [|split; [done|]].
  - replace (original || (ref_count x =? 1)) with (last_ref 0 x).
    + by apply kmem_inv_push; [apply kmem_inv_junk|..].
    + unfold last_ref, unref. destruct original eqn:Ho; [done|]. simpl.
      destruct (ki_refs _ _ Hinv Ho _ _ Hx) as [H0 _]. rewrite i32_small by lia.
      case_cmp; try done; lia.
  - intros a. simpl. unfold junked. simpl. rewrite memset_spec by done. done.
Qed.

(** ** Start-up *)

Definition unreferenced (k : kernel) : Prop :=
  original = false -> Forall (fun r => ref_count r = 0) (runs (k_kmem k)).

Lemma last_ref_startup x : (original = false -> ref_count x = 0) -> last_ref 1 x = true.
Proof.
  intros H. unfold last_ref, unref. destruct original; simpl; [done|]. by rewrite H.
Qed.

Lemma freerange_step k i l :
  kmem_unlocked k -> kmem_inv k l -> unreferenced k -> i ∉ l ->
  end_ <= page_addr i -> Z.of_nat i < MAXPAGES ->
  exists k', kfree_sys (page_addr i) k = Done tt k' /\ kmem_inv k' (i :: l) /\
    unreferenced k' /\ k_held k' = k_held k /\ use_lock (k_kmem k') = use_lock (k_kmem k).
Proof.
  intros H Hinv Hun Hnin He Hi.
  destruct (lookup_lt_is_Some_2 (runs (k_kmem k)) i) as [x Hx].
  { pose proof (ki_len _ _ Hinv). lia. }
  assert (original = false -> ref_count x = 0) as H0.
  { intros Ho. specialize (Hun Ho). rewrite Forall_lookup in Hun. eauto. }
  pose proof (last_ref_startup x H0) as Hlast.
  eexists. split; [apply _kfree_run; try done; lia|]. split; [|split; [|split; [done|]]].
  - pose proof (kmem_inv_push (junked (page_addr i) k) i x 1 l) as Hp. rewrite Hlast in Hp.
    apply Hp; try done. by apply kmem_inv_junk.
  - intros Ho. simpl. unfold pushed_kmem. rewrite Hlast. simpl. apply Forall_insert.
    + by apply Hun.
    + unfold unref. rewrite Ho. simpl. auto.
  - simpl. unfold pushed_kmem. by case_if.
Qed.

Lemma page_addr_S i : page_addr i + PGSIZE = page_addr (S i).
Proof. unfold page_addr. lia. Qed.

Lemma freerange_loop_run n fuel i vend k l :
  (n < fuel)%nat -> Z.of_nat (i + n) <= MAXPAGES ->
  page_addr (i + n) <= vend < page_addr (S (i + n)) ->
  end_ <= page_addr i -> (forall j, (i <= j < i + n)%nat -> j ∉ l) ->
  kmem_unlocked k -> kmem_inv k l -> unreferenced k ->
  exists k', freerange_loop fuel (page_addr i) vend k = Done tt k' /\
    kmem_inv k' (rev (seq i n) ++ l) /\ unreferenced k' /\ k_held k' = k_held k /\
    use_lock (k_kmem k') = use_lock (k_kmem k).
Proof.
  assert (forall j, Z.of_nat j <= MAXPAGES -> u32 (page_addr j + PGSIZE) = page_addr (S j)) as Hu.
  { intros j Hj. rewrite page_addr_S. apply u32_small. change MAXPAGES with 57344 in Hj.
    unfold page_addr, KERNBASE, PGSIZE. lia. }
  revert fuel i k l. induction n as [|n IH]; intros [|fuel] i k l Hf Hmax Hend He Hdisj H Hinv Hun;
    try lia; cbn [freerange_loop].
  - rewrite Hu by lia. rewrite Nat.add_0_r in Hend.
    replace (page_addr (S i) <=? vend) with false by (symmetry; apply Z.leb_gt; lia).
    eexists. split; [done|]. simpl. auto.
  - rewrite Hu by lia.
    replace (page_addr (S i) <=? vend) with true
      by (symmetry; apply Z.leb_le; unfold page_addr, PGSIZE in *; lia).
    destruct (freerange_step k i l) as (k1 & Hrun & Hinv1 & Hun1 & Hh1 & Hu1); try done;
      [apply Hdisj; lia|lia|].
    rewrite (bind_Done _ _ _ _ _ Hrun).
    destruct (IH fuel (S i) k1 (i :: l)) as (k2 & Hrun2 & Hinv2 & Hun2 & Hh2 & Hu2); try done.
    + lia.
    + lia.
    + by replace (S i + n)%nat with (i + S n)%nat by lia.
    + unfold page_addr, PGSIZE in *; lia.
    + intros j Hj. rewrite not_elem_of_cons. split; [lia|]. apply Hdisj. lia.
    + unfold kmem_unlocked. by rewrite Hu1, Hh1.
    + exists k2. split; [done|]. split; [|by rewrite Hh2, Hu2].
      simpl. by rewrite <- app_assoc.
Qed.

Lemma kmem_inv_use_lock k l v : kmem_inv k l -> kmem_inv (upd_kmem (set_use_lock v) k) l.
Proof. intros [? ? ? ? ?]. by split. Qed.

Lemma freerange_run vstart vend i n k l :
  PGROUNDUP vstart = page_addr i -> Z.of_nat (i + n) <= MAXPAGES ->
  vend = page_addr (i + n) ->
  end_ <= page_addr i -> (forall j, (i <= j < i + n)%nat -> j ∉ l) ->
  kmem_unlocked k -> kmem_inv k l -> unreferenced k ->
  exists k', freerange vstart vend k = Done tt k' /\
    kmem_inv k' (rev (seq i n) ++ l) /\ unreferenced k' /\ k_held k' = k_held k /\
    use_lock (k_kmem k') = use_lock (k_kmem k).
Proof.
  intros Hs Hmax -> He Hdisj H Hinv Hun. unfold freerange. rewrite Hs.
  apply freerange_loop_run; try done.
  - replace (page_addr (i + n) / PGSIZE) with (KERNBASE / PGSIZE + Z.of_nat (i + n)).
    + change (KERNBASE / PGSIZE) with 524288. lia.
    + unfold page_addr. rewrite Z.div_add by done. lia.
  - rewrite <- page_addr_S. unfold PGSIZE. lia.
Qed.

End KallocFacts.

(** [PGROUNDUP] rounds up to a page boundary. *)
Lemma PGROUNDUP_spec a :
  0 <= a -> a + PGSIZE <= 2 ^ 32 ->
  a <= PGROUNDUP a < a + PGSIZE /\ PGROUNDUP a mod PGSIZE = 0.
Proof.
  unfold PGROUNDUP, PGSIZE. intros H0 H1. change (4096 - 1) with (Z.ones 12).
  rewrite u32_small, Z.ldiff_ones_r, Z.shiftr_div_pow2, Z.shiftl_mul_pow2 by lia.
  change (2 ^ 12) with 4096. split; [|apply Z.mod_mul; lia].
  pose proof (Z.div_mod (a + 4096 - 1) 4096). pose proof (Z.mod_pos_bound (a + 4096 - 1) 4096). lia.
Qed.

Lemma PGROUNDUP_page a :
  KERNBASE <= a -> a <= KERNBASE + 0x400000 ->
  exists i, PGROUNDUP a = page_addr i /\ (i <= 1024)%nat /\
    forall j, a <= page_addr j <-> (i <= j)%nat.
Proof.
  unfold KERNBASE. intros H0 H1. destruct (PGROUNDUP_spec a) as [Hr Hm]; [lia|unfold PGSIZE; lia|].
  unfold PGSIZE in *. exists (Z.to_nat (PGROUNDUP a / 4096 - 524288)).
  pose proof (Z.div_mod (PGROUNDUP a) 4096 ltac:(lia)) as Hd. rewrite Hm in Hd.
  unfold page_addr, KERNBASE, PGSIZE. split; [lia|]. split; [lia|]. intros j. lia.
Qed.

Lemma elem_of_rev_seq j a n : j ∈ rev (seq a n) <-> (a <= j < a + n)%nat.
Proof. rewrite list_elem_of_In, <- in_rev. apply in_seq. Qed.

(** C13: start-up.  [main]'s calls of [kinit1] and [kinit2] return, and leave
    on the free list exactly the pages between the end of the kernel and
    [PHYSTOP], each once, with locking switched on. *)
Theorem kinit_frees_all_pages `{I : Image} `{!ImageOk I} k :
  kmem_inv k [] -> unreferenced k ->
  exists k' l,
    (kinit1 end_ (P2V 0x400000) ;;; kinit2 (P2V 0x400000) (P2V PHYSTOP)) k = Done tt k' /\
    kmem_inv k' l /\ use_lock (k_kmem k') = 1 /\
    forall i, i ∈ l <-> end_ <= page_addr i /\ Z.of_nat i < MAXPAGES.
Proof.
  intros Hinv Hun.
  assert (KERNLINK <= end_ <= KERNBASE + 0x400000) as He
    by (pose proof runs_base_range; pose proof end_range; change (PHYSTOP / PGSIZE) with 57344 in *; lia).
  destruct (PGROUNDUP_page end_) as (i0 & Hi0 & Hle & Hpages); [unfold KERNLINK, EXTMEM in *; lia|lia|].
  unfold kinit1, kinit2.
  destruct (freerange_run end_ (P2V 0x400000) i0 (1024 - i0) (upd_kmem (set_use_lock 0) k) [])
    as (k1 & Hr1 & Hinv1 & Hun1 & Hh1 & Hu1); try done.
  - change MAXPAGES with 57344. lia.
  - replace (i0 + (1024 - i0))%nat with 1024%nat by lia. reflexivity.
  - apply Hpages. lia.
  - intros j _. apply not_elem_of_nil.
  - by intros Hne.
  - by apply kmem_inv_use_lock.
  - rewrite app_nil_r in Hinv1.
    destruct (freerange_run (P2V 0x400000) (P2V PHYSTOP) 1024 (Z.to_nat 56320) k1 (rev (seq i0 (1024 - i0))))
      as (k2 & Hr2 & Hinv2 & Hun2 & Hh2 & Hu2).
    + reflexivity.
    + change MAXPAGES with 57344. lia.
    + change (P2V PHYSTOP) with (KERNBASE + 57344 * PGSIZE). unfold page_addr. lia.
    + apply Hpages. lia.
    + intros j Hj. rewrite elem_of_rev_seq. lia.
    + intros Hne. by rewrite Hu1 in Hne.
    + done.
    + done.
    + exists (upd_kmem (set_use_lock 1) k2), (rev (seq 1024 (Z.to_nat 56320)) ++ rev (seq i0 (1024 - i0))).
      split; [|split; [by apply kmem_inv_use_lock|split; [done|]]].
      * rewrite (bind_Done _ _ _ tt k1); [|by rewrite bind_modify].
        by rewrite (bind_Done _ _ _ _ _ Hr2).
      * intros i. change MAXPAGES with 57344.
        rewrite elem_of_app, (elem_of_rev_seq i 1024), (elem_of_rev_seq i i0), Hpages. lia.
Qed.

(** Out of memory.  The header of [kalloc] promises 0 when no page is
    left.  In the [original] build the null run is scaled to an address all
    the same, and since the kernel image lies within its first 4 megabytes
    that address is never 0: every caller's test for failure is dead code, and
    the caller goes on with a page it does not own.  In the other build the
    null run is dereferenced. *)
Theorem kalloc_exhausted_not_null `{I : Image} `{!ImageOk I} k :
  kmem_unlocked k -> freelist (k_kmem k) = None ->
  (original = true -> exists v, kalloc k = Done v k /\ v <> 0) /\
  (original = false -> exists k', kalloc k = Faulted "kalloc: r->ref_count" k').
Proof.
  intros H Hfl. unfold kalloc.
  rewrite (bind_Done _ _ _ _ _ (lock_kmem_run _ H)), bind_gets, locked_kmem, Hfl, bind_ret.
  split; intros Ho; rewrite Ho.
  - rewrite bind_ret, (bind_Done _ _ _ _ _ (unlock_locked _ H)).
    eexists. split; [done|].
    pose proof runs_base_range as Hr. pose proof end_range as He.
    simpl run_offset. change (PHYSTOP / PGSIZE) with 57344 in *. unfold P2V, KERNLINK, EXTMEM, KERNBASE, PGSIZE in *.
    rewrite Z.shiftr_div_pow2 by lia. change (2 ^ 3) with 8.
    rewrite u32_add_l. unfold u32, i32, sint. change (2 ^ (32 - 1)) with 2147483648.
    change (2 ^ 32) with 4294967296.
    replace ((0 - runs_base + 2147483648) mod 4294967296) with (4294967296 + 2147483648 - runs_base)
      by (apply Z.mod_unique with (-1); lia).
    intros Hz. apply Z.mod_divide in Hz as [q Hq]; [|done].
    pose proof (Z.div_mod (4294967296 + 2147483648 - runs_base - 2147483648) 8 ltac:(lia)).
    pose proof (Z.mod_pos_bound (4294967296 + 2147483648 - runs_base - 2147483648) 8 ltac:(lia)).
    lia.
  - eexists. reflexivity.
Qed.

(** A page that is still shared is destroyed.  With reference counts,
    [kfree] of a page with two or more references keeps the page allocated
    for the other owners, yet has already overwritten every byte of it. *)
Theorem kfree_destroys_shared_page `{I : Image} k i x l :
  original = false -> kmem_unlocked k -> kmem_inv k l ->
  runs (k_kmem k) !! i = Some x -> 2 <= ref_count x ->
  end_ <= page_addr i -> Z.of_nat i < MAXPAGES ->
  exists k', kfree (page_addr i) k = Done tt k' /\ kmem_inv k' l /\
    ref_count <$> runs (k_kmem k') !! i = Some (ref_count x - 1) /\
    forall a, page_addr i <= a < page_addr i + PGSIZE -> k_mem k' a = 1.
Proof.
  intros Ho H Hinv Hx Href He Hi. pose proof (ki_refs _ _ Hinv Ho _ _ Hx) as [Hr Hfree].
  assert (i ∉ l) as Hnin by (intros Hin; specialize (Hfree Hin); lia).
  assert (unref 0 x = set_ref_count (ref_count x - 1) x) as Hu.
  { unfold unref. rewrite Ho. simpl. by rewrite i32_small by lia. }
  assert (last_ref 0 x = false) as Hlast.
  { unfold last_ref. rewrite Ho, Hu. simpl. apply Z.eqb_neq. lia. }
  eexists. split; [apply _kfree_run; try done; lia|]. split_and!.
  - pose proof (kmem_inv_push (junked (page_addr i) k) i x 0 l) as Hp. rewrite Hlast in Hp.
    apply Hp; try done; [by apply kmem_inv_junk|lia].
  - simpl. unfold pushed_kmem. rewrite Hlast, Hu. simpl.
    by rewrite list_lookup_insert_eq by by eapply lookup_lt_Some.
  - intros a Ha. simpl. unfold junked. simpl. rewrite memset_spec by done.
    unfold PGSIZE in *. case_cmp; try done; lia.
Qed.

(** ** A concrete image and allocator states *)

Definition demo_image (o : bool) : Image := {|
  original := o;
  end_ := 0x80190000;
  runs_base := 0x80110000;
  data_ := 0x8010a000;
  forkret_addr := 0x80103b00;
  trapret_addr := 0x80105a00
|}.

Lemma demo_image_ok o : ImageOk (demo_image o).
Proof. split; vm_compute; repeat split; congruence. Qed.

(** Page 1024 (the first above 4 megabytes) free with [c] references. *)
Definition demo_kmem (fl : option nat) (c : Z) : kernel :=
  upd_kmem (fun km => set_freelist fl (set_runs (<[1024%nat := Run c None]> (runs km)) km)) zero_kernel.

Lemma demo_kmem_run fl c : runs (k_kmem (demo_kmem fl c)) !! 1024%nat = Some (Run c None).
Proof.
  unfold demo_kmem. cbn [k_kmem upd_kmem set_k_kmem set_freelist set_runs runs].
  apply list_lookup_insert_eq. cbn [zero_kernel k_kmem runs]. rewrite length_replicate.
  change (PHYSTOP / PGSIZE) with 57344. lia.
Qed.

Lemma demo_kmem_inv o fl c l :
  0 <= c < 2 ^ 31 - 1 -> (fl = None /\ l = [] \/ fl = Some 1024%nat /\ l = [1024%nat] /\ c = 0) ->
  @kmem_inv (demo_image o) (demo_kmem fl c) l.
Proof.
  intros Hc Hl. pose proof (demo_kmem_run fl c) as Hrun. split.
  - unfold demo_kmem. cbn [k_kmem upd_kmem set_k_kmem set_freelist set_runs runs].
    rewrite length_insert. cbn [zero_kernel k_kmem runs]. rewrite length_replicate.
    change MAXPAGES with 57344. change (PHYSTOP / PGSIZE) with 57344. lia.
  - destruct Hl as [[-> ->]|(-> & -> & ->)]; [constructor|].
    eapply chain_cons; [exact Hrun|constructor].
  - destruct Hl as [[_ ->]|(_ & -> & _)]; [apply NoDup_nil_2|apply NoDup_singleton].
  - intros i Hi. assert (i = 1024%nat) as ->.
    { destruct Hl as [[_ ->]|(_ & -> & _)]; [destruct (not_elem_of_nil _ Hi)|].
      by apply list_elem_of_singleton in Hi. }
    vm_compute. split; congruence.
  - intros _ i r Hr. unfold demo_kmem in Hr.
    cbn [k_kmem upd_kmem set_k_kmem set_freelist set_runs runs] in Hr.
    apply list_lookup_insert_Some in Hr as [(<- & <- & _)|[Hne Hr]].
    + split; [done|]. intros Hin. destruct Hl as [[_ ->]|(_ & _ & ->)]; [|done].
      destruct (not_elem_of_nil _ Hin).
    + cbn [zero_kernel k_kmem runs] in Hr. apply lookup_replicate in Hr as [-> _].
      split; [simpl; lia|done].
Qed.

Lemma demo_kmem_unlocked fl c : kmem_unlocked (demo_kmem fl c).
Proof. intros H. by destruct H. Qed.

Lemma kalloc_correct_witness :
  exists k', @kalloc (demo_image true) (demo_kmem (Some 1024%nat) 0) = Done (page_addr 1024) k' /\
    @kmem_inv (demo_image true) k' [].
Proof.
  destruct (@kalloc_correct (demo_image true) (demo_kmem (Some 1024%nat) 0) 1024 [])
    as (k' & Hrun & Hinv & _).
  - apply demo_kmem_unlocked.
  - apply demo_kmem_inv; [lia|auto].
  - exists k'. split; [exact Hrun|exact Hinv].
Defined.

Lemma kfree_correct_witness :
  exists k', @kfree (demo_image false) (page_addr 1024) (demo_kmem None 1) = Done tt k' /\
    @kmem_inv (demo_image false) k' [1024%nat].
Proof.
  destruct (@kfree_correct (demo_image false) (demo_kmem None 1) 1024 (Run 1 None) [])
    as (k' & Hrun & Hinv & _).
  - apply demo_kmem_unlocked.
  - apply demo_kmem_inv; [lia|auto].
  - apply not_elem_of_nil.
  - apply demo_kmem_run.
  - vm_compute. congruence.
  - change MAXPAGES with 57344. lia.
  - intros _. simpl. lia.
  - exists k'. split; [exact Hrun|exact Hinv].
Defined.

Lemma kinit_frees_all_pages_witness :
  exists k' l, (@kinit1 (demo_image true) (@end_ (demo_image true)) (P2V 0x400000) ;;;
                @kinit2 (demo_image true) (P2V 0x400000) (P2V PHYSTOP)) (demo_kmem None 0) = Done tt k' /\
    @kmem_inv (demo_image true) k' l.
Proof.
  destruct (@kinit_frees_all_pages (demo_image true) (demo_image_ok true) (demo_kmem None 0))
    as (k' & l & Hrun & Hinv & _).
  - apply demo_kmem_inv; [lia|auto].
  - intros Ho. discriminate Ho.
  - exists k', l. split; [exact Hrun|exact Hinv].
Defined.

Lemma kalloc_exhausted_not_null_witness :
  exists v, @kalloc (demo_image true) (demo_kmem None 0) = Done v (demo_kmem None 0) /\ v <> 0.
Proof.
  apply (@kalloc_exhausted_not_null (demo_image true) (demo_image_ok true) (demo_kmem None 0)).
  - apply demo_kmem_unlocked.
  - reflexivity.
  - reflexivity.
Defined.

Lemma kfree_destroys_shared_page_witness :
  exists k', @kfree (demo_image false) (page_addr 1024) (demo_kmem None 2) = Done tt k' /\
    k_mem k' (page_addr 1024) = 1.
Proof.
  destruct (@kfree_destroys_shared_page (demo_image false) (demo_kmem None 2) 1024 (Run 2 None) [])
    as (k' & Hrun & _ & _ & Hmem).
  - reflexivity.
  - apply demo_kmem_unlocked.
  - apply demo_kmem_inv; [lia|auto].
  - apply demo_kmem_run.
  - simpl. lia.
  - vm_compute. congruence.
  - change MAXPAGES with 57344. lia.
  - exists k'. split; [exact Hrun|]. apply Hmem. unfold PGSIZE. lia.
Defined.
