(* ===== verification/ProcCore.v ===== *)
(** ProcCore: the part of proc.c every sleeping component depends on:
    [sched], [yield], [sleep], [wakeup1], [wakeup] and [kill].

    [swtch] in [sched] hands the CPU to the scheduler; what the rest of the
    system may do until this process runs again is a rely relation.  The
    switch of [cpu->intena] around it belongs to the interrupt state of
    Spinlock.v. *)

From S2P Require Import Prelude Kernel.

(** ** Operations *)

Definition sched : M kernel unit :=
  let! h := holding L_ptable in
  if negb h then panic "sched ptable.lock" else
  (* cpu->ncli is the number of locks held *)
  let! ncli := gets (fun k => Z.of_nat (size (k_held k))) in
  if negb (ncli =? 1) then panic "sched locks" else
  let! i := myproc in
  let! p := read_proc i in
  if bool_decide (p_state p = RUNNING) then panic "sched running" else
  (* interrupts are enabled only while no lock is held *)
  let! intr := gets (fun k => bool_decide (k_held k = ∅)) in
  if (intr : bool) then panic "sched interruptible" else
  swtch.

Definition set_state (i : nat) (st : procstate) : M kernel unit :=
  modify (upd_proc i (set_p_state st)).

Definition yield : M kernel unit :=
  acquire L_ptable ;;;
  let! i := myproc in
  set_state i RUNNABLE ;;;
  sched ;;;
  release L_ptable.

(** [lk] is [None] for a null pointer. *)
Definition sleep (ch : chan) (lk : option lock_id) : M kernel unit :=
  let! cur := gets (fun k => curproc (k_sched k)) in
  match cur with
  | None => panic "sleep"
  | Some i =>
      match lk with
      | None => panic "sleep without lk"
      | Some lk =>
          when (bool_decide (lk <> L_ptable)) (acquire L_ptable ;;; release lk) ;;;
          modify (upd_proc i (set_p_chan (Some ch))) ;;;
          set_state i SLEEPING ;;;
          sched ;;;
          let! i := myproc in
          modify (upd_proc i (set_p_chan None)) ;;;
          when (bool_decide (lk <> L_ptable)) (release L_ptable ;;; acquire lk)
      end
  end.

(** One iteration of the loop of [wakeup1]. *)
Definition wake_one (ch : chan) (p : proc) : proc :=
  if bool_decide (p_state p = SLEEPING) && bool_decide (p_chan p = Some ch)
  then set_p_state RUNNABLE p else p.
Definition wakeup1 (ch : chan) : M kernel unit :=
  modify (upd_sched (fun sc => set_procs (map (wake_one ch) (procs sc)) sc)).

Definition wakeup (ch : chan) : M kernel unit :=
  acquire L_ptable ;;; wakeup1 ch ;;; release L_ptable.

Definition kill (pid : Z) : M kernel Z :=
  acquire L_ptable ;;;
  let! ps := gets (fun k => procs (k_sched k)) in
  match find_idx (fun p => p_pid p =? pid) ps with
  | Some i =>
      modify (upd_proc i (set_p_killed 1)) ;;;
      let! p := read_proc i in
      when (bool_decide (p_state p = SLEEPING)) (set_state i RUNNABLE) ;;;
      release L_ptable ;;;
      ret 0
  | None =>
      release L_ptable ;;;
      ret (-1)
  end.

(** ** Field updates of a slot of the process table *)

Lemma procs_upd_proc i f k : procs (k_sched (upd_proc i f k)) = alter f i (procs (k_sched k)).
Proof. done. Qed.
Lemma lookup_upd_proc i f k :
  procs (k_sched (upd_proc i f k)) !! i = f <$> procs (k_sched k) !! i.
Proof. rewrite procs_upd_proc. apply list_lookup_alter_eq. Qed.
Lemma lookup_upd_proc_ne i j f k :
  i <> j -> procs (k_sched (upd_proc i f k)) !! j = procs (k_sched k) !! j.
Proof. intros. rewrite procs_upd_proc. by apply list_lookup_alter_ne. Qed.

(** ** [sched] *)

(** The conditions [sched] checks, as a process that gave up its state
    meets them. *)
Record may_sched (i : nat) (k : kernel) : Prop := {
  ms_held : k_held k = {[L_ptable]};
  ms_cur : curproc (k_sched k) = Some i;
  ms_state : exists p, procs (k_sched k) !! i = Some p /\ p_state p <> RUNNING
}.

Lemma sched_run i k : may_sched i k -> sched k = Switched k (fun k' => Done tt k').
Proof.
  intros [Hh Hc (p & Hp & Hs)]. unfold sched, holding. rewrite bind_gets, Hh.
  rewrite bool_decide_eq_true_2 by set_solver. simpl. rewrite bind_gets, Hh, size_singleton. simpl.
  unfold bind, myproc. rewrite Hc. simpl. unfold read_proc. rewrite Hp. simpl.
  rewrite bool_decide_eq_false_2 by done. simpl. rewrite Hh.
  rewrite bool_decide_eq_false_2 by set_solver. done.
Qed.

(** What a switched-out process can rely on when it runs again: the scheduler
    resumes it with [ptable.lock] held, as the current process, in its slot. *)
Record resumed (i : nat) (k : kernel) : Prop := {
  rs_held : k_held k = {[L_ptable]};
  rs_cur : curproc (k_sched k) = Some i;
  rs_proc : exists p, procs (k_sched k) !! i = Some p
}.

(** ** [sleep] *)

(** The state [sleep] hands to the scheduler, and the state it returns in. *)
Definition asleep (i : nat) (ch : chan) (k : kernel) : kernel :=
  upd_proc i (set_p_state SLEEPING)
    (upd_proc i (set_p_chan (Some ch)) (set_k_held {[L_ptable]} k)).
Definition awake (i : nat) (lk : lock_id) (k : kernel) : kernel :=
  set_k_held {[lk]} (upd_proc i (set_p_chan None) k).

(** The rest of [sleep] after the switch. *)
Definition sleep_rest (lk : lock_id) : M kernel unit :=
  let! i := myproc in
  modify (upd_proc i (set_p_chan None)) ;;;
  when (bool_decide (lk <> L_ptable)) (release L_ptable ;;; acquire lk).

Lemma sleep_rest_run i lk k : resumed i k -> sleep_rest lk k = Done tt (awake i lk k).
Proof.
  intros [Hh Hc _]. unfold sleep_rest, bind at 1, myproc. rewrite Hc. simpl.
  rewrite bind_modify. unfold when, awake. case_bool_decide as Hlk.
  - rewrite bind_release by (simpl; set_solver).
    rewrite acquire_free by (simpl; set_solver). simpl. rewrite Hh.
    rewrite set_k_held_twice. f_equal. f_equal. set_solver.
  - subst lk. unfold ret. f_equal. rewrite <- Hh. by destruct k.
Qed.

Lemma sleep_run i ch lk k :
  curproc (k_sched k) = Some i -> is_Some (procs (k_sched k) !! i) -> k_held k = {[lk]} ->
  sleep ch (Some lk) k = Switched (asleep i ch k) (sleep_rest lk).
Proof.
  intros Hc [p Hp] Hh. unfold sleep. rewrite bind_gets, Hc.
  rewrite (bind_Done _ _ _ tt (set_k_held {[L_ptable]} k)).
  2:{ unfold when. case_bool_decide as Hlk.
      - rewrite bind_acquire by set_solver.
        rewrite release_held by (simpl; set_solver). simpl. rewrite set_k_held_twice, Hh.
        f_equal. f_equal. set_solver.
      - subst lk. unfold ret.
        rewrite <- Hh. by rewrite set_k_held_same. }
  rewrite bind_modify. unfold set_state. rewrite bind_modify. fold (asleep i ch k).
  unfold bind at 1. rewrite (sched_run i).
  - simpl. done.
  - split; [done|done|]. exists (set_p_state SLEEPING (set_p_chan (Some ch) p)).
    unfold asleep. rewrite lookup_upd_proc, lookup_upd_proc. simpl. by rewrite Hp.
Qed.

(** Total correctness of [sleep], against any rely [R] under which the
    process is resumed properly. *)
Lemma sleep_wp (R : kernel -> kernel -> Prop) Q i ch lk k :
  curproc (k_sched k) = Some i -> is_Some (procs (k_sched k) !! i) -> k_held k = {[lk]} ->
  (forall s', R (asleep i ch k) s' -> resumed i s' /\ Q tt (awake i lk s')) ->
  wp R (sleep ch (Some lk)) Q k.
Proof.
  intros Hc Hp Hh HQ. unfold wp. rewrite (sleep_run i) by done. simpl.
  intros s' HR. destruct (HQ s' HR) as [Hres HQ']. by rewrite (sleep_rest_run i).
Qed.

(** ** [wakeup] *)

Lemma lookup_wakeup1 ch k i :
  procs (k_sched (upd_sched (fun sc => set_procs (map (wake_one ch) (procs sc)) sc) k)) !! i
  = wake_one ch <$> procs (k_sched k) !! i.
Proof. simpl. apply list_lookup_fmap. Qed.

Definition woken (ch : chan) (k : kernel) : kernel :=
  upd_sched (fun sc => set_procs (map (wake_one ch) (procs sc)) sc) k.

Lemma wakeup_run ch k : L_ptable ∉ k_held k -> wakeup ch k = Done tt (woken ch k).
Proof.
  intros H. unfold wakeup. rewrite bind_acquire by done.
  unfold wakeup1. rewrite bind_modify. rewrite release_held by (simpl; set_solver).
  simpl. rewrite held_release_acquire by done. by destruct k.
Qed.

(** C10: sleep and wakeup.  Called with exactly [lk] held, [sleep] reaches the
    scheduler with the process SLEEPING on [ch] and [ptable.lock] as the only
    lock held: [lk] is released only once wakers are excluded.  A [wakeup] of
    [ch] in any later state in which the process still sleeps there makes it
    RUNNABLE and leaves every process that does not sleep on [ch] unchanged;
    a process resumed by the scheduler gets [lk] back, alone, and its channel
    is cleared. *)
Theorem sleep_wakeup_handshake i p ch lk k :
  curproc (k_sched k) = Some i -> procs (k_sched k) !! i = Some p -> k_held k = {[lk]} ->
  exists s rest, sleep ch (Some lk) k = Switched s rest /\
    k_held s = {[L_ptable]} /\
    procs (k_sched s) !! i = Some (set_p_state SLEEPING (set_p_chan (Some ch) p)) /\
    (forall k1 p1, L_ptable ∉ k_held k1 -> procs (k_sched k1) !! i = Some p1 ->
       p_state p1 = SLEEPING -> p_chan p1 = Some ch ->
       exists k2, wakeup ch k1 = Done tt k2 /\
         procs (k_sched k2) !! i = Some (set_p_state RUNNABLE p1) /\
         forall j q, procs (k_sched k1) !! j = Some q -> p_chan q <> Some ch \/ p_state q <> SLEEPING ->
           procs (k_sched k2) !! j = Some q) /\
    (forall k1, resumed i k1 -> exists k2, rest k1 = Done tt k2 /\ k_held k2 = {[lk]} /\
       p_chan <$> procs (k_sched k2) !! i = Some None).
Proof.
  intros Hc Hp Hh. exists (asleep i ch k), (sleep_rest lk).
  split; [by apply sleep_run|]. split; [done|]. split; [|split].
  - unfold asleep. rewrite lookup_upd_proc, lookup_upd_proc. simpl. by rewrite Hp.
  - intros k1 p1 H1 Hp1 Hs Hch. exists (woken ch k1). split; [by apply wakeup_run|].
    unfold woken. split.
    + rewrite lookup_wakeup1, Hp1. simpl. unfold wake_one.
      by rewrite !bool_decide_eq_true_2 by done.
    + intros j q Hq Hno. rewrite lookup_wakeup1, Hq. simpl. f_equal. unfold wake_one.
      destruct Hno; repeat case_bool_decide; done.
  - intros k1 Hres. exists (awake i lk k1). split; [by apply sleep_rest_run|]. split; [done|].
    unfold awake. simpl. destruct (rs_proc _ _ Hres) as [q Hq].
    rewrite list_lookup_alter_eq, Hq. done.
Qed.

(** A state with one process, current, holding a lock. *)
Definition demo_running (lk : lock_id) : kernel :=
  set_k_held {[lk]}
    (upd_sched (fun sc => set_curproc (Some 0%nat) sc)
      (upd_proc 0 (fun p => set_p_state RUNNING (set_p_pid 1 p)) zero_kernel)).

Lemma sleep_wakeup_handshake_witness :
  exists s rest, sleep C_log (Some L_log) (demo_running L_log) = Switched s rest /\
    k_held s = {[L_ptable]}.
Proof.
  destruct (sleep_wakeup_handshake 0 (set_p_state RUNNING (set_p_pid 1 zero_proc)) C_log L_log
              (demo_running L_log)) as (s & rest & Hrun & Hheld & _);
    [reflexivity|reflexivity|reflexivity|].
  exists s, rest. split; [exact Hrun|exact Hheld].
Defined.
