(* ===== verification/Pipe.v ===== *)
(** Pipe: pipe.c, less [pipealloc] (which needs the file table: see File.v).

    A pipe is a ring of 512 bytes between two 32-bit counters that only grow
    and wrap around.  The bytes [addr] of a write are read through a function
    from the offset; a read gives the bytes it stores from [addr] on. *)

From S2P Require Import Prelude Kernel StringLib Kalloc ProcCore.

Definition PIPESIZE : Z := 512.

Section Pipe.
Context `{I : Image}.

(** The page of the pipe goes back to the allocator and the pipe is gone. *)
Definition pipeclose (p writable : Z) : M kernel unit :=
  acquire (L_pipe p) ;;;
  let! _pi := read_pipe p in
  (if negb (writable =? 0) then
     modify (upd_pipe p (set_pi_writeopen 0)) ;;;
     wakeup (C_nread p)
   else
     modify (upd_pipe p (set_pi_readopen 0)) ;;;
     wakeup (C_nwrite p)) ;;;
  let! pi := read_pipe p in
  if (pi_readopen pi =? 0) && (pi_writeopen pi =? 0) then
    release (L_pipe p) ;;;
    kfree p ;;;
    modify (fun k => set_k_pipes (delete p (k_pipes k)) k)
  else release (L_pipe p).

(** [proc->killed] *)
Definition proc_killed : M kernel bool :=
  let! i := myproc in
  let! q := read_proc i in
  ret (negb (p_killed q =? 0)).

(** [while(p->nwrite == p->nread + PIPESIZE)]; the result tells whether there
    is room (the caller returns -1 otherwise, with the lock released). *)
Fixpoint pipewrite_full (fuel : nat) (p : Z) : M kernel bool :=
  match fuel with
  | O => exhausted
  | S f =>
      let! pi := read_pipe p in
      if pi_nwrite pi =? u32 (pi_nread pi + PIPESIZE) then
        let! killed := if pi_readopen pi =? 0 then ret true else proc_killed in
        if (killed : bool) then release (L_pipe p) ;;; ret false
        else
          wakeup (C_nread p) ;;;
          sleep (C_nwrite p) (Some (L_pipe p)) ;;;
          pipewrite_full f p
      else ret true
  end.

(** [p->data[p->nwrite++ % PIPESIZE] = b] *)
Definition pipe_put (b : Z) (pi : pipe) : pipe :=
  set_pi_nwrite (u32 (pi_nwrite pi + 1))
    (set_pi_data (<[Z.to_nat (pi_nwrite pi mod PIPESIZE) := b]> (pi_data pi)) pi).

(** The [for] loop from byte [i] on, with [m] bytes to go. *)
Fixpoint pipewrite_loop (fuel : nat) (p : Z) (addr : Z -> Z) (i : Z) (m : nat) : M kernel bool :=
  match m with
  | O => ret true
  | S m =>
      let! ok := pipewrite_full fuel p in
      if (ok : bool) then
        modify (upd_pipe p (pipe_put (addr i))) ;;;
        pipewrite_loop fuel p addr (i + 1) m
      else ret false
  end.

Definition pipewrite (fuel : nat) (p : Z) (addr : Z -> Z) (n : Z) : M kernel Z :=
  acquire (L_pipe p) ;;;
  let! ok := pipewrite_loop fuel p addr 0 (Z.to_nat n) in
  if (ok : bool) then
    wakeup (C_nread p) ;;;
    release (L_pipe p) ;;;
    ret n
  else ret (-1).

(** [while(p->nread == p->nwrite && p->writeopen)] *)
Fixpoint piperead_empty (fuel : nat) (p : Z) : M kernel bool :=
  match fuel with
  | O => exhausted
  | S f =>
      let! pi := read_pipe p in
      if (pi_nread pi =? pi_nwrite pi) && negb (pi_writeopen pi =? 0) then
        let! killed := proc_killed in
        if (killed : bool) then release (L_pipe p) ;;; ret false
        else
          sleep (C_nread p) (Some (L_pipe p)) ;;;
          piperead_empty f p
      else ret true
  end.

(** [addr[i] = p->data[p->nread++ % PIPESIZE]] for at most [m] bytes. *)
Fixpoint piperead_copy (p : Z) (m : nat) : M kernel (list Z) :=
  match m with
  | O => ret []
  | S m =>
      let! pi := read_pipe p in
      if pi_nread pi =? pi_nwrite pi then ret []
      else
        modify (upd_pipe p (set_pi_nread (u32 (pi_nread pi + 1)))) ;;;
        let! rest := piperead_copy p m in
        ret (default 0 (pi_data pi !! Z.to_nat (pi_nread pi mod PIPESIZE)) :: rest)
  end.

(** The result and the bytes stored from [addr] on. *)
Definition piperead (fuel : nat) (p n : Z) : M kernel (Z * list Z) :=
  acquire (L_pipe p) ;;;
  let! ok := piperead_empty fuel p in
  if (ok : bool) then
    let! bytes := piperead_copy p (Z.to_nat n) in
    wakeup (C_nwrite p) ;;;
    release (L_pipe p) ;;;
    ret (Z.of_nat (length bytes), bytes)
  else ret (-1, []).

End Pipe.

(** ** The queue a pipe stands for *)

Definition pipe_len (pi : pipe) : Z := u32 (pi_nwrite pi - pi_nread pi).
Definition pipe_queue (pi : pipe) : list Z :=
  map (fun j => default 0 (pi_data pi !! Z.to_nat ((pi_nread pi + Z.of_nat j) mod PIPESIZE)))
    (seq 0 (Z.to_nat (pipe_len pi))).

Record pipe_ok (pi : pipe) : Prop := {
  po_data : length (pi_data pi) = 512%nat;
  po_nread : 0 <= pi_nread pi < 2 ^ 32;
  po_nwrite : 0 <= pi_nwrite pi < 2 ^ 32;
  po_len : pipe_len pi <= PIPESIZE
}.

Lemma pipe_queue_length pi : Z.of_nat (length (pipe_queue pi)) = pipe_len pi.
Proof.
  unfold pipe_queue. rewrite length_map, length_seq. apply Z2Nat.id.
  pose proof (u32_range (pi_nwrite pi - pi_nread pi)). unfold pipe_len. lia.
Qed.

(** The tests of the loops are tests on the queue. *)
Lemma pipe_full_iff pi :
  pipe_ok pi -> pi_nwrite pi = u32 (pi_nread pi + PIPESIZE) <-> pipe_len pi = PIPESIZE.
Proof.
  intros [_ Hr Hw Hl]. unfold pipe_len, u32, PIPESIZE in *. split.
  - intros ->. rewrite Zminus_mod_idemp_l. rewrite Z.mod_small; lia.
  - intros H. rewrite <- H. rewrite Zplus_mod_idemp_r. rewrite Z.mod_small; lia.
Qed.

Lemma pipe_empty_iff pi :
  pipe_ok pi -> pi_nread pi = pi_nwrite pi <-> pipe_len pi = 0.
Proof.
  intros [_ Hr Hw Hl]. unfold pipe_len, u32 in *. split.
  - intros ->. by rewrite Z.sub_diag.
  - intros H. destruct (Z.lt_ge_cases (pi_nwrite pi) (pi_nread pi)).
    + rewrite <- (Z.mod_unique (pi_nwrite pi - pi_nread pi) (2 ^ 32) (-1)
        (pi_nwrite pi - pi_nread pi + 2 ^ 32)) in H; lia.
    + rewrite Z.mod_small in H; lia.
Qed.

(** The ring's index is insensitive to the wrap of the 32-bit counters. *)
Lemma ring_index x : u32 x mod PIPESIZE = x mod PIPESIZE.
Proof.
  unfold u32, PIPESIZE. change (2 ^ 32) with (512 * 8388608).
  rewrite Z.rem_mul_r by lia. rewrite Z.mul_comm, Z.mod_add by lia. apply Z.mod_mod. lia.
Qed.

Lemma nwrite_index pi : pi_nwrite pi mod PIPESIZE = (pi_nread pi + pipe_len pi) mod PIPESIZE.
Proof.
  unfold pipe_len. rewrite <- Zplus_mod_idemp_r, ring_index, Zplus_mod_idemp_r. f_equal. lia.
Qed.

Lemma pipe_len_range pi : 0 <= pipe_len pi.
Proof. unfold pipe_len. pose proof (u32_range (pi_nwrite pi - pi_nread pi)). lia. Qed.

Lemma pipe_put_len b pi :
  pipe_len pi < PIPESIZE -> pipe_len (pipe_put b pi) = pipe_len pi + 1.
Proof.
  intros H. pose proof (pipe_len_range pi) as H0. unfold pipe_len, pipe_put, PIPESIZE in *. simpl.
  unfold u32 in *. rewrite Zminus_mod_idemp_l.
  replace (pi_nwrite pi + 1 - pi_nread pi) with (pi_nwrite pi - pi_nread pi + 1) by lia.
  rewrite <- Zplus_mod_idemp_l. rewrite Z.mod_small; lia.
Qed.

Lemma pipe_put_ok b pi : pipe_ok pi -> pipe_len pi < PIPESIZE -> pipe_ok (pipe_put b pi).
Proof.
  intros [Hd Hr Hw Hl] Hroom. split; simpl.
  - by rewrite length_insert.
  - done.
  - apply u32_range.
  - rewrite pipe_put_len by done. lia.
Qed.

(** Writing a byte enqueues it. *)
Lemma pipe_put_queue b pi :
  pipe_ok pi -> pipe_len pi < PIPESIZE -> pipe_queue (pipe_put b pi) = pipe_queue pi ++ [b].
Proof.
  intros [Hd Hr Hw Hl] Hroom. pose proof (pipe_len_range pi) as H0.
  assert (Z.to_nat (pi_nwrite pi mod PIPESIZE) < length (pi_data pi))%nat as Hlt.
  { rewrite Hd. pose proof (Z.mod_pos_bound (pi_nwrite pi) PIPESIZE ltac:(done)).
    unfold PIPESIZE in *. lia. }
  unfold pipe_queue. rewrite pipe_put_len by done.
  replace (Z.to_nat (pipe_len pi + 1)) with (Z.to_nat (pipe_len pi) + 1)%nat by lia.
  rewrite seq_app, map_app. simpl. rewrite Z2Nat.id by lia. f_equal.
  - apply map_ext_in. intros j Hj. apply in_seq in Hj. f_equal.
    rewrite list_lookup_insert_ne; [done|]. intros E.
    pose proof (Z.mod_pos_bound (pi_nwrite pi) PIPESIZE ltac:(done)).
    pose proof (Z.mod_pos_bound (pi_nread pi + Z.of_nat j) PIPESIZE ltac:(done)).
    assert ((pi_nread pi + pipe_len pi) mod PIPESIZE = (pi_nread pi + Z.of_nat j) mod PIPESIZE) as E'
      by (rewrite <- nwrite_index; lia).
    unfold PIPESIZE in *.
    pose proof (Z.div_mod (pi_nread pi + pipe_len pi) 512 ltac:(lia)).
    pose proof (Z.div_mod (pi_nread pi + Z.of_nat j) 512 ltac:(lia)). lia.
  - rewrite <- nwrite_index. by rewrite list_lookup_insert_eq.
Qed.

Definition pipe_get (pi : pipe) : pipe := set_pi_nread (u32 (pi_nread pi + 1)) pi.
Definition pipe_head (pi : pipe) : Z :=
  default 0 (pi_data pi !! Z.to_nat (pi_nread pi mod PIPESIZE)).

Lemma pipe_get_len pi : pipe_len pi <> 0 -> pipe_len (pipe_get pi) = pipe_len pi - 1.
Proof.
  intros H. unfold pipe_len, pipe_get in *. simpl. unfold u32 in *.
  pose proof (Z.mod_pos_bound (pi_nwrite pi - pi_nread pi) (2 ^ 32) ltac:(lia)).
  rewrite Zminus_mod_idemp_r.
  replace (pi_nwrite pi - (pi_nread pi + 1)) with (pi_nwrite pi - pi_nread pi - 1) by lia.
  rewrite <- Zminus_mod_idemp_l. rewrite Z.mod_small; lia.
Qed.

Lemma pipe_get_ok pi : pipe_ok pi -> pipe_len pi <> 0 -> pipe_ok (pipe_get pi).
Proof.
  intros [Hd Hr Hw Hl] Hne. split; simpl; try done.
  - apply u32_range.
  - rewrite pipe_get_len by done. lia.
Qed.

(** Reading a byte dequeues it. *)
Lemma pipe_get_queue pi :
  pipe_ok pi -> pipe_len pi <> 0 -> pipe_queue pi = pipe_head pi :: pipe_queue (pipe_get pi).
Proof.
  intros Hok Hne. pose proof (pipe_len_range pi). unfold pipe_queue at 1 2.
  rewrite pipe_get_len by done.
  replace (Z.to_nat (pipe_len pi)) with (S (Z.to_nat (pipe_len pi - 1))) by lia.
  simpl. f_equal.
  - unfold pipe_head. by rewrite Z.add_0_r.
  - rewrite <- seq_shift, map_map. apply map_ext. intros j. simpl.
    rewrite <- (Zplus_mod_idemp_l (u32 _)), ring_index, Zplus_mod_idemp_l.
    do 4 f_equal. lia.
Qed.

(** ** The operations on the queue *)

(** Process [i], not killed, holds the lock of pipe [p], whose state is [pi]. *)
Record at_pipe (i : nat) (p : Z) (k : kernel) (pi : pipe) : Prop := {
  ap_held : k_held k = {[L_pipe p]};
  ap_cur : curproc (k_sched k) = Some i;
  ap_proc : exists q, procs (k_sched k) !! i = Some q /\ p_killed q = 0;
  ap_pipe : k_pipes k !! p = Some pi;
  ap_ok : pipe_ok pi
}.

Lemma at_pipe_read i p k pi : at_pipe i p k pi -> read_pipe p k = Done pi k.
Proof. intros H. unfold read_pipe. by rewrite (ap_pipe _ _ _ _ H). Qed.

Lemma at_pipe_killed i p k pi : at_pipe i p k pi -> proc_killed k = Done false k.
Proof.
  intros [_ Hc (q & Hq & H0) _ _]. unfold proc_killed, bind, myproc. rewrite Hc. simpl.
  unfold read_proc. rewrite Hq. simpl. by rewrite H0.
Qed.

Lemma at_pipe_woken i p k pi ch : at_pipe i p k pi -> at_pipe i p (woken ch k) pi.
Proof.
  intros [Hh Hc (q & Hq & H0) Hp Hok]. split; try done.
  exists (wake_one ch q). unfold woken. rewrite lookup_wakeup1, Hq. split; [done|].
  unfold wake_one. by case_if.
Qed.

Lemma at_pipe_wakeup i p k pi ch : at_pipe i p k pi -> wakeup ch k = Done tt (woken ch k).
Proof. intros H. apply wakeup_run. rewrite (ap_held _ _ _ _ H). set_solver. Qed.

Lemma at_pipe_upd i p k pi f :
  at_pipe i p k pi -> pipe_ok (f pi) -> at_pipe i p (upd_pipe p f k) (f pi).
Proof.
  intros [Hh Hc Hq Hp Hok] Hf. split; try done. simpl. by rewrite lookup_alter_eq, Hp.
Qed.

Lemma at_pipe_enter i p k pi q :
  k_held k = ∅ -> curproc (k_sched k) = Some i -> procs (k_sched k) !! i = Some q ->
  p_killed q = 0 -> k_pipes k !! p = Some pi -> pipe_ok pi ->
  at_pipe i p (set_k_held ({[L_pipe p]} ∪ k_held k) k) pi.
Proof. intros Hh. split; simpl; eauto. rewrite Hh. set_solver. Qed.

(** While a writer sleeps, readers take a prefix of the queue; the writer
    runs again, not killed, when the read end is open and there is room. *)
Definition reader_rely (i : nat) (p : Z) (s s' : kernel) : Prop :=
  resumed i s' /\ (exists q, procs (k_sched s') !! i = Some q /\ p_killed q = 0) /\
  forall pi, k_pipes s !! p = Some pi -> exists pi' m,
    k_pipes s' !! p = Some pi' /\ pipe_ok pi' /\ pi_readopen pi' <> 0 /\
    pipe_len pi' < PIPESIZE /\ pipe_queue pi' = drop m (pipe_queue pi).

(** While a reader sleeps, writers append to the queue; the reader runs
    again, not killed, when there is something to read or no writer is left. *)
Definition writer_rely (i : nat) (p : Z) (s s' : kernel) : Prop :=
  resumed i s' /\ (exists q, procs (k_sched s') !! i = Some q /\ p_killed q = 0) /\
  forall pi, k_pipes s !! p = Some pi -> exists pi' w,
    k_pipes s' !! p = Some pi' /\ pipe_ok pi' /\
    (pipe_len pi' <> 0 \/ pi_writeopen pi' = 0) /\ pipe_queue pi' = pipe_queue pi ++ w.

Lemma at_pipe_awake i p k pi :
  resumed i k -> (exists q, procs (k_sched k) !! i = Some q /\ p_killed q = 0) ->
  k_pipes k !! p = Some pi -> pipe_ok pi -> at_pipe i p (awake i (L_pipe p) k) pi.
Proof.
  intros Hres (q & Hq & H0) Hp Hok. destruct Hres. split; try done.
  exists (set_p_chan None q). unfold awake. simpl. by rewrite list_lookup_alter_eq, Hq.
Qed.

Section PipeFacts.
Context `{I : Image}.

Lemma pipewrite_full_wp i p k pi fuel :
  at_pipe i p k pi -> pi_readopen pi <> 0 -> (2 <= fuel)%nat ->
  wp (reader_rely i p) (pipewrite_full fuel p)
    (fun ok k' => ok = true /\ exists pi' m, at_pipe i p k' pi' /\ pi_readopen pi' <> 0 /\
       pipe_len pi' < PIPESIZE /\ pipe_queue pi' = drop m (pipe_queue pi)) k.
Proof.
  intros Hat Hro Hfuel. destruct fuel as [|[|fuel]]; try lia. cbn [pipewrite_full].
  unfold wp. rewrite (bind_Done _ _ _ _ _ (at_pipe_read _ _ _ _ Hat)).
  destruct (Z.eqb_spec (pi_nwrite pi) (u32 (pi_nread pi + PIPESIZE))) as [Hfull|Hroom].
  - destruct (Z.eqb_spec (pi_readopen pi) 0) as [|_]; [done|].
    rewrite (bind_Done _ _ _ _ _ (at_pipe_killed _ _ _ _ Hat)).
    rewrite (bind_Done _ _ _ _ _ (at_pipe_wakeup _ _ _ _ (C_nread p) Hat)).
    pose proof (at_pipe_woken _ _ _ _ (C_nread p) Hat) as Hat'.
    apply wp_bind. apply (sleep_wp _ _ i).
    + apply Hat'.
    + destruct (ap_proc _ _ _ _ Hat') as (q & Hq & _). by exists q.
    + apply Hat'.
    + intros s' (Hres & Hq & Hpipe). split; [done|].
      destruct (Hpipe pi) as (pi' & m & Hpi' & Hok' & Hro' & Hlen & Hqueue); [apply Hat'|].
      pose proof (at_pipe_awake _ _ _ _ Hres Hq Hpi' Hok') as Haw.
      unfold wp. cbn [pipewrite_full]. rewrite (bind_Done _ _ _ _ _ (at_pipe_read _ _ _ _ Haw)).
      destruct (Z.eqb_spec (pi_nwrite pi') (u32 (pi_nread pi' + PIPESIZE))) as [Hf|_].
      { apply pipe_full_iff in Hf; [lia|done]. }
      simpl. eauto 10.
  - simpl. split; [done|]. exists pi, O. rewrite drop_0. split_and!; try done.
    assert (pipe_len pi <> PIPESIZE) by (intros E; apply Hroom, pipe_full_iff; [apply Hat|done]).
    pose proof (po_len _ (ap_ok _ _ _ _ Hat)). lia.
Qed.

Lemma drop_drop_app {A} (q : list A) m m' b l :
  (m <= length q)%nat ->
  exists m'', drop m' ((drop m q ++ [b]) ++ l) = drop m'' (q ++ b :: l).
Proof.
  intros Hm. exists (m + m')%nat. rewrite <- app_assoc. simpl.
  rewrite <- drop_drop. f_equal. by rewrite drop_app_le.
Qed.

Lemma drop_clip {A} (q : list A) m : exists m', (m' <= length q)%nat /\ drop m q = drop m' q.
Proof.
  destruct (decide (m <= length q)%nat); [eauto|]. exists (length q). split; [done|].
  by rewrite !drop_ge by lia.
Qed.

Lemma load_S m p n : load m p (S n) = m p :: load m (p + 1) n.
Proof.
  unfold load. simpl. f_equal; [f_equal; lia|]. rewrite <- seq_shift, map_map.
  apply map_ext. intros j. f_equal. lia.
Qed.

Lemma pipewrite_loop_wp i p fuel addr n j k pi :
  at_pipe i p k pi -> pi_readopen pi <> 0 -> (2 <= fuel)%nat ->
  wp (reader_rely i p) (pipewrite_loop fuel p addr j n)
    (fun ok k' => ok = true /\ exists pi' m, at_pipe i p k' pi' /\
       pipe_queue pi' = drop m (pipe_queue pi ++ load addr j n)) k.
Proof.
  intros Hat Hro Hfuel. revert j k pi Hat Hro. induction n as [|n IH]; intros j k pi Hat Hro.
  { simpl. split; [done|]. exists pi, O. rewrite app_nil_r. by rewrite drop_0. }
  cbn [pipewrite_loop]. apply wp_bind.
  eapply owp_mono; [|by apply pipewrite_full_wp].
  intros ok k1 (-> & pi1 & m & Hat1 & Hro1 & Hlen1 & Hq1). unfold wp. rewrite bind_modify.
  pose proof (pipe_put_ok (addr j) pi1 (ap_ok _ _ _ _ Hat1) Hlen1) as Hok2.
  pose proof (at_pipe_upd _ _ _ _ (pipe_put (addr j)) Hat1 Hok2) as Hat2.
  eapply owp_mono; [|by apply (IH (j + 1)); [exact Hat2|]].
  intros ok k3 (-> & pi3 & m' & Hat3 & Hq3). split; [done|].
  rewrite pipe_put_queue, Hq1 in Hq3 by (try apply Hat1; done).
  rewrite load_S. destruct (drop_clip (pipe_queue pi) m) as (m1 & Hm1 & E). rewrite E in Hq3.
  destruct (drop_drop_app (pipe_queue pi) m1 m' (addr j) (load addr (j + 1) n) Hm1) as [m'' Hm''].
  exists pi3, m''. split; [done|]. by rewrite Hq3.
Qed.


Lemma piperead_empty_wp i p k pi fuel :
  at_pipe i p k pi -> (2 <= fuel)%nat ->
  wp (writer_rely i p) (piperead_empty fuel p)
    (fun ok k' => ok = true /\ exists pi' w, at_pipe i p k' pi' /\
       pipe_queue pi' = pipe_queue pi ++ w /\
       (pipe_len pi' <> 0 \/ pi_writeopen pi' = 0) /\ (pipe_len pi <> 0 -> w = [])) k.
Proof.
  intros Hat Hfuel. destruct fuel as [|[|fuel]]; try lia. cbn [piperead_empty].
  unfold wp. rewrite (bind_Done _ _ _ _ _ (at_pipe_read _ _ _ _ Hat)).
  pose proof (pipe_empty_iff pi (ap_ok _ _ _ _ Hat)) as Hemp.
  destruct (Z.eqb_spec (pi_nread pi) (pi_nwrite pi)) as [He|Hne];
    [destruct (Z.eqb_spec (pi_writeopen pi) 0) as [Hw|Hw]|]; cbn [andb negb].
  - simpl. split; [done|]. exists pi, []. rewrite app_nil_r. auto.
  - rewrite (bind_Done _ _ _ _ _ (at_pipe_killed _ _ _ _ Hat)).
    apply wp_bind. apply (sleep_wp _ _ i).
    + apply Hat.
    + destruct (ap_proc _ _ _ _ Hat) as (q & Hq & _). by exists q.
    + apply Hat.
    + intros s' (Hres & Hq & Hpipe). split; [done|].
      destruct (Hpipe pi) as (pi' & w & Hpi' & Hok' & Hend & Hqueue); [apply Hat|].
      pose proof (at_pipe_awake _ _ _ _ Hres Hq Hpi' Hok') as Haw.
      unfold wp. cbn [piperead_empty]. rewrite (bind_Done _ _ _ _ _ (at_pipe_read _ _ _ _ Haw)).
      assert ((pi_nread pi' =? pi_nwrite pi') && negb (pi_writeopen pi' =? 0) = false) as ->.
      { destruct Hend as [Hl| ->]; [|by rewrite andb_false_r].
        destruct (Z.eqb_spec (pi_nread pi') (pi_nwrite pi')) as [E|]; [|done].
        apply pipe_empty_iff in E; done. }
      simpl. split; [done|]. exists pi', w. split_and!; try done.
      intros Hn. apply Hemp in He. done.
  - simpl. split; [done|]. exists pi, []. rewrite app_nil_r. split_and!; try done.
    left. intros E. by apply Hemp in E.
Qed.

Lemma piperead_copy_keep i p n k pi :
  at_pipe i p k pi ->
  exists k' pi', piperead_copy p n k = Done (take n (pipe_queue pi)) k' /\ at_pipe i p k' pi' /\
    pipe_queue pi' = drop n (pipe_queue pi) /\ pi_writeopen pi' = pi_writeopen pi.
Proof.
  revert k pi. induction n as [|n IH]; intros k pi Hat.
  { exists k, pi. rewrite take_0, drop_0. done. }
  cbn [piperead_copy]. rewrite (bind_Done _ _ _ _ _ (at_pipe_read _ _ _ _ Hat)).
  pose proof (pipe_empty_iff pi (ap_ok _ _ _ _ Hat)) as Hemp.
  destruct (Z.eqb_spec (pi_nread pi) (pi_nwrite pi)) as [He|Hne].
  - apply Hemp in He. assert (pipe_queue pi = []) as Hq.
    { apply nil_length_inv. pose proof (pipe_queue_length pi). lia. }
    exists k, pi. rewrite Hq. done.
  - assert (pipe_len pi <> 0) as Hl by (intros E; by apply Hemp in E).
    pose proof (at_pipe_upd _ _ _ _ pipe_get Hat (pipe_get_ok _ (ap_ok _ _ _ _ Hat) Hl)) as Hat1.
    destruct (IH _ _ Hat1) as (k' & pi' & Hrun & Hat' & Hq' & Hw').
    exists k', pi'. rewrite (pipe_get_queue pi (ap_ok _ _ _ _ Hat) Hl). simpl.
    split; [|done]. rewrite bind_modify.
    assert (upd_pipe p (set_pi_nread (u32 (pi_nread pi + 1))) k = upd_pipe p pipe_get k) as ->.
    { unfold upd_pipe. f_equal. by rewrite !(gmap_alter_Some _ _ _ _ (ap_pipe _ _ _ _ Hat)). }
    by rewrite (bind_Done _ _ _ _ _ Hrun).
Qed.


End PipeFacts.

(** ** Closing *)

Definition close_end (writable : Z) (pi : pipe) : pipe :=
  if negb (writable =? 0) then set_pi_writeopen 0 pi else set_pi_readopen 0 pi.
Definition other_end (writable : Z) (pi : pipe) : Z :=
  if negb (writable =? 0) then pi_readopen pi else pi_writeopen pi.
Definition end_chan (writable p : Z) : chan :=
  if negb (writable =? 0) then C_nread p else C_nwrite p.

(** The state after one end is closed and the sleepers are awake. *)
Definition closed (p writable : Z) (k : kernel) : kernel :=
  woken (end_chan writable p) (upd_pipe p (close_end writable) k).

Lemma closed_pipe p w k pi :
  k_pipes k !! p = Some pi -> k_pipes (closed p w k) !! p = Some (close_end w pi).
Proof. intros H. simpl. by rewrite lookup_alter_eq, H. Qed.

Lemma pipeclose_run `{I : Image} p w k pi :
  k_held k = ∅ -> k_pipes k !! p = Some pi ->
  pipeclose p w k =
  if other_end w pi =? 0
  then (kfree p ;;; modify (fun k => set_k_pipes (delete p (k_pipes k)) k)) (closed p w k)
  else Done tt (closed p w k).
Proof.
  intros Hh Hp. unfold pipeclose. rewrite bind_acquire by (rewrite Hh; set_solver).
  set (k1 := set_k_held ({[L_pipe p]} ∪ k_held k) k).
  assert (k_held k1 = {[L_pipe p]}) as Hh1 by (unfold k1; simpl; rewrite Hh; set_solver).
  rewrite (bind_Done _ _ _ pi k1) by (unfold read_pipe; simpl; by rewrite Hp).
  rewrite (bind_Done _ _ _ tt (closed p w k1)).
  2:{ unfold closed, end_chan, close_end.
      destruct (negb (w =? 0)); rewrite bind_modify; apply wakeup_run; simpl;
        rewrite Hh; set_solver. }
  rewrite (bind_Done _ _ _ (close_end w pi) (closed p w k1)).
  2:{ unfold read_pipe. by rewrite (closed_pipe p w k1 pi Hp). }
  assert ((pi_readopen (close_end w pi) =? 0) && (pi_writeopen (close_end w pi) =? 0)
          = (other_end w pi =? 0)) as ->.
  { unfold close_end, other_end. destruct (negb (w =? 0)); simpl; [apply andb_true_r|done]. }
  assert (set_k_held (k_held (closed p w k1) ∖ {[L_pipe p]}) (closed p w k1) = closed p w k) as Hrel.
  { simpl. rewrite Hh. replace (({[L_pipe p]} ∪ ∅) ∖ {[L_pipe p]}) with (∅ : gset lock_id) by set_solver.
    rewrite <- Hh. unfold k1, closed, woken. by destruct k. }
  case_if.
  - rewrite bind_release by (simpl; set_solver). by rewrite Hrel.
  - rewrite release_held by (simpl; set_solver). by rewrite Hrel.
Qed.

(** Closing.  Closing one end of a pipe whose other end is open marks it
    closed and keeps the queue and the page; closing the second end frees the
    page, exactly once, after releasing its lock. *)
Theorem pipeclose_frees_once `{I : Image} l pg k pi w x :
  k_held k = ∅ -> k_pipes k !! page_addr pg = Some pi -> kmem_inv k l -> pg ∉ l ->
  end_ <= page_addr pg -> Z.of_nat pg < MAXPAGES -> runs (k_kmem k) !! pg = Some x ->
  (original = false -> ref_count x = 1) ->
  exists k', pipeclose (page_addr pg) w k = Done tt k' /\ k_held k' = ∅ /\
    if other_end w pi =? 0
    then k_pipes k' !! page_addr pg = None /\ kmem_inv k' (pg :: l)
    else k_pipes k' !! page_addr pg = Some (close_end w pi) /\
         pipe_queue (close_end w pi) = pipe_queue pi /\ kmem_inv k' l.
Proof.
  intros Hh Hp Hinv Hnin He Hi Hx Href.
  assert (kmem_inv (closed (page_addr pg) w k) l) as Hinv'.
  { destruct Hinv as [? ? ? ? ?]. by split. }
  rewrite (pipeclose_run _ _ _ _ Hh Hp). case_if.
  - destruct (last_ref_kfree (closed (page_addr pg) w k) pg x l) as (k1 & Hrun & Hinv1 & Hh1 & Hp1);
      try done.
    { intros _. simpl. rewrite Hh. set_solver. }
    rewrite (bind_Done _ _ _ _ _ Hrun). eexists. split; [done|]. simpl. rewrite Hh1.
    split; [done|]. split; [by rewrite Hp1, lookup_delete_eq|].
    destruct Hinv1 as [? ? ? ? ?]. by split.
  - eexists. split; [done|]. split; [done|]. split_and!; [by apply closed_pipe| |done].
    unfold close_end. by destruct (negb (w =? 0)).
Qed.

(** ** A concrete pipe, its counters about to wrap *)

Definition demo_pi : pipe := Pipe (replicate 512 0) (2 ^ 32 - 1) (2 ^ 32 - 1) 1 1.
Definition demo_pipe_kernel : kernel :=
  set_k_pipes {[ page_addr 1024 := demo_pi ]} (upd_sched (set_curproc (Some 0%nat)) (demo_kmem None 1)).

Lemma demo_pi_ok : pipe_ok demo_pi.
Proof. split; [reflexivity|simpl; lia|simpl; lia|vm_compute; discriminate]. Qed.



Lemma pipeclose_frees_once_witness :
  exists k', @pipeclose (demo_image false) (page_addr 1024) 1 demo_pipe_kernel = Done tt k' /\
    k_pipes k' !! page_addr 1024 = Some (close_end 1 demo_pi).
Proof.
  destruct (@pipeclose_frees_once (demo_image false) [] 1024 demo_pipe_kernel demo_pi 1 (Run 1 None))
    as (k' & Hrun & _ & H).
  - reflexivity.
  - reflexivity.
  - pose proof (demo_kmem_inv false None 1 []) as [? ? ? ? ?]; [lia|auto|]. split; assumption.
  - apply not_elem_of_nil.
  - vm_compute. discriminate.
  - change MAXPAGES with 57344. lia.
  - apply demo_kmem_run.
  - intros _. reflexivity.
  - exists k'. split; [exact Hrun|]. exact (proj1 H).
Defined.
