(* ===== verification/Bio.v ===== *)
(** Bio: bio.c, the buffer cache, over a disk driver.

    Buffers are named by their index in [bcache.buf]; index [NBUF] is
    [bcache.head].  The list of buffers is kept as in the source, by [prev]
    and [next] pointers; [ring] relates it to the list of buffer numbers,
    most recently used first. *)

From S2P Require Import Prelude Kernel ProcCore.

(** ** buf.h *)

Definition B_BUSY : Z := 0x1.
Definition B_VALID : Z := 0x2.
Definition B_DIRTY : Z := 0x4.
Definition flag (f x : Z) : bool := negb (Z.land f x =? 0).

(** [bcache.head] *)
Definition HEAD : nat := NBUF.

(** ** The disk driver's interface

    [iderw b] synchronises buffer [b] with the disk. *)
Class DiskDriver := MkDriver { iderw : nat -> M kernel unit }.

(** [disksize]: number of blocks of the disk image. *)
Definition in_disk (disksize bn : Z) : Prop := 0 <= bn < disksize.

(** ** bio.c *)

Section Bio.
Context `{D : DiskDriver}.

(** One iteration of the loop of [binit]. *)
Definition binit_one (b : nat) : M kernel unit :=
  let! h := read_buf HEAD in
  modify (upd_buf b (fun x => set_b_dev (u32 (-1)) (set_b_prev HEAD (set_b_next (b_next h) x)))) ;;;
  let! h := read_buf HEAD in
  modify (upd_buf (b_next h) (set_b_prev b)) ;;;
  modify (upd_buf HEAD (set_b_next b)).
Fixpoint binit_loop (b n : nat) : M kernel unit :=
  match n with
  | O => ret tt
  | S n => binit_one b ;;; binit_loop (S b) n
  end.
Definition binit : M kernel unit :=
  modify (upd_buf HEAD (set_b_prev HEAD)) ;;;
  modify (upd_buf HEAD (set_b_next HEAD)) ;;;
  binit_loop 0 NBUF.

(** [for(b = head.next; b != &head; b = b->next)]: the first buffer that
    satisfies the test, from [cur] on. *)
Fixpoint scan_next (fuel : nat) (test : buf -> bool) (cur : nat) : M kernel (option nat) :=
  match fuel with
  | O => exhausted
  | S f =>
      if bool_decide (cur = HEAD) then ret None
      else
        let! b := read_buf cur in
        if test b then ret (Some cur) else scan_next f test (b_next b)
  end.
Fixpoint scan_prev (fuel : nat) (test : buf -> bool) (cur : nat) : M kernel (option nat) :=
  match fuel with
  | O => exhausted
  | S f =>
      if bool_decide (cur = HEAD) then ret None
      else
        let! b := read_buf cur in
        if test b then ret (Some cur) else scan_prev f test (b_prev b)
  end.

Definition is_block (dev blockno : Z) (b : buf) : bool :=
  (b_dev b =? dev) && (b_blockno b =? blockno).
Definition recyclable (b : buf) : bool :=
  (Z.land (b_flags b) B_BUSY =? 0) && (Z.land (b_flags b) B_DIRTY =? 0).

(** From the label [loop] on; [fuel] bounds the jumps back. *)
Fixpoint bget_loop (fuel : nat) (dev blockno : Z) : M kernel nat :=
  match fuel with
  | O => exhausted
  | S f =>
      let! h := read_buf HEAD in
      let! hit := scan_next (S NBUF) (is_block dev blockno) (b_next h) in
      match hit with
      | Some i =>
          let! b := read_buf i in
          if negb (flag (b_flags b) B_BUSY) then
            modify (upd_buf i (set_b_flags (Z.lor (b_flags b) B_BUSY))) ;;;
            release L_bcache ;;;
            ret i
          else
            sleep (C_buf i) (Some L_bcache) ;;;
            bget_loop f dev blockno
      | None =>
          let! h := read_buf HEAD in
          let! free := scan_prev (S NBUF) recyclable (b_prev h) in
          match free with
          | Some i =>
              modify (upd_buf i (fun b => set_b_flags B_BUSY (set_b_blockno blockno (set_b_dev dev b)))) ;;;
              release L_bcache ;;;
              ret i
          | None => panic "bget: no buffers"
          end
      end
  end.

Definition bget (fuel : nat) (dev blockno : Z) : M kernel nat :=
  acquire L_bcache ;;;
  bget_loop fuel dev blockno.

Definition bread (fuel : nat) (dev blockno : Z) : M kernel nat :=
  let! b := bget fuel dev blockno in
  let! x := read_buf b in
  when (negb (flag (b_flags x) B_VALID)) (iderw b) ;;;
  ret b.

Definition bwrite (b : nat) : M kernel unit :=
  let! x := read_buf b in
  if negb (flag (b_flags x) B_BUSY) then panic "bwrite" else
  modify (upd_buf b (set_b_flags (Z.lor (b_flags x) B_DIRTY))) ;;;
  iderw b.

Definition brelse (b : nat) : M kernel unit :=
  let! x := read_buf b in
  if negb (flag (b_flags x) B_BUSY) then panic "brelse" else
  acquire L_bcache ;;;
  let! x := read_buf b in
  modify (upd_buf (b_next x) (set_b_prev (b_prev x))) ;;;
  let! x := read_buf b in
  modify (upd_buf (b_prev x) (set_b_next (b_next x))) ;;;
  let! h := read_buf HEAD in
  modify (upd_buf b (set_b_next (b_next h))) ;;;
  modify (upd_buf b (set_b_prev HEAD)) ;;;
  let! h := read_buf HEAD in
  modify (upd_buf (b_next h) (set_b_prev b)) ;;;
  modify (upd_buf HEAD (set_b_next b)) ;;;
  let! x := read_buf b in
  modify (upd_buf b (set_b_flags (Z.ldiff (b_flags x) B_BUSY))) ;;;
  wakeup (C_buf b) ;;;
  release L_bcache.

End Bio.

(** ** memide.c: the disk image kept in memory *)

Module Memide.

(** [disksize] is the number of blocks of the linked disk image. *)
Definition iderw (disksize : Z) (b : nat) : M kernel unit :=
  let! x := read_buf b in
  if negb (flag (b_flags x) B_BUSY) then panic "iderw: buf not busy" else
  if Z.land (b_flags x) (Z.lor B_VALID B_DIRTY) =? B_VALID then panic "iderw: nothing to do" else
  if negb (b_dev x =? 1) then panic "iderw: request not for disk 1" else
  if disksize <=? b_blockno x then panic "iderw: block out of range" else
  (if flag (b_flags x) B_DIRTY then
     modify (upd_buf b (set_b_flags (Z.ldiff (b_flags x) B_DIRTY))) ;;;
     modify (fun k => set_k_writes (k_writes k ++ [(b_blockno x, b_data x)])
       (set_k_disk (fun n => if n =? b_blockno x then b_data x else k_disk k n) k))
   else
     modify (fun k => upd_buf b (set_b_data (k_disk k (b_blockno x))) k)) ;;;
  let! x := read_buf b in
  modify (upd_buf b (set_b_flags (Z.lor (b_flags x) B_VALID))).

Definition driver (disksize : Z) : DiskDriver := MkDriver (iderw disksize).

End Memide.

(** ** Doubly linked lists *)

Definition fupd {A} (f : nat -> A) (i : nat) (v : A) : nat -> A :=
  fun j => if bool_decide (j = i) then v else f j.

Lemma fupd_eq {A} (f : nat -> A) i v : fupd f i v i = v.
Proof. unfold fupd. by rewrite bool_decide_eq_true_2. Qed.
Lemma fupd_ne {A} (f : nat -> A) i v j : j <> i -> fupd f i v j = f j.
Proof. unfold fupd. intros. by rewrite bool_decide_eq_false_2. Qed.

(** From [a], following [nx] visits [l] and arrives at [b]; [pv] leads back. *)
Fixpoint linked (nx pv : nat -> nat) (a : nat) (l : list nat) (b : nat) : Prop :=
  match l with
  | [] => nx a = b /\ pv b = a
  | x :: l => nx a = x /\ pv x = a /\ linked nx pv x l b
  end.

Lemma linked_app nx pv a l1 x l2 b :
  linked nx pv a (l1 ++ x :: l2) b <-> linked nx pv a l1 x /\ linked nx pv x l2 b.
Proof. revert a. induction l1 as [|y l1 IH]; intros a; simpl; [tauto|]. rewrite IH. tauto. Qed.

Lemma linked_nx nx pv a l b i v :
  i ∉ a :: l -> linked nx pv a l b -> linked (fupd nx i v) pv a l b.
Proof.
  revert a. induction l as [|x l IH]; intros a; rewrite not_elem_of_cons; intros [Ha Hl]; simpl.
  - by rewrite fupd_ne.
  - rewrite fupd_ne by done. intros (H1 & H2 & H3). split_and!; [done|done|by apply IH].
Qed.

Lemma linked_pv nx pv a l b i v :
  i ∉ l -> i <> b -> linked nx pv a l b -> linked nx (fupd pv i v) a l b.
Proof.
  revert a. induction l as [|x l IH]; intros a; simpl.
  - intros _ Hb. by rewrite fupd_ne.
  - rewrite not_elem_of_cons. intros [Hx Hl] Hb (H1 & H2 & H3).
    rewrite fupd_ne by done. split_and!; [done|done|by apply IH].
Qed.

(** The last element of [a :: l]. *)
Fixpoint last_of (a : nat) (l : list nat) : nat :=
  match l with [] => a | x :: l => last_of x l end.

Lemma last_of_in a l : last_of a l ∈ a :: l.
Proof. revert a. induction l as [|x l IH]; intros a; simpl; [|specialize (IH x)]; set_solver. Qed.

Lemma linked_first nx pv a l b : linked nx pv a l b -> nx a = hd b l.
Proof. by destruct l; intros []. Qed.
Lemma linked_last nx pv a l b : linked nx pv a l b -> pv b = last_of a l.
Proof.
  revert a. induction l as [|x l IH]; intros a; simpl; [by intros []|].
  intros (_ & _ & H). apply (IH _ H).
Qed.

(** Redirecting the last [next] of a segment. *)
Lemma linked_retarget nx pv a l b c :
  NoDup (a :: l) -> b ∉ l -> c ∉ l -> linked nx pv a l b ->
  linked (fupd nx (last_of a l) c) (fupd pv c (last_of a l)) a l c.
Proof.
  revert a. induction l as [|x l IH]; intros a Hn Hb Hc H.
  - simpl. by rewrite !fupd_eq.
  - apply NoDup_cons in Hn as [Ha Hn]. rewrite not_elem_of_cons in Hb, Hc, Ha.
    destruct H as (H1 & H2 & H3).
    cbn [linked last_of]. pose proof (last_of_in x l) as Hin. split_and!.
    + rewrite fupd_ne; [done|]. intros E. rewrite <- E in Hin. set_solver.
    + rewrite fupd_ne by naive_solver. done.
    + apply IH; naive_solver.
Qed.

(** Unlinking [b]: [b->next->prev = b->prev; b->prev->next = b->next]. *)
Lemma linked_remove nx pv h l1 b l2 :
  NoDup (h :: l1 ++ b :: l2) -> linked nx pv h (l1 ++ b :: l2) h ->
  linked (fupd nx (pv b) (nx b)) (fupd pv (nx b) (pv b)) h (l1 ++ l2) h.
Proof.
  intros Hn. rewrite linked_app. intros [H1 H2].
  rewrite (linked_last _ _ _ _ _ H1), (linked_first _ _ _ _ _ H2).
  apply NoDup_cons in Hn as [Hh Hn]. apply NoDup_app in Hn as (Hn1 & Hd & Hn2).
  apply NoDup_cons in Hn2 as [Hb2 Hn2].
  assert (NoDup (h :: l1)) as Hn1' by (apply NoDup_cons; split; [set_solver|done]).
  destruct l2 as [|n l2]; simpl hd.
  - rewrite app_nil_r. apply (linked_retarget _ _ _ _ b); [done|set_solver..|done].
  - destruct H2 as (E1 & E2 & H2). rewrite linked_app. split.
    + apply (linked_retarget _ _ _ _ b); [done|set_solver..|done].
    + pose proof (last_of_in h l1) as Hin. apply NoDup_cons in Hn2 as [Hnl2 _].
      apply linked_pv; [done|set_solver|]. apply linked_nx; [|done].
      apply elem_of_cons in Hin as [->|Hin]; [set_solver|]. specialize (Hd _ Hin). set_solver.
Qed.

(** Linking [b] in front: [b->next = head.next; b->prev = &head;
    head.next->prev = b; head.next = b]. *)
Lemma linked_push nx pv h l b :
  NoDup (h :: b :: l) -> linked nx pv h l h ->
  linked (fupd (fupd nx b (nx h)) h b) (fupd (fupd pv b h) (nx h) b) h (b :: l) h.
Proof.
  intros Hn H. apply NoDup_cons in Hn as [Hh Hn]. apply NoDup_cons in Hn as [Hb Hn].
  pose proof (linked_first _ _ _ _ _ H) as E. cbn [linked].
  split; [by rewrite fupd_eq|]. split.
  { rewrite fupd_ne, fupd_eq; [done|]. rewrite E. destruct l; simpl; set_solver. }
  destruct l as [|n l]; simpl in E; rewrite E.
  - cbn [linked]. rewrite fupd_ne by set_solver. by rewrite !fupd_eq.
  - destruct H as (_ & E2 & H). apply NoDup_cons in Hn as [Hnl _].
    cbn [linked]. rewrite fupd_ne by set_solver. rewrite !fupd_eq.
    split_and!; [done|done|]. apply linked_pv; [set_solver|set_solver|].
    apply linked_nx; [set_solver|]. apply linked_pv; [set_solver|set_solver|].
    apply linked_nx; [set_solver|done].
Qed.

(** ** The cache's invariant *)

Definition getb (k : kernel) (i : nat) : buf := default zero_buf (k_bufs k !! i).
Definition nxt (k : kernel) (i : nat) : nat := b_next (getb k i).
Definition prv (k : kernel) (i : nat) : nat := b_prev (getb k i).

(** [l] lists every buffer once, and the pointers form the ring
    [head, l, head]. *)
Record ring (k : kernel) (l : list nat) : Prop := {
  rg_len : length (k_bufs k) = S NBUF;
  rg_nodup : NoDup l;
  rg_all : forall i, i ∈ l <-> (i < NBUF)%nat;
  rg_linked : linked (nxt k) (prv k) HEAD l HEAD
}.

(** Buffer [i] holds block [bn] of the disk. *)
Definition holds (k : kernel) (i : nat) (bn : Z) : Prop :=
  (i < NBUF)%nat /\ b_dev (getb k i) = ROOTDEV /\ b_blockno (getb k i) = bn.

Record bcache_inv (k : kernel) (l : list nat) : Prop := {
  bi_ring : ring k l;
  bi_unique : forall i j bn, holds k i bn -> holds k j bn -> i = j;
  bi_flags : forall i, 0 <= b_flags (getb k i) < 8;
  bi_data : forall i, length (b_data (getb k i)) = 512%nat;
  bi_disk : forall bn, length (k_disk k bn) = 512%nat;
  bi_coherent : forall i bn, holds k i bn -> flag (b_flags (getb k i)) B_VALID = true ->
    flag (b_flags (getb k i)) B_DIRTY = false -> flag (b_flags (getb k i)) B_BUSY = false ->
    b_data (getb k i) = k_disk k bn;
  bi_dirty_valid : forall i, flag (b_flags (getb k i)) B_DIRTY = true ->
    flag (b_flags (getb k i)) B_VALID = true /\ b_dev (getb k i) = ROOTDEV
}.

(** The eight values of the flags decide every question about them. *)
Lemma flags_cases f : 0 <= f < 8 ->
  f = 0 \/ f = 1 \/ f = 2 \/ f = 3 \/ f = 4 \/ f = 5 \/ f = 6 \/ f = 7.
Proof. lia. Qed.
Ltac flags H :=
  let E := fresh "Eflags" in
  destruct (flags_cases _ H) as [E|[E|[E|[E|[E|[E|[E|E]]]]]]]; rewrite E in *; try done.

(** Reads and updates of a slot. *)
Lemma read_buf_run k i : (i < length (k_bufs k))%nat -> read_buf i k = Done (getb k i) k.
Proof.
  intros H. unfold read_buf, getb. destruct (lookup_lt_is_Some_2 _ _ H) as [x Hx]. by rewrite Hx.
Qed.

Lemma getb_upd_eq k i f :
  (i < length (k_bufs k))%nat -> getb (upd_buf i f k) i = f (getb k i).
Proof.
  intros H. unfold getb. simpl. rewrite list_lookup_alter_eq.
  destruct (lookup_lt_is_Some_2 _ _ H) as [x Hx]. by rewrite Hx.
Qed.
Lemma getb_upd_ne k i j f : i <> j -> getb (upd_buf i f k) j = getb k j.
Proof. intros H. unfold getb. simpl. by rewrite list_lookup_alter_ne. Qed.
Lemma length_upd_buf k i f : length (k_bufs (upd_buf i f k)) = length (k_bufs k).
Proof. simpl. apply length_alter. Qed.

Lemma getb_upd k i f j :
  (i < length (k_bufs k))%nat ->
  getb (upd_buf i f k) j = if bool_decide (j = i) then f (getb k i) else getb k j.
Proof.
  intros H. case_bool_decide as E; [subst; by apply getb_upd_eq|by apply getb_upd_ne].
Qed.

(** Updates that leave the pointers alone keep the ring. *)
Lemma linked_ext nx pv nx' pv' a l b :
  (forall i, nx' i = nx i) -> (forall i, pv' i = pv i) ->
  linked nx pv a l b -> linked nx' pv' a l b.
Proof.
  intros H1 H2. revert a. induction l as [|x l IH]; intros a; simpl; rewrite H1, H2; naive_solver.
Qed.

Lemma ring_upd k l i f :
  (forall b, b_next (f b) = b_next b /\ b_prev (f b) = b_prev b) ->
  ring k l -> ring (upd_buf i f k) l.
Proof.
  intros Hf [Hlen Hn Ha Hr]. split; [by rewrite length_upd_buf|done|done|].
  assert (forall j, b_next (getb (upd_buf i f k) j) = b_next (getb k j) /\
                    b_prev (getb (upd_buf i f k) j) = b_prev (getb k j)) as Hsame.
  { intros j. destruct (decide (i < length (k_bufs k))%nat) as [Hi|Hi].
    - rewrite getb_upd by done. case_bool_decide; [subst; apply Hf|done].
    - unfold getb. simpl. destruct (decide (i = j)) as [<-|Hne].
      + rewrite list_lookup_alter_eq. rewrite lookup_ge_None_2 by lia. done.
      + by rewrite list_lookup_alter_ne. }
  eapply linked_ext; [..|done]; intros j; apply Hsame.
Qed.

(** ** Scanning the list *)

Lemma scan_next_run test k a l fuel :
  (forall i, i ∈ l -> (i < length (k_bufs k))%nat /\ i <> HEAD) ->
  linked (nxt k) (prv k) a l HEAD -> (length l < fuel)%nat ->
  scan_next fuel test (nxt k a) k = Done (List.find (fun i => test (getb k i)) l) k.
Proof.
  revert a fuel. induction l as [|x l IH]; intros a [|fuel] Hl Hk Hf; simpl in Hf; try lia.
  - destruct Hk as [-> _]. done.
  - destruct Hk as (-> & _ & Hk). destruct (Hl x) as [Hx Hne]; [set_solver|].
    cbn [scan_next List.find]. rewrite bool_decide_eq_false_2 by done.
    rewrite (bind_Done _ _ _ _ _ (read_buf_run k x Hx)).
    destruct (test (getb k x)); [done|]. apply IH; [set_solver|done|lia].
Qed.

Lemma linked_rev nx pv a l b : linked nx pv a l b -> linked pv nx b (rev l) a.
Proof.
  revert a. induction l as [|x l IH]; intros a; simpl; [tauto|].
  intros (H1 & H2 & H3). apply linked_app. split; [by apply IH|done].
Qed.

Lemma scan_prev_run test k b l fuel :
  (forall i, i ∈ l -> (i < length (k_bufs k))%nat /\ i <> HEAD) ->
  linked (prv k) (nxt k) b l HEAD -> (length l < fuel)%nat ->
  scan_prev fuel test (prv k b) k = Done (List.find (fun i => test (getb k i)) l) k.
Proof.
  revert b fuel. induction l as [|x l IH]; intros b [|fuel] Hl Hk Hf; simpl in Hf; try lia.
  - destruct Hk as [-> _]. done.
  - destruct Hk as (-> & _ & Hk). destruct (Hl x) as [Hx Hne]; [set_solver|].
    cbn [scan_prev List.find]. rewrite bool_decide_eq_false_2 by done.
    rewrite (bind_Done _ _ _ _ _ (read_buf_run k x Hx)).
    destruct (test (getb k x)); [done|]. apply IH; [set_solver|done|lia].
Qed.

Lemma ring_length k l : ring k l -> length l = NBUF.
Proof.
  intros [_ Hn Ha _]. transitivity (length (seq 0 NBUF)); [|apply length_seq].
  apply Permutation_length.
  apply NoDup_Permutation; [done|apply NoDup_seq|]. intros i. rewrite Ha, elem_of_seq. lia.
Qed.

Lemma ring_elem k l i : ring k l -> i ∈ l -> (i < length (k_bufs k))%nat /\ i <> HEAD.
Proof. intros Hr Hi. apply (rg_all _ _ Hr) in Hi. rewrite (rg_len _ _ Hr). unfold HEAD. lia. Qed.

(** ** [bget] *)

Lemma is_block_holds k l i bn :
  ring k l -> i ∈ l -> is_block ROOTDEV bn (getb k i) = true <-> holds k i bn.
Proof.
  intros Hr Hi. unfold is_block, holds. rewrite andb_true_iff, !Z.eqb_eq.
  apply (rg_all _ _ Hr) in Hi. tauto.
Qed.

Lemma find_hit k l i bn :
  bcache_inv k l -> holds k i bn ->
  List.find (fun i => is_block ROOTDEV bn (getb k i)) l = Some i.
Proof.
  intros Hinv Hh. pose proof (bi_ring _ _ Hinv) as Hr.
  assert (i ∈ l) as Hi by (apply (rg_all _ _ Hr), Hh).
  destruct (List.find _ l) as [j|] eqn:E.
  - apply List.find_some in E as [Hj E]. apply list_elem_of_In in Hj.
    apply (is_block_holds k l j bn Hr Hj) in E. f_equal. by eapply (bi_unique _ _ Hinv).
  - apply list_elem_of_In in Hi. pose proof (List.find_none _ _ E _ Hi) as E'. simpl in E'.
    apply list_elem_of_In in Hi. apply (is_block_holds k l i bn Hr Hi) in Hh. congruence.
Qed.

Lemma find_miss k l bn :
  ring k l -> (forall i, ~ holds k i bn) ->
  List.find (fun i => is_block ROOTDEV bn (getb k i)) l = None.
Proof.
  intros Hr Hno. destruct (List.find _ l) as [j|] eqn:E; [|done].
  apply List.find_some in E as [Hj E]. apply list_elem_of_In in Hj.
  apply (is_block_holds k l j bn Hr Hj) in E. by destruct (Hno j).
Qed.

(** [scan_next] from the head of the ring, with [bcache.lock] held or not. *)
Lemma scan_ring test k l :
  ring k l ->
  (let! h := read_buf HEAD in scan_next (S NBUF) test (b_next h)) k
  = Done (List.find (fun i => test (getb k i)) l) k.
Proof.
  intros Hr. rewrite (bind_Done _ _ _ (getb k HEAD) k).
  - apply scan_next_run; [by intros; eapply ring_elem|apply Hr|]. rewrite (ring_length _ _ Hr). lia.
  - apply read_buf_run. rewrite (rg_len _ _ Hr). unfold HEAD. lia.
Qed.
Lemma scan_ring_back test k l :
  ring k l ->
  (let! h := read_buf HEAD in scan_prev (S NBUF) test (b_prev h)) k
  = Done (List.find (fun i => test (getb k i)) (rev l)) k.
Proof.
  intros Hr. rewrite (bind_Done _ _ _ (getb k HEAD) k).
  - apply scan_prev_run.
    + intros i. rewrite list_elem_of_In, <- in_rev, <- list_elem_of_In. intros. by eapply ring_elem.
    + apply linked_rev, Hr.
    + rewrite length_rev, (ring_length _ _ Hr). lia.
  - apply read_buf_run. rewrite (rg_len _ _ Hr). unfold HEAD. lia.
Qed.

Lemma bind_assoc_run {S A B C} (m : M S A) (f : A -> M S B) (g : B -> M S C) s b s' :
  (let! x := m in f x) s = Done b s' ->
  (let! x := m in let! y := f x in g y) s = g b s'.
Proof.
  intros H. assert (forall o, obind o f = Done b s' -> obind o (fun x => bind (f x) g) = g b s') as Ho.
  { induction o as [a s1|m1 s1|m1 s1|s1 k1 IH|]; simpl; try done.
    intros E. unfold bind. by rewrite E. }
  by apply Ho.
Qed.

Lemma ring_held k l h : ring k l -> ring (set_k_held h k) l.
Proof. intros [? ? ? ?]. by split. Qed.

Lemma release_after k k' lk :
  lk ∉ k_held k' -> k = set_k_held ({[lk]} ∪ k_held k') k' -> release lk k = Done tt k'.
Proof.
  intros H ->. rewrite release_held by (simpl; set_solver). simpl.
  rewrite held_release_acquire by done. by rewrite set_k_held_twice, set_k_held_same.
Qed.

Lemma bget_hit k l i bn fuel :
  bcache_inv k l -> L_bcache ∉ k_held k -> holds k i bn ->
  flag (b_flags (getb k i)) B_BUSY = false ->
  bget (S fuel) ROOTDEV bn k =
  Done i (upd_buf i (set_b_flags (Z.lor (b_flags (getb k i)) B_BUSY)) k).
Proof.
  intros Hinv Hl Hh Hb. unfold bget. rewrite bind_acquire by done. cbn [bget_loop].
  set (k1 := set_k_held _ k). pose proof (ring_held k l ({[L_bcache]} ∪ k_held k) (bi_ring _ _ Hinv)) as Hr1.
  fold k1 in Hr1. erewrite bind_assoc_run by by apply scan_ring.
  change (getb k1) with (getb k). rewrite (find_hit _ _ _ _ Hinv Hh).
  rewrite (bind_Done _ _ _ (getb k i) k1).
  2:{ apply (read_buf_run k1). rewrite (rg_len _ _ Hr1). destruct Hh. lia. }
  rewrite Hb. cbn [negb]. rewrite bind_modify.
  rewrite (bind_Done _ _ _ tt (upd_buf i (set_b_flags (Z.lor (b_flags (getb k i)) B_BUSY)) k)); [done|].
  by apply release_after.
Qed.

(** On a miss the least recently used clean buffer is taken. *)
Lemma bget_miss k l bn i fuel :
  bcache_inv k l -> L_bcache ∉ k_held k -> (forall i, ~ holds k i bn) ->
  List.find (fun i => recyclable (getb k i)) (rev l) = Some i ->
  bget (S fuel) ROOTDEV bn k =
  Done i (upd_buf i (fun b => set_b_flags B_BUSY (set_b_blockno bn (set_b_dev ROOTDEV b))) k).
Proof.
  intros Hinv Hl Hno Hf. unfold bget. rewrite bind_acquire by done. cbn [bget_loop].
  set (k1 := set_k_held _ k). pose proof (ring_held k l ({[L_bcache]} ∪ k_held k) (bi_ring _ _ Hinv)) as Hr1.
  fold k1 in Hr1. erewrite bind_assoc_run by by apply scan_ring.
  change (getb k1) with (getb k). rewrite (find_miss _ _ _ (bi_ring _ _ Hinv) Hno).
  erewrite bind_assoc_run by by apply scan_ring_back.
  change (getb k1) with (getb k). rewrite Hf. rewrite bind_modify.
  erewrite bind_Done; [done|]. by apply release_after.
Qed.

(** The cache is full of busy or dirty buffers: [bget] of a block that is
    not cached panics (the source has no way to wait for a clean buffer). *)
Lemma bget_no_buffers k l bn fuel :
  bcache_inv k l -> L_bcache ∉ k_held k -> (forall i, ~ holds k i bn) ->
  (forall i, (i < NBUF)%nat -> recyclable (getb k i) = false) ->
  exists k', bget (S fuel) ROOTDEV bn k = Panicked "bget: no buffers" k'.
Proof.
  intros Hinv Hl Hno Hrec. pose proof (bi_ring _ _ Hinv) as Hr.
  unfold bget. rewrite bind_acquire by done. cbn [bget_loop].
  set (k1 := set_k_held _ k). pose proof (ring_held k l ({[L_bcache]} ∪ k_held k) Hr) as Hr1.
  fold k1 in Hr1. erewrite bind_assoc_run by by apply scan_ring.
  change (getb k1) with (getb k). rewrite (find_miss _ _ _ Hr Hno).
  erewrite bind_assoc_run by by apply scan_ring_back.
  change (getb k1) with (getb k).
  destruct (List.find _ (rev l)) as [j|] eqn:E; [|by eexists].
  apply List.find_some in E as [Hj E]. apply in_rev in Hj. apply list_elem_of_In in Hj.
  apply (rg_all _ _ Hr) in Hj. rewrite Hrec in E by done. done.
Qed.

(** ** [brelse] *)

(** What a buffer holds, pointers aside. *)
Definition core (b : buf) : Z * Z * Z * list Z := (b_flags b, b_dev b, b_blockno b, b_data b).

Lemma nxt_set_next k i v j :
  (i < length (k_bufs k))%nat -> nxt (upd_buf i (set_b_next v) k) j = fupd (nxt k) i v j.
Proof. intros H. unfold nxt, fupd. rewrite getb_upd by done. by case_bool_decide. Qed.
Lemma prv_set_next k i v j :
  (i < length (k_bufs k))%nat -> prv (upd_buf i (set_b_next v) k) j = prv k j.
Proof. intros H. unfold prv. rewrite getb_upd by done. by case_bool_decide; subst. Qed.
Lemma nxt_set_prev k i v j :
  (i < length (k_bufs k))%nat -> nxt (upd_buf i (set_b_prev v) k) j = nxt k j.
Proof. intros H. unfold nxt. rewrite getb_upd by done. by case_bool_decide; subst. Qed.
Lemma prv_set_prev k i v j :
  (i < length (k_bufs k))%nat -> prv (upd_buf i (set_b_prev v) k) j = fupd (prv k) i v j.
Proof. intros H. unfold prv, fupd. rewrite getb_upd by done. by case_bool_decide. Qed.
Lemma core_set_next k i v j : core (getb (upd_buf i (set_b_next v) k) j) = core (getb k j).
Proof.
  unfold getb. simpl. destruct (decide (i = j)) as [<-|Hne].
  - rewrite list_lookup_alter_eq. by destruct (k_bufs k !! i).
  - by rewrite list_lookup_alter_ne.
Qed.
Lemma core_set_prev k i v j : core (getb (upd_buf i (set_b_prev v) k) j) = core (getb k j).
Proof.
  unfold getb. simpl. destruct (decide (i = j)) as [<-|Hne].
  - rewrite list_lookup_alter_eq. by destruct (k_bufs k !! i).
  - by rewrite list_lookup_alter_ne.
Qed.
Create HintDb bcache.
#[export] Hint Rewrite nxt_set_next prv_set_next nxt_set_prev prv_set_prev
  using (rewrite ?length_upd_buf; assumption) : bcache.
#[export] Hint Rewrite core_set_next core_set_prev : bcache.

(** Unlinking buffer [i] and linking it in front. *)
Definition unlinked (i : nat) (k : kernel) : kernel :=
  upd_buf (prv k i) (set_b_next (nxt k i)) (upd_buf (nxt k i) (set_b_prev (prv k i)) k).
Definition to_front (i : nat) (k : kernel) : kernel :=
  upd_buf HEAD (set_b_next i)
    (upd_buf (nxt k HEAD) (set_b_prev i)
      (upd_buf i (set_b_prev HEAD) (upd_buf i (set_b_next (nxt k HEAD)) k))).

Lemma linked_bounds nx pv a l b P :
  P a -> P b -> (forall i, i ∈ l -> P i) -> linked nx pv a l b ->
  P (nx a) /\ P (pv b) /\ forall i, i ∈ l -> P (nx i) /\ P (pv i).
Proof.
  revert a. induction l as [|x l IH]; intros a Ha Hb Hl; simpl.
  - intros [-> ->]. split_and!; [done|done|]. intros i Hi. by apply not_elem_of_nil in Hi.
  - intros (-> & E & H). assert (P x) as Hx by (apply Hl; set_solver).
    destruct (IH x Hx Hb) as (H1 & H2 & H3); [set_solver|done|]. split_and!; [done|done|].
    intros i. rewrite elem_of_cons. intros [->|Hi]; [by rewrite E|auto].
Qed.

Lemma linked_below nx pv l :
  (forall i, i ∈ l -> (i < NBUF)%nat) -> linked nx pv HEAD l HEAD ->
  (nx HEAD < S NBUF)%nat /\ (pv HEAD < S NBUF)%nat /\
  forall i, i ∈ l -> (nx i < S NBUF)%nat /\ (pv i < S NBUF)%nat.
Proof.
  intros Hl. apply (linked_bounds nx pv HEAD l HEAD (fun j => j < S NBUF)%nat); unfold HEAD; try lia.
  intros i Hi. specialize (Hl i Hi). lia.
Qed.

Lemma ring_bounds k l i :
  ring k l -> (i <= NBUF)%nat ->
  (nxt k i < length (k_bufs k))%nat /\ (prv k i < length (k_bufs k))%nat.
Proof.
  intros [Hlen Hn Ha Hr] Hi. rewrite Hlen.
  destruct (linked_below (nxt k) (prv k) l) as (H1 & H2 & H3); [apply Ha|done|].
  destruct (decide (i = NBUF)) as [->|Hne]; [by split|]. apply H3, Ha. lia.
Qed.

Lemma unlinked_linked k l1 i l2 :
  ring k (l1 ++ i :: l2) ->
  length (k_bufs (unlinked i k)) = S NBUF /\
  linked (nxt (unlinked i k)) (prv (unlinked i k)) HEAD (l1 ++ l2) HEAD /\
  forall j, core (getb (unlinked i k) j) = core (getb k j).
Proof.
  intros Hr. assert (i ∈ l1 ++ i :: l2) as Hi by set_solver.
  apply (rg_all _ _ Hr) in Hi. destruct (ring_bounds _ _ i Hr) as [Hn Hp]; [lia|].
  unfold unlinked. split; [by rewrite !length_upd_buf, (rg_len _ _ Hr)|]. split.
  - eapply linked_ext; [..|apply (linked_remove (nxt k) (prv k) HEAD l1 i l2)].
    + intros j. autorewrite with bcache. unfold fupd. by autorewrite with bcache.
    + intros j. by autorewrite with bcache.
    + apply NoDup_cons. split; [|apply Hr]. intros Hin. apply (rg_all _ _ Hr) in Hin. unfold HEAD in Hin. lia.
    + apply Hr.
  - intros j. by autorewrite with bcache.
Qed.

Lemma to_front_ring k l i :
  length (k_bufs k) = S NBUF -> NoDup (i :: l) -> (forall j, j ∈ i :: l <-> (j < NBUF)%nat) ->
  linked (nxt k) (prv k) HEAD l HEAD ->
  ring (to_front i k) (i :: l) /\ forall j, core (getb (to_front i k) j) = core (getb k j).
Proof.
  intros Hlen Hn Ha Hr.
  assert (i < length (k_bufs k))%nat as Hi by (rewrite Hlen; assert (i < NBUF)%nat by (apply Ha; set_solver); lia).
  assert (HEAD < length (k_bufs k))%nat as Hhd by (rewrite Hlen; unfold HEAD; lia).
  assert (HEAD ∉ i :: l) as Hnh by (intros Hin; apply Ha in Hin; unfold HEAD in Hin; lia).
  destruct (linked_below (nxt k) (prv k) l) as (H1 & _ & _); [intros j Hj; apply Ha; set_solver|done|].
  rewrite <- Hlen in H1.
  unfold to_front. split; [split|].
  - by rewrite !length_upd_buf.
  - done.
  - done.
  - eapply linked_ext; [..|apply (linked_push (nxt k) (prv k) HEAD l i)].
    + intros j. unfold nxt. rewrite !getb_upd by (by rewrite ?length_upd_buf).
      unfold fupd, nxt. repeat case_bool_decide; subst; simpl; done.
    + intros j. unfold prv, fupd. rewrite !getb_upd by (by rewrite ?length_upd_buf).
      repeat case_bool_decide; subst; simpl; done.
    + by apply NoDup_cons.
    + done.
  - intros j. by autorewrite with bcache.
Qed.

Lemma to_front_read k i :
  i <> HEAD -> nxt (upd_buf i (set_b_prev HEAD) (upd_buf i (set_b_next (nxt k HEAD)) k)) HEAD = nxt k HEAD.
Proof. intros H. unfold nxt. by rewrite !getb_upd_ne. Qed.

Definition released (i : nat) (k : kernel) : kernel :=
  woken (C_buf i) (upd_buf i (set_b_flags (Z.ldiff (b_flags (getb k i)) B_BUSY))
    (to_front i (unlinked i k))).

Lemma bind_read_buf {A} i (f : buf -> M kernel A) k :
  (i < length (k_bufs k))%nat -> bind (read_buf i) f k = f (getb k i) k.
Proof. intros H. by rewrite (bind_Done _ _ _ _ _ (read_buf_run _ _ H)). Qed.

(** The pointer assignments of [brelse]. *)
Lemma relink_run {A} i (f : M kernel A) k l :
  ring k l -> (i < NBUF)%nat ->
  (let! x := read_buf i in
   modify (upd_buf (b_next x) (set_b_prev (b_prev x))) ;;;
   let! x := read_buf i in
   modify (upd_buf (b_prev x) (set_b_next (b_next x))) ;;;
   let! h := read_buf HEAD in
   modify (upd_buf i (set_b_next (b_next h))) ;;;
   modify (upd_buf i (set_b_prev HEAD)) ;;;
   let! h := read_buf HEAD in
   modify (upd_buf (b_next h) (set_b_prev i)) ;;;
   modify (upd_buf HEAD (set_b_next i)) ;;;
   f) k = f (to_front i (unlinked i k)).
Proof.
  intros Hr Hi. pose proof (rg_len _ _ Hr) as Hlen.
  destruct (ring_bounds _ _ i Hr) as [Hn Hp]; [lia|].
  assert (i < length (k_bufs k))%nat as Hi' by lia.
  assert (HEAD < length (k_bufs k))%nat as Hhd by (rewrite Hlen; unfold HEAD; lia).
  assert (i <> HEAD) as Hne by (unfold HEAD; lia).
  rewrite bind_read_buf by done. rewrite bind_modify.
  rewrite bind_read_buf by (by rewrite length_upd_buf). rewrite bind_modify.
  change (b_next (getb k i)) with (nxt k i). change (b_prev (getb k i)) with (prv k i).
  set (k1 := upd_buf (nxt k i) (set_b_prev (prv k i)) k).
  assert (b_next (getb k1 i) = nxt k i) as -> by (apply nxt_set_prev; done).
  assert (b_prev (getb k1 i) = prv k i) as ->.
  { change (prv k1 i = prv k i). unfold k1. rewrite prv_set_prev by done.
    unfold fupd. by case_bool_decide. }
  fold (unlinked i k). unfold k1. fold (unlinked i k).
  assert (length (k_bufs (unlinked i k)) = length (k_bufs k)) as Hl2 by (unfold unlinked; by rewrite !length_upd_buf).
  rewrite bind_read_buf by (by rewrite Hl2). rewrite !bind_modify.
  rewrite bind_read_buf by (by rewrite !length_upd_buf, Hl2). rewrite !bind_modify.
  change (b_next (getb (unlinked i k) HEAD)) with (nxt (unlinked i k) HEAD).
  set (k2 := upd_buf i (set_b_prev HEAD) _).
  assert (b_next (getb k2 HEAD) = nxt (unlinked i k) HEAD) as -> by by apply to_front_read.
  done.
Qed.

Lemma brelse_run k l i :
  ring k l -> (i < NBUF)%nat -> L_bcache ∉ k_held k -> L_ptable ∉ k_held k ->
  flag (b_flags (getb k i)) B_BUSY = true ->
  brelse i k = Done tt (released i k).
Proof.
  intros Hr Hi Hlb Hlp Hb. pose proof (rg_len _ _ Hr) as Hlen.
  assert (i < length (k_bufs k))%nat as Hi' by lia.
  unfold brelse. rewrite bind_read_buf, Hb by done. cbn [negb]. rewrite bind_acquire by done.
  rewrite (relink_run i _ _ l) by (try apply ring_held; done).
  set (k1 := set_k_held _ k). set (k2 := to_front i (unlinked i k1)).
  rewrite bind_read_buf by (unfold k2, to_front, unlinked; by rewrite !length_upd_buf).
  rewrite bind_modify.
  assert (b_flags (getb k2 i) = b_flags (getb k i)) as ->.
  { assert (core (getb k2 i) = core (getb k1 i)) as E.
    { unfold k2, to_front, unlinked. by autorewrite with bcache. }
    by injection E. }
  erewrite bind_Done; [|apply wakeup_run; simpl; set_solver].
  apply release_after; [done|reflexivity].
Qed.

Lemma getb_woken c k j : getb (woken c k) j = getb k j.
Proof. done. Qed.
Lemma ring_woken c k l : ring k l -> ring (woken c k) l.
Proof. intros [? ? ? ?]. by split. Qed.

(** The buffers after [brelse]. *)
Lemma released_spec k l1 i l2 :
  ring k (l1 ++ i :: l2) ->
  ring (released i k) (i :: l1 ++ l2) /\
  (forall j, j <> i -> core (getb (released i k) j) = core (getb k j)) /\
  core (getb (released i k) i) =
    (Z.ldiff (b_flags (getb k i)) B_BUSY, b_dev (getb k i), b_blockno (getb k i), b_data (getb k i)).
Proof.
  intros Hr. destruct (unlinked_linked _ _ _ _ Hr) as (Hlen & Hlk & Hc).
  destruct (to_front_ring (unlinked i k) (l1 ++ l2) i) as [Hr' Hc']; [done| | |done|].
  - assert (l1 ++ i :: l2 ≡ₚ i :: l1 ++ l2) as Hperm by (by rewrite Permutation_middle).
    rewrite <- Hperm. apply Hr.
  - intros j. rewrite <- (rg_all _ _ Hr). set_solver.
  - assert (i < length (k_bufs (to_front i (unlinked i k))))%nat as Hi.
    { rewrite (rg_len _ _ Hr'). assert (i < NBUF)%nat by (apply (rg_all _ _ Hr'); set_solver). lia. }
    assert (forall j, core (getb (to_front i (unlinked i k)) j) = core (getb k j)) as Hcc
      by (intros j; by rewrite Hc', Hc).
    unfold released. split; [|split].
    + apply ring_woken. by apply ring_upd.
    + intros j Hj. rewrite getb_woken. by rewrite getb_upd_ne.
    + rewrite getb_woken, getb_upd_eq by done.
      specialize (Hcc i). injection Hcc as E1 E2 E3 E4. unfold core. simpl. by rewrite E2, E3, E4.
Qed.

(** ** The invariant is kept *)

Lemma holds_core k k' j bn : core (getb k' j) = core (getb k j) -> holds k' j bn <-> holds k j bn.
Proof. intros E. injection E as _ E2 E3 _. unfold holds. by rewrite E2, E3. Qed.

(** An operation that changes what buffer [i] holds, and the disk at most at
    the block [i] then holds. *)
Lemma bcache_inv_step k l k' l' i :
  bcache_inv k l -> ring k' l' ->
  (forall bn, ~ holds k' i bn -> k_disk k' bn = k_disk k bn) ->
  (forall bn, length (k_disk k' bn) = 512%nat) ->
  (forall j, j <> i -> core (getb k' j) = core (getb k j)) ->
  0 <= b_flags (getb k' i) < 8 -> length (b_data (getb k' i)) = 512%nat ->
  (flag (b_flags (getb k' i)) B_DIRTY = true ->
     flag (b_flags (getb k' i)) B_VALID = true /\ b_dev (getb k' i) = ROOTDEV) ->
  (forall j bn, j <> i -> holds k' i bn -> ~ holds k j bn) ->
  (forall bn, holds k' i bn -> flag (b_flags (getb k' i)) B_VALID = true ->
     flag (b_flags (getb k' i)) B_DIRTY = false -> flag (b_flags (getb k' i)) B_BUSY = false ->
     b_data (getb k' i) = k_disk k' bn) ->
  bcache_inv k' l'.
Proof.
  intros Hinv Hr Hdisk Hdl Hcore Hf Hd Hdv Hu Hcoh.
  assert (forall j bn, j <> i -> holds k' j bn -> holds k j bn) as Hold.
  { intros j bn Hj Hh. by eapply holds_core; [symmetry; apply Hcore|]. }
  split; try done.
  - intros a b bn Ha Hb. destruct (decide (a = i)) as [->|Hai], (decide (b = i)) as [->|Hbi]; [done|..].
    + by destruct (Hu b bn Hbi Ha); apply Hold.
    + by destruct (Hu a bn Hai Hb); apply Hold.
    + eapply (bi_unique _ _ Hinv); by apply Hold.
  - intros j. destruct (decide (j = i)) as [->|Hj]; [done|].
    pose proof (Hcore j Hj) as E. injection E as -> _ _ _. apply Hinv.
  - intros j. destruct (decide (j = i)) as [->|Hj]; [done|].
    pose proof (Hcore j Hj) as E. injection E as _ _ _ ->. apply Hinv.
  - intros j bn Hh. destruct (decide (j = i)) as [->|Hj]; [by apply Hcoh|].
    pose proof (Hcore j Hj) as E. injection E as -> _ _ ->. intros Hv Hnd Hb.
    apply Hold in Hh; [|done]. rewrite Hdisk; [by apply (bi_coherent _ _ Hinv)|].
    intros Hi. by apply (Hu j bn Hj Hi).
  - intros j. destruct (decide (j = i)) as [->|Hj]; [done|].
    pose proof (Hcore j Hj) as E. injection E as -> -> _ _. apply Hinv.
Qed.

Lemma flag_lor_busy f x :
  0 <= f < 8 -> 0 <= Z.lor f B_BUSY < 8 /\ flag (Z.lor f B_BUSY) B_BUSY = true /\
  (x <> B_BUSY -> x = B_VALID \/ x = B_DIRTY -> flag (Z.lor f B_BUSY) x = flag f x).
Proof. intros H. split; [|split]; [flags H| flags H|]. intros _ [-> | ->]; flags H. Qed.

(** ** The blocks as the file system sees them

    [view k bn] is the current contents of block [bn]: the valid buffer that
    holds it, or else the disk. *)

Definition holder (k : kernel) (bn : Z) : option nat :=
  List.find (fun i => is_block ROOTDEV bn (getb k i)) (seq 0 NBUF).
Definition view (k : kernel) (bn : Z) : list Z :=
  match holder k bn with
  | Some i => if flag (b_flags (getb k i)) B_VALID then b_data (getb k i) else k_disk k bn
  | None => k_disk k bn
  end.
Definition dirty (k : kernel) (bn : Z) : bool :=
  match holder k bn with
  | Some i => flag (b_flags (getb k i)) B_DIRTY
  | None => false
  end.
(** No buffer is busy. *)
Definition quiet (k : kernel) : Prop :=
  forall i, (i < NBUF)%nat -> flag (b_flags (getb k i)) B_BUSY = false.

Lemma holder_Some k l i bn : bcache_inv k l -> holder k bn = Some i <-> holds k i bn.
Proof.
  intros Hinv. unfold holder. split.
  - intros E. apply List.find_some in E as [Hi E]. apply in_seq in Hi.
    unfold is_block in E. b2p. split; [lia|done].
  - intros Hh. destruct (List.find _ _) as [j|] eqn:E.
    + apply List.find_some in E as [Hj E]. apply in_seq in Hj. f_equal.
      eapply (bi_unique _ _ Hinv); [|done]. unfold is_block in E. b2p. split; [lia|done].
    + destruct Hh as (Hi & H1 & H2).
      pose proof (List.find_none _ _ E i ltac:(apply in_seq; lia)) as E'. simpl in E'.
      unfold is_block in E'. rewrite H1, H2, !Z.eqb_refl in E'. done.
Qed.
Lemma holder_None k bn : holder k bn = None <-> forall i, ~ holds k i bn.
Proof.
  unfold holder. split.
  - intros E i (Hi & H1 & H2). pose proof (List.find_none _ _ E i ltac:(apply in_seq; lia)) as E'.
    simpl in E'. unfold is_block in E'. rewrite H1, H2, !Z.eqb_refl in E'. done.
  - intros Hno. destruct (List.find _ _) as [j|] eqn:E; [|done].
    apply List.find_some in E as [Hj E]. apply in_seq in Hj. destruct (Hno j).
    unfold is_block in E. b2p. split; [lia|done].
Qed.

Lemma view_hit k l i bn :
  bcache_inv k l -> holds k i bn -> flag (b_flags (getb k i)) B_VALID = true ->
  view k bn = b_data (getb k i).
Proof.
  intros Hinv Hh Hv. unfold view. apply (holder_Some _ _ _ _ Hinv) in Hh. by rewrite Hh, Hv.
Qed.

(** What an operation on buffer [i], which held block [bn0] before and holds
    [bn] after, does to the views of the blocks. *)
Lemma view_other k l k' l' i bn :
  bcache_inv k l -> bcache_inv k' l' ->
  (forall j, j <> i -> core (getb k' j) = core (getb k j)) ->
  k_disk k' bn = k_disk k bn -> ~ holds k i bn -> ~ holds k' i bn ->
  view k' bn = view k bn /\ dirty k' bn = dirty k bn.
Proof.
  intros Hinv Hinv' Hcore Hdisk Hn Hn'.
  assert (holder k' bn = holder k bn) as E.
  { destruct (holder k bn) as [j|] eqn:E.
    - apply (holder_Some _ _ _ _ Hinv) in E. apply (holder_Some _ _ _ _ Hinv').
      assert (j <> i) by congruence. by eapply holds_core; [apply Hcore|].
    - rewrite holder_None in E. apply holder_None. intros j Hj. apply (E j).
      destruct (decide (j = i)) as [->|]; [done|]. by eapply holds_core; [symmetry; apply Hcore|]. }
  unfold view, dirty. rewrite E. destruct (holder k bn) as [j|] eqn:Ej; [|done].
  apply (holder_Some _ _ _ _ Hinv) in Ej. assert (j <> i) as Hj by congruence.
  pose proof (Hcore j Hj) as Ec. injection Ec as -> _ _ ->. by rewrite Hdisk.
Qed.

(** Processes may have been woken up; nothing else of them changes. *)
Definition restated (p p' : proc) : Prop := exists st, p' = set_p_state st p.
Definition woke (k k' : kernel) : Prop := Forall2 restated (procs (k_sched k)) (procs (k_sched k')).

Lemma woke_same k k' : procs (k_sched k') = procs (k_sched k) -> woke k k'.
Proof. intros E. unfold woke. rewrite E. apply Forall_Forall2_diag, Forall_true. intros p. exists (p_state p). by destruct p. Qed.
Lemma woke_trans k1 k2 k3 : woke k1 k2 -> woke k2 k3 -> woke k1 k3.
Proof.
  unfold woke. rewrite !Forall2_lookup. intros H1 H2 i. specialize (H1 i). specialize (H2 i).
  destruct H1 as [p1 p2 [s2 ->]|]; inversion H2 as [? p3 [s3 ->]|]; subst; constructor. by exists s3.
Qed.
Lemma woke_woken ch k : woke k (woken ch k).
Proof.
  unfold woke, woken. simpl. apply Forall2_fmap_r, Forall_Forall2_diag, Forall_true. intros p. simpl.
  unfold wake_one. case_if; [by eexists|]. exists (p_state p). by destruct p.
Qed.

Definition bframe (k k' : kernel) : Prop :=
  (exists bs ps, k' = set_k_bufs bs (upd_sched (set_procs ps) k)) /\ woke k k'.
Lemma bframe_trans k1 k2 k3 : bframe k1 k2 -> bframe k2 k3 -> bframe k1 k3.
Proof.
  intros [(b1 & p1 & E1) W1] [(b2 & p2 & E2) W2]. split; [|by eapply woke_trans].
  exists b2, p2. by rewrite E2, E1.
Qed.
Lemma bframe_upd_buf k i f : bframe k (upd_buf i f k).
Proof. split; [|by apply woke_same]. eexists _, (procs (k_sched k)). by destruct k as [? []]. Qed.
Lemma bframe_refl k : bframe k k.
Proof. split; [|by apply woke_same]. exists (k_bufs k), (procs (k_sched k)). by destruct k as [? []]. Qed.
