(* ===== verification/BioSpec.v ===== *)
(** BioSpec: what the buffer cache promises its clients (log.c and fs.c), in
    terms of the contents of blocks: [bread], [bwrite] and [brelse] over any
    driver that meets [DriverOk]; memide.c meets it. *)

From S2P Require Import Prelude Kernel ProcCore Bio.

(** ** The driver's promise *)

(** If the buffer is dirty it is written, otherwise it is read; either way it
    ends valid and clean. *)
Definition ide_effect (b : nat) (k : kernel) : kernel :=
  let x := getb k b in
  if flag (b_flags x) B_DIRTY then
    upd_buf b (set_b_flags (Z.lor (Z.ldiff (b_flags x) B_DIRTY) B_VALID))
      (set_k_writes (k_writes k ++ [(b_blockno x, b_data x)])
        (set_k_disk (fun n => if n =? b_blockno x then b_data x else k_disk k n) k))
  else
    upd_buf b (fun x => set_b_flags (Z.lor (b_flags x) B_VALID)
                          (set_b_data (k_disk k (b_blockno x)) x)) k.

Class DriverOk (D : DiskDriver) (disksize : Z) : Prop := {
  iderw_ok : forall b k, (b < length (k_bufs k))%nat ->
    flag (b_flags (getb k b)) B_BUSY = true ->
    Z.land (b_flags (getb k b)) (Z.lor B_VALID B_DIRTY) <> B_VALID ->
    b_dev (getb k b) = ROOTDEV -> in_disk disksize (b_blockno (getb k b)) ->
    iderw b k = Done tt (ide_effect b k)
}.

#[export] Instance memide_ok disksize : DriverOk (Memide.driver disksize) disksize.
Proof.
  split. intros b k Hb Hbusy Hfl Hdev [Hbn Hbn']. unfold iderw, Memide.driver, Memide.iderw.
  rewrite bind_read_buf, Hbusy by done. cbn [negb].
  destruct (Z.eqb_spec (Z.land (b_flags (getb k b)) (Z.lor B_VALID B_DIRTY)) B_VALID); [done|].
  rewrite Hdev. change (ROOTDEV =? 1) with true. cbn [negb].
  destruct (Z.leb_spec disksize (b_blockno (getb k b))); [lia|].
  unfold ide_effect. destruct (flag (b_flags (getb k b)) B_DIRTY).
  - rewrite (bind_Done _ _ _ tt
      (set_k_writes (k_writes k ++ [(b_blockno (getb k b), b_data (getb k b))])
        (set_k_disk (fun n => if n =? b_blockno (getb k b) then b_data (getb k b) else k_disk k n)
          (upd_buf b (set_b_flags (Z.ldiff (b_flags (getb k b)) B_DIRTY)) k)))) by done.
    rewrite bind_read_buf by (simpl; by rewrite length_alter). unfold modify. f_equal.
    change (getb (set_k_writes ?w (set_k_disk ?d ?k)) b) with (getb k b).
    rewrite getb_upd_eq by done. unfold upd_buf. simpl. unfold set_k_bufs. simpl. f_equal.
    apply list_eq. intros j. destruct (decide (b = j)) as [<-|Hne].
    + rewrite !list_lookup_alter_eq. by destruct (k_bufs k !! b).
    + by rewrite !list_lookup_alter_ne.
  - rewrite (bind_Done _ _ _ tt (upd_buf b (set_b_data (k_disk k (b_blockno (getb k b)))) k)) by done.
    rewrite bind_read_buf by (by rewrite length_upd_buf). unfold modify. f_equal.
    rewrite getb_upd_eq by done. unfold upd_buf. simpl. unfold set_k_bufs. simpl. f_equal.
    apply list_eq. intros j. destruct (decide (b = j)) as [<-|Hne].
    + rewrite !list_lookup_alter_eq. unfold getb. by destruct (k_bufs k !! b).
    + by rewrite !list_lookup_alter_ne.
Qed.

(** ** [bget] and [bread] *)

Lemma view_held k l i bn :
  bcache_inv k l -> holds k i bn ->
  view k bn = (if flag (b_flags (getb k i)) B_VALID then b_data (getb k i) else k_disk k bn) /\
  dirty k bn = flag (b_flags (getb k i)) B_DIRTY.
Proof.
  intros Hinv Hh. unfold view, dirty. apply (holder_Some _ _ _ _ Hinv) in Hh. by rewrite Hh.
Qed.
Lemma view_free k bn :
  (forall i, ~ holds k i bn) -> view k bn = k_disk k bn /\ dirty k bn = false.
Proof. intros H. unfold view, dirty. apply holder_None in H. by rewrite H. Qed.

(** The buffer a successful [bget] or [bread] returns, and what else changed:
    nothing but which blocks are cached. *)
Record got (k : kernel) (l : list nat) (bn : Z) (i : nat) (k' : kernel) : Prop := {
  gt_frame : bframe k k';
  gt_inv : bcache_inv k' l;
  gt_holds : holds k' i bn;
  gt_busy : flag (b_flags (getb k' i)) B_BUSY = true;
  gt_idle : flag (b_flags (getb k i)) B_BUSY = false;
  gt_others : forall j, j <> i -> core (getb k' j) = core (getb k j);
  gt_view : forall b, view k' b = view k b;
  gt_dirty : forall b, dirty k' b = dirty k b
}.

(** Block [bn] can be had without waiting: it is cached and not busy, or it
    is not cached and a clean idle buffer exists. *)
Definition available (k : kernel) (bn : Z) : Prop :=
  (exists i, holds k i bn /\ flag (b_flags (getb k i)) B_BUSY = false) \/
  ((forall i, ~ holds k i bn) /\ exists i, (i < NBUF)%nat /\ recyclable (getb k i) = true).

Lemma bget_got_hit k l i bn :
  bcache_inv k l -> holds k i bn -> flag (b_flags (getb k i)) B_BUSY = false ->
  got k l bn i (upd_buf i (set_b_flags (Z.lor (b_flags (getb k i)) B_BUSY)) k).
Proof.
  intros Hinv Hh Hb. pose proof (bi_ring _ _ Hinv) as Hr. pose proof (bi_flags _ _ Hinv i) as Hf.
  assert (i < length (k_bufs k))%nat as Hi by (rewrite (rg_len _ _ Hr); destruct Hh; lia).
  destruct (flag_lor_busy _ B_VALID Hf) as (Hf' & Hbusy & Hv).
  destruct (flag_lor_busy _ B_DIRTY Hf) as (_ & _ & Hd).
  specialize (Hv ltac:(discriminate) ltac:(auto)). specialize (Hd ltac:(discriminate) ltac:(auto)).
  set (k' := upd_buf _ _ k).
  assert (getb k' i = set_b_flags (Z.lor (b_flags (getb k i)) B_BUSY) (getb k i)) as E by by apply getb_upd_eq.
  assert (forall j, j <> i -> core (getb k' j) = core (getb k j)) as Hcore
    by (intros j Hj; unfold k'; by rewrite getb_upd_ne).
  assert (forall b, holds k' i b <-> holds k i b) as Hhi by (intros b; unfold holds; by rewrite E).
  assert (bcache_inv k' l) as Hinv'.
  { eapply (bcache_inv_step k l k' l i); try done; rewrite ?E; simpl.
    - by apply ring_upd.
    - apply (bi_disk _ _ Hinv).
    - exact Hf'.
    - apply (bi_data _ _ Hinv).
    - rewrite Hv, Hd. apply (bi_dirty_valid _ _ Hinv).
    - intros j b Hj Hb1 Hb2. apply Hhi in Hb1. apply Hj. by eapply (bi_unique _ _ Hinv).
    - intros b _ _ _ Hnb. congruence. }
  assert (forall b, view k' b = view k b /\ dirty k' b = dirty k b) as Hvw.
  { intros b. destruct (decide (b = bn)) as [->|Hne].
    - destruct (view_held k l i bn Hinv Hh) as [-> ->].
      destruct (view_held k' l i bn Hinv') as [-> ->]; [by apply Hhi|]. rewrite E. simpl. by rewrite Hv, Hd.
    - assert (~ holds k i b) as Hnb by (intros (_ & _ & H2); destruct Hh as (_ & _ & H3); congruence).
      apply (view_other k l k' l i); try done. by rewrite Hhi. }
  split; try done.
  - apply bframe_upd_buf.
  - by apply Hhi.
  - by rewrite E.
  - apply Hvw.
  - apply Hvw.
Qed.

Lemma recyclable_flags k l i :
  bcache_inv k l -> recyclable (getb k i) = true ->
  flag (b_flags (getb k i)) B_BUSY = false /\ flag (b_flags (getb k i)) B_DIRTY = false.
Proof. intros Hinv. unfold recyclable, flag. intros H. b2p. rewrite H, H0. done. Qed.

Lemma bget_got_miss k l i bn :
  bcache_inv k l -> (forall j, ~ holds k j bn) -> (i < NBUF)%nat -> recyclable (getb k i) = true ->
  got k l bn i (upd_buf i (fun b => set_b_flags B_BUSY (set_b_blockno bn (set_b_dev ROOTDEV b))) k).
Proof.
  intros Hinv Hno Hi Hrec. pose proof (bi_ring _ _ Hinv) as Hr.
  destruct (recyclable_flags _ _ _ Hinv Hrec) as [Hb Hd].
  assert (i < length (k_bufs k))%nat as Hi' by (rewrite (rg_len _ _ Hr); lia).
  set (k' := upd_buf _ _ k).
  assert (getb k' i = set_b_flags B_BUSY (set_b_blockno bn (set_b_dev ROOTDEV (getb k i)))) as E by by apply (getb_upd_eq k i).
  assert (forall j, j <> i -> core (getb k' j) = core (getb k j)) as Hcore
    by (intros j Hj; unfold k'; by rewrite getb_upd_ne).
  assert (forall b, holds k' i b <-> b = bn) as Hhi.
  { intros b. unfold holds. rewrite E. simpl. naive_solver. }
  assert (bcache_inv k' l) as Hinv'.
  { eapply (bcache_inv_step k l k' l i); try done; rewrite ?E; simpl; try done.
    - by apply ring_upd.
    - apply (bi_disk _ _ Hinv).
    - apply (bi_data _ _ Hinv).
    - intros j b Hj Hb1. apply Hhi in Hb1 as ->. apply Hno. }
  assert (forall b, view k' b = view k b /\ dirty k' b = dirty k b) as Hvw.
  { intros b. destruct (decide (b = bn)) as [->|Hne].
    - destruct (view_free k bn Hno) as [-> ->].
      destruct (view_held k' l i bn Hinv') as [-> ->]; [by apply Hhi|]. by rewrite E.
    - destruct (decide (b_dev (getb k i) = ROOTDEV /\ b_blockno (getb k i) = b)) as [[H1 H2]|Hnb].
      + assert (holds k i b) as Hh by done.
        destruct (view_held k l i b Hinv Hh) as [-> ->]. rewrite Hd.
        destruct (view_free k' b) as [-> ->].
        { intros j Hj. destruct (decide (j = i)) as [->|Hji]; [by apply Hhi in Hj|].
          apply Hji. eapply (bi_unique _ _ Hinv); [|done].
          by eapply holds_core; [symmetry; apply Hcore|]. }
        split; [|done]. destruct (flag (b_flags (getb k i)) B_VALID) eqn:Hv; [|done].
        symmetry. by apply (bi_coherent _ _ Hinv).
      + apply (view_other k l k' l i); try done.
        * intros (_ & H1 & H2). by apply Hnb.
        * by rewrite Hhi. }
  split; try done.
  - apply bframe_upd_buf.
  - by apply Hhi.
  - by rewrite E.
  - apply Hvw.
  - apply Hvw.
Qed.

Lemma bget_got k l bn fuel :
  bcache_inv k l -> L_bcache ∉ k_held k -> available k bn ->
  exists i k', bget (S fuel) ROOTDEV bn k = Done i k' /\ got k l bn i k'.
Proof.
  intros Hinv Hl [(i & Hh & Hb)|[Hno (j & Hj & Hrec)]].
  - exists i. eexists. split; [by eapply bget_hit|]. by apply bget_got_hit.
  - pose proof (bi_ring _ _ Hinv) as Hr.
    destruct (List.find (fun i => recyclable (getb k i)) (rev l)) as [i|] eqn:E.
    + exists i. eexists. split; [by eapply bget_miss|].
      apply List.find_some in E as [Hi E]. apply in_rev in Hi. apply list_elem_of_In in Hi.
      apply bget_got_miss; try done. by apply (rg_all _ _ Hr).
    + pose proof (List.find_none _ _ E j) as E'. simpl in E'. rewrite E' in Hrec; [done|].
      apply in_rev. rewrite rev_involutive. apply list_elem_of_In. by apply (rg_all _ _ Hr).
Qed.

(** Reading an invalid buffer from the disk. *)
Lemma ide_read_got k l bn i k1 :
  got k l bn i k1 -> flag (b_flags (getb k1 i)) B_VALID = false ->
  got k l bn i (ide_effect i k1) /\
  flag (b_flags (getb (ide_effect i k1) i)) B_VALID = true /\
  b_data (getb (ide_effect i k1) i) = view k bn.
Proof.
  intros G Hv. pose proof (gt_inv _ _ _ _ _ G) as Hinv. pose proof (bi_ring _ _ Hinv) as Hr.
  pose proof (bi_flags _ _ Hinv i) as Hf. pose proof (gt_holds _ _ _ _ _ G) as Hh.
  assert (i < length (k_bufs k1))%nat as Hi by (rewrite (rg_len _ _ Hr); destruct Hh; lia).
  assert (flag (b_flags (getb k1 i)) B_DIRTY = false) as Hd.
  { destruct (flag (b_flags (getb k1 i)) B_DIRTY) eqn:Hd; [|done].
    apply (bi_dirty_valid _ _ Hinv) in Hd as [Hd _]. congruence. }
  pose proof (gt_busy _ _ _ _ _ G) as Hb.
  assert (b_flags (getb k1 i) = 1) as Hone by (clear -Hf Hv Hd Hb; flags Hf).
  unfold ide_effect. rewrite Hd. set (k2 := upd_buf _ _ k1).
  assert (getb k2 i = set_b_flags 3 (set_b_data (k_disk k1 bn) (getb k1 i))) as E.
  { unfold k2. rewrite getb_upd_eq by done. rewrite Hone.
    destruct Hh as (_ & _ & ->). done. }
  assert (forall j, j <> i -> core (getb k2 j) = core (getb k1 j)) as Hcore
    by (intros j Hj; unfold k2; by rewrite getb_upd_ne).
  assert (forall b, holds k2 i b <-> holds k1 i b) as Hhi by (intros b; unfold holds; by rewrite E).
  assert (bcache_inv k2 l) as Hinv2.
  { eapply (bcache_inv_step k1 l k2 l i); try done; rewrite ?E; simpl; try done.
    - by apply ring_upd.
    - apply (bi_disk _ _ Hinv).
    - apply (bi_disk _ _ Hinv).
    - intros j b Hj Hb1 Hb2. apply Hhi in Hb1. apply Hj. by eapply (bi_unique _ _ Hinv). }
  assert (k_disk k1 bn = view k bn) as Hdisk.
  { rewrite <- (gt_view _ _ _ _ _ G). destruct (view_held _ _ _ _ Hinv Hh) as [-> _]. by rewrite Hv. }
  assert (forall b, view k2 b = view k1 b /\ dirty k2 b = dirty k1 b) as Hvw.
  { intros b. destruct (decide (b = bn)) as [->|Hne].
    - destruct (view_held k1 l i bn Hinv Hh) as [-> ->].
      destruct (view_held k2 l i bn Hinv2) as [-> ->]; [by apply Hhi|]. rewrite E. simpl.
      by rewrite Hv, Hd.
    - assert (~ holds k1 i b) as Hnb by (intros (_ & _ & H2); destruct Hh as (_ & _ & H3); congruence).
      apply (view_other k1 l k2 l i); try done. by rewrite Hhi. }
  split; [|rewrite E; simpl; done]. destruct G. split; try done.
  - eapply bframe_trans; [done|]. apply bframe_upd_buf.
  - by apply Hhi.
  - by rewrite E.
  - intros j Hj. rewrite Hcore by done. auto.
  - intros b. destruct (Hvw b) as [-> _]. auto.
  - intros b. destruct (Hvw b) as [_ ->]. auto.
Qed.

(** ** Changing a busy buffer *)

(** A change to buffer [i], which holds [bn] before and after. *)
Record changed (k : kernel) (l : list nat) (i : nat) (bn : Z) (k' : kernel) (l' : list nat) : Prop := {
  ch_inv : bcache_inv k' l';
  ch_holds : holds k' i bn;
  ch_others : forall j, j <> i -> core (getb k' j) = core (getb k j);
  ch_view : forall b, b <> bn -> view k' b = view k b;
  ch_dirty : forall b, b <> bn -> dirty k' b = dirty k b;
  ch_this : view k' bn = (if flag (b_flags (getb k' i)) B_VALID then b_data (getb k' i) else k_disk k' bn) /\
    dirty k' bn = flag (b_flags (getb k' i)) B_DIRTY
}.

Lemma changed_intro k l i bn k' l' :
  bcache_inv k l -> holds k i bn -> ring k' l' ->
  (forall b, b <> bn -> k_disk k' b = k_disk k b) ->
  (forall b, length (k_disk k' b) = 512%nat) ->
  (forall j, j <> i -> core (getb k' j) = core (getb k j)) ->
  b_dev (getb k' i) = b_dev (getb k i) -> b_blockno (getb k' i) = b_blockno (getb k i) ->
  0 <= b_flags (getb k' i) < 8 -> length (b_data (getb k' i)) = 512%nat ->
  (flag (b_flags (getb k' i)) B_DIRTY = true -> flag (b_flags (getb k' i)) B_VALID = true) ->
  (flag (b_flags (getb k' i)) B_VALID = true -> flag (b_flags (getb k' i)) B_DIRTY = false ->
   flag (b_flags (getb k' i)) B_BUSY = false -> b_data (getb k' i) = k_disk k' bn) ->
  changed k l i bn k' l'.
Proof.
  intros Hinv Hh Hr Hdisk Hdl Hcore Hdev Hblk Hf Hlen Hdv Hcoh.
  assert (forall b, holds k' i b <-> holds k i b) as Hhi
    by (intros b; unfold holds; by rewrite Hdev, Hblk).
  assert (forall b, holds k' i b -> b = bn) as Honly.
  { intros b (_ & _ & H2). destruct Hh as (_ & _ & H3). congruence. }
  assert (bcache_inv k' l') as Hinv'.
  { eapply (bcache_inv_step k l k' l' i); try done.
    - intros b Hb. apply Hdisk. intros ->. by apply Hb, Hhi.
    - intros Hd. split; [auto|]. rewrite Hdev. apply Hh.
    - intros j b Hj Hb1 Hb2. apply Hhi in Hb1. apply Hj. by eapply (bi_unique _ _ Hinv).
    - intros b Hb. apply Honly in Hb as ->. apply Hcoh. }
  assert (forall b, b <> bn -> view k' b = view k b /\ dirty k' b = dirty k b) as Hvw.
  { intros b Hb. apply (view_other k l k' l' i); auto.
    - intros Hi. apply Hb, Honly. by apply Hhi. }
  split; try done.
  - by apply Hhi.
  - intros b Hb. by apply Hvw.
  - intros b Hb. by apply Hvw.
  - eapply view_held; [done|]. by apply Hhi.
Qed.

(** Storing into the data of a busy buffer. *)
Lemma set_data_changed k l i bn d :
  bcache_inv k l -> holds k i bn -> flag (b_flags (getb k i)) B_BUSY = true ->
  length d = 512%nat -> changed k l i bn (upd_buf i (set_b_data d) k) l.
Proof.
  intros Hinv Hh Hb Hd. pose proof (bi_ring _ _ Hinv) as Hr.
  assert (i < length (k_bufs k))%nat as Hi by (rewrite (rg_len _ _ Hr); destruct Hh; lia).
  apply changed_intro; try done; rewrite ?getb_upd_eq by done; simpl; try done.
  - by apply ring_upd.
  - apply (bi_disk _ _ Hinv).
  - intros j Hj. by rewrite getb_upd_ne.
  - apply (bi_flags _ _ Hinv).
  - apply (bi_dirty_valid _ _ Hinv).
  - congruence.
Qed.

(** Marking a valid busy buffer dirty. *)
Lemma set_dirty_changed k l i bn :
  bcache_inv k l -> holds k i bn -> flag (b_flags (getb k i)) B_VALID = true ->
  changed k l i bn (upd_buf i (set_b_flags (Z.lor (b_flags (getb k i)) B_DIRTY)) k) l.
Proof.
  intros Hinv Hh Hv. pose proof (bi_ring _ _ Hinv) as Hr. pose proof (bi_flags _ _ Hinv i) as Hf.
  assert (i < length (k_bufs k))%nat as Hi by (rewrite (rg_len _ _ Hr); destruct Hh; lia).
  apply changed_intro; try done; rewrite ?getb_upd_eq by done; simpl; try done.
  - by apply ring_upd.
  - apply (bi_disk _ _ Hinv).
  - intros j Hj. by rewrite getb_upd_ne.
  - clear -Hf. flags Hf.
  - apply (bi_data _ _ Hinv).
  - clear -Hf Hv. flags Hf.
  - clear -Hf Hv. flags Hf.
Qed.

(** The state after a block write. *)
Definition wframe (bn : Z) (d : list Z) (k k' : kernel) : Prop :=
  exists bs, k' = set_k_bufs bs (set_k_writes (k_writes k ++ [(bn, d)])
    (set_k_disk (fun n => if n =? bn then d else k_disk k n) k)).

Section Spec.
Context `{D : DiskDriver} (disksize : Z) `{!DriverOk D disksize}.

(** [bwrite] puts the data of the buffer on the disk, as one block write. *)
Lemma bwrite_changed k l i bn :
  bcache_inv k l -> holds k i bn -> in_disk disksize bn ->
  flag (b_flags (getb k i)) B_BUSY = true -> flag (b_flags (getb k i)) B_VALID = true ->
  exists k', bwrite i k = Done tt k' /\ changed k l i bn k' l /\
    wframe bn (b_data (getb k i)) k k' /\
    core (getb k' i) = (3, b_dev (getb k i), bn, b_data (getb k i)) /\
    view k' bn = b_data (getb k i) /\ dirty k' bn = false.
Proof.
  intros Hinv Hh Hbn Hb Hv. pose proof (bi_ring _ _ Hinv) as Hr. pose proof (bi_flags _ _ Hinv i) as Hf.
  assert (i < length (k_bufs k))%nat as Hi by (rewrite (rg_len _ _ Hr); destruct Hh; lia).
  unfold bwrite. rewrite bind_read_buf, Hb by done. cbn [negb]. rewrite bind_modify.
  set (k1 := upd_buf i _ k).
  assert (getb k1 i = set_b_flags 7 (getb k i)) as E1.
  { unfold k1. rewrite getb_upd_eq by done. f_equal. clear -Hf Hb Hv. flags Hf. }
  destruct Hh as (Hib & Hdev & Hblk).
  assert (iderw i k1 = Done tt (ide_effect i k1)) as Hrun.
  { apply iderw_ok; rewrite ?E1; try done.
    - unfold k1. by rewrite length_upd_buf.
    - simpl. by rewrite Hblk. }
  unfold ide_effect in Hrun. rewrite E1 in Hrun. cbn [set_b_flags b_flags b_blockno b_data] in Hrun.
  change (flag 7 B_DIRTY) with true in Hrun. change (Z.lor (Z.ldiff 7 B_DIRTY) B_VALID) with 3 in Hrun.
  cbn iota in Hrun. eexists. split; [exact Hrun|]. set (k2 := upd_buf i _ _).
  assert (getb k2 i = set_b_flags 3 (getb k1 i)) as E2.
  { unfold k2. rewrite getb_upd_eq by (simpl; by rewrite length_alter). done. }
  rewrite E1 in E2.
  assert (changed k l i bn k2 l) as C.
  { apply changed_intro; try done; rewrite ?E2; simpl; try done.
    - destruct (ring_upd _ _ i (set_b_flags 3) ltac:(done) (ring_upd _ _ i
        (set_b_flags (Z.lor (b_flags (getb k i)) B_DIRTY)) ltac:(done) Hr)) as [? ? ? ?]. by split.
    - intros b Hne. destruct (Z.eqb_spec b (b_blockno (getb k i))); congruence.
    - intros b. destruct (b =? b_blockno (getb k i)); [apply (bi_data _ _ Hinv)|apply (bi_disk _ _ Hinv)].
    - intros j Hj. unfold k2. rewrite getb_upd_ne by done.
      change (getb (set_k_writes ?w (set_k_disk ?d k1)) j) with (getb k1 j).
      unfold k1. by rewrite getb_upd_ne.
    - apply (bi_data _ _ Hinv). }
  split; [done|]. split; [|split].
  - exists (k_bufs k2). unfold k2. rewrite Hblk. reflexivity.
  - rewrite E2. unfold core. simpl. by rewrite Hblk.
  - destruct (ch_this _ _ _ _ _ _ C) as [-> ->]. rewrite E2. done.
Qed.

(** [bread] returns a busy, valid buffer with the current contents of the
    block. *)
Lemma bread_got k l bn fuel :
  bcache_inv k l -> L_bcache ∉ k_held k -> in_disk disksize bn -> available k bn ->
  exists i k', bread (S fuel) ROOTDEV bn k = Done i k' /\ got k l bn i k' /\
    flag (b_flags (getb k' i)) B_VALID = true /\ b_data (getb k' i) = view k bn.
Proof.
  intros Hinv Hl Hbn Hav. destruct (bget_got k l bn fuel Hinv Hl Hav) as (i & k1 & Hrun & G).
  unfold bread. rewrite (bind_Done _ _ _ _ _ Hrun).
  pose proof (gt_inv _ _ _ _ _ G) as Hinv1. pose proof (gt_holds _ _ _ _ _ G) as Hh.
  assert (i < length (k_bufs k1))%nat as Hi.
  { rewrite (rg_len _ _ (bi_ring _ _ Hinv1)). destruct Hh. lia. }
  rewrite bind_read_buf by done. destruct (flag (b_flags (getb k1 i)) B_VALID) eqn:Hv; cbn [negb when].
  - exists i, k1. split; [done|]. split; [done|]. split; [done|].
    rewrite <- (gt_view _ _ _ _ _ G). symmetry. by apply (view_hit _ l).
  - destruct (ide_read_got _ _ _ _ _ G Hv) as (G2 & Hv2 & Hd2).
    exists i, (ide_effect i k1). rewrite (bind_Done _ _ _ tt (ide_effect i k1)); [done|].
    destruct Hh as (_ & Hdev & Hblk). apply iderw_ok; try done.
    + apply G.
    + intros E. unfold flag in Hv. b2p.
      assert (Z.land (b_flags (getb k1 i)) 2 = 0) as Hv' by done.
      pose proof (bi_flags _ _ Hinv1 i) as Hf. clear -E Hv' Hf. flags Hf.
    + by rewrite Hblk.
Qed.

End Spec.

(** ** [brelse] *)

Lemma released_bframe i k : bframe k (released i k).
Proof.
  split.
  - eexists _, _. unfold released, woken, to_front, unlinked, upd_buf, upd_sched. by destruct k as [? []].
  - unfold released. eapply woke_trans; [|apply woke_woken]. by apply woke_same.
Qed.

Lemma brelse_changed k l i bn :
  bcache_inv k l -> holds k i bn -> L_bcache ∉ k_held k -> L_ptable ∉ k_held k ->
  flag (b_flags (getb k i)) B_BUSY = true ->
  (flag (b_flags (getb k i)) B_VALID = true -> flag (b_flags (getb k i)) B_DIRTY = false ->
     b_data (getb k i) = k_disk k bn) ->
  exists k' l1 l2, l = l1 ++ i :: l2 /\ brelse i k = Done tt k' /\
    changed k l i bn k' (i :: l1 ++ l2) /\ bframe k k' /\
    core (getb k' i) = (Z.ldiff (b_flags (getb k i)) B_BUSY, b_dev (getb k i), bn, b_data (getb k i)) /\
    view k' bn = view k bn /\ dirty k' bn = dirty k bn.
Proof.
  intros Hinv Hh Hlb Hlp Hb Hcoh. pose proof (bi_ring _ _ Hinv) as Hr.
  pose proof (bi_flags _ _ Hinv i) as Hf. pose proof Hh as (Hi & Hdev & Hblk).
  destruct (list_elem_of_split l i) as (l1 & l2 & Hl); [by apply (rg_all _ _ Hr)|].
  rewrite Hl in Hr. destruct (released_spec _ _ _ _ Hr) as (Hr' & Hcore & Hci).
  exists (released i k), l1, l2. split; [done|]. split; [by eapply brelse_run|].
  pose proof Hci as Hci'. injection Hci' as E1 E2 E3 E4.
  assert (changed k l i bn (released i k) (i :: l1 ++ l2)) as C.
  { apply changed_intro; rewrite ?E1, ?E2, ?E3, ?E4; try done.
    - apply (bi_disk _ _ Hinv).
    - clear -Hf. flags Hf.
    - apply (bi_data _ _ Hinv).
    - pose proof (bi_dirty_valid _ _ Hinv i) as Hdv. clear -Hf Hdv. flags Hf.
      all: intros _; by apply Hdv.
    - intros Hv Hd _. apply Hcoh; clear -Hf Hv Hd; flags Hf. }
  split; [done|]. split; [apply released_bframe|]. split; [by rewrite Hci, Hblk|].
  destruct (ch_this _ _ _ _ _ _ C) as [-> ->]. destruct (view_held k l i bn Hinv Hh) as [-> ->].
  rewrite E1, E4. change (k_disk (released i k) bn) with (k_disk k bn).
  clear -Hf. flags Hf.
Qed.

(** ** The cache as its clients see it *)

(** An idle clean block is on the disk as the cache has it. *)
Lemma view_clean k l bn :
  bcache_inv k l -> available k bn -> dirty k bn = false -> view k bn = k_disk k bn.
Proof.
  intros Hinv [(i & Hh & Hb)|[Hno _]] Hd; [|by apply view_free].
  destruct (view_held k l i bn Hinv Hh) as [-> Hd']. rewrite Hd' in Hd.
  destruct (flag (b_flags (getb k i)) B_VALID) eqn:Hv; [|done]. by apply (bi_coherent _ _ Hinv).
Qed.

Section Client.
Context `{D : DiskDriver} (disksize : Z) `{!DriverOk D disksize} (fuel : nat).

(** C5: the buffer cache.  [bread] of a block that is cached and idle, or for
    which a clean idle buffer exists, returns a busy valid buffer with the
    current contents of the block, and no other buffer holds that block;
    giving it back with [brelse] makes it the most recently used buffer.
    Over the pair of calls the cache invariant is kept and neither the
    contents nor the dirty state of any block changes. *)
Theorem bread_brelse_neutral k l bn :
  bcache_inv k l -> L_bcache ∉ k_held k -> L_ptable ∉ k_held k -> in_disk disksize bn ->
  available k bn ->
  exists i k1 k2 l1 l2, bread (S fuel) ROOTDEV bn k = Done i k1 /\
    b_data (getb k1 i) = view k bn /\ flag (b_flags (getb k1 i)) B_VALID = true /\
    flag (b_flags (getb k1 i)) B_BUSY = true /\ (forall j, holds k1 j bn <-> j = i) /\
    brelse i k1 = Done tt k2 /\ l = l1 ++ i :: l2 /\ bcache_inv k2 (i :: l1 ++ l2) /\
    k_disk k2 = k_disk k /\ k_held k2 = k_held k /\
    forall c, view k2 c = view k c /\ dirty k2 c = dirty k c.
Proof.
  intros Hinv Hlb Hlp Hbn Hav.
  destruct (bread_got disksize k l bn fuel Hinv Hlb Hbn Hav) as (i & k1 & Hrun & G & Hv & Hd).
  destruct (gt_frame _ _ _ _ _ G) as [(bs & sc & Ek) _].
  destruct (brelse_changed k1 l i bn) as (k2 & l1 & l2 & Hl & Hrun2 & C & [(bs2 & sc2 & Ek2) _] & _ & Hv2 & Hd2).
  { apply G. } { apply G. } { by rewrite Ek. } { by rewrite Ek. } { apply G. }
  { intros _ Hdy. rewrite Hd, Ek. simpl. eapply view_clean; try done.
    rewrite <- (gt_dirty _ _ _ _ _ G). by destruct (view_held k1 l i bn (gt_inv _ _ _ _ _ G) (gt_holds _ _ _ _ _ G)) as [_ ->]. }
  exists i, k1, k2, l1, l2. split_and!; try done.
  - apply G.
  - intros j. split; [|intros ->; apply G]. intros Hj.
    eapply (bi_unique _ _ (gt_inv _ _ _ _ _ G)); [done|apply G].
  - apply C.
  - by rewrite Ek2, Ek.
  - by rewrite Ek2, Ek.
  - intros c. rewrite <- (gt_view _ _ _ _ _ G), <- (gt_dirty _ _ _ _ _ G).
    destruct (decide (c = bn)) as [->|Hne]; [split; [exact Hv2|exact Hd2]|].
    split; [apply (ch_view _ _ _ _ _ _ C _ Hne)|apply (ch_dirty _ _ _ _ _ _ C _ Hne)].
Qed.

End Client.

(** ** A concrete cache: after [binit] *)

Definition demo_cache : kernel :=
  match binit zero_kernel with Done _ k => k | _ => zero_kernel end.
(** The invariant of a cache of which only buffer 0 may hold a block is
    decided by looking at the 31 slots. *)
Definition slots_ok (k : kernel) : bool :=
  forallb (fun i => bool_decide (0 <= b_flags (getb k i) < 8) &&
                    bool_decide (length (b_data (getb k i)) = 512%nat) &&
                    negb (flag (b_flags (getb k i)) B_BUSY) &&
                    (bool_decide (i = 0%nat) ||
                     negb (b_dev (getb k i) =? ROOTDEV) && negb (flag (b_flags (getb k i)) B_DIRTY)))
    (seq 0 31).

Lemma slots_get k i :
  slots_ok k = true -> length (k_bufs k) = 31%nat ->
  0 <= b_flags (getb k i) < 8 /\ length (b_data (getb k i)) = 512%nat /\
  flag (b_flags (getb k i)) B_BUSY = false /\
  (i <> 0%nat -> (b_dev (getb k i) <> ROOTDEV) /\ flag (b_flags (getb k i)) B_DIRTY = false).
Proof.
  intros H Hlen. destruct (decide (i < 31)%nat) as [Hi|Hi].
  - unfold slots_ok in H. rewrite forallb_forall in H. specialize (H i ltac:(apply in_seq; lia)).
    apply andb_prop in H as [H H4]. b2p. split_and!; try done; try lia.
    intros Hne. rewrite bool_decide_eq_false_2 in H4 by done. simpl in H4. by b2p.
  - unfold getb. rewrite lookup_ge_None_2 by lia. simpl. split_and!; try done; try lia.
Qed.

Lemma slots_inv k l :
  slots_ok k = true -> ring k l -> (forall bn, length (k_disk k bn) = 512%nat) ->
  (flag (b_flags (getb k 0)) B_DIRTY = true /\ flag (b_flags (getb k 0)) B_VALID = true /\
   b_dev (getb k 0) = ROOTDEV) \/ flag (b_flags (getb k 0)) B_VALID = false /\ flag (b_flags (getb k 0)) B_DIRTY = false ->
  bcache_inv k l /\ quiet k.
Proof.
  intros Hs Hr Hdisk H0. pose proof (rg_len _ _ Hr) as Hlen.
  assert (forall i bn, holds k i bn -> i = 0%nat) as Hh.
  { intros i bn (_ & Hd & _). destruct (decide (i = 0%nat)); [done|].
    destruct (slots_get k i Hs Hlen) as (_ & _ & _ & H). by destruct (H n). }
  split; [split|]; try done.
  - intros i j bn Hi Hj. apply Hh in Hi, Hj. congruence.
  - intros i. apply (slots_get k i Hs Hlen).
  - intros i. apply (slots_get k i Hs Hlen).
  - intros i bn Hi Hv Hd. apply Hh in Hi as ->. destruct H0 as [(Hd' & _)|[Hv' _]]; congruence.
  - intros i Hd. destruct (decide (i = 0%nat)) as [->|Hne].
    + destruct H0 as [(_ & ? & ?)|[_ ?]]; [done|congruence].
    + destruct (slots_get k i Hs Hlen) as (_ & _ & _ & H). destruct (H Hne). congruence.
  - intros i _. apply (slots_get k i Hs Hlen).
Qed.

Definition demo_order : list nat := rev (seq 0 30).

Lemma demo_order_all i : i ∈ demo_order <-> (i < NBUF)%nat.
Proof. unfold demo_order. rewrite list_elem_of_In, <- in_rev, in_seq. unfold NBUF. lia. Qed.
Lemma demo_order_nodup : NoDup demo_order.
Proof. apply NoDup_ListNoDup. apply NoDup_rev. apply seq_NoDup. Qed.

Lemma demo_cache_ring : ring demo_cache demo_order.
Proof.
  split; [reflexivity|apply demo_order_nodup|apply demo_order_all|].
  vm_compute. repeat split.
Qed.
Lemma demo_cache_inv : bcache_inv demo_cache demo_order /\ quiet demo_cache.
Proof.
  apply slots_inv; [vm_compute; reflexivity|apply demo_cache_ring|reflexivity|].
  right. vm_compute. repeat split.
Qed.

Lemma bread_brelse_neutral_witness :
  exists i k1, @bread (Memide.driver 200) 1 ROOTDEV 5 demo_cache = Done i k1 /\
    b_data (getb k1 i) = view demo_cache 5.
Proof.
  destruct (@bread_brelse_neutral (Memide.driver 200) 200 (memide_ok 200) 0 demo_cache demo_order 5)
    as (i & k1 & k2 & l1 & l2 & Hrun & Hd & _).
  - apply demo_cache_inv.
  - apply not_elem_of_empty.
  - apply not_elem_of_empty.
  - split; [discriminate|reflexivity].
  - right. split.
    + intros i Hi. apply holder_Some with (l := demo_order) in Hi; [|apply demo_cache_inv].
      vm_compute in Hi. discriminate Hi.
    + exists 0%nat. split; [unfold NBUF; lia|vm_compute; reflexivity].
  - exists i, k1. split; [exact Hrun|exact Hd].
Defined.
