(* ===== verification/FsLayout.v ===== *)
(** FsLayout: fs.h, the on-disk format of the block-group file system (the
    build without [xv6ffs]), and [readsb] of fs.c.

    The disk is: boot block, super block, log, and block groups; a group is a
    bitmap block, the blocks of its inodes, and its data blocks. *)

From S2P Require Import Prelude Kernel StringLib Bytes ProcCore Bio.

(** ** Constants *)

Definition ROOTINO : Z := 1.
Definition NDIRECT : Z := 12.
Definition NINDIRECT : Z := BSIZE / 4.
Definition MAXFILE : Z := NDIRECT + NINDIRECT.
(** [sizeof(struct dinode)], [sizeof(struct ff_stats)], [sizeof(struct dirent)] *)
Definition DINODE_SIZE : Z := 64.
Definition STATS_SIZE : Z := 8.
Definition DIRSIZ : Z := 14.
Definition DIRENT_SIZE : Z := 16.
Definition IPB : Z := BSIZE / DINODE_SIZE.
Definition BLOCKGROUPS : Z := 25.
Definition BITSPERBLOCK : Z := BSIZE * 8.
Definition NDATABLOCKS : Z := BITSPERBLOCK - BITSPERBLOCK mod MAXFILE.
Definition BPB : Z := NDATABLOCKS.
Definition IPBG : Z := NDATABLOCKS / MAXFILE.
Definition NINODEBLOCKS : Z := IPBG / IPB + 1.
Definition BPBG : Z := NINODEBLOCKS + NDATABLOCKS + 1.
Definition FSSIZE : Z := BLOCKGROUPS * BPBG + LOGSIZE + 2.

(** ** The relative macros; arithmetic on [uint] *)

Definition BGROUP (i : Z) (sb : superblock) : Z := i / sb_ipbg sb.
Definition iNODE_HEAD (i : Z) (sb : superblock) : Z := u32 (i / sb_ipbg sb * sb_ipbg sb).
Definition BMAP_HEAD (piNode : Z) (sb : superblock) : Z :=
  u32 (piNode / sb_ipbg sb * sb_bpbg sb + sb_bgstart sb).
Definition DINODEOFFSET (inum : Z) (sb : superblock) : Z := (inum mod sb_ipbg sb) mod IPB.
Definition IBLOCK (i : Z) (sb : superblock) : Z :=
  u32 (i / sb_ipbg sb * sb_bpbg sb + (i mod sb_ipbg sb) / IPB + 1 + sb_bgstart sb).
Definition BBLOCK (b : Z) (sb : superblock) : Z := u32 (b / BPB * sb_bpbg sb + sb_bgstart sb).
Definition DBLOCK (b : Z) (sb : superblock) : Z :=
  u32 (b / BPB * sb_bpbg sb + b mod BPB + NINODEBLOCKS + sb_bgstart sb).
Definition STATBLOCK (m : Z) (sb : superblock) : Z :=
  u32 (sb_bgstart sb + m * sb_bpbg sb + NINODEBLOCKS).
(** The offset of the statistics in their block. *)
Definition STATOFF : nat := Z.to_nat (BSIZE - STATS_SIZE).
Definition STAT_PERCENTAGE_ABS (totalBlocks : Z) (sb : superblock) : Z :=
  u32 (totalBlocks * 100) / sb_ipbg sb.

(** ** The super block *)

(** [memmove] of the block into the super block *)
Definition decode_sb (d : list Z) : superblock :=
  Superblock (get32 d 0) (get32 d 4) (get32 d 8) (get32 d 12) (get32 d 16)
    (get32 d 20) (get32 d 24) (get32 d 28) (get32 d 32).

Definition readsb `{D : DiskDriver} (fuel : nat) (dev : Z) : M kernel superblock :=
  let! bp := bread fuel dev 1 in
  let! b := read_buf bp in
  brelse bp ;;;
  ret (decode_sb (b_data b)).
