(* ===== verification/IdeDisk.v ===== *)
(** IdeDisk: the IDE disk driver, ide.c.

    A buffer waits in the queue until the controller has worked on it; the
    controller is given one command at a time and raises an interrupt when it
    is done.  [disk_done] is the controller finishing its command; [err] says
    which commands it reports as failed.  The wait for the controller in
    [idewait] is taken to end. *)

From S2P Require Import Prelude Kernel ProcCore Bio BioSpec FsLayout.

Definition SECTOR_SIZE : Z := 512.
Definition sector_per_block : Z := BSIZE ÷ SECTOR_SIZE.

(** The sector number the four registers hold. *)
Definition lba (sector : Z) : Z :=
  Z.land sector 0xff + 256 * Z.land (Z.shiftr sector 8) 0xff + 65536 * Z.land (Z.shiftr sector 16) 0xff +
  16777216 * Z.land (Z.shiftr sector 24) 0x0f.

Section Ide.
Context (err : ide_cmd -> bool).

Definition disk_at (disk sector : Z) (k : kernel) : list Z :=
  if disk =? 0 then boot_disk (k_ide k) sector else k_disk k sector.

(** The controller: a write reaches the disk. *)
Definition disk_done : M kernel unit := modify (fun k =>
  match ide_busy (k_ide k) with
  | Some (Ide_write disk sector data) =>
      if disk =? 0 then upd_ide (set_boot_disk (fun n => if n =? sector then data else boot_disk (k_ide k) n)) k
      else set_k_writes (k_writes k ++ [(sector, data)])
             (set_k_disk (fun n => if n =? sector then data else k_disk k n) k)
  | _ => k
  end).

(** [idewait(1)] after a command: -1 when the controller reports an error. *)
Definition idewait_err : M kernel Z :=
  gets (fun k => match ide_busy (k_ide k) with Some c => if err c then -1 else 0 | None => 0 end).

(** [None] is a null pointer. *)
Definition idestart (ob : option nat) : M kernel unit :=
  match ob with
  | None => panic "idestart"
  | Some b =>
      let! x := read_buf b in
      if FSSIZE <=? b_blockno x then panic "incorrect blockno" else
      let sector := i32 (b_blockno x * sector_per_block) in
      if 7 <? sector_per_block then panic "idestart" else
      let disk := Z.land (b_dev x) 1 in
      modify (upd_ide (set_ide_busy (Some
        (if flag (b_flags x) B_DIRTY then Ide_write disk (lba sector) (b_data x) else Ide_read disk (lba sector)))))
  end.

(** [insl(0x1f0, b->data, BSIZE/4)] *)
Definition insl (b : nat) : M kernel unit := modify (fun k =>
  match ide_busy (k_ide k) with
  | Some (Ide_read disk sector) => upd_buf b (set_b_data (disk_at disk sector k)) k
  | _ => k
  end).

Definition ideintr : M kernel unit :=
  acquire L_ide ;;;
  let! q := gets (fun k => idequeue (k_ide k)) in
  match q with
  | [] => release L_ide
  | b :: q =>
      modify (upd_ide (set_idequeue q)) ;;;
      let! x := read_buf b in
      (if negb (flag (b_flags x) B_DIRTY) then
         let! e := idewait_err in
         when (0 <=? e) (insl b)
       else ret tt) ;;;
      modify (upd_ide (set_ide_busy None)) ;;;
      modify (upd_buf b (fun x => set_b_flags (Z.lor (b_flags x) B_VALID) x)) ;;;
      modify (upd_buf b (fun x => set_b_flags (Z.ldiff (b_flags x) B_DIRTY) x)) ;;;
      wakeup (C_buf b) ;;;
      match q with
      | [] => ret tt
      | b' :: _ => idestart (Some b')
      end ;;;
      release L_ide
  end.

(** [while((b->flags & (B_VALID|B_DIRTY)) != B_VALID) sleep(b, &idelock)] *)
Fixpoint iderw_wait (f : nat) (b : nat) : M kernel unit :=
  match f with
  | O => exhausted
  | S f =>
      let! x := read_buf b in
      if Z.land (b_flags x) (Z.lor B_VALID B_DIRTY) =? B_VALID then ret tt
      else sleep (C_buf b) (Some L_ide) ;;; iderw_wait f b
  end.

Definition iderw (fuel : nat) (b : nat) : M kernel unit :=
  let! x := read_buf b in
  if negb (flag (b_flags x) B_BUSY) then panic "iderw: buf not busy" else
  if Z.land (b_flags x) (Z.lor B_VALID B_DIRTY) =? B_VALID then panic "iderw: nothing to do" else
  let! h := gets (fun k => havedisk1 (k_ide k)) in
  if negb (b_dev x =? 0) && (h =? 0) then panic "iderw: ide disk 1 not present" else
  acquire L_ide ;;;
  modify (upd_ide (fun d => set_idequeue (idequeue d ++ [b]) d)) ;;;
  let! q := gets (fun k => idequeue (k_ide k)) in
  when (bool_decide (head q = Some b)) (idestart (Some b)) ;;;
  iderw_wait fuel b ;;;
  release L_ide.

Definition driver (fuel : nat) : DiskDriver := MkDriver (iderw fuel).

(** [n] commands done, one interrupt each. *)
Fixpoint serve (n : nat) : M kernel unit :=
  match n with
  | O => ret tt
  | S n => disk_done ;;; ideintr ;;; serve n
  end.

(** ** The queue is served in its order *)

Lemma lba_small n : 0 <= n < 2 ^ 28 -> lba n = n.
Proof.
  intros H. unfold lba. change 0xff with (Z.ones 8). change 0x0f with (Z.ones 4).
  rewrite !Z.land_ones, !Z.shiftr_div_pow2 by lia. change (2 ^ 8) with 256. change (2 ^ 16) with (256 * 256). change (2 ^ 24) with (256 * (256 * 256)). change (2 ^ 4) with 16.
  rewrite <- !Z.div_div by lia. rewrite (Z.mod_small (n / 256 / 256 / 256) 16).
  - pose proof (Z.div_mod n 256 ltac:(lia)). pose proof (Z.div_mod (n / 256) 256 ltac:(lia)). pose proof (Z.div_mod (n / 256 / 256) 256 ltac:(lia)). lia.
  - split; [repeat apply Z.div_pos; lia|]. repeat (apply Z.div_lt_upper_bound; [lia|]). lia.
Qed.

(** The command of a buffer. *)
Definition request (x : buf) : ide_cmd :=
  if flag (b_flags x) B_DIRTY then Ide_write 1 (b_blockno x) (b_data x) else Ide_read 1 (b_blockno x).

(** Between interrupts: the controller works on the first buffer. *)
Record ide_ok (k : kernel) : Prop := {
  io_nodup : NoDup (idequeue (k_ide k));
  io_buf : forall b, b ∈ idequeue (k_ide k) -> (b < length (k_bufs k))%nat /\ b_dev (getb k b) = ROOTDEV /\ 0 <= b_blockno (getb k b) < FSSIZE;
  io_busy : ide_busy (k_ide k) = request ∘ getb k <$> head (idequeue (k_ide k))
}.

(** What a driver changes of the buffers and the disk. *)
Definition disk_view (k : kernel) : list buf * (Z -> list Z) * list (Z * list Z) := (k_bufs k, k_disk k, k_writes k).

Lemma ide_effect_view b k1 k2 : disk_view k1 = disk_view k2 -> disk_view (ide_effect b k1) = disk_view (ide_effect b k2).
Proof.
  unfold disk_view. intros [= E1 E2 E3]. unfold ide_effect, getb. rewrite E1. destruct (flag _ _); simpl; by rewrite E1, E2, E3.
Qed.

Lemma clean_flags f : flag f B_DIRTY = false -> Z.ldiff (Z.lor f B_VALID) B_DIRTY = Z.lor f B_VALID.
Proof.
  intros H. apply Z.bits_inj'. intros i Hi. rewrite Z.ldiff_spec, Z.lor_spec. unfold flag in H. apply negb_false_iff, Z.eqb_eq in H.
  apply (f_equal (fun z => Z.testbit z i)) in H. rewrite Z.land_spec, Z.bits_0 in H.
  destruct (decide (i = 2)) as [->|Hne].
  - change (Z.testbit B_DIRTY 2) with true in *. change (Z.testbit B_VALID 2) with false. rewrite andb_true_r in H. by rewrite H.
  - assert (Z.testbit B_DIRTY i = false) as -> by (change B_DIRTY with (2 ^ 2); by apply Z.pow2_bits_false). by rewrite andb_true_r.
Qed.
Lemma dirty_flags f : Z.ldiff (Z.lor f B_VALID) B_DIRTY = Z.lor (Z.ldiff f B_DIRTY) B_VALID.
Proof.
  apply Z.bits_inj'. intros i Hi. rewrite Z.ldiff_spec, !Z.lor_spec, Z.ldiff_spec.
  destruct (decide (i = 1)) as [->|Hne]; [by change (Z.testbit B_VALID 1) with true; rewrite !orb_true_r|].
  assert (Z.testbit B_VALID i = false) as -> by (change B_VALID with (2 ^ 1); by apply Z.pow2_bits_false). by rewrite !orb_false_r.
Qed.
Lemma served_flags f : Z.land (Z.ldiff (Z.lor f B_VALID) B_DIRTY) (Z.lor B_VALID B_DIRTY) = B_VALID.
Proof.
  apply Z.bits_inj'. intros i Hi. rewrite Z.land_spec, Z.ldiff_spec, !Z.lor_spec.
  destruct (decide (i = 1)) as [->|H1]; [by destruct (Z.testbit f 1)|].
  assert (Z.testbit B_VALID i = false) as -> by (change B_VALID with (2 ^ 1); by apply Z.pow2_bits_false).
  destruct (Z.testbit B_DIRTY i); [by rewrite andb_false_r|]. by rewrite andb_false_r.
Qed.

(** The buffer after its command. *)
Definition served (data : list Z) (x : buf) : buf :=
  set_b_flags (Z.ldiff (Z.lor (b_flags x) B_VALID) B_DIRTY) (if flag (b_flags x) B_DIRTY then x else set_b_data data x).

Lemma idestart_run k b : (b < length (k_bufs k))%nat -> b_dev (getb k b) = ROOTDEV -> 0 <= b_blockno (getb k b) < FSSIZE ->
  idestart (Some b) k = Done tt (upd_ide (set_ide_busy (Some (request (getb k b)))) k).
Proof.
  intros Hb Hd Hn. unfold idestart. rewrite bind_read_buf by done. destruct (Z.leb_spec FSSIZE (b_blockno (getb k b))); [lia|].
  change sector_per_block with 1. cbv zeta. change (7 <? 1) with false. cbv iota.
  change FSSIZE with 101657 in Hn. rewrite Z.mul_1_r, i32_small, lba_small by lia. rewrite Hd. done.
Qed.

(** The state the controller leaves, the interrupt not yet handled. *)
Lemma disk_done_run k b q : ide_ok k -> idequeue (k_ide k) = b :: q ->
  exists k1, disk_done k = Done tt k1 /\ k_bufs k1 = k_bufs k /\ k_ide k1 = k_ide k /\ k_held k1 = k_held k /\ k_sched k1 = k_sched k /\
    disk_view k1 = (k_bufs k, k_disk (ide_effect b k), k_writes (ide_effect b k)).
Proof.
  intros [_ _ Hbusy] Hq. rewrite Hq in Hbusy. unfold disk_done, modify. rewrite Hbusy. simpl. unfold request.
  unfold ide_effect. destruct (flag _ _); simpl; eexists; (split; [done|]); done.
Qed.

(** The buffers after the command of [b] are those the driver promises. *)
Lemma served_bufs k b data :
  (b < length (k_bufs k))%nat -> data = k_disk k (b_blockno (getb k b)) ->
  alter (fun y => set_b_flags (Z.ldiff (b_flags y) B_DIRTY) y) b
    (alter (fun y => set_b_flags (Z.lor (b_flags y) B_VALID) y) b
      (alter (fun y => if flag (b_flags (getb k b)) B_DIRTY then y else set_b_data data y) b (k_bufs k))) =
  k_bufs (ide_effect b k).
Proof.
  intros Hlt Hdata. destruct (lookup_lt_is_Some_2 _ _ Hlt) as [x Hx]. assert (getb k b = x) as Eb by (unfold getb; by rewrite Hx).
  unfold ide_effect. rewrite Eb in *. subst data. apply list_eq. intros j. destruct (decide (b = j)) as [<-|Hne].
  - rewrite !list_lookup_alter_eq, Hx. simpl. destruct (flag (b_flags x) B_DIRTY) eqn:Ef; simpl; rewrite list_lookup_alter_eq, Hx; simpl;
      [by rewrite dirty_flags|by rewrite (clean_flags _ Ef)].
  - rewrite !list_lookup_alter_ne by done. by destruct (flag _ _); simpl; rewrite list_lookup_alter_ne.
Qed.
Lemma ide_effect_other k b b' : b <> b' -> getb (ide_effect b k) b' = getb k b'.
Proof. intros H. unfold ide_effect. destruct (flag _ _); unfold getb; simpl; by rewrite list_lookup_alter_ne. Qed.
Lemma ide_effect_length k b : length (k_bufs (ide_effect b k)) = length (k_bufs k).
Proof. unfold ide_effect. destruct (flag _ _); simpl; apply length_alter. Qed.

(** The end of the interrupt handler: the waiting process is woken and the
    next command started. *)
Lemma ideintr_end k b q h :
  k_held k = {[L_ide]} ∪ h -> L_ide ∉ h -> L_ptable ∉ h -> idequeue (k_ide k) = q -> ide_busy (k_ide k) = None -> NoDup q ->
  (forall b', b' ∈ q -> (b' < length (k_bufs k))%nat /\ b_dev (getb k b') = ROOTDEV /\ 0 <= b_blockno (getb k b') < FSSIZE) ->
  exists k', (wakeup (C_buf b) ;;; match q with [] => ret tt | b' :: _ => idestart (Some b') end ;;; release L_ide) k = Done tt k' /\
    ide_ok k' /\ idequeue (k_ide k') = q /\ disk_view k' = disk_view k /\ k_held k' = h /\ k_sched k' = k_sched (woken (C_buf b) k).
Proof.
  intros Hh Hl Hp Eq Ebusy Hnd Hb. rewrite (bind_Done _ _ _ _ _ (wakeup_run _ _ ltac:(rewrite Hh; set_solver))).
  set (k1 := woken (C_buf b) k). assert (k_held k1 = {[L_ide]} ∪ h) as Hh1 by done.
  destruct q as [|b' q].
  - rewrite bind_ret, release_held by (rewrite Hh1; set_solver). eexists. split; [done|]. split; [split; simpl; rewrite Eq, ?Ebusy; done|].
    split; [done|]. split; [done|]. simpl. split; [by rewrite Hh, held_release_acquire|done].
  - destruct (Hb b' ltac:(by left)) as (Hlt & Hdev & Hbn).
    rewrite (bind_Done _ _ _ _ _ (idestart_run k1 b' Hlt Hdev Hbn)). rewrite release_held by (simpl; rewrite Hh; set_solver).
    eexists. split; [done|]. split; [split; simpl; rewrite Eq; done|].
    split; [done|]. split; [done|]. simpl. split; [by rewrite Hh, held_release_acquire|done].
Qed.

Lemma ideintr_step k b q :
  ide_ok k -> idequeue (k_ide k) = b :: q -> L_ide ∉ k_held k -> L_ptable ∉ k_held k -> err (request (getb k b)) = false ->
  exists k', (disk_done ;;; ideintr) k = Done tt k' /\ ide_ok k' /\ idequeue (k_ide k') = q /\
    disk_view k' = disk_view (ide_effect b k) /\ k_held k' = k_held k /\ k_sched k' = k_sched (woken (C_buf b) k).
Proof.
  intros Ok Hq Hl Hp He. destruct (disk_done_run k b q Ok Hq) as (k1 & Hd & B1 & D1 & H1 & S1 & V1).
  rewrite (bind_Done _ _ _ _ _ Hd). unfold ideintr. rewrite bind_acquire by (by rewrite H1). rewrite bind_gets.
  destruct Ok as [Hnd Hb Hbusy]. rewrite Hq in Hnd, Hb, Hbusy. destruct (Hb b ltac:(by left)) as (Hlt & Hdev & Hbn).
  set (k0 := set_k_held ({[L_ide]} ∪ k_held k1) k1).
  change (idequeue (k_ide k0)) with (idequeue (k_ide k1)). rewrite D1, Hq, bind_modify. set (k2 := upd_ide (set_idequeue q) k0).
  assert (getb k2 b = getb k b) as Eb by (unfold k2, getb; simpl; by rewrite B1).
  assert (length (k_bufs k2) = length (k_bufs k)) as El by (unfold k2; simpl; by rewrite B1).
  rewrite bind_read_buf by (by rewrite El). rewrite Eb.
  set (data := k_disk k (b_blockno (getb k b))). set (x := getb k b) in *.
  assert (ide_busy (k_ide k2) = Some (request x)) as Ebusy by (unfold k2; simpl; by rewrite D1, Hbusy).
  rewrite (bind_Done _ _ _ tt (upd_buf b (fun y => if flag (b_flags x) B_DIRTY then y else set_b_data data y) k2)).
  2:{ destruct (flag (b_flags x) B_DIRTY) eqn:Ef; cbn [negb].
      - unfold ret. f_equal. unfold upd_buf. rewrite list_alter_id by done. unfold k2. by destruct k1.
      - unfold idewait_err. rewrite bind_gets, Ebusy, He. simpl when. unfold insl, modify. rewrite Ebusy. unfold request. rewrite Ef.
        f_equal. unfold upd_buf. f_equal. unfold data, disk_at, k2. simpl. injection V1 as _ V1 _. rewrite V1.
        unfold ide_effect. fold x. by rewrite Ef. }
  rewrite !bind_modify. injection V1 as V0 V1 V2.
  match goal with |- context [_ ?k4 = Done tt _] => set (k4' := k4) end.
  assert (disk_view k4' = disk_view (ide_effect b k)) as V4.
  { unfold disk_view. rewrite <- V1, <- V2, <- (served_bufs k b data) by done. unfold k4'. simpl. by rewrite B1. }
  assert (k_bufs k4' = k_bufs (ide_effect b k)) as E4 by exact (f_equal (fun v => fst (fst v)) V4). apply NoDup_cons in Hnd as [Hnb Hnd].
  destruct (ideintr_end k4' b q (k_held k)) as (k' & Hrun & Ok' & Q' & V' & H' & S'); try done.
  - unfold k4'. simpl. by rewrite H1.
  - intros b' Hb'. destruct (Hb b' ltac:(by right)) as (Hlt' & Hd' & Hn'). assert (b <> b') as Hne by set_solver.
    assert (getb k4' b' = getb k b') as Eg by (unfold getb; rewrite E4; by apply ide_effect_other).
    rewrite Eg, E4, ide_effect_length. done.
  - exists k'. split; [done|]. split; [done|]. split; [done|]. split; [by rewrite V'|].
    split; [done|]. rewrite S'. unfold k4', woken. simpl. by rewrite S1.
Qed.
(** Its buffers served in order, by a driver that is done at once. *)
Definition sync_all (l : list nat) (k : kernel) : kernel := foldl (fun k b => ide_effect b k) k l.

Lemma sync_all_view l : forall k1 k2, disk_view k1 = disk_view k2 -> disk_view (sync_all l k1) = disk_view (sync_all l k2).
Proof. induction l as [|b l IH]; intros k1 k2 H; [done|]. simpl. apply IH. by apply ide_effect_view. Qed.
Lemma sync_all_other l : forall k b, b ∉ l -> getb (sync_all l k) b = getb k b.
Proof. induction l as [|b' l IH]; intros k b Hb; [done|]. apply not_elem_of_cons in Hb as [H1 H2]. simpl. rewrite IH by done. by apply ide_effect_other. Qed.

Lemma ide_effect_valid k b : (b < length (k_bufs k))%nat -> Z.land (b_flags (getb (ide_effect b k) b)) (Z.lor B_VALID B_DIRTY) = B_VALID.
Proof.
  intros Hb. destruct (lookup_lt_is_Some_2 _ _ Hb) as [x Hx]. unfold ide_effect.
  assert (getb k b = x) as Eb by (unfold getb; by rewrite Hx). rewrite Eb. destruct (flag (b_flags x) B_DIRTY) eqn:Ef.
  - unfold getb. simpl. rewrite list_lookup_alter_eq, Hx. simpl. rewrite <- dirty_flags. apply served_flags.
  - unfold getb. simpl. rewrite list_lookup_alter_eq, Hx. simpl. rewrite <- (clean_flags _ Ef). apply served_flags.
Qed.

(** A process is awake once it was woken, and waking others keeps it so. *)
Definition runnable (k : kernel) (i : nat) : Prop := exists p, procs (k_sched k) !! i = Some p /\ p_state p = RUNNABLE.
Definition asleep_on (k : kernel) (i b : nat) : Prop :=
  exists p, procs (k_sched k) !! i = Some p /\ p_state p = SLEEPING /\ p_chan p = Some (C_buf b).

Lemma woken_runnable k i ch : runnable k i -> runnable (woken ch k) i.
Proof.
  intros (p & Hp & Hs). exists (wake_one ch p). unfold woken. rewrite lookup_wakeup1, Hp. split; [done|].
  unfold wake_one. rewrite bool_decide_eq_false_2; [done|]. by rewrite Hs.
Qed.
Lemma woken_asleep k i b b' : asleep_on k i b -> b <> b' -> asleep_on (woken (C_buf b') k) i b.
Proof.
  intros (p & Hp & Hs & Hc) Hne. exists p. unfold woken. rewrite lookup_wakeup1, Hp. split; [|done]. simpl. f_equal.
  unfold wake_one. rewrite (bool_decide_eq_false_2 (p_chan p = _)); [by rewrite andb_false_r|]. rewrite Hc. congruence.
Qed.
Lemma woken_wakes k i b : asleep_on k i b -> runnable (woken (C_buf b) k) i.
Proof.
  intros (p & Hp & Hs & Hc). exists (wake_one (C_buf b) p). unfold woken. rewrite lookup_wakeup1, Hp. split; [done|].
  unfold wake_one. by rewrite !bool_decide_eq_true_2.
Qed.

Lemma serve_run n : forall k q, ide_ok k -> idequeue (k_ide k) = q -> (n <= length q)%nat -> L_ide ∉ k_held k -> L_ptable ∉ k_held k ->
  (forall b, b ∈ take n q -> err (request (getb k b)) = false) ->
  exists k', serve n k = Done tt k' /\ ide_ok k' /\ idequeue (k_ide k') = drop n q /\ k_held k' = k_held k /\
    disk_view k' = disk_view (sync_all (take n q) k) /\
    (forall i, runnable k i -> runnable k' i) /\ (forall i b, b ∈ take n q -> asleep_on k i b -> runnable k' i).
Proof.
  induction n as [|n IH]; intros k q Ok Hq Hn Hl Hp He.
  { exists k. split; [done|]. split; [done|]. rewrite drop_0, take_0. do 4 (split; [done|]). set_solver. }
  destruct q as [|b q]; [simpl in Hn; lia|].
  destruct (ideintr_step k b q Ok Hq Hl Hp) as (k1 & Hrun & Ok1 & Q1 & V1 & H1 & S1); [apply He; by left|].
  assert (b ∉ q) as Hbq by (pose proof (io_nodup _ Ok) as Hnd; rewrite Hq in Hnd; by apply NoDup_cons in Hnd as [? _]).
  assert (forall b', b' <> b -> getb k1 b' = getb k b') as Eg.
  { intros b' Hne. rewrite <- (ide_effect_other k b b') by done. unfold getb. by injection V1 as -> _ _. }
  destruct (IH k1 q Ok1 Q1) as (k2 & Hrun2 & Ok2 & Q2 & H2 & V2 & R2 & A2); [simpl in Hn; lia|by rewrite H1|by rewrite H1| |].
  { intros b' Hb'. rewrite Eg; [apply He; by right|]. intros ->. apply Hbq. by eapply elem_of_take in Hb' as (j & Hj & _); eapply list_elem_of_lookup_2. }
  assert (forall i, runnable k i -> runnable k1 i) as R1 by (intros i Hi; unfold runnable; rewrite S1; by apply woken_runnable).
  exists k2. split.
  { cbn [serve]. revert Hrun. unfold bind. destruct (disk_done k); try done. simpl. intros ->. simpl. done. }
  split; [done|]. split; [done|]. split; [by rewrite H2|]. split; [|split].
  - rewrite V2. simpl. by apply sync_all_view.
  - auto.
  - intros i b' Hb' Ha. cbn [take] in Hb'. destruct (decide (b' = b)) as [->|Hne].
    + apply R2. unfold runnable. rewrite S1. by apply woken_wakes.
    + apply elem_of_cons in Hb' as [|Hb']; [done|]. apply (A2 i b'); [done|]. unfold asleep_on. rewrite S1. by apply woken_asleep.
Qed.

(** C14: the disk serves every request.  From a queue of requests with the
    controller at work on the first, [n] interrupts complete the first [n]
    requests, in the order they were queued, with the effect of a driver that
    serves each at once: a dirty buffer is on the disk, any other has the
    block's contents.  Each of these buffers is then valid and clean, so the
    wait of [iderw] is over, and every process that slept on one of them is
    runnable; the controller is at work on the next request. *)
Theorem ide_serves_queue n k :
  ide_ok k -> (n <= length (idequeue (k_ide k)))%nat -> L_ide ∉ k_held k -> L_ptable ∉ k_held k ->
  (forall b, b ∈ idequeue (k_ide k) -> err (request (getb k b)) = false) ->
  exists k', serve n k = Done tt k' /\ ide_ok k' /\ idequeue (k_ide k') = drop n (idequeue (k_ide k)) /\
    disk_view k' = disk_view (sync_all (take n (idequeue (k_ide k))) k) /\
    forall b, b ∈ take n (idequeue (k_ide k)) ->
      Z.land (b_flags (getb k' b)) (Z.lor B_VALID B_DIRTY) = B_VALID /\ forall i, asleep_on k i b -> runnable k' i.
Proof.
  intros Ok Hn Hl Hp He. destruct (serve_run n k _ Ok eq_refl Hn Hl Hp) as (k' & Hrun & Ok' & Q' & H' & V' & R' & A').
  { intros b Hb. apply He. apply elem_of_take in Hb as (j & Hj & _). by eapply list_elem_of_lookup_2. }
  exists k'. split; [done|]. split; [done|]. split; [done|]. split; [done|]. intros b Hb. split; [|by intros i; apply A'].
  assert (getb k' b = getb (sync_all (take n (idequeue (k_ide k))) k) b) as -> by (unfold getb; by injection V' as -> _ _).
  assert (NoDup (take n (idequeue (k_ide k)))) as Hnd by (eapply sublist_NoDup; [apply Ok|apply sublist_take]).
  assert (forall b, b ∈ take n (idequeue (k_ide k)) -> (b < length (k_bufs k))%nat) as Hlt.
  { intros b' Hb'. apply (io_buf _ Ok). apply elem_of_take in Hb' as (j & Hj & _). by eapply list_elem_of_lookup_2. }
  revert Hb Hnd Hlt. clear. generalize (take n (idequeue (k_ide k))) as l. intros l. revert k.
  induction l as [|a l IH]; intros k Hb Hnd Hlt; [by apply elem_of_nil in Hb|]. apply NoDup_cons in Hnd as [Hna Hnd]. simpl.
  apply elem_of_cons in Hb as [->|Hb].
  - rewrite sync_all_other by done. apply ide_effect_valid. apply Hlt. by left.
  - apply IH; [done|done|]. intros b' Hb'. rewrite ide_effect_length. apply Hlt. by right.
Qed.
End Ide.

(** ** Witnesses *)

(** One read of block 5 waits, and process 0 sleeps on its buffer. *)
Definition demo_ide : kernel :=
  upd_ide (fun d => set_ide_busy (Some (Ide_read 1 5)) (set_idequeue [0%nat] d))
    (upd_buf 0 (fun x => set_b_dev ROOTDEV (set_b_blockno 5 (set_b_flags B_BUSY x)))
      (upd_proc 0 (fun p => set_p_state SLEEPING (set_p_chan (Some (C_buf 0)) p)) zero_kernel)).

Lemma ide_serves_queue_witness :
  exists k', serve (fun _ => false) 1 demo_ide = Done tt k' /\ idequeue (k_ide k') = [] /\ runnable k' 0.
Proof.
  destruct (ide_serves_queue (fun _ => false) 1 demo_ide) as (k' & Hrun & _ & Hq & _ & Hb).
  - split.
    + apply NoDup_singleton.
    + intros b Hb. apply list_elem_of_singleton in Hb as ->. split; [simpl; unfold NBUF; lia|]. split; [reflexivity|]. split; [discriminate|reflexivity].
    + reflexivity.
  - simpl. lia.
  - apply not_elem_of_empty.
  - apply not_elem_of_empty.
  - intros b _. reflexivity.
  - exists k'. split; [exact Hrun|]. split; [exact Hq|]. apply (Hb 0%nat); [apply list_elem_of_singleton; reflexivity|].
    eexists. split; [reflexivity|]. split; reflexivity.
Defined.
