(* ===== verification/LogCopy.v ===== *)
(** LogCopy: the step log.c repeats, in both directions, between a log block
    and a home block: read both, copy one onto the other, write it to disk,
    release both; and the bound on dirty buffers that makes it possible. *)

From S2P Require Import Prelude Kernel ProcCore Bio BioSpec.

(** ** Quiet states *)

Lemma quiet_view k l bn :
  bcache_inv k l -> quiet k -> dirty k bn = false -> view k bn = k_disk k bn.
Proof.
  intros Hinv Hq Hd. destruct (holder k bn) as [i|] eqn:E.
  - apply (holder_Some _ _ _ _ Hinv) in E. destruct (view_held k l i bn Hinv E) as [Hv Hd'].
    rewrite Hd in Hd'. rewrite Hv. destruct (flag (b_flags (getb k i)) B_VALID) eqn:V; [|done].
    apply (bi_coherent _ _ Hinv); try done. apply Hq, E.
  - rewrite holder_None in E. by destruct (view_free k bn E).
Qed.

Lemma quiet_recyclable k i :
  quiet k -> (i < NBUF)%nat -> flag (b_flags (getb k i)) B_DIRTY = false ->
  recyclable (getb k i) = true.
Proof.
  intros Hq Hi Hd. specialize (Hq i Hi). unfold recyclable, flag in *. b2p.
  by rewrite Hq, Hd.
Qed.

(** Dirty buffers hold distinct blocks: a bound on the dirty blocks is a bound
    on the dirty buffers, so that at most [length bs + length avoid] buffers
    are dirty or to be avoided. *)
Lemma exists_clean k l bs avoid :
  bcache_inv k l -> (forall bn, dirty k bn = true -> bn ∈ bs) ->
  (length bs + length avoid < NBUF)%nat ->
  exists i, (i < NBUF)%nat /\ i ∉ avoid /\ flag (b_flags (getb k i)) B_DIRTY = false.
Proof.
  intros Hinv Hbs Hlen.
  destruct (decide (Exists (fun i => i ∉ avoid /\ flag (b_flags (getb k i)) B_DIRTY = false) (seq 0 NBUF)))
    as [Hex|Hno].
  { apply Exists_exists in Hex as (i & Hi & Ha & Hd). apply elem_of_seq in Hi. exists i.
    split_and!; [lia|done|done]. }
  exfalso.
  set (f := fun i => if bool_decide (i ∈ avoid) then inl i else inr (b_blockno (getb k i)) : nat + Z).
  assert (NoDup (f <$> seq 0 NBUF)) as Hnd.
  { apply NoDup_fmap_2_strong; [|apply NoDup_seq]. intros i j Hi Hj E.
    apply elem_of_seq in Hi, Hj. unfold f in E.
    assert (forall x, x ∈ seq 0 NBUF -> x ∉ avoid -> flag (b_flags (getb k x)) B_DIRTY = true) as Hall.
    { intros x Hx Hxa. destruct (flag (b_flags (getb k x)) B_DIRTY) eqn:Hd; [done|].
      destruct Hno. apply Exists_exists. by exists x. }
    repeat case_bool_decide; try congruence.
    assert (b_dev (getb k i) = ROOTDEV) by (apply (bi_dirty_valid _ _ Hinv), Hall; [apply elem_of_seq; lia|done]).
    assert (b_dev (getb k j) = ROOTDEV) by (apply (bi_dirty_valid _ _ Hinv), Hall; [apply elem_of_seq; lia|done]).
    eapply (bi_unique _ _ Hinv i j (b_blockno (getb k i))); [split; [lia|done]|].
    split; [lia|]. split; [done|]. congruence. }
  assert ((f <$> seq 0 NBUF) ⊆ (inl <$> avoid) ++ (inr <$> bs)) as Hsub.
  { intros y Hy. apply list_elem_of_fmap in Hy as (i & -> & Hi). pose proof Hi as Hi'. apply elem_of_seq in Hi.
    unfold f. apply elem_of_app. case_bool_decide as Ha; [left|right]; apply list_elem_of_fmap; [eauto|].
    eexists. split; [done|].
    assert (flag (b_flags (getb k i)) B_DIRTY = true) as Hd.
    { destruct (flag (b_flags (getb k i)) B_DIRTY) eqn:Hd; [done|].
      destruct Hno. apply Exists_exists. by exists i. }
    apply Hbs. pose proof (bi_dirty_valid _ _ Hinv i Hd) as [_ Hdev].
    destruct (view_held k l i (b_blockno (getb k i)) Hinv) as [_ ->]; [split; [lia|done]|done]. }
  pose proof (submseteq_length _ _ (NoDup_submseteq _ _ Hnd Hsub)) as Hle.
  rewrite length_app, !length_fmap, length_seq in Hle. lia.
Qed.

(** ** Reading two blocks *)

(** Buffers [i] and [j] are busy and hold blocks [a] and [b] of the quiet
    state [k]. *)
Record both (k : kernel) (l : list nat) (i : nat) (a : Z) (j : nat) (b : Z) (k' : kernel) : Prop := {
  bo_frame : bframe k k';
  bo_inv : bcache_inv k' l;
  bo_ne : i <> j;
  bo_a : holds k' i a;
  bo_b : holds k' j b;
  bo_flags : forall x, x = i \/ x = j -> flag (b_flags (getb k' x)) B_BUSY = true /\
                                         flag (b_flags (getb k' x)) B_VALID = true;
  bo_da : b_data (getb k' i) = view k a;
  bo_db : b_data (getb k' j) = view k b;
  bo_quiet : forall x, x <> i -> x <> j -> (x < NBUF)%nat -> flag (b_flags (getb k' x)) B_BUSY = false;
  bo_view : forall c, view k' c = view k c;
  bo_dirty : forall c, dirty k' c = dirty k c
}.

Lemma bframe_held k k' : bframe k k' -> k_held k' = k_held k.
Proof. by intros [(? & ? & ->) _]. Qed.

(** Room to read both: the second is cached and dirty, or two clean buffers
    remain besides the dirty ones. *)
Definition roomy (k : kernel) (b : Z) (bs : list Z) : Prop :=
  (forall c, dirty k c = true -> c ∈ bs) /\ (length bs < NBUF)%nat /\
  (dirty k b = true \/ S (length bs) < NBUF)%nat.

Lemma quiet_available k l bn bs :
  bcache_inv k l -> quiet k -> (forall c, dirty k c = true -> c ∈ bs) -> (length bs < NBUF)%nat ->
  available k bn.
Proof.
  intros Hinv Hq Hbs Hlen. destruct (holder k bn) as [i|] eqn:E.
  - apply (holder_Some _ _ _ _ Hinv) in E. left. exists i. split; [done|]. apply Hq, E.
  - rewrite holder_None in E. right. split; [done|].
    destruct (exists_clean k l bs [] Hinv Hbs) as (i & Hi & _ & Hd); [simpl; lia|].
    exists i. split; [done|]. by apply quiet_recyclable.
Qed.

(** After the first read, the second block can be read without waiting. *)
Lemma available_second k l a i k1 b bs :
  bcache_inv k l -> quiet k -> got k l a i k1 -> a <> b -> roomy k b bs -> available k1 b.
Proof.
  intros Hinv Hq G Hab (Hbs & Hlen & Hroom). pose proof (gt_inv _ _ _ _ _ G) as Hinv1.
  assert (forall x, x <> i -> b_flags (getb k1 x) = b_flags (getb k x)) as Hfl.
  { intros x Hx. pose proof (gt_others _ _ _ _ _ G x Hx) as E. by injection E. }
  assert (forall x, holds k1 x b -> x <> i) as Hni.
  { intros x Hx ->. destruct Hx as (_ & _ & E1), (gt_holds _ _ _ _ _ G) as (_ & _ & E2). congruence. }
  destruct (holder k1 b) as [j|] eqn:E.
  - apply (holder_Some _ _ _ _ Hinv1) in E. left. exists j. split; [done|].
    rewrite Hfl by by apply Hni. apply Hq, E.
  - pose proof E as E'. rewrite holder_None in E. right. split; [done|].
    destruct Hroom as [Hd|Hroom].
    { rewrite <- (gt_dirty _ _ _ _ _ G) in Hd. unfold dirty in Hd. by rewrite E' in Hd. }
    destruct (exists_clean k l bs [i] Hinv Hbs) as (j & Hj & Hji & Hd); [simpl; lia|].
    exists j. split; [done|]. assert (j <> i) as Hne by set_solver.
    pose proof (gt_others _ _ _ _ _ G j Hne) as Ec. unfold recyclable.
    rewrite Hfl by done. apply (quiet_recyclable k j Hq Hj Hd).
Qed.

Section Copy.
Context `{D : DiskDriver} (disksize : Z) `{!DriverOk D disksize}.

Lemma two_breads k l a b bs fuel :
  bcache_inv k l -> quiet k -> L_bcache ∉ k_held k -> a <> b ->
  in_disk disksize a -> in_disk disksize b -> roomy k b bs ->
  exists i k1 j k2, bread (S fuel) ROOTDEV a k = Done i k1 /\ bread (S fuel) ROOTDEV b k1 = Done j k2 /\
    bframe k k1 /\ both k l i a j b k2.
Proof.
  intros Hinv Hq Hl Hab Ha Hb Hroom. pose proof Hroom as (Hbs & Hlen & _).
  destruct (bread_got disksize k l a fuel Hinv Hl Ha (quiet_available _ _ _ _ Hinv Hq Hbs Hlen))
    as (i & k1 & Hrun1 & G1 & Hv1 & Hd1).
  pose proof (gt_inv _ _ _ _ _ G1) as Hinv1. pose proof (gt_frame _ _ _ _ _ G1) as Hf1.
  destruct (bread_got disksize k1 l b fuel Hinv1) as (j & k2 & Hrun2 & G2 & Hv2 & Hd2); [|done| |].
  { by rewrite (bframe_held _ _ Hf1). }
  { exact (available_second k l a i k1 b bs Hinv Hq G1 Hab Hroom). }
  exists i, k1, j, k2. split; [done|]. split; [done|]. split; [done|].
  assert (i <> j) as Hij.
  { intros ->. pose proof (gt_busy _ _ _ _ _ G1). pose proof (gt_idle _ _ _ _ _ G2). congruence. }
  pose proof (gt_others _ _ _ _ _ G2 i Hij) as Ei. injection Ei as E1 E2 E3 E4.
  assert (holds k2 i a) as Hh2.
  { pose proof (gt_holds _ _ _ _ _ G1) as (? & ? & ?). split; [done|]. by rewrite E2, E3. }
  split; try done.
  - eapply bframe_trans; [apply G1|apply G2].
  - apply G2.
  - apply G2.
  - intros x [-> | ->]; [|by split; [apply G2|]]. rewrite E1. split; [apply G1|done].
  - by rewrite E4.
  - rewrite Hd2. apply G1.
  - intros x Hxi Hxj Hx. pose proof (gt_others _ _ _ _ _ G2 x Hxj) as F. injection F as -> _ _ _.
    pose proof (gt_others _ _ _ _ _ G1 x Hxi) as F. injection F as -> _ _ _. by apply Hq.
  - intros c. rewrite (gt_view _ _ _ _ _ G2). apply G1.
  - intros c. rewrite (gt_dirty _ _ _ _ _ G2). apply G1.
Qed.

Lemma both_sym k l i a j b k' : both k l i a j b k' -> both k l j b i a k'.
Proof.
  intros []. split; try done; auto.
  intros x [-> | ->]; auto.
Qed.

(** The outcome: block [a] holds [d], in the cache and on the disk. *)
Record copied (k : kernel) (a : Z) (d : list Z) (k' : kernel) (l' : list nat) : Prop := {
  cp_frame : exists bs ps, k' = set_k_bufs bs (upd_sched (set_procs ps)
    (set_k_writes (k_writes k ++ [(a, d)])
      (set_k_disk (fun n => if n =? a then d else k_disk k n) k)));
  cp_inv : bcache_inv k' l';
  cp_quiet : quiet k';
  cp_view : forall c, view k' c = if c =? a then d else view k c;
  cp_dirty : forall c, dirty k' c = if c =? a then false else dirty k c
}.

(** What the two releases need to know of the buffers. *)
Lemma both_coherent k l i a j b k2 :
  bcache_inv k l -> quiet k -> both k l i a j b k2 ->
  flag (b_flags (getb k2 j)) B_DIRTY = false -> b_data (getb k2 j) = k_disk k b.
Proof.
  intros Hinv Hq B Hd. rewrite (bo_db _ _ _ _ _ _ _ B). apply (quiet_view _ l); try done.
  rewrite <- (bo_dirty _ _ _ _ _ _ _ B).
  by destruct (view_held k2 l j b (bo_inv _ _ _ _ _ _ _ B) (bo_b _ _ _ _ _ _ _ B)) as [_ ->].
Qed.

(** Copy and write. *)
Lemma copy_write k l i a j b k2 :
  bcache_inv k l -> quiet k -> in_disk disksize a -> a <> b -> both k l i a j b k2 ->
  exists k4,
    (forall f : M kernel unit, (let! s := read_buf j in
       modify (upd_buf i (set_b_data (b_data s))) ;;; bwrite i ;;; f) k2 = f k4) /\
    (exists bs ps, k4 = set_k_bufs bs (upd_sched (set_procs ps)
      (set_k_writes (k_writes k ++ [(a, view k b)])
        (set_k_disk (fun n => if n =? a then view k b else k_disk k n) k)))) /\
    bcache_inv k4 l /\ holds k4 i a /\ core (getb k4 i) = (3, b_dev (getb k2 i), a, view k b) /\
    (forall x, x <> i -> core (getb k4 x) = core (getb k2 x)) /\
    (forall c, view k4 c = if c =? a then view k b else view k c) /\
    (forall c, dirty k4 c = if c =? a then false else dirty k c).
Proof.
  intros Hinv Hq Ha Hab B. pose proof (bo_inv _ _ _ _ _ _ _ B) as Hinv2.
  pose proof (bo_a _ _ _ _ _ _ _ B) as Hhi. pose proof (bo_b _ _ _ _ _ _ _ B) as Hhj.
  destruct (bo_flags _ _ _ _ _ _ _ B i ltac:(auto)) as [Hbi Hvi].
  pose proof (rg_len _ _ (bi_ring _ _ Hinv2)) as Hlen.
  assert (i < length (k_bufs k2))%nat as Hi by (rewrite Hlen; destruct Hhi; lia).
  assert (length (view k b) = 512%nat) as Hl by (rewrite <- (bo_db _ _ _ _ _ _ _ B); apply (bi_data _ _ Hinv2)).
  pose proof (set_data_changed k2 l i a (view k b) Hinv2 Hhi Hbi Hl) as C3.
  set (k3 := upd_buf i _ k2) in *.
  assert (getb k3 i = set_b_data (view k b) (getb k2 i)) as E3 by by apply getb_upd_eq.
  destruct (bwrite_changed disksize k3 l i a (ch_inv _ _ _ _ _ _ C3) (ch_holds _ _ _ _ _ _ C3) Ha)
    as (k4 & Hrun & C4 & Hfr & Hcore & Hv4 & Hd4); [by rewrite E3..|].
  rewrite E3 in Hfr, Hcore, Hv4. simpl in Hfr, Hcore, Hv4.
  exists k4. split.
  { intros f. rewrite bind_read_buf, bind_modify by (rewrite Hlen; destruct Hhj; lia).
    rewrite (bo_db _ _ _ _ _ _ _ B). by rewrite (bind_Done _ _ _ _ _ Hrun). }
  split_and!.
  - destruct Hfr as (bs & ->), (bo_frame _ _ _ _ _ _ _ B) as [(bs2 & ps & E2) _].
    exists bs, ps. unfold k3. rewrite E2. done.
  - apply C4.
  - apply C4.
  - done.
  - intros x Hx. rewrite (ch_others _ _ _ _ _ _ C4 x Hx). by apply (ch_others _ _ _ _ _ _ C3).
  - intros c. destruct (Z.eqb_spec c a) as [->|Hne]; [done|].
    rewrite (ch_view _ _ _ _ _ _ C4), (ch_view _ _ _ _ _ _ C3) by done. apply B.
  - intros c. destruct (Z.eqb_spec c a) as [->|Hne]; [done|].
    rewrite (ch_dirty _ _ _ _ _ _ C4), (ch_dirty _ _ _ _ _ _ C3) by done. apply B.
Qed.

Lemma copy_tail k l i a j b k2 :
  bcache_inv k l -> quiet k -> in_disk disksize a -> a <> b -> both k l i a j b k2 ->
  L_bcache ∉ k_held k -> L_ptable ∉ k_held k ->
  exists k' l',
    (let! s := read_buf j in
     modify (upd_buf i (set_b_data (b_data s))) ;;; bwrite i ;;; brelse j ;;; brelse i) k2 = Done tt k' /\
    copied k a (view k b) k' l'.
Proof.
  intros Hinv Hq Ha Hab B Hlb Hlp.
  destruct (copy_write k l i a j b k2 Hinv Hq Ha Hab B)
    as (k4 & Hrun & (bs & ps & E4) & Hinv4 & Hh4 & Hc4 & Ho4 & Hv4 & Hd4).
  pose proof (bo_ne _ _ _ _ _ _ _ B) as Hij. pose proof (bo_b _ _ _ _ _ _ _ B) as Hhj.
  destruct (bo_flags _ _ _ _ _ _ _ B j ltac:(auto)) as [Hbj Hvj].
  pose proof (Ho4 j ltac:(auto)) as Ej. injection Ej as Ej1 Ej2 Ej3 Ej4.
  assert (k_held k4 = k_held k) as Hh by by rewrite E4.
  assert (forall c, k_disk k4 c = if c =? a then view k b else k_disk k c) as Hdk by by rewrite E4.
  destruct (brelse_changed k4 l j b) as (k5 & l1 & l2 & _ & Hrun5 & C5 & F5 & Hc5 & Hv5 & Hd5);
    try (by rewrite ?Hh); try done.
  { destruct Hhj as (? & ? & ?). split; [done|]. by rewrite Ej2, Ej3. }
  { by rewrite Ej1. }
  { rewrite Ej1, Ej4. intros _ Hd. rewrite Hdk. destruct (Z.eqb_spec b a); [congruence|].
    by eapply both_coherent. }
  pose proof (ch_others _ _ _ _ _ _ C5 i Hij) as Ei. rewrite Hc4 in Ei. injection Ei as Ei1 Ei2 Ei3 Ei4.
  assert (k_held k5 = k_held k) as Hh5 by by rewrite (bframe_held _ _ F5).
  assert (k_disk k5 = k_disk k4) as Hdk5 by by destruct F5 as [(? & ? & ->) _].
  destruct (brelse_changed k5 _ i a (ch_inv _ _ _ _ _ _ C5))
    as (k6 & l3 & l4 & _ & Hrun6 & C6 & F6 & Hc6 & Hv6 & Hd6); try (by rewrite ?Hh5).
  { destruct Hh4 as (? & ? & ?). injection Hc4 as F1 F2 F3 F4.
    split; [done|]. rewrite Ei2, Ei3. split; [congruence|done]. }
  { by rewrite Ei1. }
  { rewrite Ei4, Hdk5, Hdk. by rewrite Z.eqb_refl. }
  exists k6, (i :: l3 ++ l4). split; [by rewrite Hrun, (bind_Done _ _ _ _ _ Hrun5)|].
  split.
  - rewrite E4 in F5. destruct F5 as [(bs5 & ps5 & ->) _], F6 as [(bs6 & ps6 & ->) _]. by exists bs6, ps6.
  - apply C6.
  - intros x Hx. destruct (decide (x = i)) as [->|Hxi]; [injection Hc6 as -> _ _ _; by rewrite Ei1|].
    pose proof (ch_others _ _ _ _ _ _ C6 x Hxi) as F. injection F as -> _ _ _.
    destruct (decide (x = j)) as [->|Hxj].
    + injection Hc5 as -> _ _ _. rewrite Ej1. pose proof (bi_flags _ _ (bo_inv _ _ _ _ _ _ _ B) j) as Hf.
      clear -Hf. flags Hf.
    + pose proof (ch_others _ _ _ _ _ _ C5 x Hxj) as F. injection F as -> _ _ _.
      pose proof (Ho4 x Hxi) as F. injection F as -> _ _ _. by apply (bo_quiet _ _ _ _ _ _ _ B).
  - intros c. rewrite <- Hv4. destruct (decide (c = a)) as [->|Hca].
    + rewrite Hv6. by apply (ch_view _ _ _ _ _ _ C5).
    + rewrite (ch_view _ _ _ _ _ _ C6) by done. destruct (decide (c = b)) as [->|Hcb]; [done|].
      by apply (ch_view _ _ _ _ _ _ C5).
  - intros c. rewrite <- Hd4. destruct (decide (c = a)) as [->|Hca].
    + rewrite Hd6. by apply (ch_dirty _ _ _ _ _ _ C5).
    + rewrite (ch_dirty _ _ _ _ _ _ C6) by done. destruct (decide (c = b)) as [->|Hcb]; [done|].
      by apply (ch_dirty _ _ _ _ _ _ C5).
Qed.

End Copy.

(** ** Sequences of block writes *)

(** The disk (or the view of it) after the writes [ws], oldest first. *)
Definition write1 (d : Z -> list Z) (w : Z * list Z) : Z -> list Z :=
  fun n => if n =? w.1 then w.2 else d n.
Definition apply_writes (d : Z -> list Z) (ws : list (Z * list Z)) : Z -> list Z :=
  fold_left write1 ws d.

Lemma apply_writes_app d ws1 ws2 :
  apply_writes d (ws1 ++ ws2) = apply_writes (apply_writes d ws1) ws2.
Proof. apply fold_left_app. Qed.

Lemma apply_writes_out d ws c : c ∉ ws.*1 -> apply_writes d ws c = d c.
Proof.
  revert d. induction ws as [|[a v] ws IH]; intros d; simpl; [done|].
  rewrite not_elem_of_cons. intros [Hne Hin]. rewrite IH by done. unfold write1. simpl.
  by destruct (Z.eqb_spec c a).
Qed.

Lemma apply_writes_ext d d' ws c : d c = d' c -> apply_writes d ws c = apply_writes d' ws c.
Proof.
  revert d d'. induction ws as [|[a v] ws IH]; intros d d' H; simpl; [done|].
  apply IH. unfold write1. simpl. by case_if.
Qed.

(** From the quiet state [k], the blocks [ws] were written, in the cache and
    on the disk, and the state is quiet again. *)
Record applied (k : kernel) (ws : list (Z * list Z)) (k' : kernel) (l' : list nat) : Prop := {
  ap_frame : exists bs ps d, k' = set_k_bufs bs (upd_sched (set_procs ps)
    (set_k_writes (k_writes k ++ ws) (set_k_disk d k)));
  ap_disk : forall c, k_disk k' c = apply_writes (k_disk k) ws c;
  ap_inv : bcache_inv k' l';
  ap_quiet : quiet k';
  ap_view : forall c, view k' c = apply_writes (view k) ws c;
  ap_dirty : forall c, dirty k' c = if bool_decide (c ∈ ws.*1) then false else dirty k c
}.

Lemma applied_nil k l : bcache_inv k l -> quiet k -> applied k [] k l.
Proof.
  intros Hinv Hq. split; try done.
  exists (k_bufs k), (procs (k_sched k)), (k_disk k). rewrite app_nil_r. by destruct k as [? []].
Qed.

Lemma copied_applied k a d k' l' : copied k a d k' l' -> applied k [(a, d)] k' l'.
Proof.
  intros [(bs & ps & ->) Hinv Hq Hv Hd]. split; try done.
  - by eexists _, _, _.
  - intros c. rewrite Hd. simpl.
    destruct (Z.eqb_spec c a); case_bool_decide as E; rewrite list_elem_of_singleton in E; done.
Qed.

Lemma applied_app k ws1 k1 l1 ws2 k2 l2 :
  applied k ws1 k1 l1 -> applied k1 ws2 k2 l2 -> applied k (ws1 ++ ws2) k2 l2.
Proof.
  intros [(b1 & p1 & d1 & E1) D1 _ _ V1 Y1] [(b2 & p2 & d2 & E2) D2 Hinv Hq V2 Y2]. split; try done.
  - exists b2, p2, d2. rewrite E2, E1. simpl. by rewrite app_assoc.
  - intros c. rewrite D2, apply_writes_app. by apply apply_writes_ext.
  - intros c. rewrite V2, apply_writes_app. by apply apply_writes_ext.
  - intros c. rewrite Y2, Y1, fmap_app.
    repeat case_bool_decide; rewrite ?elem_of_app in *; try done; tauto.
Qed.

Lemma applied_held k ws k' l' : applied k ws k' l' -> k_held k' = k_held k.
Proof. intros H. by destruct (ap_frame _ _ _ _ H) as (? & ? & ? & ->). Qed.
Lemma applied_log k ws k' l' : applied k ws k' l' -> k_log k' = k_log k.
Proof. intros H. by destruct (ap_frame _ _ _ _ H) as (? & ? & ? & ->). Qed.
Lemma applied_writes k ws k' l' : applied k ws k' l' -> k_writes k' = k_writes k ++ ws.
Proof. intros H. by destruct (ap_frame _ _ _ _ H) as (? & ? & ? & ->). Qed.

Section Block.
Context `{D : DiskDriver} (disksize : Z) `{!DriverOk D disksize}.

(** Read a block, replace its contents, write it and release it. *)
Lemma rewrite_block k l a i k1 d :
  bcache_inv k l -> quiet k -> L_bcache ∉ k_held k -> L_ptable ∉ k_held k -> in_disk disksize a ->
  got k l a i k1 -> flag (b_flags (getb k1 i)) B_VALID = true -> length d = 512%nat ->
  exists k' l', (bwrite i ;;; brelse i) (upd_buf i (set_b_data d) k1) = Done tt k' /\
    applied k [(a, d)] k' l'.
Proof.
  intros Hinv Hq Hlb Hlp Ha G Hv Hd. pose proof (gt_inv _ _ _ _ _ G) as Hinv1.
  pose proof (gt_holds _ _ _ _ _ G) as Hh. pose proof (gt_busy _ _ _ _ _ G) as Hb.
  assert (i < length (k_bufs k1))%nat as Hi by (rewrite (rg_len _ _ (bi_ring _ _ Hinv1)); destruct Hh; lia).
  pose proof (set_data_changed k1 l i a d Hinv1 Hh Hb Hd) as C2.
  set (k2 := upd_buf i _ k1) in *.
  assert (getb k2 i = set_b_data d (getb k1 i)) as E2 by by apply getb_upd_eq.
  destruct (bwrite_changed disksize k2 l i a (ch_inv _ _ _ _ _ _ C2) (ch_holds _ _ _ _ _ _ C2) Ha)
    as (k3 & Hrun & C3 & Hfr & Hcore & Hv3 & Hd3); [by rewrite E2..|].
  rewrite E2 in Hfr, Hcore, Hv3. simpl in Hfr, Hcore, Hv3.
  destruct (gt_frame _ _ _ _ _ G) as [(bs1 & ps1 & E1) _]. destruct Hfr as (bs3 & E3).
  assert (k_held k3 = k_held k) as Hh3 by by rewrite E3; unfold k2; rewrite E1.
  assert (k_disk k3 a = d) as Hda by (rewrite E3; simpl; by rewrite Z.eqb_refl).
  injection Hcore as F1 F2 F3 F4.
  destruct (brelse_changed k3 l i a (ch_inv _ _ _ _ _ _ C3) (ch_holds _ _ _ _ _ _ C3))
    as (k4 & l1 & l2 & _ & Hrun4 & C4 & Fr4 & Hc4 & Hv4 & Hd4); try (by rewrite ?Hh3, ?F1).
  { intros _ _. by rewrite F4, Hda. }
  exists k4, (i :: l1 ++ l2). split; [by rewrite (bind_Done _ _ _ _ _ Hrun)|].
  apply copied_applied. split.
  - destruct Fr4 as [(bs4 & ps4 & ->) _]. exists bs4, ps4. rewrite E3. unfold k2. rewrite E1. done.
  - apply C4.
  - intros x Hx. destruct (decide (x = i)) as [->|Hxi]; [injection Hc4 as -> _ _ _; by rewrite F1|].
    pose proof (ch_others _ _ _ _ _ _ C4 x Hxi) as F. injection F as -> _ _ _.
    pose proof (ch_others _ _ _ _ _ _ C3 x Hxi) as F. injection F as -> _ _ _.
    pose proof (ch_others _ _ _ _ _ _ C2 x Hxi) as F. injection F as -> _ _ _.
    pose proof (gt_others _ _ _ _ _ G x Hxi) as F. injection F as -> _ _ _. by apply Hq.
  - intros c. destruct (Z.eqb_spec c a) as [->|Hne]; [congruence|].
    rewrite (ch_view _ _ _ _ _ _ C4), (ch_view _ _ _ _ _ _ C3), (ch_view _ _ _ _ _ _ C2) by done. apply G.
  - intros c. destruct (Z.eqb_spec c a) as [->|Hne]; [congruence|].
    rewrite (ch_dirty _ _ _ _ _ _ C4), (ch_dirty _ _ _ _ _ _ C3), (ch_dirty _ _ _ _ _ _ C2) by done. apply G.
Qed.

End Block.
