(* ===== verification/Log.v ===== *)
(** Log: log.c, the redo log that makes multi-block updates atomic.

    The on-disk log is a header block, with the count and the home block
    numbers, followed by one block per logged block. *)

From S2P Require Import Prelude Kernel StringLib Bytes ProcCore Bio BioSpec FsLayout.

(** ** The header block: [struct logheader] *)

Definition HDR_SIZE : Z := 4 + 4 * LOGSIZE.
Definition hdr_off (i : Z) : nat := Z.to_nat (4 + 4 * i).

Section Log.
Context `{D : DiskDriver} (fuel : nat).

(** [log.lh.block[i]]; outside the array the access is invalid. *)
Definition lh_block (i : Z) : M kernel Z := fun k =>
  match l_block (k_log k) !! Z.to_nat i with
  | Some b => Done b k
  | None => Faulted "log.lh.block" k
  end.
Definition set_lh_block (i v : Z) : M kernel unit :=
  let! _b := lh_block i in
  modify (upd_log (fun lg => set_l_block (<[Z.to_nat i := i32 v]> (l_block lg)) lg)).

(** The body of the loop of [install_trans]. *)
Definition install_one (tail : Z) : M kernel unit :=
  let! lg := gets k_log in
  let! lbuf := bread fuel (u32 (l_dev lg)) (u32 (l_start lg + tail + 1)) in
  let! bn := lh_block tail in
  let! dbuf := bread fuel (u32 (l_dev lg)) (u32 bn) in
  let! lb := read_buf lbuf in
  modify (upd_buf dbuf (set_b_data (b_data lb))) ;;;
  bwrite dbuf ;;;
  brelse lbuf ;;;
  brelse dbuf.
Fixpoint install_loop (tail : Z) (n : nat) : M kernel unit :=
  match n with
  | O => ret tt
  | S n => install_one tail ;;; install_loop (tail + 1) n
  end.
Definition install_trans : M kernel unit :=
  let! lg := gets k_log in
  install_loop 0 (Z.to_nat (l_n lg)).

(** [for (i = 0; i < log.lh.n; i++) log.lh.block[i] = lh->block[i]] *)
Fixpoint read_head_loop (d : list Z) (i : Z) (n : nat) : M kernel unit :=
  match n with
  | O => ret tt
  | S n => set_lh_block i (get32 d (hdr_off i)) ;;; read_head_loop d (i + 1) n
  end.
Definition read_head : M kernel unit :=
  let! lg := gets k_log in
  let! b := bread fuel (u32 (l_dev lg)) (u32 (l_start lg)) in
  let! x := read_buf b in
  let n := i32 (get32 (b_data x) 0) in
  modify (upd_log (set_l_n n)) ;;;
  read_head_loop (b_data x) 0 (Z.to_nat n) ;;;
  brelse b.

Fixpoint write_head_loop (b : nat) (i : Z) (n : nat) : M kernel unit :=
  match n with
  | O => ret tt
  | S n =>
      let! bn := lh_block i in
      modify (upd_buf b (fun x => set_b_data (put32 (hdr_off i) bn (b_data x)) x)) ;;;
      write_head_loop b (i + 1) n
  end.
Definition write_head : M kernel unit :=
  let! lg := gets k_log in
  let! b := bread fuel (u32 (l_dev lg)) (u32 (l_start lg)) in
  modify (upd_buf b (fun x => set_b_data (put32 0 (l_n lg) (b_data x)) x)) ;;;
  write_head_loop b 0 (Z.to_nat (l_n lg)) ;;;
  bwrite b ;;;
  brelse b.

Definition recover_from_log : M kernel unit :=
  read_head ;;;
  install_trans ;;;
  modify (upd_log (set_l_n 0)) ;;;
  write_head.

Definition initlog (dev : Z) : M kernel unit :=
  if BSIZE <=? HDR_SIZE then panic "initlog: too big logheader" else
  let! sb := readsb fuel (u32 dev) in
  modify (upd_log (fun lg => set_l_dev dev (set_l_size (i32 (sb_nlog sb))
    (set_l_start (i32 (sb_logstart sb)) lg)))) ;;;
  recover_from_log.

(** [while(1)] of [begin_op], with [log.lock] held. *)
Fixpoint begin_op_loop (f : nat) : M kernel unit :=
  match f with
  | O => exhausted
  | S f =>
      let! lg := gets k_log in
      if negb (l_committing lg =? 0) then
        sleep C_log (Some L_log) ;;; begin_op_loop f
      else if LOGSIZE <? l_n lg + (l_outstanding lg + 1) * MAXOPBLOCKS then
        sleep C_log (Some L_log) ;;; begin_op_loop f
      else
        modify (upd_log (fun lg => set_l_outstanding (i32 (l_outstanding lg + 1)) lg)) ;;;
        release L_log
  end.
Definition begin_op : M kernel unit :=
  acquire L_log ;;;
  begin_op_loop fuel.

(** The body of the loop of [write_log]. *)
Definition write_log_one (tail : Z) : M kernel unit :=
  let! lg := gets k_log in
  let! to := bread fuel (u32 (l_dev lg)) (u32 (l_start lg + tail + 1)) in
  let! bn := lh_block tail in
  let! from := bread fuel (u32 (l_dev lg)) (u32 bn) in
  let! fb := read_buf from in
  modify (upd_buf to (set_b_data (b_data fb))) ;;;
  bwrite to ;;;
  brelse from ;;;
  brelse to.
Fixpoint write_log_loop (tail : Z) (n : nat) : M kernel unit :=
  match n with
  | O => ret tt
  | S n => write_log_one tail ;;; write_log_loop (tail + 1) n
  end.
Definition write_log : M kernel unit :=
  let! lg := gets k_log in
  write_log_loop 0 (Z.to_nat (l_n lg)).

Definition commit : M kernel unit :=
  let! lg := gets k_log in
  if 0 <? l_n lg then
    write_log ;;;
    write_head ;;;
    install_trans ;;;
    modify (upd_log (set_l_n 0)) ;;;
    write_head
  else ret tt.

Definition end_op : M kernel unit :=
  acquire L_log ;;;
  modify (upd_log (fun lg => set_l_outstanding (i32 (l_outstanding lg - 1)) lg)) ;;;
  let! lg := gets k_log in
  if negb (l_committing lg =? 0) then panic "log.committing" else
  let do_commit := l_outstanding lg =? 0 in
  (if do_commit then modify (upd_log (set_l_committing 1))
   else wakeup C_log) ;;;
  release L_log ;;;
  if do_commit then
    commit ;;;
    acquire L_log ;;;
    modify (upd_log (set_l_committing 0)) ;;;
    wakeup C_log ;;;
    release L_log
  else ret tt.

(** The index [i] of the loop of [log_write]: the block's slot, or [log.lh.n]. *)
Definition absorb_index (bn n : Z) (bs : list Z) : Z :=
  match find_idx (fun b => u32 b =? bn) (take (Z.to_nat n) bs) with
  | Some i => Z.of_nat i
  | None => n
  end.

Definition log_write (b : nat) : M kernel unit :=
  let! lg := gets k_log in
  if (LOGSIZE <=? l_n lg) || (l_size lg - 1 <=? l_n lg) then panic "too big a transaction" else
  if l_outstanding lg <? 1 then panic "log_write outside of trans" else
  acquire L_log ;;;
  let! lg := gets k_log in
  let! x := read_buf b in
  let i := absorb_index (b_blockno x) (l_n lg) (l_block lg) in
  set_lh_block i (b_blockno x) ;;;
  when (i =? l_n lg) (modify (upd_log (set_l_n (i32 (l_n lg + 1))))) ;;;
  modify (upd_buf b (set_b_flags (Z.lor (b_flags x) B_DIRTY))) ;;;
  release L_log.

End Log.
