(* ===== verification/LogProof.v ===== *)
(** LogProof: log.c is crash-atomic.

    The block writes of a commit are made explicit, the state of the disk
    after a crash is the disk with a prefix of those writes, and recovery run
    on that disk is shown to restore either all of the transaction or none. *)

From S2P Require Import Prelude Kernel StringLib Bytes ProcCore Bio BioSpec LogCopy FsLayout Log.

(** ** The writes of a commit *)

(** Log block [a], [a+1], ... receive the contents of the blocks [bs]. *)
Fixpoint log_writes (v : Z -> list Z) (a : Z) (bs : list Z) : list (Z * list Z) :=
  match bs with
  | [] => []
  | b :: bs => (a, v b) :: log_writes v (a + 1) bs
  end.
(** The blocks [bs] receive the contents of log block [a], [a+1], ... *)
Fixpoint home_writes (v : Z -> list Z) (a : Z) (bs : list Z) : list (Z * list Z) :=
  match bs with
  | [] => []
  | b :: bs => (b, v a) :: home_writes v (a + 1) bs
  end.
(** The header block with count [n] and block numbers [bs]. *)
Fixpoint put_blocks (i : Z) (bs : list Z) (d : list Z) : list Z :=
  match bs with
  | [] => d
  | b :: bs => put_blocks (i + 1) bs (put32 (hdr_off i) b d)
  end.
Definition hdr (bs : list Z) (d : list Z) : list Z :=
  put_blocks 0 bs (put32 0 (Z.of_nat (length bs)) d).

Lemma put_blocks_length i bs d : length (put_blocks i bs d) = length d.
Proof. revert i d. induction bs; intros; simpl; [done|]. by rewrite IHbs, put32_length. Qed.
Lemma hdr_length bs d : length (hdr bs d) = length d.
Proof. unfold hdr. by rewrite put_blocks_length, put32_length. Qed.

Lemma put_blocks_below i bs d off :
  0 <= i -> (off + 4 <= hdr_off i)%nat -> get32 (put_blocks i bs d) off = get32 d off.
Proof.
  revert i d. induction bs as [|b bs IH]; intros i d Hi Hoff; simpl; [done|].
  rewrite IH by (unfold hdr_off in *; lia). apply get32_put32_ne. lia.
Qed.

Lemma put_blocks_get i bs d j b :
  0 <= i -> (hdr_off (i + Z.of_nat (length bs)) <= length d)%nat -> bs !! j = Some b ->
  get32 (put_blocks i bs d) (hdr_off (i + Z.of_nat j)) = u32 b.
Proof.
  revert i d j. induction bs as [|b' bs IH]; intros i d [|j] Hi Hlen Hj; simplify_eq/=.
  - rewrite Z.add_0_r, put_blocks_below by (unfold hdr_off in *; lia).
    apply get32_put32. unfold hdr_off in *. lia.
  - replace (i + Z.of_nat (S j)) with (i + 1 + Z.of_nat j) by lia. apply IH; [lia| |done].
    rewrite put32_length. by replace (i + 1 + Z.of_nat (length bs)) with (i + Z.of_nat (S (length bs))) by lia.
Qed.

Lemma hdr_count bs d : length d = 512%nat -> (length bs <= 30)%nat ->
  get32 (hdr bs d) 0 = Z.of_nat (length bs).
Proof.
  intros Hd Hl. unfold hdr. rewrite put_blocks_below by (unfold hdr_off; lia).
  rewrite get32_put32 by lia. apply u32_small. lia.
Qed.
Lemma hdr_block bs d j b : length d = 512%nat -> (length bs <= 30)%nat -> bs !! j = Some b ->
  get32 (hdr bs d) (hdr_off (Z.of_nat j)) = u32 b.
Proof.
  intros Hd Hl Hj. unfold hdr. rewrite <- (Z.add_0_l (Z.of_nat j)).
  apply put_blocks_get; [lia| |done]. rewrite put32_length. unfold hdr_off. lia.
Qed.

Lemma log_writes_ext v v' a bs :
  (forall b, b ∈ bs -> v b = v' b) -> log_writes v a bs = log_writes v' a bs.
Proof.
  revert a. induction bs as [|b bs IH]; intros a H; simpl; [done|].
  rewrite H by set_solver. f_equal. apply IH. set_solver.
Qed.
Lemma home_writes_ext v v' a bs :
  (forall c, a <= c < a + Z.of_nat (length bs) -> v c = v' c) ->
  home_writes v a bs = home_writes v' a bs.
Proof.
  revert a. induction bs as [|b bs IH]; intros a H; simpl; [done|]. simpl in H.
  rewrite H by lia. f_equal. apply IH. intros c Hc. apply H. lia.
Qed.
Lemma log_writes_fst v a bs c :
  c ∈ (log_writes v a bs).*1 <-> a <= c < a + Z.of_nat (length bs).
Proof.
  revert a. induction bs as [|b bs IH]; intros a; simpl; [rewrite elem_of_nil; lia|].
  rewrite elem_of_cons, IH. lia.
Qed.
Lemma home_writes_fst v a bs : (home_writes v a bs).*1 = bs.
Proof. revert a. induction bs as [|b bs IH]; intros a; simpl; [done|]. by rewrite IH. Qed.

(** ** The geometry of the log *)

(** [log] describes a log of [LOGSIZE] blocks from [l_start] on, inside the
    disk; the blocks [bs] are home blocks, outside the log. *)
Record log_geom (disksize : Z) (lg : log_state) (bs : list Z) : Prop := {
  lg_dev : l_dev lg = ROOTDEV;
  lg_start : 0 <= l_start lg;
  lg_end : l_start lg + LOGSIZE <= disksize;
  lg_max : disksize <= 2 ^ 31;
  lg_array : length (l_block lg) = 30%nat;
  lg_len : (length bs < 30)%nat;
  lg_blocks : forall i b, bs !! i = Some b -> l_block lg !! i = Some b;
  lg_home : forall b, b ∈ bs -> in_disk disksize b /\ (b < l_start lg \/ l_start lg + LOGSIZE <= b)
}.

(** A quiet cache, none of the locks the log code takes. *)
Record calm (k : kernel) (l : list nat) : Prop := {
  cm_inv : bcache_inv k l;
  cm_quiet : quiet k;
  cm_bcache : L_bcache ∉ k_held k;
  cm_ptable : L_ptable ∉ k_held k
}.

Lemma applied_calm k l ws k' l' : calm k l -> applied k ws k' l' -> calm k' l'.
Proof. intros [_ _ H1 H2] A. split; try apply A; by rewrite (applied_held _ _ _ _ A). Qed.

Lemma roomy_step k a d k' l' b ds :
  applied k [(a, d)] k' l' -> a <> b -> roomy k b ds -> roomy k' b ds.
Proof.
  intros A Hab (Hds & Hlen & Hroom).
  assert (forall c, dirty k' c = if bool_decide (c = a) then false else dirty k c) as Hd.
  { intros c. rewrite (ap_dirty _ _ _ _ A). simpl.
    repeat case_bool_decide; try done; rewrite ?list_elem_of_singleton in *; done. }
  split; [|split; [done|]].
  - intros c. rewrite Hd. case_bool_decide; [done|auto].
  - rewrite Hd. rewrite bool_decide_eq_false_2 by done. done.
Qed.

Section Runs.
Context `{D : DiskDriver} (disksize : Z) `{!DriverOk D disksize} (fuel : nat).

Lemma lh_block_run k i b : l_block (k_log k) !! i = Some b -> lh_block (Z.of_nat i) k = Done b k.
Proof. intros H. unfold lh_block. by rewrite Nat2Z.id, H. Qed.

(** The arguments of [bread] in the loops. *)
Lemma geom_addrs lg bs i b :
  log_geom disksize lg bs -> bs !! i = Some b ->
  u32 (l_dev lg) = ROOTDEV /\ u32 (l_start lg + Z.of_nat i + 1) = l_start lg + 1 + Z.of_nat i /\
  u32 b = b /\ in_disk disksize (l_start lg + 1 + Z.of_nat i) /\ in_disk disksize b /\
  l_start lg + 1 + Z.of_nat i <> b.
Proof.
  intros G Hi. destruct G. destruct (lg_home0 b) as [[Hb1 Hb2] Hout]; [by eapply list_elem_of_lookup_2|].
  pose proof (lookup_lt_Some _ _ _ Hi). unfold LOGSIZE, MAXOPBLOCKS, in_disk in *.
  rewrite lg_dev0. rewrite !u32_small by (unfold ROOTDEV; lia).
  split_and!; lia.
Qed.

Lemma write_log_one_run k l bs i b ds :
  calm k l -> log_geom disksize (k_log k) bs -> bs !! i = Some b -> roomy k b ds ->
  exists k' l', write_log_one (S fuel) (Z.of_nat i) k = Done tt k' /\
    applied k [(l_start (k_log k) + 1 + Z.of_nat i, view k b)] k' l'.
Proof.
  intros [Hinv Hq Hlb Hlp] G Hi Hroom.
  destruct (geom_addrs _ _ _ _ G Hi) as (E1 & E2 & E3 & Ha & Hb & Hne).
  destruct (two_breads disksize k l _ b ds fuel Hinv Hq Hlb Hne Ha Hb Hroom)
    as (x & k1 & y & k2 & Hr1 & Hr2 & F1 & B).
  destruct (copy_tail disksize k l x _ y b k2 Hinv Hq Ha Hne B Hlb Hlp) as (k' & l' & Hrun & C).
  exists k', l'. split; [|by apply copied_applied].
  unfold write_log_one. rewrite bind_gets, E1, E2, (bind_Done _ _ _ _ _ Hr1).
  rewrite (bind_Done _ _ _ b k1).
  - rewrite E3, (bind_Done _ _ _ _ _ Hr2). exact Hrun.
  - apply lh_block_run. destruct F1 as [(? & ? & ->) _]. by apply G.
Qed.

Lemma install_one_run k l bs i b ds :
  calm k l -> log_geom disksize (k_log k) bs -> bs !! i = Some b -> roomy k b ds ->
  exists k' l', install_one (S fuel) (Z.of_nat i) k = Done tt k' /\
    applied k [(b, view k (l_start (k_log k) + 1 + Z.of_nat i))] k' l'.
Proof.
  intros [Hinv Hq Hlb Hlp] G Hi Hroom.
  destruct (geom_addrs _ _ _ _ G Hi) as (E1 & E2 & E3 & Ha & Hb & Hne).
  destruct (two_breads disksize k l _ b ds fuel Hinv Hq Hlb Hne Ha Hb Hroom)
    as (x & k1 & y & k2 & Hr1 & Hr2 & F1 & B).
  destruct (copy_tail disksize k l y b x _ k2 Hinv Hq Hb (not_eq_sym Hne) (both_sym _ _ _ _ _ _ _ B) Hlb Hlp)
    as (k' & l' & Hrun & C).
  exists k', l'. split; [|by apply copied_applied].
  unfold install_one. rewrite bind_gets, E1, E2, (bind_Done _ _ _ _ _ Hr1).
  rewrite (bind_Done _ _ _ b k1).
  - rewrite E3, (bind_Done _ _ _ _ _ Hr2). exact Hrun.
  - apply lh_block_run. destruct F1 as [(? & ? & ->) _]. by apply G.
Qed.

Lemma lookup_drop_head {A} (l : list A) i x l' :
  drop i l = x :: l' -> l !! i = Some x /\ drop (S i) l = l'.
Proof.
  intros H. pose proof (lookup_drop l i 0) as E. rewrite H, Nat.add_0_r in E. simpl in E.
  split; [done|]. replace (S i) with (i + 1)%nat by lia. rewrite <- drop_drop, H. done.
Qed.

Lemma write_log_loop_run bs ds rest i k l :
  calm k l -> log_geom disksize (k_log k) bs -> drop i bs = rest ->
  (forall b, b ∈ rest -> roomy k b ds) ->
  exists k' l', write_log_loop (S fuel) (Z.of_nat i) (length rest) k = Done tt k' /\
    applied k (log_writes (view k) (l_start (k_log k) + 1 + Z.of_nat i) rest) k' l'.
Proof.
  revert i k l. induction rest as [|b rest IH]; intros i k l Hc G Hd Hroom.
  { exists k, l. split; [done|]. apply applied_nil; apply Hc. }
  destruct (lookup_drop_head _ _ _ _ Hd) as [Hi Hd'].
  destruct (write_log_one_run k l bs i b ds Hc G Hi) as (k1 & l1 & Hr1 & A1); [apply Hroom; set_solver|].
  pose proof (applied_log _ _ _ _ A1) as Hlog.
  assert (forall b', b' ∈ rest -> l_start (k_log k) + 1 + Z.of_nat i <> b') as Hout.
  { intros b' Hb'. destruct (lg_home _ _ _ G b') as [_ Hh].
    { rewrite <- Hd' in Hb'. apply list_elem_of_lookup in Hb' as [j Hj]. rewrite lookup_drop in Hj.
      by eapply list_elem_of_lookup_2. }
    pose proof (lookup_lt_Some _ _ _ Hi). pose proof (lg_len _ _ _ G).
    unfold LOGSIZE, MAXOPBLOCKS in Hh. lia. }
  destruct (IH (S i) k1 l1) as (k2 & l2 & Hr2 & A2).
  - by eapply applied_calm.
  - by rewrite Hlog.
  - done.
  - intros b' Hb'. eapply roomy_step; [done|by apply Hout|]. apply Hroom. set_solver.
  - exists k2, l2. cbn [write_log_loop length]. rewrite (bind_Done _ _ _ _ _ Hr1).
    replace (Z.of_nat i + 1) with (Z.of_nat (S i)) by lia. split; [done|].
    cbn [log_writes]. eapply (applied_app _ [_]); [done|].
    rewrite Hlog in A2.
    replace (l_start (k_log k) + 1 + Z.of_nat i + 1) with (l_start (k_log k) + 1 + Z.of_nat (S i)) by lia.
    rewrite (log_writes_ext (view k) (view k1)); [done|].
    intros b' Hb'. rewrite (ap_view _ _ _ _ A1). simpl. unfold write1. simpl.
    destruct (Z.eqb_spec b' (l_start (k_log k) + 1 + Z.of_nat i)); [by destruct (Hout b' Hb')|done].
Qed.

Lemma install_loop_run bs ds rest i k l :
  calm k l -> log_geom disksize (k_log k) bs -> NoDup bs -> drop i bs = rest ->
  (forall b, b ∈ rest -> roomy k b ds) ->
  exists k' l', install_loop (S fuel) (Z.of_nat i) (length rest) k = Done tt k' /\
    applied k (home_writes (view k) (l_start (k_log k) + 1 + Z.of_nat i) rest) k' l'.
Proof.
  revert i k l. induction rest as [|b rest IH]; intros i k l Hc G Hnd Hd Hroom.
  { exists k, l. split; [done|]. apply applied_nil; apply Hc. }
  destruct (lookup_drop_head _ _ _ _ Hd) as [Hi Hd'].
  destruct (install_one_run k l bs i b ds Hc G Hi) as (k1 & l1 & Hr1 & A1); [apply Hroom; set_solver|].
  pose proof (applied_log _ _ _ _ A1) as Hlog.
  assert (b ∉ rest) as Hb.
  { pose proof (NoDup_app (take i bs) (drop i bs)) as Hsplit. rewrite take_drop in Hsplit.
    apply Hsplit in Hnd as (_ & _ & Hnd). rewrite Hd in Hnd. by apply NoDup_cons in Hnd as [? _]. }
  destruct (IH (S i) k1 l1) as (k2 & l2 & Hr2 & A2); try done.
  - by eapply applied_calm.
  - by rewrite Hlog.
  - intros b' Hb'. eapply roomy_step; [done| |apply Hroom; set_solver]. intros ->. done.
  - exists k2, l2. cbn [install_loop length]. rewrite (bind_Done _ _ _ _ _ Hr1).
    replace (Z.of_nat i + 1) with (Z.of_nat (S i)) by lia. split; [done|].
    cbn [home_writes]. eapply (applied_app _ [_]); [done|].
    rewrite Hlog in A2.
    replace (l_start (k_log k) + 1 + Z.of_nat i + 1) with (l_start (k_log k) + 1 + Z.of_nat (S i)) by lia.
    rewrite (home_writes_ext (view k) (view k1)); [done|].
    intros c Hc'. rewrite (ap_view _ _ _ _ A1). simpl. unfold write1. simpl.
    destruct (Z.eqb_spec c b) as [->|]; [|done]. exfalso.
    destruct (lg_home _ _ _ G b) as [_ Hh]; [by eapply list_elem_of_lookup_2|].
    assert (length rest = length bs - S i)%nat by (rewrite <- Hd'; apply length_drop).
    pose proof (lg_len _ _ _ G). unfold LOGSIZE, MAXOPBLOCKS in Hh. lia.
Qed.

(** ** The header block *)

Lemma upd_buf_upd b f g k : upd_buf b f (upd_buf b g k) = upd_buf b (fun x => f (g x)) k.
Proof.
  unfold upd_buf. simpl. unfold set_k_bufs. simpl. f_equal. apply list_eq. intros j.
  destruct (decide (b = j)) as [<-|Hne].
  - rewrite !list_lookup_alter_eq. by destruct (k_bufs k !! b).
  - by rewrite !list_lookup_alter_ne.
Qed.
Lemma upd_buf_ext b f g k : f (getb k b) = g (getb k b) -> upd_buf b f k = upd_buf b g k.
Proof.
  intros H. unfold upd_buf. f_equal. apply list_eq. intros j.
  destruct (decide (b = j)) as [<-|Hne].
  - rewrite !list_lookup_alter_eq. unfold getb in H. destruct (k_bufs k !! b); simpl in *; congruence.
  - by rewrite !list_lookup_alter_ne.
Qed.

Lemma write_head_loop_run b rest i k :
  (forall j c, rest !! j = Some c -> l_block (k_log k) !! (i + j)%nat = Some c) ->
  write_head_loop b (Z.of_nat i) (length rest) k =
  Done tt (upd_buf b (fun x => set_b_data (put_blocks (Z.of_nat i) rest (b_data x)) x) k).
Proof.
  revert i k. induction rest as [|c rest IH]; intros i k H; cbn [write_head_loop length].
  - unfold ret. f_equal. rewrite (upd_buf_ext _ _ (fun x => x)) by by destruct (getb k b).
    unfold upd_buf. rewrite list_alter_id by done. by destruct k.
  - rewrite (bind_Done _ _ _ c k).
    + rewrite bind_modify. replace (Z.of_nat i + 1) with (Z.of_nat (S i)) by lia.
      rewrite IH, upd_buf_upd.
      * f_equal. apply upd_buf_ext. cbn [put_blocks].
        by replace (Z.of_nat i + 1) with (Z.of_nat (S i)) by lia.
      * intros j c' Hj. simpl. replace (S (i + j)) with (i + S j)%nat by lia. by apply H.
    + apply lh_block_run. specialize (H O c). rewrite Nat.add_0_r in H. by apply H.
Qed.

Lemma write_head_run k l bs ds :
  calm k l -> log_geom disksize (k_log k) bs -> l_n (k_log k) = Z.of_nat (length bs) ->
  (forall c, dirty k c = true -> c ∈ ds) -> (length ds < NBUF)%nat ->
  exists k' l', write_head (S fuel) k = Done tt k' /\
    applied k [(l_start (k_log k), hdr bs (view k (l_start (k_log k))))] k' l'.
Proof.
  intros [Hinv Hq Hlb Hlp] G Hn Hds Hlen.
  assert (in_disk disksize (l_start (k_log k))) as Hs.
  { destruct G. unfold in_disk, LOGSIZE, MAXOPBLOCKS in *. lia. }
  assert (u32 (l_dev (k_log k)) = ROOTDEV /\ u32 (l_start (k_log k)) = l_start (k_log k)) as [E1 E2].
  { destruct G. rewrite lg_dev0. split; [done|]. apply u32_small. destruct Hs. lia. }
  destruct (bread_got disksize k l _ fuel Hinv Hlb Hs (quiet_available _ _ _ _ Hinv Hq Hds Hlen))
    as (i & k1 & Hrun & Gt & Hv & Hd).
  destruct (rewrite_block disksize k l _ i k1 (hdr bs (view k (l_start (k_log k)))) Hinv Hq Hlb Hlp Hs Gt Hv)
    as (k' & l' & Hrun' & A).
  { rewrite hdr_length, <- Hd. apply (bi_data _ _ (gt_inv _ _ _ _ _ Gt)). }
  exists k', l'. split; [|done]. unfold write_head.
  rewrite bind_gets, E1, E2, (bind_Done _ _ _ _ _ Hrun), bind_modify, Hn, Nat2Z.id.
  rewrite (bind_Done _ _ _ tt (upd_buf i (set_b_data (hdr bs (view k (l_start (k_log k))))) k1)); [done|].
  rewrite (write_head_loop_run i bs 0).
  - f_equal. rewrite upd_buf_upd. apply upd_buf_ext. simpl. rewrite Hd. done.
  - destruct (gt_frame _ _ _ _ _ Gt) as [(? & ? & ->) _]. apply G.
Qed.

(** ** [commit] *)

Definition commit_writes (v : Z -> list Z) (start : Z) (bs : list Z) : list (Z * list Z) :=
  log_writes v (start + 1) bs ++
  [(start, hdr bs (v start))] ++
  map (fun b => (b, v b)) bs ++
  [(start, hdr [] (hdr bs (v start)))].

(** The transaction is what is dirty, and it fits the log. *)
Record transaction (k : kernel) (bs : list Z) : Prop := {
  tx_n : l_n (k_log k) = Z.of_nat (length bs);
  tx_nodup : NoDup bs;
  tx_dirty : forall c, dirty k c = true <-> c ∈ bs
}.

Lemma transaction_roomy k bs b :
  transaction k bs -> (length bs < NBUF)%nat -> b ∈ bs -> roomy k b bs.
Proof. intros [_ _ Hd] Hl Hb. split; [apply Hd|]. split; [done|]. left. by apply Hd. Qed.

Lemma log_writes_lookup v a bs d j b :
  bs !! j = Some b -> apply_writes d (log_writes v a bs) (a + Z.of_nat j) = v b.
Proof.
  revert a d j. induction bs as [|b' bs IH]; intros a d [|j] Hj; simplify_eq/=.
  - rewrite apply_writes_out.
    + unfold write1. simpl. by rewrite Z.add_0_r, Z.eqb_refl.
    + rewrite log_writes_fst. lia.
  - replace (a + Z.of_nat (S j)) with (a + 1 + Z.of_nat j) by lia. by apply IH.
Qed.

Lemma home_writes_map v w a bs :
  (forall j b, bs !! j = Some b -> v (a + Z.of_nat j) = w b) ->
  home_writes v a bs = map (fun b => (b, w b)) bs.
Proof.
  revert a. induction bs as [|b bs IH]; intros a H; simpl; [done|].
  pose proof (H O b eq_refl) as H0. rewrite Z.add_0_r in H0. rewrite H0. f_equal. apply IH.
  intros j c Hj. replace (a + 1 + Z.of_nat j) with (a + Z.of_nat (S j)) by lia. by apply H.
Qed.

Lemma calm_log f k l : calm k l -> calm (upd_log f k) l.
Proof.
  intros [[[? ? ? ?] ? ? ? ? ? ?] ? ? ?]. split; [|done..]. split; done.
Qed.

Lemma geom_nil lg bs n :
  log_geom disksize lg bs -> log_geom disksize (set_l_n n lg) [] /\ log_geom disksize (set_l_n n lg) bs.
Proof.
  intros []. split; split; try done.
  - simpl. lia.
  - intros b Hb. by apply not_elem_of_nil in Hb.
Qed.

(** The first half of a commit, up to and including the header write. *)
Lemma commit_log k l bs :
  calm k l -> log_geom disksize (k_log k) bs -> transaction k bs ->
  exists k2 l2, (forall f : M kernel unit,
      (write_log (S fuel) ;;; write_head (S fuel) ;;; f) k = f k2) /\
    applied k (log_writes (view k) (l_start (k_log k) + 1) bs ++
               [(l_start (k_log k), hdr bs (view k (l_start (k_log k))))]) k2 l2.
Proof.
  intros Hc G T. pose proof (lg_len _ _ _ G) as Hlen.
  destruct (write_log_loop_run bs bs bs 0 k l Hc G (drop_0 _)) as (k1 & l1 & Hr1 & A1).
  { intros b Hb. by apply transaction_roomy. }
  rewrite Z.add_0_r in A1. pose proof (applied_log _ _ _ _ A1) as Hlog.
  destruct (write_head_run k1 l1 bs bs) as (k2 & l2 & Hr2 & A2).
  - by eapply applied_calm.
  - by rewrite Hlog.
  - rewrite Hlog. apply T.
  - intros c. rewrite (ap_dirty _ _ _ _ A1). case_bool_decide; [done|]. apply T.
  - done.
  - exists k2, l2. split.
    + intros f. rewrite (bind_Done _ _ _ tt k1).
      * by rewrite (bind_Done _ _ _ _ _ Hr2).
      * unfold write_log. rewrite bind_gets, (tx_n _ _ T), Nat2Z.id. done.
    + rewrite Hlog in A2. eapply applied_app; [done|].
      assert (view k1 (l_start (k_log k)) = view k (l_start (k_log k))) as E.
      { rewrite (ap_view _ _ _ _ A1). apply apply_writes_out. rewrite log_writes_fst. lia. }
      by rewrite E in A2.
Qed.

(** What the blocks look like after the first half. *)
Lemma commit_log_view k bs k2 l2 c :
  log_geom disksize (k_log k) bs ->
  applied k (log_writes (view k) (l_start (k_log k) + 1) bs ++
             [(l_start (k_log k), hdr bs (view k (l_start (k_log k))))]) k2 l2 ->
  (forall j b, bs !! j = Some b -> view k2 (l_start (k_log k) + 1 + Z.of_nat j) = view k b) /\
  view k2 (l_start (k_log k)) = hdr bs (view k (l_start (k_log k))) /\
  ((c < l_start (k_log k) \/ l_start (k_log k) + LOGSIZE <= c) ->
     view k2 c = view k c /\ dirty k2 c = dirty k c).
Proof.
  intros G A. pose proof (lg_len _ _ _ G) as Hlen. split_and!.
  - intros j b Hj. rewrite (ap_view _ _ _ _ A), apply_writes_app. simpl. unfold write1. simpl.
    destruct (Z.eqb_spec (l_start (k_log k) + 1 + Z.of_nat j) (l_start (k_log k))); [lia|].
    by apply log_writes_lookup.
  - rewrite (ap_view _ _ _ _ A), apply_writes_app. simpl. unfold write1. simpl. by rewrite Z.eqb_refl.
  - intros Hout. unfold LOGSIZE, MAXOPBLOCKS in Hout.
    assert (c ∉ (log_writes (view k) (l_start (k_log k) + 1) bs ++
             [(l_start (k_log k), hdr bs (view k (l_start (k_log k))))]).*1) as Hn.
    { rewrite fmap_app, elem_of_app, log_writes_fst. simpl. rewrite list_elem_of_singleton. lia. }
    rewrite (ap_view _ _ _ _ A), (ap_dirty _ _ _ _ A), bool_decide_eq_false_2 by done.
    split; [by apply apply_writes_out|done].
Qed.

(** Installing the committed blocks at their home locations. *)
Lemma commit_install k bs k2 l2 :
  log_geom disksize (k_log k) bs -> transaction k bs -> calm k2 l2 ->
  applied k (log_writes (view k) (l_start (k_log k) + 1) bs ++
             [(l_start (k_log k), hdr bs (view k (l_start (k_log k))))]) k2 l2 ->
  exists k3 l3, install_trans (S fuel) k2 = Done tt k3 /\
    applied k2 (map (fun b => (b, view k b)) bs) k3 l3 /\
    (forall c, dirty k3 c = true -> False) /\
    view k3 (l_start (k_log k)) = hdr bs (view k (l_start (k_log k))).
Proof.
  intros G T Hc2 A2. pose proof (lg_len _ _ _ G) as Hlen. pose proof (applied_log _ _ _ _ A2) as Hlog2.
  assert (forall c, c ∈ bs -> dirty k2 c = dirty k c) as Hdy.
  { intros c Hb. destruct (commit_log_view k bs k2 l2 c G A2) as (_ & _ & Hout).
    destruct (lg_home _ _ _ G c Hb) as [_ Ho]. by apply Hout. }
  assert (forall c, dirty k2 c = true -> c ∈ bs) as Hdb.
  { intros c. rewrite (ap_dirty _ _ _ _ A2). case_bool_decide; [done|]. apply T. }
  destruct (install_loop_run bs bs bs 0 k2 l2 Hc2) as (k3 & l3 & Hr3 & A3).
  { by rewrite Hlog2. } { apply T. } { apply drop_0. }
  { intros b Hb. split; [done|]. split; [done|]. left. rewrite Hdy by done. by apply T. }
  rewrite Hlog2, Z.add_0_r in A3.
  destruct (commit_log_view k bs k2 l2 0 G A2) as (Hlogv & Hhdr & _).
  rewrite (home_writes_map _ (view k)) in A3 by done. exists k3, l3. split_and!; [|done|..].
  - unfold install_trans. rewrite bind_gets, Hlog2, (tx_n _ _ T), Nat2Z.id. done.
  - intros c. rewrite (ap_dirty _ _ _ _ A3). case_bool_decide as Hin; [done|]. intros Hd.
    apply Hin. rewrite <- list_fmap_compose. apply Hdb in Hd.
    apply list_elem_of_fmap. by exists c.
  - rewrite (ap_view _ _ _ _ A3), apply_writes_out; [done|].
    rewrite <- list_fmap_compose. intros Hin. apply list_elem_of_fmap in Hin as (b & E & Hb). simpl in E.
    destruct (lg_home _ _ _ G b Hb) as [_ Ho]. unfold LOGSIZE, MAXOPBLOCKS in Ho. lia.
Qed.

Lemma commit_run k l bs :
  calm k l -> log_geom disksize (k_log k) bs -> transaction k bs -> bs <> [] ->
  exists k' l', commit (S fuel) k = Done tt k' /\
    k_writes k' = k_writes k ++ commit_writes (view k) (l_start (k_log k)) bs /\
    (forall c, k_disk k' c = apply_writes (k_disk k) (commit_writes (view k) (l_start (k_log k)) bs) c) /\
    calm k' l' /\ k_log k' = set_l_n 0 (k_log k) /\ k_held k' = k_held k /\
    (forall c, dirty k' c = true -> False).
Proof.
  intros Hc G T Hne. destruct (commit_log k l bs Hc G T) as (k2 & l2 & Hr2 & A2).
  pose proof (applied_log _ _ _ _ A2) as Hlog2. pose proof (applied_calm _ _ _ _ _ Hc A2) as Hc2.
  destruct (commit_install k bs k2 l2 G T Hc2 A2) as (k3 & l3 & Hr3 & A3 & Hd3 & Hv3).
  pose proof (applied_log _ _ _ _ A3) as Hlog3.
  destruct (geom_nil _ _ 0 G) as [G0 _].
  destruct (write_head_run (upd_log (set_l_n 0) k3) l3 [] []) as (k4 & l4 & Hr4 & A4).
  { apply calm_log. by eapply applied_calm. }
  { simpl. by rewrite Hlog3, Hlog2. } { done. } { intros c Hd. by destruct (Hd3 c). } { unfold NBUF. simpl. lia. }
  change (k_log (upd_log ?f ?k)) with (f (k_log k)) in A4. rewrite Hlog3, Hlog2 in A4. simpl in A4.
  change (view (upd_log ?f ?k)) with (view k) in A4. rewrite Hv3 in A4. exists k4, l4. split_and!.
  - unfold commit. rewrite bind_gets, (tx_n _ _ T).
    replace (0 <? Z.of_nat (length bs)) with true by (symmetry; apply Z.ltb_lt; destruct bs; simpl; [done|lia]).
    by rewrite Hr2, (bind_Done _ _ _ tt k3), bind_modify.
  - rewrite (applied_writes _ _ _ _ A4). simpl. rewrite (applied_writes _ _ _ _ A3), (applied_writes _ _ _ _ A2).
    unfold commit_writes. by rewrite <- !app_assoc.
  - intros c. rewrite (ap_disk _ _ _ _ A4). unfold commit_writes. rewrite app_assoc, app_assoc.
    rewrite apply_writes_app. apply apply_writes_ext. simpl. rewrite (ap_disk _ _ _ _ A3), apply_writes_app.
    apply apply_writes_ext. apply A2.
  - eapply applied_calm; [|done]. apply calm_log. by eapply applied_calm.
  - rewrite (applied_log _ _ _ _ A4). simpl. by rewrite Hlog3, Hlog2.
  - rewrite (applied_held _ _ _ _ A4). simpl. by rewrite (applied_held _ _ _ _ A3), (applied_held _ _ _ _ A2).
  - intros c. rewrite (ap_dirty _ _ _ _ A4). case_bool_decide; [done|]. apply Hd3.
Qed.

(** ** Recovery *)

(** Nothing but the in-memory log state changed. *)
Record log_only (k : kernel) (g : log_state -> log_state) (k' : kernel) : Prop := {
  lo_log : k_log k' = g (k_log k);
  lo_disk : k_disk k' = k_disk k;
  lo_writes : k_writes k' = k_writes k;
  lo_view : forall c, view k' c = view k c;
  lo_dirty : forall c, dirty k' c = dirty k c
}.

(** Reading a block, updating [log] from it, and releasing it. *)
Lemma read_block k l a :
  calm k l -> (forall c, dirty k c = false) -> in_disk disksize a ->
  exists i k1, bread (S fuel) ROOTDEV a k = Done i k1 /\ k_log k1 = k_log k /\
    read_buf i k1 = Done (getb k1 i) k1 /\ b_data (getb k1 i) = view k a /\
    forall g, exists k' l', brelse i (upd_log g k1) = Done tt k' /\ calm k' l' /\ log_only k g k'.
Proof.
  intros [Hinv Hq Hlb Hlp] Hnd Ha.
  destruct (bread_got disksize k l a fuel Hinv Hlb Ha) as (i & k1 & Hrun & G & Hv & Hd).
  { apply (quiet_available k l a [] Hinv Hq); [|unfold NBUF; simpl; lia].
    intros c. rewrite Hnd. done. }
  pose proof (gt_inv _ _ _ _ _ G) as Hinv1. pose proof (gt_frame _ _ _ _ _ G) as F1.
  pose proof (gt_holds _ _ _ _ _ G) as Hh.
  exists i, k1. split; [done|]. split; [by destruct F1 as [(? & ? & ->) _]|].
  split; [apply read_buf_run; rewrite (rg_len _ _ (bi_ring _ _ Hinv1)); destruct Hh; lia|].
  split; [done|]. intros g.
  assert (bcache_inv (upd_log g k1) l) as Hinv2 by (destruct Hinv1 as [[? ? ? ?] ? ? ? ? ? ?]; split; done).
  assert (k_held k1 = k_held k) as Hheld by by apply bframe_held.
  destruct (brelse_changed (upd_log g k1) l i a Hinv2 Hh)
    as (k' & l1 & l2 & _ & Hrun' & C & F & Hcore & Hva & Hda).
  { simpl. by rewrite Hheld. } { simpl. by rewrite Hheld. } { apply G. }
  { intros _ _. change (b_data (getb (upd_log g k1) i)) with (b_data (getb k1 i)). rewrite Hd.
    rewrite (quiet_view k l a Hinv Hq (Hnd a)). by destruct F1 as [(? & ? & ->) _]. }
  exists k', (i :: l1 ++ l2). split; [done|]. split; [split|split].
  - apply C.
  - intros x Hx. destruct (decide (x = i)) as [->|Hxi].
    + injection Hcore as -> _ _ _. pose proof (bi_flags _ _ Hinv2 i) as Hf. clear -Hf. flags Hf.
    + pose proof (ch_others _ _ _ _ _ _ C x Hxi) as E. injection E as -> _ _ _.
      change (getb (upd_log g k1) x) with (getb k1 x).
      pose proof (gt_others _ _ _ _ _ G x Hxi) as E. injection E as -> _ _ _. by apply Hq.
  - rewrite (bframe_held _ _ F). simpl. by rewrite Hheld.
  - rewrite (bframe_held _ _ F). simpl. by rewrite Hheld.
  - destruct F as [(? & ? & ->) _], F1 as [(? & ? & ->) _]. done.
  - destruct F as [(? & ? & ->) _], F1 as [(? & ? & ->) _]. done.
  - destruct F as [(? & ? & ->) _], F1 as [(? & ? & ->) _]. done.
  - intros c. transitivity (view k1 c); [|apply G].
    destruct (decide (c = a)) as [->|Hne]; [exact Hva|]. by apply (ch_view _ _ _ _ _ _ C).
  - intros c. transitivity (dirty k1 c); [|apply G].
    destruct (decide (c = a)) as [->|Hne]; [exact Hda|]. by apply (ch_dirty _ _ _ _ _ _ C).
Qed.

(** The header block [h] lists the blocks [bs]. *)
Record header_is (h : list Z) (bs : list Z) : Prop := {
  hi_n : get32 h 0 = Z.of_nat (length bs);
  hi_len : (length bs < 30)%nat;
  hi_blocks : forall j b, bs !! j = Some b -> get32 h (hdr_off (Z.of_nat j)) = b
}.

(** [log.lh.block] after the loop of [read_head]. *)
Fixpoint load_blocks (i : nat) (bs blk : list Z) : list Z :=
  match bs with
  | [] => blk
  | b :: bs => load_blocks (S i) bs (<[i := b]> blk)
  end.

Lemma load_blocks_length i bs blk : length (load_blocks i bs blk) = length blk.
Proof. revert i blk. induction bs; intros; simpl; [done|]. by rewrite IHbs, length_insert. Qed.
Lemma load_blocks_below i bs blk j : (j < i)%nat -> load_blocks i bs blk !! j = blk !! j.
Proof.
  revert i blk. induction bs as [|b bs IH]; intros i blk Hj; simpl; [done|].
  rewrite IH by lia. apply list_lookup_insert_ne. lia.
Qed.
Lemma load_blocks_lookup i bs blk j b :
  (i + length bs <= length blk)%nat -> bs !! j = Some b -> load_blocks i bs blk !! (i + j)%nat = Some b.
Proof.
  revert i blk j. induction bs as [|b' bs IH]; intros i blk [|j] Hl Hj; simplify_eq/=.
  - rewrite Nat.add_0_r, load_blocks_below by lia. apply list_lookup_insert_eq. lia.
  - replace (i + S j)%nat with (S i + j)%nat by lia. apply IH; [rewrite length_insert; lia|done].
Qed.

Lemma read_head_loop_run h rest i k :
  (forall j b, rest !! j = Some b -> get32 h (hdr_off (Z.of_nat (i + j))) = b /\ 0 <= b < 2 ^ 31) ->
  (i + length rest <= length (l_block (k_log k)))%nat ->
  read_head_loop h (Z.of_nat i) (length rest) k =
  Done tt (upd_log (fun lg => set_l_block (load_blocks i rest (l_block lg)) lg) k).
Proof.
  revert i k. induction rest as [|b rest IH]; intros i k H Hl; cbn [read_head_loop length load_blocks].
  - unfold ret. f_equal. by destruct k as [? ? ? ? ? ? ? []].
  - destruct (H O b eq_refl) as [Hb Hr]. rewrite Nat.add_0_r in Hb. rewrite Hb.
    simpl in Hl. destruct (lookup_lt_is_Some_2 (l_block (k_log k)) i) as [x Hx]; [lia|].
    rewrite (bind_Done _ _ _ tt (upd_log (fun lg => set_l_block (<[i := b]> (l_block lg)) lg) k)).
    + replace (Z.of_nat i + 1) with (Z.of_nat (S i)) by lia. rewrite IH; [done| |].
      * intros j c Hj. replace (S i + j)%nat with (i + S j)%nat by lia. by apply H.
      * simpl. rewrite length_insert. lia.
    + unfold set_lh_block. rewrite (bind_Done _ _ _ x k) by by apply lh_block_run.
      unfold modify. rewrite Nat2Z.id, i32_small by lia. done.
Qed.

(** The log is described by [log], and its header on the disk lists [bs]. *)
Record disk_log (k : kernel) (bs : list Z) : Prop := {
  dl_dev : l_dev (k_log k) = ROOTDEV;
  dl_start : 0 <= l_start (k_log k);
  dl_end : l_start (k_log k) + LOGSIZE <= disksize;
  dl_max : disksize <= 2 ^ 31;
  dl_array : length (l_block (k_log k)) = 30%nat;
  dl_header : header_is (k_disk k (l_start (k_log k))) bs;
  dl_home : forall b, b ∈ bs -> in_disk disksize b /\
    (b < l_start (k_log k) \/ l_start (k_log k) + LOGSIZE <= b)
}.

Definition read_log (bs : list Z) (lg : log_state) : log_state :=
  set_l_block (load_blocks 0 bs (l_block lg)) (set_l_n (Z.of_nat (length bs)) lg).

Lemma read_head_run k l bs :
  calm k l -> (forall c, dirty k c = false) -> disk_log k bs ->
  exists k' l', read_head (S fuel) k = Done tt k' /\ calm k' l' /\ log_only k (read_log bs) k' /\
    log_geom disksize (k_log k') bs.
Proof.
  intros Hc Hnd DL. pose proof (dl_header _ _ DL) as HI. pose proof (hi_len _ _ HI) as Hlen.
  assert (in_disk disksize (l_start (k_log k))) as Hs.
  { destruct DL. unfold in_disk, LOGSIZE, MAXOPBLOCKS in *. lia. }
  assert (u32 (l_dev (k_log k)) = ROOTDEV /\ u32 (l_start (k_log k)) = l_start (k_log k)) as [E1 E2].
  { destruct DL. rewrite dl_dev0. split; [done|]. apply u32_small. destruct Hs. lia. }
  destruct (read_block k l _ Hc Hnd Hs) as (i & k1 & Hrun & Hlog & Hread & Hdata & Hrel).
  rewrite (quiet_view k l _ (cm_inv _ _ Hc) (cm_quiet _ _ Hc) (Hnd _)) in Hdata.
  destruct (Hrel (read_log bs)) as (k' & l' & Hrun' & Hc' & LO).
  exists k', l'. split; [|split; [done|split; [done|]]].
  - unfold read_head. rewrite bind_gets, E1, E2, (bind_Done _ _ _ _ _ Hrun), (bind_Done _ _ _ _ _ Hread).
    rewrite Hdata, (hi_n _ _ HI), i32_small, bind_modify, Nat2Z.id by lia.
    rewrite (bind_Done _ _ _ tt (upd_log (read_log bs) k1)); [done|].
    rewrite (read_head_loop_run _ bs 0).
    + done.
    + intros j b Hj. split; [by apply (hi_blocks _ _ HI)|].
      destruct (dl_home _ _ DL b) as [[H1 H2] _]; [by eapply list_elem_of_lookup_2|].
      pose proof (dl_max _ _ DL). lia.
    + simpl. rewrite Hlog, (dl_array _ _ DL). lia.
  - rewrite (lo_log _ _ _ LO). destruct DL. split; try done; simpl.
    + by rewrite load_blocks_length.
    + intros j b Hj. apply (load_blocks_lookup 0); [simpl; lia|done].
Qed.

Lemma recover_run k l bs :
  calm k l -> (forall c, dirty k c = false) -> disk_log k bs -> NoDup bs ->
  exists k' l', recover_from_log (S fuel) k = Done tt k' /\ calm k' l' /\
    (forall c, dirty k' c = false) /\
    forall c, k_disk k' c = apply_writes (k_disk k)
      (home_writes (k_disk k) (l_start (k_log k) + 1) bs ++
       [(l_start (k_log k), hdr [] (k_disk k (l_start (k_log k))))]) c.
Proof.
  intros Hc Hnd DL Hbs.
  destruct (read_head_run k l bs Hc Hnd DL) as (k1 & l1 & Hr1 & Hc1 & LO & G).
  assert (l_start (k_log k1) = l_start (k_log k)) as Hst by by rewrite (lo_log _ _ _ LO).
  assert (forall c, view k1 c = k_disk k c) as Hv1.
  { intros c. rewrite (lo_view _ _ _ LO). apply (quiet_view k l); [apply Hc|apply Hc|done]. }
  destruct (install_loop_run bs [] bs 0 k1 l1 Hc1 G Hbs (drop_0 _)) as (k2 & l2 & Hr2 & A2).
  { intros b Hb. split; [|unfold NBUF; simpl; split; [lia|right; lia]].
    intros c. by rewrite (lo_dirty _ _ _ LO), Hnd. }
  rewrite Hst, Z.add_0_r in A2. rewrite (home_writes_ext _ (k_disk k)) in A2 by done.
  pose proof (applied_log _ _ _ _ A2) as Hlog2.
  assert (forall c, dirty k2 c = false) as Hnd2.
  { intros c. rewrite (ap_dirty _ _ _ _ A2), (lo_dirty _ _ _ LO), Hnd. by case_bool_decide. }
  destruct (geom_nil _ _ 0 G) as [G0 _].
  destruct (write_head_run (upd_log (set_l_n 0) k2) l2 [] []) as (k3 & l3 & Hr3 & A3).
  { apply calm_log. by eapply applied_calm. } { simpl. by rewrite Hlog2. } { done. }
  { intros c Hd. change (dirty k2 c = true) in Hd. by rewrite Hnd2 in Hd. }
  { unfold NBUF. simpl. lia. }
  change (k_log (upd_log ?f ?k)) with (f (k_log k)) in A3. rewrite Hlog2 in A3. simpl in A3.
  rewrite Hst in A3. change (view (upd_log (set_l_n 0) k2)) with (view k2) in A3.
  assert (view k2 (l_start (k_log k)) = k_disk k (l_start (k_log k))) as E.
  { rewrite (ap_view _ _ _ _ A2), apply_writes_out; [done|]. rewrite home_writes_fst. intros Hin.
    destruct (dl_home _ _ DL _ Hin) as [_ Ho]. unfold LOGSIZE, MAXOPBLOCKS in Ho. lia. }
  rewrite E in A3. exists k3, l3. split_and!.
  - unfold recover_from_log. rewrite (bind_Done _ _ _ _ _ Hr1), (bind_Done _ _ _ tt k2), bind_modify; [done|].
    unfold install_trans. rewrite bind_gets, (lo_log _ _ _ LO). simpl. by rewrite Nat2Z.id.
  - eapply applied_calm; [|done]. apply calm_log. by eapply applied_calm.
  - intros c. rewrite (ap_dirty _ _ _ _ A3). change (dirty (upd_log (set_l_n 0) k2) c) with (dirty k2 c).
    rewrite Hnd2. by case_bool_decide.
  - intros c. rewrite (ap_disk _ _ _ _ A3), apply_writes_app. apply apply_writes_ext. simpl.
    rewrite (ap_disk _ _ _ _ A2). apply apply_writes_ext. by rewrite (lo_disk _ _ _ LO).
Qed.

End Runs.

(** ** Crashes *)

Lemma map_apply (v d : Z -> list Z) bs c :
  apply_writes d (map (fun b => (b, v b)) bs) c = if bool_decide (c ∈ bs) then v c else d c.
Proof.
  revert d. induction bs as [|b bs IH]; intros d; simpl.
  { done. }
  rewrite IH. unfold write1. simpl.
  destruct (Z.eqb_spec c b) as [->|Hne]; repeat case_bool_decide; rewrite ?elem_of_cons in *; naive_solver.
Qed.

(** A block outside the log. *)
Definition outside (start c : Z) : Prop := c < start \/ start + LOGSIZE <= c.

(** What a prefix of the writes of a commit leaves on the disk: before the
    header write only log blocks have changed; from then on the header lists
    [bs] until the last write clears it, the log holds the new contents, and
    home blocks are old or new. *)
Lemma crash_before v d start bs ws1 ws2 :
  commit_writes v start bs = ws1 ++ ws2 -> (length ws1 <= length bs)%nat -> (length bs < 30)%nat ->
  forall c, outside start c \/ c = start -> apply_writes d ws1 c = d c.
Proof.
  intros E Hl Hlen c Hc. assert (ws1 = take (length ws1) (log_writes v (start + 1) bs)) as Ew.
  { assert (length (log_writes v (start + 1) bs) = length bs) as El.
    { generalize (start + 1). clear. induction bs as [|b bs IH]; intros a; simpl; [done|]. by rewrite IH. }
    pose proof (f_equal (take (length ws1)) E) as E'. rewrite take_app_length in E'.
    unfold commit_writes in E'. by rewrite take_app_le in E' by lia. }
  apply apply_writes_out. rewrite Ew. intros Hin.
  assert (c ∈ (log_writes v (start + 1) bs).*1) as Hin'.
  { apply list_elem_of_fmap in Hin as (x & -> & Hx). apply list_elem_of_fmap. exists x. split; [done|].
    eapply elem_of_take in Hx as (j & Hj & _). by eapply list_elem_of_lookup_2. }
  rewrite log_writes_fst in Hin'. unfold outside, LOGSIZE, MAXOPBLOCKS in Hc. lia.
Qed.

Lemma crash_split v start bs ws1 ws2 :
  commit_writes v start bs = ws1 ++ ws2 -> (length bs < length ws1)%nat ->
  let pre := log_writes v (start + 1) bs ++ [(start, hdr bs (v start))] in
  (exists n, ws1 = pre ++ map (fun b => (b, v b)) (take n bs)) \/
  ws1 = pre ++ map (fun b => (b, v b)) bs ++ [(start, hdr [] (hdr bs (v start)))].
Proof.
  intros E Hl pre.
  assert (length pre = S (length bs)) as Hpre.
  { unfold pre. rewrite length_app. simpl.
    assert (forall a, length (log_writes v a bs) = length bs) as ->.
    { clear. induction bs as [|b bs IH]; intros a; simpl; [done|]. by rewrite IH. } lia. }
  assert (commit_writes v start bs = pre ++ map (fun b => (b, v b)) bs ++ [(start, hdr [] (hdr bs (v start)))]) as Ec.
  { unfold commit_writes, pre. by rewrite <- !app_assoc. }
  rewrite Ec in E. pose proof (f_equal (take (length ws1)) E) as E1. rewrite take_app_length in E1.
  rewrite take_app_ge in E1 by lia.
  destruct (decide (length ws1 - length pre <= length bs)%nat) as [Hle|Hgt].
  - left. exists (length ws1 - length pre)%nat. rewrite <- E1 at 1. f_equal.
    rewrite take_app_le by (rewrite length_map; lia). symmetry. apply (fmap_take (fun b => (b, v b))).
  - right. rewrite <- E1. f_equal. apply take_ge. rewrite length_app, length_map. simpl. lia.
Qed.

(** The disk after the header write and the first [n] home writes. *)
Lemma crash_after v d start bs n :
  (length bs < 30)%nat -> length (v start) = 512%nat ->
  (forall b, b ∈ bs -> outside start b /\ 0 <= b < 2 ^ 31) ->
  let d' := apply_writes d ((log_writes v (start + 1) bs ++ [(start, hdr bs (v start))]) ++
                            map (fun b => (b, v b)) (take n bs)) in
  header_is (d' start) bs /\
  (forall j b, bs !! j = Some b -> d' (start + 1 + Z.of_nat j) = v b) /\
  (forall c, outside start c -> c ∉ bs -> d' c = d c).
Proof.
  intros Hlen Hv Hout d'.
  assert (forall c, c ∈ take n bs -> c ∈ bs) as Hsub.
  { intros c Hc. eapply elem_of_take in Hc as (j & Hj & _). by eapply list_elem_of_lookup_2. }
  assert (forall c, ~ outside start c -> d' c =
    apply_writes d (log_writes v (start + 1) bs ++ [(start, hdr bs (v start))]) c) as Hlogd.
  { intros c Hc. unfold d'. rewrite apply_writes_app, map_apply, bool_decide_eq_false_2; [done|].
    intros Hin. apply Hsub, Hout in Hin. tauto. }
  split_and!.
  - rewrite Hlogd, apply_writes_app by (unfold outside, LOGSIZE, MAXOPBLOCKS; lia). simpl. unfold write1. simpl.
    rewrite Z.eqb_refl. split; [apply hdr_count; lia|done|].
    intros j b Hj. rewrite (hdr_block _ _ _ b) by (try lia; done). apply u32_small.
    destruct (Hout b) as [_ ?]; [by eapply list_elem_of_lookup_2|lia].
  - intros j b Hj. pose proof (lookup_lt_Some _ _ _ Hj).
    rewrite Hlogd, apply_writes_app by (unfold outside, LOGSIZE, MAXOPBLOCKS; lia). simpl. unfold write1. simpl.
    destruct (Z.eqb_spec (start + 1 + Z.of_nat j) start); [lia|]. by apply log_writes_lookup.
  - intros c Hc Hn. unfold d'. rewrite apply_writes_app, map_apply, bool_decide_eq_false_2 by auto.
    apply apply_writes_out. rewrite fmap_app, elem_of_app, log_writes_fst. simpl.
    rewrite list_elem_of_singleton. unfold outside, LOGSIZE, MAXOPBLOCKS in Hc. lia.
Qed.

(** The machine after a reboot: the disk is [d], the cache holds no change,
    and [initlog] has found the log where it was. *)
Record rebooted (k : kernel) (d : Z -> list Z) (kr : kernel) (lr : list nat) : Prop := {
  rb_calm : calm kr lr;
  rb_clean : forall c, dirty kr c = false;
  rb_disk : forall c, k_disk kr c = d c;
  rb_dev : l_dev (k_log kr) = l_dev (k_log k);
  rb_start : l_start (k_log kr) = l_start (k_log k);
  rb_array : length (l_block (k_log kr)) = 30%nat
}.

Lemma view_length k l bn : bcache_inv k l -> length (view k bn) = 512%nat.
Proof.
  intros Hinv. unfold view. destruct (holder k bn); [case_if|]; [apply Hinv|apply (bi_disk _ _ Hinv)..].
Qed.

Lemma rebooted_disk_log disksize k bs d kr lr bs' :
  log_geom disksize (k_log k) bs -> rebooted k d kr lr ->
  header_is (d (l_start (k_log k))) bs' -> (forall b, b ∈ bs' -> b ∈ bs) ->
  disk_log disksize kr bs'.
Proof.
  intros [] [] H Hsub. split; try congruence.
  rewrite rb_start0. intros b Hb. apply lg_home0. auto.
Qed.

Lemma home_blocks disksize k bs :
  log_geom disksize (k_log k) bs ->
  forall b, b ∈ bs -> outside (l_start (k_log k)) b /\ 0 <= b < 2 ^ 31.
Proof.
  intros G b Hb. destruct (lg_home _ _ _ G b Hb) as [[H1 H2] Ho]. split; [done|].
  pose proof (lg_max _ _ _ G). lia.
Qed.

Section Crash.
Context `{D : DiskDriver} (disksize : Z) `{!DriverOk D disksize} (fuel : nat).

(** Recovery when the header on the disk is empty changes no home block. *)
Lemma recover_empty k bs d kr lr :
  log_geom disksize (k_log k) bs -> rebooted k d kr lr -> header_is (d (l_start (k_log k))) [] ->
  exists kr', recover_from_log (S fuel) kr = Done tt kr' /\
    forall c, outside (l_start (k_log k)) c -> k_disk kr' c = d c.
Proof.
  intros G R H. destruct (recover_run disksize fuel kr lr []) as (kr' & lr' & Hrun & _ & _ & Hd).
  - apply R.
  - apply R.
  - apply (rebooted_disk_log disksize k bs d kr lr [] G R H). intros b Hb. by apply not_elem_of_nil in Hb.
  - apply NoDup_nil_2.
  - exists kr'. split; [done|]. intros c Hc. rewrite Hd. simpl. unfold write1. simpl.
    rewrite (rb_start _ _ _ _ R), !(rb_disk _ _ _ _ R).
    destruct (Z.eqb_spec c (l_start (k_log k))); [|done].
    unfold outside, LOGSIZE, MAXOPBLOCKS in Hc. lia.
Qed.

(** Recovery when the header lists the transaction installs all of it. *)
Lemma recover_full k l bs n kr lr :
  calm k l -> log_geom disksize (k_log k) bs -> transaction k bs ->
  let start := l_start (k_log k) in
  rebooted k (apply_writes (k_disk k)
    ((log_writes (view k) (start + 1) bs ++ [(start, hdr bs (view k start))]) ++
     map (fun b => (b, view k b)) (take n bs))) kr lr ->
  exists kr', recover_from_log (S fuel) kr = Done tt kr' /\
    forall c, outside start c -> k_disk kr' c = view k c.
Proof.
  intros Hc G T start R. pose proof (lg_len _ _ _ G) as Hlen.
  destruct (crash_after (view k) (k_disk k) start bs n Hlen) as (Hh & Hl & Ho).
  { eapply view_length, Hc. } { by eapply home_blocks. }
  destruct (recover_run disksize fuel kr lr bs) as (kr' & lr' & Hrun & _ & _ & Hd).
  - apply R.
  - apply R.
  - by apply (rebooted_disk_log disksize k bs _ kr lr bs G R Hh).
  - apply T.
  - exists kr'. split; [done|]. intros c Hout. rewrite Hd, (rb_start _ _ _ _ R). fold start.
    rewrite apply_writes_app. simpl. unfold write1. simpl.
    destruct (Z.eqb_spec c start) as [->|_]; [unfold outside, LOGSIZE, MAXOPBLOCKS in Hout; lia|].
    rewrite (home_writes_map _ (view k)), map_apply.
    + case_bool_decide as Hin; [done|]. rewrite (rb_disk _ _ _ _ R), Ho by done.
      symmetry. apply (quiet_view k l); [apply Hc|apply Hc|].
      destruct (dirty k c) eqn:E; [|done]. by apply T in E.
    + intros j b Hj. rewrite (rb_disk _ _ _ _ R). by apply Hl.
Qed.

(** C1: crash atomicity.  [commit] of a transaction returns with every logged
    block on the disk at its home location.  If the machine crashes after any
    prefix of the block writes that [commit] issues, recovery from the log
    returns and leaves every block outside the log with its contents before
    the transaction, when the crash came before the header write, and with
    its contents after the transaction from the header write on. *)
Theorem commit_crash_atomic k l bs :
  calm k l -> log_geom disksize (k_log k) bs -> transaction k bs -> bs <> [] ->
  header_is (k_disk k (l_start (k_log k))) [] ->
  exists k' ws, commit (S fuel) k = Done tt k' /\ k_writes k' = k_writes k ++ ws /\
    (forall c, outside (l_start (k_log k)) c -> k_disk k' c = view k c) /\
    forall ws1 ws2 kr lr, ws = ws1 ++ ws2 -> rebooted k (apply_writes (k_disk k) ws1) kr lr ->
      exists kr', recover_from_log (S fuel) kr = Done tt kr' /\
        forall c, outside (l_start (k_log k)) c ->
          k_disk kr' c = if bool_decide (length ws1 <= length bs)%nat then k_disk k c else view k c.
Proof.
  intros Hc G T Hne Hempty. pose proof (lg_len _ _ _ G) as Hlen. set (start := l_start (k_log k)).
  destruct (commit_run disksize fuel k l bs Hc G T Hne) as (k' & l' & Hrun & Hw & Hd & _).
  assert (length (view k start) = 512%nat) as Hvl by (eapply view_length, Hc).
  assert (forall c, outside start c ->
    apply_writes (k_disk k) (commit_writes (view k) start bs) c = view k c) as Hfinal.
  { intros c Hout. unfold commit_writes. rewrite app_assoc, app_assoc, apply_writes_app. simpl.
    unfold write1 at 1. simpl.
    destruct (Z.eqb_spec c start) as [->|_]; [unfold outside, LOGSIZE, MAXOPBLOCKS in Hout; lia|].
    rewrite <- app_assoc, app_assoc, apply_writes_app, map_apply. case_bool_decide as Hin; [done|].
    destruct (crash_after (view k) (k_disk k) start bs 0 Hlen Hvl) as (_ & _ & Ho); [by eapply home_blocks|].
    rewrite take_0, app_nil_r in Ho. rewrite Ho by done. symmetry.
    apply (quiet_view k l); [apply Hc|apply Hc|]. destruct (dirty k c) eqn:E; [|done]. by apply T in E. }
  exists k', (commit_writes (view k) start bs). split; [done|]. split; [done|].
  split; [intros c Hout; rewrite Hd; by apply Hfinal|].
  intros ws1 ws2 kr lr Hws R. case_bool_decide as Hle.
  - pose proof (crash_before _ (k_disk k) _ _ _ _ Hws Hle Hlen) as Hb.
    destruct (recover_empty k bs _ kr lr G R) as (kr' & Hr & Hk); [by rewrite Hb by auto|].
    exists kr'. split; [done|]. intros c Hout. rewrite Hk by done. auto.
  - destruct (crash_split _ _ _ _ _ Hws) as [[n ->]| ->]; [lia|by eapply recover_full|].
    destruct (recover_empty k bs _ kr lr G R) as (kr' & Hr & Hk).
    + rewrite app_assoc, apply_writes_app. simpl. unfold write1. simpl. fold start. rewrite Z.eqb_refl.
      split; [|simpl; lia|done]. apply hdr_count; [by rewrite hdr_length|simpl; lia].
    + exists kr'. split; [done|]. intros c Hout. rewrite Hk by done.
      rewrite <- app_assoc. by apply Hfinal.
Qed.

End Crash.

(** ** A concrete transaction *)

(** Buffer 0 holds the new contents of block 100, which the log header lists. *)
Definition demo_data : list Z := replicate 512 7.
Definition demo_tx : kernel :=
  upd_log (fun lg => set_l_block (<[0%nat := 100]> (l_block lg))
                       (set_l_n 1 (set_l_dev ROOTDEV (set_l_start 2 lg))))
    (upd_buf 0 (fun b => set_b_flags (Z.lor B_VALID B_DIRTY)
                  (set_b_data demo_data (set_b_blockno 100 (set_b_dev ROOTDEV b)))) demo_cache).

Lemma demo_tx_ring : ring demo_tx demo_order.
Proof.
  split; [reflexivity|apply demo_order_nodup|apply demo_order_all|].
  vm_compute. repeat split.
Qed.

Lemma demo_tx_inv : bcache_inv demo_tx demo_order /\ quiet demo_tx.
Proof.
  apply slots_inv; [vm_compute; reflexivity|apply demo_tx_ring|reflexivity|].
  left. vm_compute. repeat split.
Qed.

Lemma demo_tx_dirty c : dirty demo_tx c = true <-> c ∈ [100].
Proof.
  rewrite list_elem_of_singleton. split.
  - unfold dirty. destruct (holder demo_tx c) as [i|] eqn:E; [|done]. intros _.
    apply (holder_Some _ _ _ _ (proj1 demo_tx_inv)) in E. destruct E as (Hi & Hd & Hb).
    destruct (decide (i = 0%nat)) as [->|Hne]; [by vm_compute in Hb|].
    destruct (slots_get demo_tx i) as (_ & _ & _ & H); [vm_compute; reflexivity|reflexivity|].
    destruct (H Hne) as [Hno _]. destruct (Hno Hd).
  - intros ->. vm_compute. reflexivity.
Qed.

Lemma commit_crash_atomic_witness :
  exists k' ws, @commit (Memide.driver 200) 1 demo_tx = Done tt k' /\ k_writes k' = k_writes demo_tx ++ ws.
Proof.
  destruct (@commit_crash_atomic (Memide.driver 200) 200 (memide_ok 200) 0 demo_tx demo_order [100])
    as (k' & ws & Hrun & Hw & _).
  - destruct demo_tx_inv. split; [assumption|assumption| |]; apply not_elem_of_empty.
  - split; try reflexivity; try (vm_compute; congruence); try (simpl; lia).
    + intros i b Hi. destruct i as [|i]; [injection Hi as <-; reflexivity|discriminate Hi].
    + intros b Hb. apply list_elem_of_singleton in Hb as ->. unfold in_disk. vm_compute. intuition congruence.
  - split; [reflexivity|apply NoDup_singleton|apply demo_tx_dirty].
  - discriminate.
  - split; [reflexivity|simpl; lia|intros j b Hj; by destruct j].
  - exists k', ws. split; [exact Hrun|exact Hw].
Defined.
