(* ===== verification/LogOps.v ===== *)
(** LogOps: [begin_op], [log_write] and [end_op] of log.c: the transaction
    they build is the one LogProof.v commits, and how much of the log the
    system calls may reserve. *)

From S2P Require Import Prelude Kernel StringLib Bytes ProcCore Bio BioSpec LogCopy FsLayout Log LogProof.

(** ** [log_write] *)

(** The header lists the dirty blocks, each once. *)
Record logged (k : kernel) (bs : list Z) : Prop := {
  ld_tx : transaction k bs;
  ld_array : length (l_block (k_log k)) = 30%nat;
  ld_blocks : forall i b, bs !! i = Some b -> l_block (k_log k) !! i = Some b;
  ld_range : forall b, b ∈ bs -> 0 <= b < 2 ^ 31
}.

Lemma logged_take k bs :
  logged k bs -> (length bs <= 30)%nat -> take (length bs) (l_block (k_log k)) = bs.
Proof.
  intros L Hl. apply list_eq. intros i. destruct (decide (i < length bs)%nat) as [Hi|Hi].
  - rewrite lookup_take_lt by done. destruct (lookup_lt_is_Some_2 _ _ Hi) as [b Hb].
    rewrite Hb. by apply L.
  - rewrite !lookup_ge_None_2; [done|lia|]. rewrite length_take. lia.
Qed.

(** The loop of [log_write] finds the block's slot, or the end. *)
Lemma absorb_index_spec bs bn :
  (forall b, b ∈ bs -> 0 <= b < 2 ^ 31) ->
  match find_idx (fun b => u32 b =? bn) bs with
  | Some i => bs !! i = Some bn
  | None => bn ∉ bs
  end.
Proof.
  intros Hr. destruct (find_idx _ bs) as [i|] eqn:E.
  - apply find_idx_lookup in E as (x & Hx & E). apply Z.eqb_eq in E. rewrite u32_small in E.
    + congruence.
    + specialize (Hr x (list_elem_of_lookup_2 _ _ _ Hx)). lia.
  - apply find_idx_None in E. rewrite Forall_forall in E. intros Hin. specialize (E bn Hin).
    simpl in E. rewrite u32_small, Z.eqb_refl in E; [done|]. specialize (Hr bn Hin). lia.
Qed.

Lemma set_lh_block_run k i v :
  (i < length (l_block (k_log k)))%nat -> 0 <= v < 2 ^ 31 ->
  set_lh_block (Z.of_nat i) v k =
  Done tt (upd_log (fun lg => set_l_block (<[i := v]> (l_block lg)) lg) k).
Proof.
  intros Hi Hv. destruct (lookup_lt_is_Some_2 _ _ Hi) as [x Hx]. unfold set_lh_block.
  rewrite (bind_Done _ _ _ x k) by by apply lh_block_run.
  unfold modify. rewrite Nat2Z.id, i32_small by lia. done.
Qed.

Lemma dirty_after k l i bn :
  bcache_inv k l -> holds k i bn -> flag (b_flags (getb k i)) B_VALID = true ->
  let k' := upd_buf i (set_b_flags (Z.lor (b_flags (getb k i)) B_DIRTY)) k in
  bcache_inv k' l /\ (forall c, view k' c = view k c) /\
  (forall c, dirty k' c = if bool_decide (c = bn) then true else dirty k c).
Proof.
  intros Hinv Hh Hv k'. pose proof (set_dirty_changed k l i bn Hinv Hh Hv) as C. fold k' in C.
  assert (i < length (k_bufs k))%nat as Hi.
  { rewrite (rg_len _ _ (bi_ring _ _ Hinv)). destruct Hh. lia. }
  assert (getb k' i = set_b_flags (Z.lor (b_flags (getb k i)) B_DIRTY) (getb k i)) as E by by apply getb_upd_eq.
  pose proof (bi_flags _ _ Hinv i) as Hf. destruct (ch_this _ _ _ _ _ _ C) as [Hvw Hdy]. rewrite E in Hvw, Hdy.
  split; [apply C|]. split; intros c; destruct (decide (c = bn)) as [->|Hne].
  - rewrite Hvw. destruct (view_held k l i bn Hinv Hh) as [-> _]. rewrite Hv. simpl. clear -Hf Hv.
    flags Hf; done.
  - by apply (ch_view _ _ _ _ _ _ C).
  - rewrite Hdy. rewrite bool_decide_eq_true_2 by done. simpl. clear -Hf. flags Hf; done.
  - rewrite bool_decide_eq_false_2 by done. by apply (ch_dirty _ _ _ _ _ _ C).
Qed.

(** The header after [log_write]: the block is absorbed when it is listed. *)
Definition absorb (bn : Z) (bs : list Z) : list Z :=
  if bool_decide (bn ∈ bs) then bs else bs ++ [bn].

Definition absorbed (i : nat) (bn : Z) (bs : list Z) (k : kernel) : kernel :=
  upd_buf i (set_b_flags (Z.lor (b_flags (getb k i)) B_DIRTY))
    (upd_log (fun lg =>
       if bool_decide (bn ∈ bs) then lg
       else set_l_n (l_n lg + 1) (set_l_block (<[length bs := bn]> (l_block lg)) lg)) k).

Lemma absorb_slot k bs bn :
  logged k bs -> (length bs < 30)%nat ->
  let i := absorb_index bn (l_n (k_log k)) (l_block (k_log k)) in
  if bool_decide (bn ∈ bs)
  then exists j, i = Z.of_nat j /\ (j < length bs)%nat /\ bs !! j = Some bn
  else i = Z.of_nat (length bs).
Proof.
  intros L Hl i. unfold i, absorb_index. rewrite (tx_n _ _ (ld_tx _ _ L)), Nat2Z.id.
  rewrite logged_take by (done || lia). pose proof (absorb_index_spec bs bn (ld_range _ _ L)) as H.
  destruct (find_idx _ bs) as [j|].
  - rewrite bool_decide_eq_true_2 by by eapply list_elem_of_lookup_2.
    exists j. split; [done|]. split; [by eapply lookup_lt_Some|done].
  - by rewrite bool_decide_eq_false_2.
Qed.

Lemma set_l_block_same lg : set_l_block (l_block lg) lg = lg.
Proof. by destruct lg. Qed.

Lemma log_write_run k l i bn bs :
  bcache_inv k l -> holds k i bn -> L_log ∉ k_held k -> logged k bs -> 0 <= bn < 2 ^ 31 ->
  l_size (k_log k) = LOGSIZE -> (length bs < 29)%nat -> 1 <= l_outstanding (k_log k) ->
  log_write i k = Done tt (absorbed i bn bs k).
Proof.
  intros Hinv Hh Hlk L Hbn Hsize Hlen Hout. pose proof (tx_n _ _ (ld_tx _ _ L)) as Hn.
  assert (i < length (k_bufs k))%nat as Hi.
  { rewrite (rg_len _ _ (bi_ring _ _ Hinv)). destruct Hh. lia. }
  destruct Hh as (_ & _ & Hblk).
  unfold log_write. rewrite bind_gets, Hsize, Hn. unfold LOGSIZE, MAXOPBLOCKS. case_cmp; try lia.
  rewrite bind_acquire by done. set (h := {[L_log]} ∪ k_held k). set (k1 := set_k_held h k).
  rewrite bind_gets, bind_read_buf by done. change (getb k1 i) with (getb k i). rewrite Hblk.
  change (k_log k1) with (k_log k).
  pose proof (absorb_slot k bs bn L ltac:(lia)) as Hslot. simpl in Hslot. unfold absorbed.
  destruct (bool_decide_reflect (bn ∈ bs)) as [Hin|Hin].
  - destruct Hslot as (j & -> & Hj & Hbj).
    rewrite (bind_Done _ _ _ _ _ (set_lh_block_run k1 j bn ltac:(simpl; rewrite (ld_array _ _ L); lia) Hbn)).
    rewrite Hn. destruct (Z.eqb_spec (Z.of_nat j) (Z.of_nat (length bs))); [lia|]. cbn [when].
    rewrite bind_ret, bind_modify. rewrite release_held by (simpl; set_solver). f_equal.
    unfold upd_buf, upd_log. simpl. rewrite list_insert_id by by apply (ld_blocks _ _ L).
    unfold h. rewrite set_l_block_same, held_release_acquire by done. by destruct k.
  - rewrite Hslot.
    rewrite (bind_Done _ _ _ _ _ (set_lh_block_run k1 (length bs) bn ltac:(simpl; rewrite (ld_array _ _ L); lia) Hbn)).
    rewrite Hn, Z.eqb_refl. cbn [when]. rewrite bind_modify, bind_modify.
    rewrite release_held by (simpl; set_solver). f_equal. rewrite i32_small by lia.
    unfold upd_buf, upd_log. simpl. unfold h. rewrite held_release_acquire, Hn by done. by destruct k.
Qed.

Lemma bcache_inv_log f k l : bcache_inv k l -> bcache_inv (upd_log f k) l.
Proof. intros [[? ? ? ?] ? ? ? ? ? ?]. by split. Qed.
Lemma dirty_log f k c : dirty (upd_log f k) c = dirty k c.
Proof. done. Qed.

Lemma log_write_logged k l i bn bs :
  bcache_inv k l -> holds k i bn -> flag (b_flags (getb k i)) B_VALID = true ->
  logged k bs -> 0 <= bn < 2 ^ 31 -> (length bs < 30)%nat ->
  bcache_inv (absorbed i bn bs k) l /\ logged (absorbed i bn bs k) (absorb bn bs) /\
  (forall c, view (absorbed i bn bs k) c = view k c).
Proof.
  intros Hinv Hh Hv [[Hn Hnd Hd] Ha Hb Hr] Hbn Hlen. unfold absorbed.
  set (k1 := upd_log _ k). change (getb k i) with (getb k1 i).
  assert (bcache_inv k1 l) as Hinv1 by by apply bcache_inv_log.
  destruct (dirty_after k1 l i bn Hinv1 Hh Hv) as (H1 & H2 & H3).
  set (k2 := upd_buf i _ k1) in *. split; [done|]. split; [|done].
  change (dirty k1) with (dirty k) in H3. unfold absorb.
  assert (k_log k2 = k_log k1) as Elog by done. clearbody k2.
  destruct (bool_decide_reflect (bn ∈ bs)) as [Hin|Hin].
  - split; rewrite ?Elog; try done. split; rewrite ?Elog; try done.
    intros c. rewrite H3, <- Hd. case_bool_decide; [|done]. subst. rewrite Hd. tauto.
  - split; rewrite ?Elog; simpl; rewrite ?length_insert; try done.
    + split; rewrite ?Elog; simpl.
      * rewrite Hn, length_app. simpl. lia.
      * apply NoDup_app. split_and!; [done| |apply NoDup_singleton].
        intros x Hx ->%list_elem_of_singleton. done.
      * intros c. rewrite H3, elem_of_app, list_elem_of_singleton, <- Hd.
        case_bool_decide; naive_solver.
    + intros j b. destruct (decide (j = length bs)) as [->|Hne].
      * rewrite list_lookup_middle by done. intros [= ->]. apply list_lookup_insert_eq. lia.
      * rewrite list_lookup_insert_ne by done. intros [?|[? Hj]]%lookup_app_Some; [auto|].
        apply lookup_lt_Some in Hj. simpl in Hj. lia.
    + intros b [?| ->%list_elem_of_singleton]%elem_of_app; auto.
Qed.

(** C4: log_write.  Inside a transaction with space left, [log_write] of a
    valid buffer returns with the block listed in the log header exactly
    once (a block that is already listed is absorbed), the header still
    lists exactly the dirty blocks, so that the buffer is pinned in the cache
    until the commit, and neither the disk nor the contents of any block
    changes. *)
Theorem log_write_absorbs k l i bn bs :
  bcache_inv k l -> holds k i bn -> flag (b_flags (getb k i)) B_VALID = true ->
  L_log ∉ k_held k -> logged k bs -> 0 <= bn < 2 ^ 31 ->
  l_size (k_log k) = LOGSIZE -> (length bs < 29)%nat -> 1 <= l_outstanding (k_log k) ->
  exists k', log_write i k = Done tt k' /\ bcache_inv k' l /\ logged k' (absorb bn bs) /\
    (forall c, view k' c = view k c) /\ k_disk k' = k_disk k /\ k_writes k' = k_writes k /\
    k_held k' = k_held k.
Proof.
  intros Hinv Hh Hv Hlk L Hbn Hsize Hlen Hout. exists (absorbed i bn bs k).
  split; [by eapply log_write_run|]. edestruct log_write_logged as (H1 & H2 & H3); [done..|lia|].
  split_and!; done.
Qed.

(** The transaction of LogProof.v, inside a system call. *)
Definition demo_op : kernel := upd_log (fun lg => set_l_size 30 (set_l_outstanding 1 lg)) demo_tx.

Lemma demo_op_inv : bcache_inv demo_op demo_order.
Proof. apply bcache_inv_log, demo_tx_inv. Qed.
Lemma demo_op_tx : transaction demo_op [100].
Proof.
  split; [reflexivity|apply NoDup_singleton|].
  intros c. unfold demo_op. rewrite dirty_log. apply demo_tx_dirty.
Qed.
Lemma demo_op_block i b : [100] !! i = Some b -> l_block (k_log demo_op) !! i = Some b.
Proof. destruct i as [|i]; intros Hi; [injection Hi as <-; reflexivity|discriminate Hi]. Qed.
Lemma demo_op_logged : logged demo_op [100].
Proof.
  split; [apply demo_op_tx|reflexivity|apply demo_op_block|].
  intros b Hb. apply list_elem_of_singleton in Hb as ->. lia.
Qed.

Lemma log_write_absorbs_witness :
  exists k', log_write 0 demo_op = Done tt k' /\ logged k' (absorb 100 [100]).
Proof.
  destruct (log_write_absorbs demo_op demo_order 0 100 [100]) as (k' & Hrun & _ & L & _).
  - apply demo_op_inv.
  - split; [unfold NBUF; lia|split; reflexivity].
  - vm_compute. reflexivity.
  - apply not_elem_of_empty.
  - apply demo_op_logged.
  - lia.
  - reflexivity.
  - simpl. lia.
  - vm_compute. congruence.
  - exists k'. split; [exact Hrun|exact L].
Defined.

(** ** [begin_op] *)

Definition log_ok (lg : log_state) : Prop := 0 <= l_n lg /\ 0 <= l_outstanding lg.

(** There is log space for one more system call. *)
Definition log_room (k : kernel) : Prop :=
  l_committing (k_log k) = 0 /\
  l_n (k_log k) + (l_outstanding (k_log k) + 1) * MAXOPBLOCKS <= LOGSIZE.

(** While the process sleeps, the others may do anything that keeps the two
    counters from going negative. *)
Definition log_rely (i : nat) (s s' : kernel) : Prop := resumed i s' /\ log_ok (k_log s').

(** Inside the loop of [begin_op]. *)
Record at_log (i : nat) (k : kernel) : Prop := {
  al_cur : curproc (k_sched k) = Some i;
  al_proc : is_Some (procs (k_sched k) !! i);
  al_held : k_held k = {[L_log]};
  al_ok : log_ok (k_log k)
}.

(** A system call is admitted: its blocks are reserved, no commit runs. *)
Record admitted (k : kernel) : Prop := {
  ad_held : k_held k = ∅;
  ad_commit : l_committing (k_log k) = 0;
  ad_op : 1 <= l_outstanding (k_log k);
  ad_space : l_n (k_log k) + l_outstanding (k_log k) * MAXOPBLOCKS <= LOGSIZE
}.

Lemma at_log_awake i s : resumed i s -> log_ok (k_log s) -> at_log i (awake i L_log s).
Proof.
  intros [Hh Hc [p Hp]] Ho. split; try done. unfold awake. simpl.
  rewrite list_lookup_alter_eq, Hp. by eexists.
Qed.

Lemma begin_op_admit k :
  log_ok (k_log k) -> log_room k -> k_held k = {[L_log]} ->
  exists k', (modify (upd_log (fun lg => set_l_outstanding (i32 (l_outstanding lg + 1)) lg)) ;;;
              release L_log) k = Done tt k' /\ admitted k' /\
    l_n (k_log k') = l_n (k_log k) /\ l_outstanding (k_log k') = l_outstanding (k_log k) + 1 /\
    l_size (k_log k') = l_size (k_log k).
Proof.
  intros [H1 H2] [H3 H4] Hh. rewrite bind_modify. eexists.
  split; [apply release_held; simpl; rewrite Hh; set_solver|].
  unfold LOGSIZE, MAXOPBLOCKS in *. split; [|simpl; rewrite i32_small by lia; done].
  split; simpl; rewrite ?i32_small by lia; unfold LOGSIZE, MAXOPBLOCKS in *; try lia. rewrite Hh. set_solver.
Qed.

(** One turn of the loop: it admits the call or sleeps. *)
Lemma begin_op_turn i k f :
  at_log i k ->
  (log_room k /\ exists k', begin_op_loop (S f) k = Done tt k' /\ admitted k' /\
     l_n (k_log k') = l_n (k_log k) /\ l_outstanding (k_log k') = l_outstanding (k_log k) + 1 /\
     l_size (k_log k') = l_size (k_log k)) \/
  (~ log_room k /\ begin_op_loop (S f) k = (sleep C_log (Some L_log) ;;; begin_op_loop f) k).
Proof.
  intros [Hc Hp Hh Ho]. cbn [begin_op_loop]. rewrite bind_gets. unfold log_room.
  destruct (Z.eqb_spec (l_committing (k_log k)) 0) as [Hcm|Hcm]; cbn [negb]; [|right; tauto].
  destruct (Z.ltb_spec LOGSIZE (l_n (k_log k) + (l_outstanding (k_log k) + 1) * MAXOPBLOCKS)); [right; split; [intros [_ ?]; lia|done]|].
  left. split; [done|]. apply begin_op_admit; try done.
Qed.

Lemma begin_op_loop_wlp i f k : at_log i k ->
  owlp (log_rely i) (begin_op_loop f k) (fun _ k' => admitted k').
Proof.
  revert k. induction f as [|f IH]; intros k Hat; [done|].
  destruct (begin_op_turn i k f Hat) as [[_ (k' & -> & Ha & _)]|[_ ->]]; [done|].
  destruct Hat. apply owlp_obind. rewrite (sleep_run i) by done. simpl.
  intros s' [Hres Ho]. rewrite (sleep_rest_run i) by done. apply IH, at_log_awake; done.
Qed.

(** C8: begin_op.  Whatever the other processes do to the log meanwhile,
    [begin_op] returns only with no commit in progress and with the space of
    every admitted system call, its own included, reserved: the blocks logged
    plus ten per outstanding call fit the log.  It does return, after at most
    one sleep, when the process is woken once there is room. *)
Theorem begin_op_reserves i k :
  curproc (k_sched k) = Some i -> is_Some (procs (k_sched k) !! i) -> k_held k = ∅ ->
  log_ok (k_log k) ->
  (forall fuel, owlp (log_rely i) (begin_op fuel k) (fun _ k' => admitted k')) /\
  (forall fuel, wp (fun s s' => log_rely i s s' /\ log_room s') (begin_op (S (S fuel)))
     (fun _ k' => admitted k') k).
Proof.
  intros Hc Hp Hh Ho.
  assert (at_log i (set_k_held {[L_log]} k)) as Hat by (by split).
  assert (forall fuel, begin_op fuel k = begin_op_loop fuel (set_k_held {[L_log]} k)) as E.
  { intros fuel. unfold begin_op. rewrite bind_acquire by (rewrite Hh; set_solver).
    do 2 f_equal. rewrite Hh. set_solver. }
  split; intros fuel; [rewrite E; by apply begin_op_loop_wlp|]. unfold wp. rewrite E.
  destruct (begin_op_turn i _ (S fuel) Hat) as [[_ (k' & -> & Ha & _)]|[_ ->]]; [done|].
  apply wp_bind. apply (sleep_wp _ _ i); try done.
  intros s' [[Hres Ho'] Hroom]. split; [done|]. unfold wp.
  pose proof (at_log_awake i s' Hres Ho') as Hat'.
  by destruct (begin_op_turn i _ fuel Hat') as [[_ (k' & -> & Ha & _)]|[Hno _]].
Qed.

Lemma begin_op_reserves_witness :
  wp (fun s s' => log_rely 0 s s' /\ log_room s') (begin_op 2) (fun _ k' => admitted k')
    (set_k_held ∅ (demo_running L_log)).
Proof.
  apply (begin_op_reserves 0 (set_k_held ∅ (demo_running L_log))).
  - reflexivity.
  - eexists. reflexivity.
  - reflexivity.
  - split; vm_compute; congruence.
Defined.

(** The reservation is one block too large.  Starting from an empty log
    of [LOGSIZE] blocks, [begin_op] admits three system calls, which reserves
    thirty blocks; but [log_write] panics once twenty-nine blocks are logged
    (the first block of the log is the header), so three calls that keep to
    their reservation can bring the kernel down. *)
Theorem begin_op_overcommits k fuel :
  L_log ∉ k_held k -> l_n (k_log k) = 0 -> l_outstanding (k_log k) = 0 ->
  l_committing (k_log k) = 0 -> l_size (k_log k) = LOGSIZE ->
  exists k3, (begin_op (S fuel) ;;; begin_op (S fuel) ;;; begin_op (S fuel)) k = Done tt k3 /\
    l_outstanding (k_log k3) = 3 /\ l_outstanding (k_log k3) * MAXOPBLOCKS = LOGSIZE /\
    forall k4 b, k_log k4 = set_l_n (LOGSIZE - 1) (k_log k3) ->
      log_write b k4 = Panicked "too big a transaction" k4.
Proof.
  intros Hl Hn Ho Hc Hs.
  assert (forall k n, L_log ∉ k_held k -> l_n (k_log k) = 0 -> l_outstanding (k_log k) = n ->
    l_committing (k_log k) = 0 -> 0 <= n <= 2 ->
    begin_op (S fuel) k = Done tt (upd_log (set_l_outstanding (n + 1)) k)) as Hrun.
  { clear. intros k n Hl Hn Ho Hc Hb. unfold begin_op. rewrite bind_acquire by done. cbn [begin_op_loop].
    rewrite bind_gets. simpl. rewrite Hn, Ho, Hc. unfold LOGSIZE, MAXOPBLOCKS. case_cmp; try lia.
    rewrite bind_modify, release_held by (simpl; set_solver). f_equal. unfold upd_log. simpl.
    rewrite Ho, i32_small, held_release_acquire by (done || lia). by destruct k. }
  eexists. split.
  { rewrite (bind_Done _ _ _ _ _ (Hrun k 0 Hl Hn Ho Hc ltac:(lia))).
    erewrite bind_Done; [|apply (Hrun _ 1); done || lia]. apply (Hrun _ 2); done || lia. }
  split; [done|]. split; [done|]. intros k4 b E. unfold log_write. rewrite bind_gets, E. simpl.
  by rewrite Hs.
Qed.

Lemma begin_op_overcommits_witness :
  exists k3, (begin_op 1 ;;; begin_op 1 ;;; begin_op 1) (upd_log (set_l_size 30) zero_kernel) = Done tt k3 /\
    l_outstanding (k_log k3) = 3.
Proof.
  destruct (begin_op_overcommits (upd_log (set_l_size 30) zero_kernel) 0) as (k3 & Hrun & Ho & _);
    [apply not_elem_of_empty|reflexivity..|].
  exists k3. split; [exact Hrun|exact Ho].
Defined.

(** ** [end_op] *)

Section EndOp.
Context `{D : DiskDriver} (disksize : Z) `{!DriverOk D disksize} (fuel : nat).

(** The commit point of [end_op]: the lock is dropped, with [committing] set. *)
Definition closing (k : kernel) : kernel :=
  upd_log (fun lg => set_l_committing 1 (set_l_outstanding 0 lg)) k.

(** C9: end_op.  When the last outstanding system call ends, [end_op] commits
    the transaction: it returns with every logged block at its home location
    on the disk, the log empty and nothing dirty, and leaves the log open for
    the next transaction (no outstanding call, not committing).  While other
    calls are outstanding it writes nothing to the disk and only gives up its
    reservation. *)
Theorem end_op_commits k l bs :
  calm k l -> L_log ∉ k_held k -> log_geom disksize (k_log k) bs -> transaction k bs -> bs <> [] ->
  l_committing (k_log k) = 0 -> 1 <= l_outstanding (k_log k) < 2 ^ 31 ->
  exists k', end_op (S fuel) k = Done tt k' /\
    l_outstanding (k_log k') = l_outstanding (k_log k) - 1 /\ l_committing (k_log k') = 0 /\
    k_held k' = k_held k /\
    if l_outstanding (k_log k) =? 1 then
      (forall c, k_disk k' c = apply_writes (k_disk k) (commit_writes (view k) (l_start (k_log k)) bs) c) /\
      l_n (k_log k') = 0 /\ (forall c, dirty k' c = false) /\ (exists l', calm k' l')
    else k_disk k' = k_disk k /\ k_writes k' = k_writes k /\ transaction k' bs.
Proof.
  intros Hc Hl G T Hne Hcm Ho. unfold end_op. rewrite bind_acquire by done.
  rewrite bind_modify, bind_gets. simpl. rewrite Hcm, i32_small by lia. cbn [negb Z.eqb].
  pose proof (cm_ptable _ _ Hc) as Hlp. pose proof (cm_bcache _ _ Hc) as Hlb.
  destruct (Z.eqb_spec (l_outstanding (k_log k)) 1) as [H1|H1].
  - rewrite H1. change (1 - 1) with 0. cbn [Z.eqb]. rewrite bind_modify, bind_release by (simpl; set_solver).
    simpl. rewrite held_release_acquire by done.
    set (k1 := set_k_held _ _). assert (k1 = closing k) as -> 
      by (unfold k1, closing, upd_log; simpl; rewrite H1; by destruct k).
    destruct (commit_run disksize fuel (closing k) l bs) as (k2 & l2 & Hr2 & _ & Hd2 & Hc2 & Hlog2 & Hh2 & Hdy2).
    { by apply calm_log. } { destruct G. by split. } { destruct T. by split. } { done. }
    rewrite (bind_Done _ _ _ _ _ Hr2), bind_acquire by (rewrite Hh2; done). rewrite bind_modify.
    erewrite bind_Done; [|apply wakeup_run; simpl; rewrite Hh2; simpl; set_solver].
    eexists. split; [apply release_held; simpl; set_solver|]. cbn [k_log k_held set_k_held woken upd_sched upd_log set_k_sched set_k_log].
    rewrite Hlog2. split; [done|]. split; [done|]. split.
    { simpl. rewrite held_release_acquire by (rewrite Hh2; done). done. }
    split; [exact Hd2|]. split; [done|]. split.
    + intros c. change (dirty k2 c = false). destruct (dirty k2 c) eqn:E; [|done]. by destruct (Hdy2 c).
    + exists l2. destruct Hc2 as [[[? ? ? ?] ? ? ? ? ? ?] ? ? ?].
      split; [split; [by split|done..]|done|..]; simpl; set_solver.
  - destruct (Z.eqb_spec (l_outstanding (k_log k) - 1) 0); [lia|].
    erewrite bind_Done; [|apply wakeup_run; simpl; set_solver].
    rewrite bind_release by (simpl; set_solver). eexists. split; [done|]. simpl.
    rewrite i32_small, held_release_acquire by (done || lia). destruct T. by split_and!.
Qed.

End EndOp.

Lemma end_op_commits_witness :
  exists k', @end_op (Memide.driver 200) 1 demo_op = Done tt k' /\ l_outstanding (k_log k') = 0.
Proof.
  destruct (@end_op_commits (Memide.driver 200) 200 (memide_ok 200) 0 demo_op demo_order [100])
    as (k' & Hrun & Ho & _).
  - apply calm_log. destruct demo_tx_inv. split; [assumption|assumption| |]; apply not_elem_of_empty.
  - apply not_elem_of_empty.
  - split; try reflexivity; try (vm_compute; congruence); try (simpl; lia).
    + apply demo_op_block.
    + intros b Hb. apply list_elem_of_singleton in Hb as ->. unfold in_disk. vm_compute. intuition congruence.
  - apply demo_op_tx.
  - discriminate.
  - reflexivity.
  - simpl. lia.
  - exists k'. split; [exact Hrun|exact Ho].
Defined.
