(* ===== verification/Fs.v ===== *)
(** Fs: the block and inode layers of fs.c (the build without [xv6ffs]).
    Directories and path names are in Dir.v.

    A reference to an inode is its slot in [icache.inode].  [readi] returns
    the bytes it stores at [dst] with its result; [writei] reads the caller's
    buffer through a function from the offset to the byte. *)

From S2P Require Import Prelude Kernel StringLib Bytes ProcCore Bio FsLayout Log.

(** stat.h and file.h *)
Definition T_DIR : Z := 1.
Definition T_FILE : Z := 2.
Definition T_DEV : Z := 3.
Definition I_BUSY : Z := 0x1.
Definition I_VALID : Z := 0x2.

(** [devsw]: the functions the drivers register, by major device number. *)
Class Devsw := {
  dev_read : Z -> option (nat -> Z -> M kernel (Z * list Z));
  dev_write : Z -> option (nat -> (Z -> Z) -> Z -> M kernel Z)
}.

(** ** [struct dinode] in a block *)

Definition dinode_off (inum : Z) (sb : superblock) : nat :=
  Z.to_nat (DINODE_SIZE * DINODEOFFSET inum sb).
Definition addr_off (o i : nat) : nat := (o + 12 + 4 * i)%nat.

(** [memset(dip, 0, sizeof *dip); dip->type = type] *)
Definition fresh_dinode (o : nat) (type : Z) (d : list Z) : list Z :=
  put16 o type (list_inserts o (replicate (Z.to_nat DINODE_SIZE) 0) d).

(** The fields [ilock] copies from the disk. *)
Definition load_dinode (o : nat) (d : list Z) (ip : inode) : inode :=
  set_i_type (i16 (get16 d o)) (set_i_major (i16 (get16 d (o + 2)))
    (set_i_minor (i16 (get16 d (o + 4))) (set_i_nlink (i16 (get16 d (o + 6)))
      (set_i_size (get32 d (o + 8))
        (set_i_addrs (map (fun i => get32 d (addr_off o i)) (seq 0 13)) ip))))).

(** The fields [iupdate] copies to the disk. *)
Fixpoint put_addrs (o i : nat) (l : list Z) (d : list Z) : list Z :=
  match l with
  | [] => d
  | a :: l => put_addrs o (S i) l (put32 (addr_off o i) a d)
  end.
Definition store_dinode (o : nat) (ip : inode) (d : list Z) : list Z :=
  put_addrs o 0 (i_addrs ip)
    (put32 (o + 8) (i_size ip) (put16 (o + 6) (i_nlink ip) (put16 (o + 4) (i_minor ip)
      (put16 (o + 2) (i_major ip) (put16 o (i_type ip) d))))).

Section Fs.
Context `{D : DiskDriver} (fuel : nat).

(** [f] applied to [bp->data] *)
Definition set_data (bp : nat) (f : list Z -> list Z) : M kernel unit :=
  modify (upd_buf bp (fun b => set_b_data (f (b_data b)) b)).

(** [proc->cwd->inum] *)
Definition cwd_inum : M kernel Z :=
  let! i := myproc in
  let! p := read_proc i in
  match p_cwd p with
  | None => fault "proc->cwd"
  | Some ip => let! x := read_inode ip in ret (i_inum x)
  end.

(** ** Blocks *)

Definition bzero (dev bno : Z) : M kernel unit :=
  let! bp := bread fuel (u32 dev) (u32 bno) in
  set_data bp (fun d => list_inserts 0 (replicate (Z.to_nat BSIZE) 0) d) ;;;
  log_write bp ;;;
  brelse bp.

(** [bp->data[bi/8] & (1 << (bi % 8))] *)
Definition bit_of (d : list Z) (bi : Z) : Z :=
  Z.land (get8 d (Z.to_nat (bi / 8))) (Z.shiftl 1 (bi mod 8)).
Definition set_bit (bi : Z) (d : list Z) : list Z :=
  <[Z.to_nat (bi / 8) := u8 (Z.lor (get8 d (Z.to_nat (bi / 8))) (Z.shiftl 1 (bi mod 8)))]> d.
Definition clear_bit (bi : Z) (d : list Z) : list Z :=
  <[Z.to_nat (bi / 8) := u8 (Z.ldiff (get8 d (Z.to_nat (bi / 8))) (Z.shiftl 1 (bi mod 8)))]> d.

(** The inner loop of [balloc], [n] bits from [bi] on: the first free bit. *)
Fixpoint free_bit (d : list Z) (b size bi : Z) (n : nat) : option Z :=
  match n with
  | O => None
  | S n =>
      if negb (u32 (b + bi) <? size) then None
      else if bit_of d bi =? 0 then Some bi
      else free_bit d b size (bi + 1) n
  end.

(** The outer loop of [balloc]. *)
Fixpoint balloc_groups (f : nat) (dev b head : Z) : M kernel (option Z) :=
  match f with
  | O => exhausted
  | S f =>
      let! sb := gets k_sb in
      if negb ((u32 head <? sb_size sb) && (u32 b <? sb_nblocks sb)) then ret None else
      let! bp := bread fuel dev (BBLOCK (u32 b) sb) in
      let! x := read_buf bp in
      match free_bit (b_data x) b (sb_size sb) 0 (Z.to_nat BPB) with
      | Some bi =>
          set_data bp (set_bit bi) ;;;
          log_write bp ;;;
          brelse bp ;;;
          bzero dev (b + bi) ;;;
          ret (Some (DBLOCK (u32 (bi + b)) sb))
      | None =>
          brelse bp ;;;
          balloc_groups f dev (i32 (b + BPB)) (i32 (head + BPBG))
      end
  end.

Definition balloc (dev : Z) : M kernel Z :=
  let! sb := gets k_sb in
  let! inum := cwd_inum in
  let head := i32 (BMAP_HEAD inum sb) in
  let b := i32 (BGROUP inum sb * BPB) in
  let! r := balloc_groups fuel dev b head in
  match r with
  | Some a => ret a
  | None =>
      let! r := balloc_groups fuel dev 0 0 in
      match r with
      | Some a => ret a
      | None => panic "balloc: out of blocks"
      end
  end.

Definition bfree (dev b : Z) : M kernel unit :=
  let! sb := readsb fuel (u32 dev) in
  modify (set_k_sb sb) ;;;
  let! bp := bread fuel (u32 dev) (BBLOCK b sb) in
  let bi := b mod BPB in
  let! x := read_buf bp in
  if bit_of (b_data x) bi =? 0 then panic "freeing free block" else
  set_data bp (clear_bit bi) ;;;
  log_write bp ;;;
  brelse bp.

(** ** Statistics of the block groups *)

(** [ff_stats] of a block: [usedBlocks] and [percentFull] *)
Definition used_blocks (d : list Z) : Z := get32 d STATOFF.
Definition percent_full (d : list Z) : Z := get32 d (STATOFF + 4).
Definition set_stats (used percent : Z) (d : list Z) : list Z :=
  put32 (STATOFF + 4) percent (put32 STATOFF used d).

(** The loops of [clearFSStats] and [fillFSStats]; [n] groups from [i] on. *)
Fixpoint clear_groups (i : Z) (n : nat) : M kernel unit :=
  match n with
  | O => ret tt
  | S n =>
      let! sb := gets k_sb in
      let! bp := bread fuel ROOTDEV (STATBLOCK i sb) in
      set_data bp (set_stats 0 0) ;;;
      bwrite bp ;;;
      brelse bp ;;;
      clear_groups (i + 1) n
  end.
Definition clearFSStats : M kernel unit :=
  let! sb := gets k_sb in
  clear_groups 0 (Z.to_nat (sb_nblockgroups sb)).

(** [printFSStats] reads every block of statistics; what it prints is not
    modelled. *)
Fixpoint print_groups (i : Z) (n : nat) : M kernel unit :=
  match n with
  | O => ret tt
  | S n =>
      let! sb := gets k_sb in
      let! bp := bread fuel ROOTDEV (STATBLOCK i sb) in
      brelse bp ;;;
      print_groups (i + 1) n
  end.
Definition printFSStats : M kernel unit :=
  let! sb := gets k_sb in
  print_groups 0 (Z.to_nat (sb_nblockgroups sb)).

(** The inodes in use among [n] from [iNode] on. *)
Fixpoint count_inodes (iNode : Z) (n : nat) (total : Z) : M kernel Z :=
  match n with
  | O => ret total
  | S n =>
      let! sb := gets k_sb in
      let! bp := bread fuel ROOTDEV (IBLOCK iNode sb) in
      let! x := read_buf bp in
      let type := i16 (get16 (b_data x) (dinode_off iNode sb)) in
      brelse bp ;;;
      count_inodes (iNode + 1) n (if 0 <? type then i32 (total + 1) else total)
  end.
Fixpoint fill_groups (i iNode : Z) (n : nat) : M kernel unit :=
  match n with
  | O => ret tt
  | S n =>
      let! sb := gets k_sb in
      let m := i32 (if i =? 0 then sb_ipbg sb - 1 else sb_ipbg sb) in
      let! total := count_inodes iNode (Z.to_nat m) 0 in
      let! bp := bread fuel ROOTDEV (STATBLOCK i sb) in
      set_data bp (set_stats total (STAT_PERCENTAGE_ABS total sb)) ;;;
      bwrite bp ;;;
      brelse bp ;;;
      fill_groups (i + 1) (iNode + Z.max 0 m) n
  end.
Definition fillFSStats : M kernel unit :=
  let! sb := gets k_sb in
  fill_groups 0 1 (Z.to_nat (sb_nblockgroups sb)).

Definition iinit (dev : Z) : M kernel unit :=
  let! sb := readsb fuel (u32 dev) in
  modify (set_k_sb sb) ;;;
  clearFSStats ;;;
  fillFSStats.

(** ** Inodes *)

Definition cached (dev inum : Z) (ip : inode) : bool :=
  (0 <? i_ref ip) && (i_dev ip =? dev) && (i_inum ip =? inum).

(** The scan returns the first cached copy, and otherwise leaves in [empty]
    the first free slot. *)
Definition iget (dev inum : Z) : M kernel nat :=
  acquire L_icache ;;;
  let! ic := gets k_icache in
  match find_idx (cached dev inum) ic with
  | Some ip =>
      modify (upd_inode ip (fun x => set_i_ref (i32 (i_ref x + 1)) x)) ;;;
      release L_icache ;;;
      ret ip
  | None =>
      match find_idx (fun x => i_ref x =? 0) ic with
      | None => panic "iget: no inodes"
      | Some ip =>
          modify (upd_inode ip (fun x =>
            set_i_flags 0 (set_i_ref 1 (set_i_inum inum (set_i_dev dev x))))) ;;;
          release L_icache ;;;
          ret ip
      end
  end.

Definition idup (ip : nat) : M kernel nat :=
  acquire L_icache ;;;
  modify (upd_inode ip (fun x => set_i_ref (i32 (i_ref x + 1)) x)) ;;;
  release L_icache ;;;
  ret ip.

(** [while(ip->flags & I_BUSY) sleep(ip, &icache.lock)] *)
Fixpoint ilock_wait (f : nat) (ip : nat) : M kernel unit :=
  match f with
  | O => exhausted
  | S f =>
      let! x := read_inode ip in
      if flag (i_flags x) I_BUSY then
        sleep (C_inode ip) (Some L_icache) ;;; ilock_wait f ip
      else ret tt
  end.

Definition ilock (oip : option nat) : M kernel unit :=
  match oip with
  | None => panic "ilock"
  | Some ip =>
      let! x := read_inode ip in
      if i_ref x <? 1 then panic "ilock" else
      acquire L_icache ;;;
      ilock_wait fuel ip ;;;
      modify (upd_inode ip (fun x => set_i_flags (Z.lor (i_flags x) I_BUSY) x)) ;;;
      release L_icache ;;;
      let! x := read_inode ip in
      if flag (i_flags x) I_VALID then ret tt else
      let! sb := gets k_sb in
      let! bp := bread fuel (i_dev x) (IBLOCK (i_inum x) sb) in
      let! b := read_buf bp in
      modify (upd_inode ip (load_dinode (dinode_off (i_inum x) sb) (b_data b))) ;;;
      brelse bp ;;;
      modify (upd_inode ip (fun x => set_i_flags (Z.lor (i_flags x) I_VALID) x)) ;;;
      let! x := read_inode ip in
      if i_type x =? 0 then panic "ilock: no type" else ret tt
  end.

Definition iunlock (oip : option nat) : M kernel unit :=
  match oip with
  | None => panic "iunlock"
  | Some ip =>
      let! x := read_inode ip in
      if negb (flag (i_flags x) I_BUSY) || (i_ref x <? 1) then panic "iunlock" else
      acquire L_icache ;;;
      modify (upd_inode ip (fun x => set_i_flags (Z.ldiff (i_flags x) I_BUSY) x)) ;;;
      wakeup (C_inode ip) ;;;
      release L_icache
  end.

Definition iupdate (ip : nat) : M kernel unit :=
  let! x := read_inode ip in
  let! sb := gets k_sb in
  let! bp := bread fuel (i_dev x) (IBLOCK (i_inum x) sb) in
  set_data bp (store_dinode (dinode_off (i_inum x) sb) x) ;;;
  log_write bp ;;;
  brelse bp.

(** ** [ialloc] *)

(** The first loop for a directory: the least used block group. *)
Fixpoint least_used (dev bg least lub : Z) (n : nat) : M kernel Z :=
  match n with
  | O => ret lub
  | S n =>
      if least =? 0 then ret lub else
      let! sb := gets k_sb in
      let! bp := bread fuel dev (STATBLOCK bg sb) in
      let! x := read_buf bp in
      brelse bp ;;;
      let p := percent_full (b_data x) in
      if p <? least then least_used dev (bg + 1) p bg n
      else least_used dev (bg + 1) least lub n
  end.

(** The tail of both loops once inode [inum] is free: mark it allocated and
    count it in group [bg]. *)
Definition take_inode (dev inum type bg : Z) (bp : nat) : M kernel nat :=
  let! sb := gets k_sb in
  set_data bp (fresh_dinode (dinode_off inum sb) type) ;;;
  log_write bp ;;;
  brelse bp ;;;
  let! bp := bread fuel dev (STATBLOCK bg sb) in
  set_data bp (fun d =>
    let used := u32 (used_blocks d + 1) in
    set_stats used (STAT_PERCENTAGE_ABS used sb) d) ;;;
  log_write bp ;;;
  brelse bp ;;;
  iget dev inum.

(** [n] inodes from [inum] on; [bgof] gives the group whose statistics are
    updated. *)
Fixpoint ialloc_scan (dev type : Z) (bgof : Z -> Z) (inum : Z) (n : nat) : M kernel (option nat) :=
  match n with
  | O => ret None
  | S n =>
      let! sb := gets k_sb in
      let! bp := bread fuel dev (IBLOCK inum sb) in
      let! x := read_buf bp in
      if get16 (b_data x) (dinode_off inum sb) =? 0 then
        let! ip := take_inode dev inum type (bgof inum) bp in
        ret (Some ip)
      else
        brelse bp ;;;
        ialloc_scan dev type bgof (u32 (inum + 1)) n
  end.

Definition ialloc (dev type : Z) : M kernel nat :=
  let! sb := gets k_sb in
  if type =? T_DIR then
    let! lub := least_used dev 0 100 0 (Z.to_nat (sb_nblockgroups sb)) in
    let inum := if lub =? 0 then 1 else u32 (lub * sb_ipbg sb) in
    let last := u32 (u32 (lub * sb_ipbg sb) + sb_ipbg sb) in
    let! r := ialloc_scan dev type (fun _ => lub) inum (Z.to_nat (last - inum)) in
    match r with
    | Some ip => ret ip
    | None => panic "ialloc: no inodes"
    end
  else
    let! cwd := cwd_inum in
    let h := iNODE_HEAD cwd sb in
    let! r := ialloc_scan dev type (fun i => BGROUP i sb) (if h =? 0 then 1 else h) (Z.to_nat (sb_ninodes sb)) in
    match r with
    | Some ip => ret ip
    | None =>
        let! r := ialloc_scan dev type (fun i => BGROUP i sb) 1 (Z.to_nat (sb_ninodes sb)) in
        match r with
        | Some ip => ret ip
        | None => panic "No More free iNodes"
        end
    end.

(** ** Inode contents *)

Definition get_addr (ip : inode) (i : nat) : Z := default 0 (i_addrs ip !! i).
Definition set_addr (i : nat) (a : Z) (ip : inode) : inode := set_i_addrs (<[i := a]> (i_addrs ip)) ip.

(** [if((addr = ip->addrs[i]) == 0) ip->addrs[i] = addr = balloc(ip->dev)] *)
Definition bmap_addr (ip i : nat) : M kernel Z :=
  let! x := read_inode ip in
  let addr := get_addr x i in
  if addr =? 0 then
    let! addr := balloc (i_dev x) in
    modify (upd_inode ip (set_addr i addr)) ;;;
    ret addr
  else ret addr.

Definition bmap (ip : nat) (bn : Z) : M kernel Z :=
  if bn <? NDIRECT then bmap_addr ip (Z.to_nat bn) else
  let bn := u32 (bn - NDIRECT) in
  if bn <? NINDIRECT then
    let! addr := bmap_addr ip (Z.to_nat NDIRECT) in
    let! x := read_inode ip in
    let! bp := bread fuel (i_dev x) addr in
    let! b := read_buf bp in
    let addr := get32 (b_data b) (Z.to_nat (4 * bn)) in
    let! addr :=
      (if addr =? 0 then
         let! addr := balloc (i_dev x) in
         set_data bp (put32 (Z.to_nat (4 * bn)) addr) ;;;
         log_write bp ;;;
         ret addr
       else ret addr) in
    brelse bp ;;;
    ret addr
  else panic "bmap: out of range".

(** The first loop of [itrunc]. *)
Fixpoint trunc_direct (ip i n : nat) : M kernel unit :=
  match n with
  | O => ret tt
  | S n =>
      let! x := read_inode ip in
      when (negb (get_addr x i =? 0))
        (bfree (i_dev x) (get_addr x i) ;;;
         modify (upd_inode ip (set_addr i 0))) ;;;
      trunc_direct ip (S i) n
  end.
(** The loop over the indirect block [bp]. *)
Fixpoint trunc_indirect (ip bp j n : nat) : M kernel unit :=
  match n with
  | O => ret tt
  | S n =>
      let! x := read_inode ip in
      let! b := read_buf bp in
      let a := get32 (b_data b) (4 * j) in
      when (negb (a =? 0)) (bfree (i_dev x) a) ;;;
      trunc_indirect ip bp (S j) n
  end.

Definition itrunc (ip : nat) : M kernel unit :=
  trunc_direct ip 0 (Z.to_nat NDIRECT) ;;;
  let! x := read_inode ip in
  let a := get_addr x (Z.to_nat NDIRECT) in
  when (negb (a =? 0))
    (let! bp := bread fuel (i_dev x) a in
     trunc_indirect ip bp 0 (Z.to_nat NINDIRECT) ;;;
     brelse bp ;;;
     bfree (i_dev x) a ;;;
     modify (upd_inode ip (set_addr (Z.to_nat NDIRECT) 0))) ;;;
  modify (upd_inode ip (set_i_size 0)) ;;;
  iupdate ip.

Definition iput (ip : nat) : M kernel unit :=
  acquire L_icache ;;;
  let! x := read_inode ip in
  when ((i_ref x =? 1) && flag (i_flags x) I_VALID && (i_nlink x =? 0))
    (if flag (i_flags x) I_BUSY then panic "iput busy" else
     modify (upd_inode ip (fun x => set_i_flags (Z.lor (i_flags x) I_BUSY) x)) ;;;
     release L_icache ;;;
     itrunc ip ;;;
     modify (upd_inode ip (set_i_type 0)) ;;;
     iupdate ip ;;;
     acquire L_icache ;;;
     modify (upd_inode ip (set_i_flags 0)) ;;;
     wakeup (C_inode ip)) ;;;
  modify (upd_inode ip (fun x => set_i_ref (i32 (i_ref x - 1)) x)) ;;;
  release L_icache.

Definition iunlockput (ip : nat) : M kernel unit :=
  iunlock (Some ip) ;;;
  iput ip.

(** [struct stat] (stat.h) *)
Record stat := Stat {
  st_type : Z;
  st_dev : Z;
  st_ino : Z;
  st_nlink : Z;
  st_size : Z
}.
Definition stati (ip : nat) : M kernel stat :=
  let! x := read_inode ip in
  ret (Stat (i_type x) (i32 (i_dev x)) (i_inum x) (i_nlink x) (i_size x)).

(** The loop of [readi]: [n] bytes are wanted, [tot] are read.  An iteration
    ends at a block boundary or ends the loop, so that [n / BSIZE + 2] turns
    are enough. *)
Fixpoint readi_loop (f : nat) (ip : nat) (off tot n : Z) : M kernel (list Z) :=
  if negb (tot <? n) then ret [] else
  match f with
  | O => exhausted
  | S f =>
      let! x := read_inode ip in
      let! addr := bmap ip (off / BSIZE) in
      let! bp := bread fuel (i_dev x) addr in
      let! b := read_buf bp in
      let m := Z.min (u32 (n - tot)) (BSIZE - off mod BSIZE) in
      let bytes := take (Z.to_nat m) (drop (Z.to_nat (off mod BSIZE)) (b_data b)) in
      brelse bp ;;;
      let! rest := readi_loop f ip (u32 (off + m)) (tot + m) n in
      ret (bytes ++ rest)
  end.
Definition turns (n : Z) : nat := Z.to_nat (n / BSIZE + 2).

Context `{DS : Devsw}.

(** The result and the bytes stored at [dst]. *)
Definition readi (ip : nat) (off n : Z) : M kernel (Z * list Z) :=
  let! x := read_inode ip in
  if i_type x =? T_DEV then
    if (i_major x <? 0) || (NDEV <=? i_major x) then ret (-1, []) else
    match dev_read (i_major x) with
    | None => ret (-1, [])
    | Some f => f ip (i32 n)
    end
  else
    if (i_size x <? off) || (u32 (off + n) <? off) then ret (-1, []) else
    let n := if i_size x <? u32 (off + n) then u32 (i_size x - off) else n in
    let! bytes := readi_loop (turns n) ip off 0 n in
    ret (i32 n, bytes).

Fixpoint writei_loop (f : nat) (ip : nat) (src : Z -> Z) (off tot n : Z) : M kernel unit :=
  if negb (tot <? n) then ret tt else
  match f with
  | O => exhausted
  | S f =>
      let! x := read_inode ip in
      let! addr := bmap ip (off / BSIZE) in
      let! bp := bread fuel (i_dev x) addr in
      let m := Z.min (u32 (n - tot)) (BSIZE - off mod BSIZE) in
      set_data bp (list_inserts (Z.to_nat (off mod BSIZE)) (load src tot (Z.to_nat m))) ;;;
      log_write bp ;;;
      brelse bp ;;;
      writei_loop f ip src (u32 (off + m)) (tot + m) n
  end.

Definition writei (ip : nat) (src : Z -> Z) (off n : Z) : M kernel Z :=
  let! x := read_inode ip in
  if i_type x =? T_DEV then
    if (i_major x <? 0) || (NDEV <=? i_major x) then ret (-1) else
    match dev_write (i_major x) with
    | None => ret (-1)
    | Some f => f ip src (i32 n)
    end
  else
    if (i_size x <? off) || (u32 (off + n) <? off) then ret (-1) else
    if MAXFILE * BSIZE <? u32 (off + n) then ret (-1) else
    writei_loop (turns n) ip src off 0 n ;;;
    let off := u32 (off + n) in
    let! x := read_inode ip in
    when ((0 <? n) && (i_size x <? off))
      (modify (upd_inode ip (set_i_size off)) ;;;
       iupdate ip) ;;;
    ret (i32 n).

End Fs.
