(* ===== verification/FsTx.v ===== *)
(** FsTx: reading and updating blocks inside a transaction, as fs.c does it:
    [bread], a change of the data, [log_write], [brelse].  The later theorems
    see the disk through [view], the contents of every block as the cache and
    the disk together hold it. *)

From S2P Require Import Prelude Kernel StringLib Bytes ProcCore Bio BioSpec LogCopy FsLayout Log LogProof LogOps Fs.

(** No buffer is held, and the blocks [bs] are logged but not committed. *)
Record idle (k : kernel) (l : list nat) (bs : list Z) : Prop := {
  id_calm : calm k l;
  id_lock : L_log ∉ k_held k;
  id_logged : logged k bs
}.
(** A system call is inside a transaction. *)
Record txn (k : kernel) (l : list nat) (bs : list Z) : Prop := {
  tn_idle : idle k l bs;
  tn_size : l_size (k_log k) = LOGSIZE;
  tn_out : 1 <= l_outstanding (k_log k)
}.
Lemma txn_log k l bs k' l' bs' :
  txn k l bs -> idle k' l' bs' -> k_log k' = k_log k -> txn k' l' bs'.
Proof. intros [_ H1 H2] I E. split; [done|by rewrite E..]. Qed.

(** From [k] to [k'] the contents of the blocks become [v]; only the cache,
    the log and the states of sleeping processes change besides. *)
Record fs_step (k : kernel) (v : Z -> list Z) (k' : kernel) : Prop := {
  fs_frame : exists bufs ps lg, k' = set_k_bufs bufs (set_k_log lg (upd_sched (set_procs ps) k));
  fs_woke : woke k k';
  fs_view : forall c, view k' c = v c
}.

Lemma fs_step_refl k : fs_step k (view k) k.
Proof.
  split; [|by apply woke_same|done]. exists (k_bufs k), (procs (k_sched k)), (k_log k). by destruct k as [? []].
Qed.
Lemma fs_step_trans k1 v1 k2 v2 k3 : fs_step k1 v1 k2 -> fs_step k2 v2 k3 -> fs_step k1 v2 k3.
Proof.
  intros [(b1 & p1 & g1 & E1) W1 _] [(b2 & p2 & g2 & E2) W2 V2]. split; [|by eapply woke_trans|done].
  exists b2, p2, g2. by rewrite E2, E1.
Qed.
Lemma fs_step_ext k v v' k' : fs_step k v k' -> (forall c, v c = v' c) -> fs_step k v' k'.
Proof. intros [F W V] E. split; [done..|]. intros c. by rewrite V. Qed.

Lemma bframe_step k k' : bframe k k' -> (forall c, view k' c = view k c) -> fs_step k (view k) k'.
Proof.
  intros [(bs & ps & E) W] V. split; [|done|done]. exists bs, ps, (k_log k). rewrite E. by destruct k as [? []].
Qed.

(** What stays the same. *)
Lemma fs_held k v k' : fs_step k v k' -> k_held k' = k_held k.
Proof. by intros [(? & ? & ? & ->) _ _]. Qed.
Lemma fs_icache k v k' : fs_step k v k' -> k_icache k' = k_icache k.
Proof. by intros [(? & ? & ? & ->) _ _]. Qed.
Lemma fs_sb k v k' : fs_step k v k' -> k_sb k' = k_sb k.
Proof. by intros [(? & ? & ? & ->) _ _]. Qed.
Lemma fs_disk k v k' : fs_step k v k' -> k_disk k' = k_disk k.
Proof. by intros [(? & ? & ? & ->) _ _]. Qed.
Lemma fs_cur k v k' : fs_step k v k' -> curproc (k_sched k') = curproc (k_sched k).
Proof. by intros [(? & ? & ? & ->) _ _]. Qed.
Lemma fs_proc k v k' i p : fs_step k v k' -> procs (k_sched k) !! i = Some p ->
  exists st, procs (k_sched k') !! i = Some (set_p_state st p).
Proof.
  intros S Hp. destruct (Forall2_lookup_l _ _ _ _ _ (fs_woke _ _ _ S) Hp) as (p' & Hp' & st & ->). by exists st.
Qed.

(** ** Giving a block back *)

Section Tx.
Context `{D : DiskDriver} (disksize : Z) `{!DriverOk D disksize} (fuel : nat).

(** The buffer of [bn] is held: it came from [bread] in state [k]. *)
Record opened (k : kernel) (l : list nat) (bs : list Z) (bn : Z) (i : nat) (k1 : kernel) : Prop := {
  op_idle : idle k l bs;
  op_got : got k l bn i k1;
  op_valid : flag (b_flags (getb k1 i)) B_VALID = true;
  op_data : b_data (getb k1 i) = view k bn
}.

Lemma opened_read k l bs bn i k1 : opened k l bs bn i k1 -> read_buf i k1 = Done (getb k1 i) k1.
Proof.
  intros [_ G _ _]. apply read_buf_run. rewrite (rg_len _ _ (bi_ring _ _ (gt_inv _ _ _ _ _ G))).
  destruct (gt_holds _ _ _ _ _ G). lia.
Qed.
Lemma opened_frame k l bs bn i k1 : opened k l bs bn i k1 -> fs_step k (view k) k1.
Proof. intros [_ G _ _]. apply bframe_step; apply G. Qed.
Lemma opened_log k l bs bn i k1 : opened k l bs bn i k1 -> k_log k1 = k_log k.
Proof. intros [_ G _ _]. by destruct (gt_frame _ _ _ _ _ G) as [(? & ? & ->) _]. Qed.

Lemma idle_bread k l bs bn :
  idle k l bs -> in_disk disksize bn -> (length bs < NBUF)%nat ->
  exists i k1, bread (S fuel) ROOTDEV bn k = Done i k1 /\ opened k l bs bn i k1.
Proof.
  intros T Hbn Hlen. pose proof (id_calm _ _ _ T) as [Hinv Hq Hlb Hlp].
  destruct (bread_got disksize k l bn fuel Hinv Hlb Hbn) as (i & k1 & Hrun & G & Hv & Hd).
  { apply (quiet_available k l bn bs Hinv Hq); [|done]. intros c. apply (id_logged _ _ _ T). }
  exists i, k1. by split.
Qed.

(** The quiet state after the release of the only busy buffer. *)
Lemma release_quiet k l bs bn i k1 k2 k3 l3 :
  opened k l bs bn i k1 -> (forall j, j <> i -> core (getb k2 j) = core (getb k1 j)) ->
  (forall j, j <> i -> core (getb k3 j) = core (getb k2 j)) ->
  flag (b_flags (getb k3 i)) B_BUSY = false -> bcache_inv k3 l3 -> k_held k3 = k_held k ->
  calm k3 l3.
Proof.
  intros [T G _ _] H2 H3 Hb Hinv Hh. pose proof (id_calm _ _ _ T) as [_ Hq Hlb Hlp].
  split; [done| |by rewrite Hh..]. intros x Hx. destruct (decide (x = i)) as [->|Hne]; [done|].
  pose proof (H3 x Hne) as E. injection E as -> _ _ _.
  pose proof (H2 x Hne) as E. injection E as -> _ _ _.
  pose proof (gt_others _ _ _ _ _ G x Hne) as E. injection E as -> _ _ _. by apply Hq.
Qed.

Lemma busy_cleared f : 0 <= f < 8 -> flag (Z.ldiff f B_BUSY) B_BUSY = false.
Proof. intros Hf. clear -Hf. flags Hf. Qed.

(** Releasing it unchanged. *)
Lemma opened_brelse k l bs bn i k1 :
  opened k l bs bn i k1 ->
  exists k' l', brelse i k1 = Done tt k' /\ idle k' l' bs /\ fs_step k (view k) k' /\
    k_log k' = k_log k.
Proof.
  intros O. pose proof O as [T G Hv Hd]. pose proof (id_calm _ _ _ T) as [Hinv Hq Hlb Hlp].
  pose proof (opened_frame _ _ _ _ _ _ O) as S1. pose proof (gt_inv _ _ _ _ _ G) as Hinv1.
  destruct (brelse_changed k1 l i bn Hinv1 (gt_holds _ _ _ _ _ G))
    as (k2 & l1 & l2 & _ & Hrun & C & F & Hcore & Hvw & Hdy);
    [by rewrite (fs_held _ _ _ S1)..|apply G| |].
  { intros _ Hnd. rewrite Hd, (fs_disk _ _ _ S1). apply (quiet_view k l bn Hinv Hq).
    rewrite <- (gt_dirty _ _ _ _ _ G). destruct (view_held k1 l i bn Hinv1 (gt_holds _ _ _ _ _ G)) as [_ ->]. done. }
  assert (forall c, view k2 c = view k1 c /\ dirty k2 c = dirty k1 c) as Hsame.
  { intros c. destruct (decide (c = bn)) as [->|Hne]; [done|].
    split; [by apply (ch_view _ _ _ _ _ _ C)|by apply (ch_dirty _ _ _ _ _ _ C)]. }
  assert (fs_step k (view k) k2) as S2.
  { eapply fs_step_trans; [exact S1|]. eapply fs_step_ext; [apply bframe_step; [exact F|apply Hsame]|]. apply G. }
  assert (k_log k2 = k_log k) as Hlog.
  { rewrite <- (opened_log _ _ _ _ _ _ O). by destruct F as [(? & ? & ->) _]. }
  exists k2, (i :: l1 ++ l2). split; [done|]. split; [|done]. split.
  - eapply (release_quiet k l bs bn i k1 k1 k2); try done; [apply C| |apply C|by apply fs_held in S2].
    injection Hcore as -> _ _ _. apply busy_cleared, Hinv1.
  - by rewrite (fs_held _ _ _ S2); apply T.
  - destruct (id_logged _ _ _ T) as [[H1 H2 H3] H4 H5 H6]. split; rewrite ?Hlog; try done. split; rewrite ?Hlog; try done.
    intros c. destruct (Hsame c) as [_ ->]. rewrite (gt_dirty _ _ _ _ _ G). apply H3.
Qed.

(** The state after [log_write] of a changed buffer. *)
Lemma opened_log_write k l bs bn i k1 d :
  opened k l bs bn i k1 -> txn k l bs -> in_disk disksize bn -> disksize <= 2 ^ 31 -> length d = 512%nat ->
  (length bs < 29)%nat ->
  let k2 := upd_buf i (set_b_data d) k1 in let k3 := absorbed i bn bs k2 in
  log_write i k2 = Done tt k3 /\ bcache_inv k3 l /\ logged k3 (absorb bn bs) /\
  getb k3 i = set_b_flags (Z.lor (b_flags (getb k1 i)) B_DIRTY) (set_b_data d (getb k1 i)) /\
  (forall j, j <> i -> core (getb k3 j) = core (getb k1 j)) /\ holds k3 i bn /\
  (forall c, view k3 c = write1 (view k) (bn, d) c).
Proof.
  intros O X Hbn Hsz Hd Hlen k2 k3. pose proof O as [T G Hv _]. pose proof (gt_inv _ _ _ _ _ G) as Hinv1.
  pose proof (gt_holds _ _ _ _ _ G) as Hh1. pose proof (opened_log _ _ _ _ _ _ O) as Hlog.
  pose proof (opened_frame _ _ _ _ _ _ O) as S1.
  assert (i < length (k_bufs k1))%nat as Hi by (rewrite (rg_len _ _ (bi_ring _ _ Hinv1)); destruct Hh1; lia).
  pose proof (set_data_changed k1 l i bn d Hinv1 Hh1 (gt_busy _ _ _ _ _ G) Hd) as C2. fold k2 in C2.
  assert (getb k2 i = set_b_data d (getb k1 i)) as E2 by by apply getb_upd_eq.
  pose proof (ch_this _ _ _ _ _ _ C2) as [Hv2 Hd2]. rewrite E2 in Hv2, Hd2. simpl in Hv2, Hd2. rewrite Hv in Hv2.
  assert (logged k2 bs) as L2.
  { destruct (id_logged _ _ _ T) as [[H1 H2 H3] H4 H5 H6].
    split; [split|..]; try (change (k_log k2) with (k_log k1); by rewrite Hlog); try done.
    intros c. rewrite <- H3, <- (gt_dirty _ _ _ _ _ G). destruct (decide (c = bn)) as [->|Hne].
    - rewrite Hd2. by destruct (view_held k1 l i bn Hinv1 Hh1) as [_ ->].
    - by rewrite (ch_dirty _ _ _ _ _ _ C2). }
  assert (0 <= bn < 2 ^ 31) as Hb by (unfold in_disk in Hbn; lia).
  destruct (log_write_logged k2 l i bn bs) as (Hinv3 & L3 & Hv3);
    [apply C2|apply C2|by rewrite E2|done|done|lia|]. fold k3 in Hinv3, L3, Hv3.
  assert (getb k3 i = set_b_flags (Z.lor (b_flags (getb k1 i)) B_DIRTY) (set_b_data d (getb k1 i))) as E3.
  { transitivity (set_b_flags (Z.lor (b_flags (getb k2 i)) B_DIRTY) (getb k2 i)); [|by rewrite E2].
    unfold k3, absorbed. apply (getb_upd_eq (upd_log _ k2) i). simpl. by rewrite length_alter. }
  split_and!; try done.
  - eapply log_write_run; try done; try apply C2.
    + change (k_held k2) with (k_held k1). rewrite (fs_held _ _ _ S1). apply T.
    + change (k_log k2) with (k_log k1). rewrite Hlog. apply X.
    + change (k_log k2) with (k_log k1). rewrite Hlog. apply X.
  - intros j Hj. unfold k3, absorbed. rewrite getb_upd_ne by done. by apply (ch_others _ _ _ _ _ _ C2).
  - destruct Hh1 as (? & ? & ?). unfold holds. rewrite E3. done.
  - intros c. rewrite Hv3. unfold write1. simpl. destruct (Z.eqb_spec c bn) as [->|Hne]; [done|].
    rewrite (ch_view _ _ _ _ _ _ C2) by done. apply G.
Qed.

Lemma opened_update k l bs bn i k1 F :
  opened k l bs bn i k1 -> txn k l bs -> in_disk disksize bn -> disksize <= 2 ^ 31 ->
  length (F (view k bn)) = 512%nat -> (length bs < 29)%nat ->
  exists k2 k3 k' l', set_data i F k1 = Done tt k2 /\ log_write i k2 = Done tt k3 /\
    brelse i k3 = Done tt k' /\ txn k' l' (absorb bn bs) /\
    fs_step k (write1 (view k) (bn, F (view k bn))) k'.
Proof.
  intros O X Hbn Hsz Hd Hlen. pose proof O as [T G Hv Hdata]. pose proof (opened_frame _ _ _ _ _ _ O) as S1.
  destruct (opened_log_write k l bs bn i k1 (F (view k bn)) O X Hbn Hsz Hd Hlen)
    as (Hrun & Hinv3 & L3 & E3 & Ho3 & Hh3 & Hv3).
  set (k2 := upd_buf i _ k1) in *. set (k3 := absorbed i bn bs k2) in *.
  pose proof (bi_flags _ _ (gt_inv _ _ _ _ _ G) i) as Hf. pose proof (gt_busy _ _ _ _ _ G) as Hb.
  assert (k_held k3 = k_held k) as Hheld by by rewrite <- (fs_held _ _ _ S1).
  destruct (brelse_changed k3 l i bn Hinv3 Hh3) as (k' & l1 & l2 & _ & Hrun' & C & Fr & Hcore & Hvw & Hdy).
  { rewrite Hheld. apply T. } { rewrite Hheld. apply T. }
  { rewrite E3. simpl. clear -Hf Hb. flags Hf. }
  { rewrite E3. simpl. clear -Hf. flags Hf. }
  assert (forall c, view k' c = view k3 c /\ dirty k' c = dirty k3 c) as Hsame.
  { intros c. destruct (decide (c = bn)) as [->|Hne]; [done|].
    split; [by apply (ch_view _ _ _ _ _ _ C)|by apply (ch_dirty _ _ _ _ _ _ C)]. }
  assert (k_log k' = k_log k3) as Hlog by by destruct Fr as [(? & ? & ->) _].
  assert (fs_step k (write1 (view k) (bn, F (view k bn))) k') as S'.
  { destruct (fs_frame _ _ _ S1) as (b1 & p1 & g1 & E1), Fr as [(b3 & p3 & E') W3].
    split.
    - exists b3, p3, (k_log k3). rewrite E'. unfold k3, absorbed, k2. rewrite E1. done.
    - eapply woke_trans; [apply S1|]. eapply woke_trans; [|exact W3]. by apply woke_same.
    - intros c. destruct (Hsame c) as [-> _]. apply Hv3. }
  exists k2, k3, k', (i :: l1 ++ l2). split_and!; try done.
  - unfold set_data, modify. f_equal. apply upd_buf_ext. by rewrite Hdata.
  - split; [split|..]; rewrite ?Hlog.
    + eapply (release_quiet k l bs bn i k1 k3 k'); try done; [apply C| |apply C|by apply fs_held in S'].
      injection Hcore as -> _ _ _. rewrite E3. apply busy_cleared. simpl. clear -Hf. flags Hf.
    + rewrite (fs_held _ _ _ S'). apply T.
    + destruct L3 as [[H1 H2 H3] H4 H5 H6]. split; [split|..]; rewrite ?Hlog; try done.
      intros c. destruct (Hsame c) as [_ ->]. apply H3.
    + unfold k3, absorbed. simpl. case_if; simpl; rewrite (opened_log _ _ _ _ _ _ O); apply X.
    + unfold k3, absorbed. simpl. case_if; simpl; rewrite (opened_log _ _ _ _ _ _ O); apply X.
Qed.

(** ** The two patterns of fs.c *)

(** Read a block and release it; [g] is the rest of the function. *)
Lemma read_block_run {A} (g : buf -> M kernel A) k l bs bn :
  idle k l bs -> in_disk disksize bn -> (length bs < NBUF)%nat ->
  exists b k' l', (let! bp := bread (S fuel) ROOTDEV bn in
                   let! x := read_buf bp in
                   brelse bp ;;; g x) k = g b k' /\
    b_data b = view k bn /\ idle k' l' bs /\ fs_step k (view k) k' /\ k_log k' = k_log k.
Proof.
  intros T Hbn Hlen. destruct (idle_bread k l bs bn T Hbn Hlen) as (i & k1 & Hrun & O).
  destruct (opened_brelse _ _ _ _ _ _ O) as (k' & l' & Hrun' & T' & S' & Hl').
  exists (getb k1 i), k', l'. rewrite (bind_Done _ _ _ _ _ Hrun).
  rewrite (bind_Done _ _ _ _ _ (opened_read _ _ _ _ _ _ O)), (bind_Done _ _ _ _ _ Hrun').
  split; [done|]. split; [apply O|]. done.
Qed.

(** Change a block under the log and release it. *)
Lemma update_block_run F k l bs bn :
  txn k l bs -> in_disk disksize bn -> disksize <= 2 ^ 31 ->
  length (F (view k bn)) = 512%nat -> (length bs < 29)%nat ->
  exists k' l', (forall A (g : M kernel A),
    (let! bp := bread (S fuel) ROOTDEV bn in
     set_data bp F ;;; log_write bp ;;; brelse bp ;;; g) k = g k') /\
    (let! bp := bread (S fuel) ROOTDEV bn in
     set_data bp F ;;; log_write bp ;;; brelse bp) k = Done tt k' /\
    txn k' l' (absorb bn bs) /\ fs_step k (write1 (view k) (bn, F (view k bn))) k'.
Proof.
  intros T Hbn Hsz HF Hlen. destruct (idle_bread k l bs bn (tn_idle _ _ _ T) Hbn) as (i & k1 & Hrun & O); [unfold NBUF; lia|].
  destruct (opened_update _ _ _ _ _ _ F O T Hbn Hsz HF Hlen) as (k2 & k3 & k' & l' & H2 & H3 & H4 & T' & S').
  exists k', l'. split_and!; try done; intros; rewrite (bind_Done _ _ _ _ _ Hrun),
    (bind_Done _ _ _ _ _ H2), (bind_Done _ _ _ _ _ H3); [by rewrite (bind_Done _ _ _ _ _ H4)|done].
Qed.

End Tx.
