(* ===== verification/FsRead.v ===== *)
(** FsRead: what [bmap] and [readi] return, in terms of the contents of the
    blocks of a file. *)

From S2P Require Import Prelude Kernel StringLib Bytes ProcCore Bio BioSpec LogCopy FsLayout Log LogProof LogOps Fs FsTx.

(** ** The contents of a file *)

(** The block number of block [n] of the file, 0 when it is not allocated. *)
Definition file_block (v : Z -> list Z) (x : inode) (n : Z) : Z :=
  if n <? NDIRECT then get_addr x (Z.to_nat n)
  else get32 (v (get_addr x 12)) (Z.to_nat (4 * (n - NDIRECT))).

Definition file_byte (v : Z -> list Z) (x : inode) (j : Z) : Z :=
  get8 (v (file_block v x (j / BSIZE))) (Z.to_nat (j mod BSIZE)).
Definition file_bytes (v : Z -> list Z) (x : inode) (off : Z) (n : nat) : list Z :=
  map (fun i => file_byte v x (off + Z.of_nat i)) (seq 0 n).

(** Block [n] of the file is allocated, and so is the indirect block when it
    is needed. *)
Definition mapped (disksize : Z) (v : Z -> list Z) (x : inode) (n : Z) : Prop :=
  0 <= n < MAXFILE /\ file_block v x n <> 0 /\ in_disk disksize (file_block v x n) /\
  (NDIRECT <= n -> get_addr x 12 <> 0 /\ in_disk disksize (get_addr x 12)).

Lemma file_bytes_app v x off a b :
  file_bytes v x off (a + b) = file_bytes v x off a ++ file_bytes v x (off + Z.of_nat a) b.
Proof.
  unfold file_bytes. rewrite seq_app, map_app. f_equal.
  replace (seq (0 + a) b) with (map (Nat.add a) (seq 0 b)).
  - rewrite map_map. apply map_ext. intros i. f_equal. lia.
  - change (map ?f ?l) with (f <$> l). by rewrite fmap_add_seq, Nat.add_0_r.
Qed.

Lemma file_bytes_length v x off n : length (file_bytes v x off n) = n.
Proof. unfold file_bytes. by rewrite length_map, length_seq. Qed.

(** A run inside one block. *)
Lemma file_bytes_block v x off n d :
  0 <= off -> off mod BSIZE + Z.of_nat n <= BSIZE -> v (file_block v x (off / BSIZE)) = d ->
  length d = 512%nat ->
  take n (drop (Z.to_nat (off mod BSIZE)) d) = file_bytes v x off n.
Proof.
  intros Hoff Hn Hd Hl. unfold BSIZE in *. pose proof (Z.mod_pos_bound off 512 ltac:(lia)).
  apply list_eq. intros i. destruct (decide (i < n)%nat) as [Hi|Hi].
  - rewrite lookup_take_lt, lookup_drop by done. unfold file_bytes.
    change (map ?f ?l) with (f <$> l). rewrite list_lookup_fmap, lookup_seq_lt by done. simpl.
    pose proof (Z.div_mod off 512 ltac:(lia)).
    assert ((off + Z.of_nat i) / 512 = off / 512) as E1.
    { symmetry. apply (Z.div_unique _ _ _ (off mod 512 + Z.of_nat i)); lia. }
    assert ((off + Z.of_nat i) mod 512 = off mod 512 + Z.of_nat i) as E2.
    { symmetry. apply (Z.mod_unique _ _ (off / 512)); lia. }
    unfold file_byte. unfold BSIZE. rewrite E1, E2, Hd. unfold get8.
    rewrite Z2Nat.inj_add, Nat2Z.id by lia.
    destruct (lookup_lt_is_Some_2 d (Z.to_nat (off mod 512) + i)) as [b Hb]; [lia|]. by rewrite Hb.
  - rewrite !lookup_ge_None_2; [done|rewrite file_bytes_length; lia|rewrite length_take; lia].
Qed.

Lemma file_bytes_ext v v' x x' off n :
  (forall j, 0 <= j < Z.of_nat n -> file_byte v x (off + j) = file_byte v' x' (off + j)) ->
  file_bytes v x off n = file_bytes v' x' off n.
Proof.
  intros H. apply map_ext_in. intros i Hi. apply in_seq in Hi. apply H. lia.
Qed.

(** The test [off + n < off] of the C code sees exactly the sums that wrap. *)
Lemma u32_overflow off n :
  0 <= off < 2 ^ 32 -> 0 <= n < 2 ^ 32 -> (u32 (off + n) <? off) = (2 ^ 32 <=? off + n).
Proof.
  intros Hoff Hn. destruct (Z.leb_spec (2 ^ 32) (off + n)).
  - apply Z.ltb_lt. replace (u32 (off + n)) with (off + n - 2 ^ 32); [lia|].
    apply (Z.mod_unique _ _ 1); lia.
  - apply Z.ltb_ge. rewrite u32_small by lia. lia.
Qed.
Lemma turns_enough off n :
  0 <= n -> n + off mod BSIZE <= BSIZE * Z.of_nat (turns n).
Proof.
  intros Hn. unfold turns, BSIZE. pose proof (Z.mod_pos_bound off 512 ltac:(lia)).
  pose proof (Z.div_mod n 512 ltac:(lia)). pose proof (Z.mod_pos_bound n 512 ltac:(lia)).
  rewrite Z2Nat.id; lia.
Qed.

Section Read.
Context `{D : DiskDriver} (disksize : Z) `{!DriverOk D disksize} (fuel : nat).

Lemma read_inode_run k ip x : k_icache k !! ip = Some x -> read_inode ip k = Done x k.
Proof. intros H. unfold read_inode. by rewrite H. Qed.

Lemma bmap_addr_run k ip x i :
  k_icache k !! ip = Some x -> get_addr x i <> 0 ->
  bmap_addr (S fuel) ip i k = Done (get_addr x i) k.
Proof.
  intros Hx Ha. unfold bmap_addr. rewrite (bind_Done _ _ _ _ _ (read_inode_run _ _ _ Hx)).
  by destruct (Z.eqb_spec (get_addr x i) 0).
Qed.

(** [bmap] of an allocated block finds it and changes nothing. *)
Lemma bmap_run k l bs ip x n :
  idle k l bs -> (length bs < NBUF)%nat -> k_icache k !! ip = Some x -> i_dev x = ROOTDEV ->
  mapped disksize (view k) x n ->
  exists k' l', bmap (S fuel) ip n k = Done (file_block (view k) x n) k' /\
    idle k' l' bs /\ fs_step k (view k) k' /\ k_log k' = k_log k.
Proof.
  intros I Hlen Hx Hdev (Hn & Ha & Hin & Hind). unfold bmap, file_block in *.
  destruct (Z.ltb_spec n NDIRECT) as [Hd|Hd].
  - exists k, l. split; [by apply bmap_addr_run|]. split; [done|]. split; [apply fs_step_refl|done].
  - destruct (Hind Hd) as [Ha12 Hin12]. assert (0 <= n < 140) as Hn' by exact Hn.
    change NINDIRECT with 128. change NDIRECT with 12 in *.
    rewrite u32_small by lia. destruct (Z.ltb_spec (n - 12) 128) as [_|Hbad]; [|lia].
    rewrite (bind_Done _ _ _ _ _ (bmap_addr_run k ip x (Z.to_nat 12) Hx Ha12)).
    rewrite (bind_Done _ _ _ _ _ (read_inode_run _ _ _ Hx)), Hdev.
    destruct (idle_bread disksize fuel k l bs (get_addr x 12) I Hin12 Hlen) as (i & k1 & Hrun & O).
    destruct (opened_brelse _ _ _ _ _ _ O) as (k' & l' & Hrun' & I' & S' & Hl').
    exists k', l'. rewrite (bind_Done _ _ _ _ _ Hrun), (bind_Done _ _ _ _ _ (opened_read _ _ _ _ _ _ O)).
    rewrite (op_data _ _ _ _ _ _ O).
    destruct (Z.eqb_spec (get32 (view k (get_addr x 12)) (Z.to_nat (4 * (n - 12)))) 0); [done|].
    rewrite bind_ret, (bind_Done _ _ _ _ _ Hrun'). done.
Qed.

(** The loop of [readi]. *)
Lemma readi_loop_run m k l bs ip x off tot n :
  idle k l bs -> (length bs < NBUF)%nat -> k_icache k !! ip = Some x -> i_dev x = ROOTDEV ->
  0 <= off -> 0 <= tot <= n -> off + (n - tot) < 2 ^ 32 -> n < 2 ^ 32 ->
  (tot < n -> n - tot + off mod BSIZE <= BSIZE * Z.of_nat m) ->
  (forall b, off / BSIZE <= b -> b * BSIZE < off + (n - tot) -> mapped disksize (view k) x b) ->
  exists k' l', readi_loop (S fuel) m ip off tot n k =
      Done (file_bytes (view k) x off (Z.to_nat (n - tot))) k' /\
    idle k' l' bs /\ fs_step k (view k) k' /\ k_log k' = k_log k.
Proof.
  revert k l off tot. induction m as [|m IH]; intros k l off tot I Hlen Hx Hdev Hoff Htot Hw Hn Hm Hmap;
    cbn [readi_loop]; unfold BSIZE in *; pose proof (Z.mod_pos_bound off 512 ltac:(lia)) as Hmod.
  { destruct (Z.ltb_spec tot n); [lia|]. cbn [negb]. exists k, l. replace (n - tot) with 0 by lia.
    split; [done|]. split; [done|]. split; [apply fs_step_refl|done]. }
  destruct (Z.ltb_spec tot n) as [Hlt|Hge]; cbn [negb].
  2:{ exists k, l. replace (n - tot) with 0 by lia. split; [done|]. split; [done|].
      split; [apply fs_step_refl|done]. }
  rewrite (bind_Done _ _ _ _ _ (read_inode_run _ _ _ Hx)), Hdev.
  pose proof (Z.div_mod off 512 ltac:(lia)) as Hdm.
  assert (mapped disksize (view k) x (off / 512)) as Hmp by (apply Hmap; lia).
  destruct (bmap_run k l bs ip x (off / 512) I Hlen Hx Hdev Hmp) as (k1 & l1 & Hr1 & I1 & S1 & Hl1).
  rewrite (bind_Done _ _ _ _ _ Hr1). destruct Hmp as (_ & _ & Hin & _).
  set (c := Z.min (u32 (n - tot)) (512 - off mod 512)).
  assert (c = Z.min (n - tot) (512 - off mod 512)) as Hc by (unfold c; rewrite u32_small by lia; done).
  edestruct (read_block_run disksize fuel (fun b =>
    let! rest := readi_loop (S fuel) m ip (u32 (off + c)) (tot + c) n in
    ret (take (Z.to_nat c) (drop (Z.to_nat (off mod 512)) (b_data b)) ++ rest)) k1 l1 bs)
    as (b & k2 & l2 & Hr2 & Hb & I2 & S2 & Hl2); [done|exact Hin|done|].
  rewrite Hr2. clear Hr2. rewrite (fs_view _ _ _ S1) in Hb.
  assert (fs_step k (view k) k2) as S2'.
  { eapply fs_step_trans; [exact S1|]. eapply fs_step_ext; [exact S2|]. apply S1. }
  assert (forall c, view k2 c = view k c) as V2 by apply S2'.
  assert (forall j, mapped disksize (view k) x j -> mapped disksize (view k2) x j) as Hmono.
  { intros j. unfold mapped, file_block. case_if; rewrite ?V2; done. }
  rewrite u32_small by lia.
  destruct (IH k2 l2 (off + c) (tot + c)) as (k3 & l3 & Hr3 & I3 & S3 & Hl3); try done; try lia.
  { by rewrite (fs_icache _ _ _ S2'). }
  { intros Hrest. specialize (Hm Hlt). replace ((off + c) mod 512) with 0; [lia|].
    apply (Z.mod_unique _ _ (off / 512 + 1)); lia. }
  { intros j Hj Hj'. apply Hmono, Hmap; [|lia]. pose proof (Z.div_le_mono off (off + c) 512 ltac:(lia) ltac:(lia)). lia. }
  exists k3, l3. rewrite (bind_Done _ _ _ _ _ Hr3). split_and!; [|done| |congruence].
  - unfold ret. f_equal. replace (Z.to_nat (n - tot)) with (Z.to_nat c + Z.to_nat (n - (tot + c)))%nat by lia.
    rewrite file_bytes_app. f_equal.
    + rewrite Hb. apply file_bytes_block; [done|unfold BSIZE; lia|done|]. apply (view_length k l), I.
    + rewrite Z2Nat.id by lia. apply file_bytes_ext. intros j _.
      unfold file_byte, file_block. case_if; by rewrite ?V2.
  - eapply fs_step_trans; [exact S2'|]. eapply fs_step_ext; [exact S3|]. done.
Qed.

(** A file of the disk, all its blocks allocated. *)
Record whole (v : Z -> list Z) (x : inode) : Prop := {
  wh_dev : i_dev x = ROOTDEV;
  wh_type : i_type x <> T_DEV;
  wh_size : 0 <= i_size x <= MAXFILE * BSIZE;
  wh_mapped : forall b, 0 <= b -> b * BSIZE < i_size x -> mapped disksize v x b
}.

Context `{DS : Devsw}.

(** The result of [readi] on a file of the disk, and the bytes it copies. *)
Definition readi_spec (v : Z -> list Z) (x : inode) (off n : Z) : Z * list Z :=
  if (i_size x <? off) || (2 ^ 32 <=? off + n) then (-1, [])
  else let m := Z.min n (i_size x - off) in (m, file_bytes v x off (Z.to_nat m)).

Lemma readi_run k l bs ip x off n :
  idle k l bs -> (length bs < NBUF)%nat -> k_icache k !! ip = Some x -> whole (view k) x ->
  0 <= off < 2 ^ 32 -> 0 <= n < 2 ^ 32 ->
  exists k' l', readi (S fuel) ip off n k = Done (readi_spec (view k) x off n) k' /\
    idle k' l' bs /\ fs_step k (view k) k' /\ k_log k' = k_log k.
Proof.
  intros I Hlen Hx [Hdev Hty Hsz Hmap] Hoff Hn. assert (0 <= i_size x <= 71680) as Hsz' by exact Hsz.
  unfold readi, readi_spec. rewrite (bind_Done _ _ _ _ _ (read_inode_run _ _ _ Hx)).
  destruct (Z.eqb_spec (i_type x) T_DEV) as [|_]; [done|].
  rewrite u32_overflow by done. destruct (Z.ltb_spec (i_size x) off), (Z.leb_spec (2 ^ 32) (off + n)); cbn [orb];
    try (exists k, l; split; [done|]; split; [done|]; split; [apply fs_step_refl|done]).
  rewrite (u32_small (off + n)) by lia.
  set (m := if i_size x <? off + n then u32 (i_size x - off) else n).
  assert (m = Z.min n (i_size x - off)) as Hm.
  { unfold m. destruct (Z.ltb_spec (i_size x) (off + n)); [rewrite u32_small|]; lia. }
  destruct (readi_loop_run (turns m) k l bs ip x off 0 m) as (k' & l' & Hr & I' & S' & Hl'); try done; try lia.
  { intros _. rewrite Z.sub_0_r. apply turns_enough. lia. }
  { intros b Hb Hb'. apply Hmap; [|lia]. pose proof (Z.div_pos off BSIZE ltac:(lia) ltac:(done)). lia. }
  exists k', l'. rewrite (bind_Done _ _ _ _ _ Hr). rewrite Z.sub_0_r, Hm. rewrite i32_small by lia. done.
Qed.

(** C16: readi.  On a file whose blocks are allocated, [readi] returns -1 when
    the offset lies beyond the end or offset plus count overflows; otherwise
    it returns the number of bytes up to the end of the file, at most [n],
    with exactly those bytes of the file, read through the direct and the
    indirect blocks.  It changes no block, no inode and not the log. *)
Theorem readi_correct k l bs ip x off n :
  idle k l bs -> (length bs < NBUF)%nat -> k_icache k !! ip = Some x -> whole (view k) x ->
  0 <= off < 2 ^ 32 -> 0 <= n < 2 ^ 32 ->
  exists k' l', readi (S fuel) ip off n k = Done (readi_spec (view k) x off n) k' /\
    idle k' l' bs /\ (forall c, view k' c = view k c) /\ k_icache k' = k_icache k /\
    k_disk k' = k_disk k /\ k_log k' = k_log k /\ k_held k' = k_held k.
Proof.
  intros I Hlen Hx W Hoff Hn. destruct (readi_run k l bs ip x off n I Hlen Hx W Hoff Hn)
    as (k' & l' & Hr & I' & S' & Hl'). exists k', l'. split_and!; try done; [apply S'|..].
  - by eapply fs_icache.
  - by eapply fs_disk.
  - by eapply fs_held.
Qed.

End Read.

(** ** A concrete file: 600 bytes in blocks 40 and 41 *)

Definition demo_inode : inode :=
  Inode ROOTDEV 5 1 0 T_FILE 0 0 1 600 (40 :: 41 :: replicate 11 0).
Definition demo_fs : kernel := upd_inode 0 (fun _ => demo_inode) demo_cache.

Lemma demo_clean c : dirty demo_cache c = false.
Proof.
  unfold dirty. destruct (holder demo_cache c) as [i|] eqn:E; [|done].
  apply (holder_Some _ _ _ _ (proj1 demo_cache_inv)) in E. destruct E as (Hi & Hd & Hb).
  destruct (decide (i = 0%nat)) as [->|Hne]; [discriminate Hd|].
  destruct (slots_get demo_cache i) as (_ & _ & _ & H); [vm_compute; reflexivity|reflexivity|].
  destruct (H Hne) as [Hno _]. destruct (Hno Hd).
Qed.

Lemma calm_inode i f k l : calm k l -> calm (upd_inode i f k) l.
Proof. intros [[[? ? ? ?] ? ? ? ? ? ?] ? ? ?]. split; [|done..]. split; done. Qed.
Lemma dirty_inode i f k c : dirty (upd_inode i f k) c = dirty k c.
Proof. done. Qed.

Lemma demo_fs_idle : idle demo_fs demo_order [].
Proof.
  split; [|apply not_elem_of_empty|].
  - apply calm_inode. destruct demo_cache_inv. split; [assumption|assumption| |]; apply not_elem_of_empty.
  - split; [split|reflexivity|intros i b Hi; discriminate Hi|intros b Hb; by apply not_elem_of_nil in Hb].
    + reflexivity.
    + apply NoDup_nil_2.
    + intros c. unfold demo_fs. rewrite dirty_inode, demo_clean. split; [discriminate|intros Hc; by apply not_elem_of_nil in Hc].
Qed.

Lemma demo_whole v : whole 200 v demo_inode.
Proof.
  split; [reflexivity|discriminate|vm_compute; split; discriminate|].
  intros b Hb Hb'. change (i_size demo_inode) with 600 in Hb'. unfold BSIZE in Hb'.
  assert (b = 0 \/ b = 1) as [-> | ->] by lia;
    (split; [vm_compute; intuition congruence|]; split; [vm_compute; congruence|];
     split; [vm_compute; intuition congruence|]; intros H; by vm_compute in H).
Qed.

Definition no_devices : Devsw := {| dev_read := fun _ => None; dev_write := fun _ => None |}.

Lemma readi_correct_witness :
  exists k', @readi (Memide.driver 200) 1 no_devices 0 500 200 demo_fs =
    Done (100, file_bytes (view demo_fs) demo_inode 500 100) k'.
Proof.
  destruct (@readi_correct (Memide.driver 200) 200 (memide_ok 200) 0 no_devices demo_fs demo_order [] 0
              demo_inode 500 200) as (k' & l' & Hr & _).
  - apply demo_fs_idle.
  - unfold NBUF. simpl. lia.
  - reflexivity.
  - apply demo_whole.
  - lia.
  - lia.
  - exists k'. exact Hr.
Defined.
