(* ===== verification/FsWrite.v ===== *)
(** FsWrite: [iupdate] and [writei] on files whose blocks are allocated. *)

From S2P Require Import Prelude Kernel StringLib Bytes ProcCore Bio BioSpec LogCopy FsLayout Log LogProof LogOps Fs FsTx FsRead.

(** ** Bytes of a block *)

Lemma load_lookup m p n i : (i < n)%nat -> load m p n !! i = Some (m (p + Z.of_nat i)).
Proof.
  intros Hi. unfold load. change (map ?f ?l) with (f <$> l). rewrite list_lookup_fmap, lookup_seq_lt by done. done.
Qed.
Lemma load_length m p n : length (load m p n) = n.
Proof. unfold load. by rewrite length_map, length_seq. Qed.

(** ** [struct dinode] *)

Lemma put_addrs_length o i l d : length (put_addrs o i l d) = length d.
Proof. revert i d. induction l as [|a l IH]; intros i d; simpl; [done|]. by rewrite IH, put32_length. Qed.
Lemma store_dinode_length o x d : length (store_dinode o x d) = length d.
Proof. unfold store_dinode. by rewrite put_addrs_length, put32_length, !put16_length. Qed.

Lemma put_addrs_get8 o i l d j :
  (j < addr_off o i \/ addr_off o (i + length l) <= j)%nat -> get8 (put_addrs o i l d) j = get8 d j.
Proof.
  revert i d. induction l as [|a l IH]; intros i d Hj; simpl; [done|]. simpl in Hj.
  rewrite IH by (unfold addr_off in *; lia). apply get8_inserts_out. unfold addr_off in *. simpl. lia.
Qed.
Lemma put_addrs_get32 o i l d j a :
  (addr_off o (i + length l) <= length d)%nat -> l !! j = Some a ->
  get32 (put_addrs o i l d) (addr_off o (i + j)) = u32 a.
Proof.
  revert i d j. induction l as [|b l IH]; intros i d [|j] Hl Hj; simplify_eq/=.
  - unfold get32 at 1. rewrite !put_addrs_get8 by (unfold addr_off; lia). rewrite Nat.add_0_r.
    apply (get32_put32 (addr_off o i) a d). unfold addr_off in *. lia.
  - replace (i + S j)%nat with (S i + j)%nat by lia. apply IH; [|done].
    rewrite put32_length. unfold addr_off in *. lia.
Qed.

(** The on-disk fields of an inode are in the range of their C types. *)
Record dinode_ok (x : inode) : Prop := {
  do_type : - 2 ^ 15 <= i_type x < 2 ^ 15;
  do_major : - 2 ^ 15 <= i_major x < 2 ^ 15;
  do_minor : - 2 ^ 15 <= i_minor x < 2 ^ 15;
  do_nlink : - 2 ^ 15 <= i_nlink x < 2 ^ 15;
  do_size : 0 <= i_size x < 2 ^ 32;
  do_addrs : length (i_addrs x) = 13%nat /\ Forall (fun a => 0 <= a < 2 ^ 32) (i_addrs x)
}.

(** [y] with the on-disk fields of [x]. *)
Definition with_dinode (x y : inode) : inode :=
  set_i_type (i_type x) (set_i_major (i_major x) (set_i_minor (i_minor x) (set_i_nlink (i_nlink x)
    (set_i_size (i_size x) (set_i_addrs (i_addrs x) y))))).

Lemma i16_u16 v : - 2 ^ 15 <= v < 2 ^ 15 -> i16 (u16 v) = v.
Proof.
  intros Hv. unfold i16, sint, u16. change (2 ^ (16 - 1)) with (2 ^ 15).
  rewrite Zplus_mod_idemp_l. rewrite Z.mod_small by lia. lia.
Qed.

(** Reading back what was written. *)
Lemma load_store_dinode o x y d :
  dinode_ok x -> (o + 64 <= length d)%nat -> load_dinode o (store_dinode o x d) y = with_dinode x y.
Proof.
  intros [H1 H2 H3 H4 H5 [H6 H7]] Hl. unfold load_dinode, with_dinode, store_dinode.
  set (d5 := put32 (o + 8) _ _).
  assert (forall j, (j < o + 12)%nat -> get8 (put_addrs o 0 (i_addrs x) d5) j = get8 d5 j) as Hhd.
  { intros j Hj. apply put_addrs_get8. left. unfold addr_off. lia. }
  f_equal; [|f_equal; [|f_equal; [|f_equal; [|f_equal; [|f_equal]]]]].
  1-4: unfold get16 at 1; rewrite !Hhd by lia; fold (get16 d5 o); unfold d5.
  - change (i16 (get16 (put32 (o + 8) (i_size x) (put16 (o + 6) (i_nlink x) (put16 (o + 4) (i_minor x) (put16 (o + 2) (i_major x) (put16 o (i_type x) d))))) o) = i_type x).
    rewrite get16_put32_ne, !get16_put16_ne by lia. rewrite get16_put16 by lia. by apply i16_u16.
  - change (i16 (get16 (put32 (o + 8) (i_size x) (put16 (o + 6) (i_nlink x) (put16 (o + 4) (i_minor x) (put16 (o + 2) (i_major x) (put16 o (i_type x) d))))) (o + 2)) = i_major x).
    rewrite get16_put32_ne, !(get16_put16_ne (o + 6)), !(get16_put16_ne (o + 4)) by lia.
    rewrite get16_put16 by (rewrite ?put16_length; lia). by apply i16_u16.
  - change (i16 (get16 (put32 (o + 8) (i_size x) (put16 (o + 6) (i_nlink x) (put16 (o + 4) (i_minor x) (put16 (o + 2) (i_major x) (put16 o (i_type x) d))))) (o + 4)) = i_minor x).
    rewrite get16_put32_ne, !(get16_put16_ne (o + 6)) by lia.
    rewrite get16_put16 by (rewrite ?put16_length; lia). by apply i16_u16.
  - change (i16 (get16 (put32 (o + 8) (i_size x) (put16 (o + 6) (i_nlink x) (put16 (o + 4) (i_minor x) (put16 (o + 2) (i_major x) (put16 o (i_type x) d))))) (o + 6)) = i_nlink x).
    rewrite get16_put32_ne by lia.
    rewrite get16_put16 by (rewrite ?put16_length; lia). by apply i16_u16.
  - unfold get32 at 1. rewrite !Hhd by lia. fold (get32 d5 (o + 8)). unfold d5.
    rewrite get32_put32 by (rewrite ?put16_length; lia). by apply u32_small.
  - apply list_eq. intros j. change (map ?f ?l) with (f <$> l). rewrite list_lookup_fmap.
    destruct (decide (j < 13)%nat) as [Hj|Hj].
    + rewrite lookup_seq_lt by done. simpl. destruct (lookup_lt_is_Some_2 (i_addrs x) j) as [a Ha]; [lia|].
      rewrite Ha. f_equal. rewrite <- (Nat.add_0_l j) at 1. rewrite (put_addrs_get32 o 0 _ _ _ a); [|unfold d5, addr_off; rewrite put32_length, !put16_length; lia|done].
      apply u32_small. by apply (Forall_lookup_1 _ _ _ _ H7 Ha).
    + rewrite !lookup_ge_None_2; [done|lia|rewrite length_seq; lia].
Qed.

Lemma store_dinode_out o x d j :
  length (i_addrs x) = 13%nat -> (j < o \/ o + 64 <= j)%nat -> get8 (store_dinode o x d) j = get8 d j.
Proof.
  intros Ha Hj. unfold store_dinode. rewrite put_addrs_get8 by (unfold addr_off; lia).
  unfold put32, put16. rewrite !get8_inserts_out by (simpl; lia). done.
Qed.

Lemma dinode_off_bound inum sb : (dinode_off inum sb + 64 <= 512)%nat.
Proof.
  unfold dinode_off, DINODEOFFSET, DINODE_SIZE, IPB. change (BSIZE / DINODE_SIZE) with 8.
  pose proof (Z.mod_pos_bound (inum mod sb_ipbg sb) 8 ltac:(lia)). lia.
Qed.

Section Write.
Context `{D : DiskDriver} (disksize : Z) `{!DriverOk D disksize} (fuel : nat).

Lemma iupdate_run k l bs ip x :
  txn k l bs -> (length bs < 29)%nat -> k_icache k !! ip = Some x -> i_dev x = ROOTDEV ->
  in_disk disksize (IBLOCK (i_inum x) (k_sb k)) -> disksize <= 2 ^ 31 ->
  let b := IBLOCK (i_inum x) (k_sb k) in
  exists k' l', (forall A (g : M kernel A), (iupdate (S fuel) ip ;;; g) k = g k') /\
    iupdate (S fuel) ip k = Done tt k' /\ txn k' l' (absorb b bs) /\
    fs_step k (write1 (view k) (b, store_dinode (dinode_off (i_inum x) (k_sb k)) x (view k b))) k'.
Proof.
  intros T Hlen Hx Hdev Hin Hsz b.
  destruct (update_block_run disksize fuel (store_dinode (dinode_off (i_inum x) (k_sb k)) x) k l bs b T Hin Hsz)
    as (k' & l' & _ & Hrun & T' & S'); [|done|].
  { rewrite store_dinode_length. apply (view_length k l), T. }
  assert (iupdate (S fuel) ip k = Done tt k') as Hup.
  { unfold iupdate. rewrite (bind_Done _ _ _ _ _ (read_inode_run _ _ _ Hx)), bind_gets, Hdev. exact Hrun. }
  exists k', l'. split_and!; try done. intros A g. by rewrite (bind_Done _ _ _ _ _ Hup).
Qed.

(** ** [ilock] of an inode that is not valid reads it from the disk *)

Lemma upd_inode_lookup k ip f x : k_icache k !! ip = Some x -> k_icache (upd_inode ip f k) !! ip = Some (f x).
Proof. intros H. simpl. by rewrite list_lookup_alter_eq, H. Qed.

Lemma idle_inode i f k l bs : idle k l bs -> idle (upd_inode i f k) l bs.
Proof.
  intros [C Hl [[H1 H2 H3] H4 H5 H6]]. split; [by apply calm_inode|done|].
  split; [split|..]; try done.
Qed.

Lemma opened_inode f j k l bs bn i k1 :
  opened k l bs bn i k1 -> opened (upd_inode j f k) l bs bn i (upd_inode j f k1).
Proof.
  intros [I [F Hinv Hh Hb Hi Ho Hv Hd] Hva Hda]. split; [by apply idle_inode| |done|done].
  split; try done.
  - destruct F as [(b & ps & ->) W]. split; [by exists b, ps|done].
  - destruct Hinv as [[? ? ? ?] ? ? ? ? ? ?]. by split.
Qed.

(** The inode [ilock] leaves in the slot. *)
Definition locked_inode (k : kernel) (y : inode) : inode :=
  load_dinode (dinode_off (i_inum y) (k_sb k)) (view k (IBLOCK (i_inum y) (k_sb k)))
    (set_i_flags (Z.lor I_BUSY I_VALID) y).

Lemma upd_inode_twice i f g k : upd_inode i f (upd_inode i g k) = upd_inode i (fun x => f (g x)) k.
Proof.
  unfold upd_inode. simpl. unfold set_k_icache. simpl. f_equal. apply list_eq. intros j.
  destruct (decide (i = j)) as [<-|Hne].
  - rewrite !list_lookup_alter_eq. by destruct (k_icache k !! i).
  - by rewrite !list_lookup_alter_ne.
Qed.

Lemma load_dinode_flags o d f y : set_i_flags f (load_dinode o d y) = load_dinode o d (set_i_flags f y).
Proof. reflexivity. Qed.
Lemma flags_load_dinode o d y : i_flags (load_dinode o d y) = i_flags y.
Proof. reflexivity. Qed.

Lemma ilock_reads k l bs ip y :
  idle k l bs -> (length bs < NBUF)%nat -> k_icache k !! ip = Some y -> L_icache ∉ k_held k ->
  i_dev y = ROOTDEV -> 1 <= i_ref y -> i_flags y = 0 ->
  in_disk disksize (IBLOCK (i_inum y) (k_sb k)) -> i_type (locked_inode k y) <> 0 ->
  exists k' l', ilock (S fuel) (Some ip) k = Done tt k' /\ idle k' l' bs /\
    fs_step (upd_inode ip (fun _ => locked_inode k y) k) (view k) k' /\ k_log k' = k_log k.
Proof.
  intros I Hlen Hy Hlk Hdev Href Hfl Hin Hty. unfold ilock.
  rewrite (bind_Done _ _ _ _ _ (read_inode_run _ _ _ Hy)). destruct (Z.ltb_spec (i_ref y) 1); [lia|].
  rewrite bind_acquire by done. set (k1 := set_k_held _ k).
  rewrite (bind_Done _ _ _ tt k1).
  2:{ cbn [ilock_wait]. rewrite (bind_Done _ _ _ y k1) by (by apply read_inode_run). by rewrite Hfl. }
  rewrite bind_modify, bind_release by (simpl; set_solver).
  set (k2 := set_k_held _ _). assert (k2 = upd_inode ip (fun _ => set_i_flags I_BUSY y) k) as E2.
  { unfold k2, k1, upd_inode. simpl. rewrite held_release_acquire by done.
    rewrite (list_alter_Some _ _ _ y), (list_alter_Some _ _ _ y) by done. rewrite Hfl. by destruct k. }
  rewrite E2. clear E2 k2 k1. set (k2 := upd_inode ip _ k).
  pose proof (upd_inode_lookup k ip (fun _ => set_i_flags I_BUSY y) y Hy) as Hy2. fold k2 in Hy2.
  rewrite (bind_Done _ _ _ _ _ (read_inode_run _ _ _ Hy2)).
  change (flag (i_flags (set_i_flags I_BUSY y)) I_VALID) with false. cbn iota. rewrite bind_gets.
  change (i_dev (set_i_flags I_BUSY y)) with (i_dev y). change (i_inum (set_i_flags I_BUSY y)) with (i_inum y).
  rewrite Hdev. change (k_sb k2) with (k_sb k).
  destruct (idle_bread disksize fuel k2 l bs (IBLOCK (i_inum y) (k_sb k)) ltac:(by apply idle_inode) Hin Hlen)
    as (i & k3 & Hr3 & O).
  rewrite (bind_Done _ _ _ _ _ Hr3), (bind_Done _ _ _ _ _ (opened_read _ _ _ _ _ _ O)), bind_modify.
  rewrite (op_data _ _ _ _ _ _ O). change (view k2) with (view k).
  set (ld := load_dinode _ _).
  destruct (opened_brelse _ _ _ _ _ _ (opened_inode ld ip _ _ _ _ _ _ O)) as (k4 & l4 & Hr4 & I4 & S4 & Hl4).
  rewrite (bind_Done _ _ _ _ _ Hr4), bind_modify.
  assert (k_icache k4 !! ip = Some (ld (set_i_flags I_BUSY y))) as Hy4.
  { rewrite (fs_icache _ _ _ S4). by apply upd_inode_lookup. }
  rewrite (bind_Done _ _ _ _ _ (read_inode_run _ _ _ (upd_inode_lookup _ _ _ _ Hy4))).
  assert (set_i_flags (Z.lor (i_flags (ld (set_i_flags I_BUSY y))) I_VALID) (ld (set_i_flags I_BUSY y))
          = locked_inode k y) as Eld by (unfold ld; by rewrite flags_load_dinode, load_dinode_flags).
  rewrite Eld.
  destruct (Z.eqb_spec (i_type (locked_inode k y)) 0); [done|].
  eexists _, l4. split; [done|]. split; [by apply idle_inode|]. split; [|exact Hl4].
  destruct S4 as [(b4 & p4 & g4 & E4) W4 V4]. split; [|exact W4|exact V4].
  exists b4, p4, g4. rewrite E4. unfold k2. unfold upd_inode. simpl. unfold set_k_bufs, set_k_icache. simpl. f_equal.
  apply list_eq. intros j. destruct (decide (ip = j)) as [<-|Hne].
  - rewrite !list_lookup_alter_eq, Hy. exact (f_equal Some Eld).
  - by rewrite !list_lookup_alter_ne.
Qed.

Lemma absorb_length b bs : (length (absorb b bs) <= S (length bs))%nat.
Proof. unfold absorb. case_bool_decide; [lia|]. rewrite length_app. simpl. lia. Qed.

Lemma write1_eq v b d : write1 v (b, d) b = d.
Proof. unfold write1. simpl. by rewrite Z.eqb_refl. Qed.
Lemma write1_ne v b d c : c <> b -> write1 v (b, d) c = v c.
Proof. intros H. unfold write1. simpl. by destruct (Z.eqb_spec c b). Qed.

(** C19: iupdate and ilock.  [iupdate] writes an inode into its slot of its
    block, under the log: the bytes of the other inodes of the block and all
    other blocks are unchanged.  [ilock] of a cache entry for that inode that
    is not valid (for instance after the entry was recycled) then loads the
    type, device numbers, link count, size and block addresses that
    [iupdate] wrote. *)
Theorem iupdate_ilock_roundtrip k l bs ip x :
  txn k l bs -> (length bs < 29)%nat -> k_icache k !! ip = Some x -> i_dev x = ROOTDEV ->
  dinode_ok x -> i_type x <> 0 -> L_icache ∉ k_held k -> disksize <= 2 ^ 31 ->
  in_disk disksize (IBLOCK (i_inum x) (k_sb k)) ->
  let b := IBLOCK (i_inum x) (k_sb k) in let o := dinode_off (i_inum x) (k_sb k) in
  exists k1 l1, iupdate (S fuel) ip k = Done tt k1 /\ txn k1 l1 (absorb b bs) /\
    k_icache k1 = k_icache k /\ (forall c, c <> b -> view k1 c = view k c) /\
    (forall j, (j < o \/ o + 64 <= j)%nat -> get8 (view k1 b) j = get8 (view k b) j) /\
    forall q y, k_icache k1 !! q = Some y -> i_dev y = ROOTDEV -> i_inum y = i_inum x ->
      1 <= i_ref y -> i_flags y = 0 ->
      exists k2, ilock (S fuel) (Some q) k1 = Done tt k2 /\
        k_icache k2 !! q = Some (with_dinode x (set_i_flags (Z.lor I_BUSY I_VALID) y)).
Proof.
  intros T Hlen Hx Hdev Hok Hty Hlk Hsz Hin b o.
  destruct (iupdate_run k l bs ip x T Hlen Hx Hdev Hin Hsz) as (k1 & l1 & _ & Hrun & T1 & S1).
  exists k1, l1. split; [done|]. split; [done|].
  assert (view k1 b = store_dinode o x (view k b)) as Hb by (rewrite (fs_view _ _ _ S1); apply write1_eq).
  split_and!.
  - by eapply fs_icache.
  - intros c Hc. rewrite (fs_view _ _ _ S1). by apply write1_ne.
  - intros j Hj. rewrite Hb. apply store_dinode_out; [apply Hok|done].
  - intros q y Hy Hdy Hin' Href Hfl.
    assert (locked_inode k1 y = with_dinode x (set_i_flags (Z.lor I_BUSY I_VALID) y)) as E.
    { unfold locked_inode. rewrite Hin', (fs_sb _ _ _ S1). fold b o. rewrite Hb.
      apply load_store_dinode; [done|]. rewrite (view_length k l) by apply T. apply dinode_off_bound. }
    pose proof (absorb_length b bs).
    destruct (ilock_reads k1 l1 (absorb b bs) q y) as (k2 & l2 & Hr2 & _ & S2 & _); try done.
    + apply T1.
    + unfold NBUF. lia.
    + by rewrite (fs_held _ _ _ S1).
    + by rewrite Hin', (fs_sb _ _ _ S1).
    + by rewrite E.
    + exists k2. split; [done|]. rewrite (fs_icache _ _ _ S2), (upd_inode_lookup _ _ _ y) by done. by rewrite E.
Qed.

(** ** [writei] *)

(** The data blocks of a file are distinct, and the indirect block is none of
    them. *)
Record separate (v : Z -> list Z) (x : inode) : Prop := {
  sp_inj : forall a b, mapped disksize v x a -> mapped disksize v x b ->
    file_block v x a = file_block v x b -> a = b;
  sp_ind : forall a, mapped disksize v x a -> file_block v x a <> get_addr x 12
}.

(** The same inode, size aside. *)
Lemma file_block_size v x n s : file_block v (set_i_size s x) n = file_block v x n.
Proof. done. Qed.
Lemma file_block_ext v v' x n : v' (get_addr x 12) = v (get_addr x 12) -> file_block v' x n = file_block v x n.
Proof. intros E. unfold file_block. by rewrite E. Qed.
Lemma mapped_ext v v' x n :
  v' (get_addr x 12) = v (get_addr x 12) -> mapped disksize v' x n <-> mapped disksize v x n.
Proof. intros E. unfold mapped. by rewrite (file_block_ext _ _ _ _ E). Qed.
Lemma separate_ext v v' x : v' (get_addr x 12) = v (get_addr x 12) -> separate v x -> separate v' x.
Proof.
  intros E [H1 H2]. split.
  - intros a b Ha Hb. apply (mapped_ext _ _ _ _ E) in Ha, Hb.
    rewrite (file_block_ext _ _ _ a E), (file_block_ext _ _ _ b E). by apply H1.
  - intros a Ha. rewrite (mapped_ext _ _ _ _ E) in Ha. rewrite (file_block_ext _ _ _ _ E). by apply H2.
Qed.

(** [n] bytes of [src] at [off] of the file; only blocks of the file change. *)
Record wrote (v : Z -> list Z) (x : inode) (src : Z -> Z) (off n : Z) (v' : Z -> list Z) : Prop := {
  wr_bytes : forall j, mapped disksize v x (j / BSIZE) ->
    file_byte v' x j = if bool_decide (off <= j < off + n) then src (j - off) else file_byte v x j;
  wr_other : forall c, (forall b, mapped disksize v x b -> c <> file_block v x b) -> v' c = v c
}.

Lemma wrote_ind v x src off n v' : separate v x -> wrote v x src off n v' -> v' (get_addr x 12) = v (get_addr x 12).
Proof. intros [_ H] W. apply (wr_other _ _ _ _ _ _ W). intros b Hb. symmetry. by apply H. Qed.

(** Part of one block. *)
Lemma wrote_block v x src off n :
  separate v x -> (forall c, length (v c) = 512%nat) -> mapped disksize v x (off / BSIZE) ->
  0 <= off -> 0 <= n -> off mod BSIZE + n <= BSIZE ->
  let a := file_block v x (off / BSIZE) in
  wrote v x src off n
    (write1 v (a, list_inserts (Z.to_nat (off mod BSIZE)) (load src 0 (Z.to_nat n)) (v a))).
Proof.
  intros Hsep Hlen Hmp Hoff Hn Hfit a. split.
  2:{ intros c Hc. apply write1_ne. by apply Hc. }
  intros j Hj. unfold file_byte.
  assert (forall m, file_block (write1 v (a, list_inserts (Z.to_nat (off mod BSIZE)) (load src 0 (Z.to_nat n)) (v a))) x m
    = file_block v x m) as Efb.
  { intros m. apply file_block_ext. apply write1_ne. intros E. by apply (sp_ind _ _ Hsep _ Hmp). }
  rewrite Efb. unfold BSIZE in *.
  pose proof (Z.mod_pos_bound off 512 ltac:(lia)). pose proof (Z.mod_pos_bound j 512 ltac:(lia)).
  pose proof (Z.div_mod off 512 ltac:(lia)). pose proof (Z.div_mod j 512 ltac:(lia)).
  destruct (decide (j / 512 = off / 512)) as [Ej|Ej].
  - rewrite Ej. fold a. rewrite write1_eq.
    destruct (decide (off <= j < off + n)) as [Hin|Hout].
    + rewrite bool_decide_eq_true_2 by done. rewrite get8_inserts_in by (rewrite load_length, ?Hlen; lia).
      rewrite load_lookup by lia. simpl. f_equal. lia.
    + rewrite bool_decide_eq_false_2 by done. apply get8_inserts_out. rewrite load_length. lia.
  - rewrite bool_decide_eq_false_2 by (intros Hin; apply Ej; lia).
    rewrite write1_ne; [done|]. intros E. apply Ej. by apply (sp_inj _ _ Hsep).
Qed.

Lemma wrote_app v x src off n1 v1 n2 v2 :
  separate v x -> 0 <= n1 -> 0 <= n2 -> wrote v x src off n1 v1 ->
  wrote v1 x (from src n1) (off + n1) n2 v2 -> wrote v x src off (n1 + n2) v2.
Proof.
  intros Hsep H1 H2 W1 W2. pose proof (wrote_ind _ _ _ _ _ _ Hsep W1) as E1. split.
  - intros j Hj. rewrite (wr_bytes _ _ _ _ _ _ W2) by by apply (mapped_ext _ _ _ _ E1).
    rewrite (wr_bytes _ _ _ _ _ _ W1) by done.
    repeat case_bool_decide; try lia; try done. unfold from. f_equal. lia.
  - intros c Hc. rewrite (wr_other _ _ _ _ _ _ W2).
    + by apply (wr_other _ _ _ _ _ _ W1).
    + intros b Hb. rewrite (mapped_ext _ _ _ _ E1) in Hb. rewrite (file_block_ext _ _ _ _ E1). by apply Hc.
Qed.

Lemma wrote_nil v x src off v' : (forall c, v' c = v c) -> wrote v x src off 0 v'.
Proof.
  intros E. split; [|done]. intros j _. rewrite bool_decide_eq_false_2 by lia.
  unfold file_byte. by rewrite E, (file_block_ext v v').
Qed.

Lemma load_from src p n : load src p n = load (from src p) 0 n.
Proof. unfold load, from. apply map_ext. intros i. by rewrite Z.add_0_l. Qed.
Lemma wrote_ext v x src src' off n v' :
  (forall i, src i = src' i) -> wrote v x src off n v' -> wrote v x src' off n v'.
Proof. intros E [H1 H2]. split; [|done]. intros j Hj. rewrite H1 by done. by rewrite E. Qed.
Lemma wrote_view v x src off n v1 v2 :
  (forall c, v1 c = v2 c) -> wrote v x src off n v1 -> wrote v x src off n v2.
Proof.
  intros E [H1 H2]. split; [intros j Hj|intros c Hc; by rewrite <- E, H2].
  rewrite <- H1 by done. unfold file_byte. rewrite (file_block_ext v1 v2) by (symmetry; apply E).
  by rewrite E.
Qed.

Lemma writei_loop_run m k l bs ip x src off tot n :
  txn k l bs -> disksize <= 2 ^ 31 -> (length bs + m <= 29)%nat -> k_icache k !! ip = Some x ->
  i_dev x = ROOTDEV -> separate (view k) x ->
  0 <= off -> 0 <= tot <= n -> off + (n - tot) < 2 ^ 32 -> n < 2 ^ 32 ->
  (tot < n -> n - tot + off mod BSIZE <= BSIZE * Z.of_nat m) ->
  (forall b, off / BSIZE <= b -> b * BSIZE < off + (n - tot) -> mapped disksize (view k) x b) ->
  exists k' l' bs', writei_loop (S fuel) m ip src off tot n k = Done tt k' /\ txn k' l' bs' /\
    (length bs' <= length bs + m)%nat /\ fs_step k (view k') k' /\
    wrote (view k) x (from src tot) off (n - tot) (view k').
Proof.
  intros T Hsz. revert k l bs off tot T. induction m as [|m IH];
    intros k l bs off tot T Hlen Hx Hdev Hsep Hoff Htot Hw Hn Hm Hmap;
    cbn [writei_loop]; unfold BSIZE in *; pose proof (Z.mod_pos_bound off 512 ltac:(lia)) as Hmod.
  { destruct (Z.ltb_spec tot n); [lia|]. cbn [negb]. exists k, l, bs. replace (n - tot) with 0 by lia.
    split; [done|]. split; [done|]. split; [lia|]. split; [apply fs_step_refl|by apply wrote_nil]. }
  destruct (Z.ltb_spec tot n) as [Hlt|Hge]; cbn [negb].
  2:{ exists k, l, bs. replace (n - tot) with 0 by lia. split; [done|]. split; [done|]. split; [lia|].
      split; [apply fs_step_refl|by apply wrote_nil]. }
  rewrite (bind_Done _ _ _ _ _ (read_inode_run _ _ _ Hx)), Hdev.
  pose proof (Z.div_mod off 512 ltac:(lia)) as Hdm.
  assert (mapped disksize (view k) x (off / 512)) as Hmp by (apply Hmap; lia).
  destruct (bmap_run disksize fuel k l bs ip x (off / 512) (tn_idle _ _ _ T) ltac:(unfold NBUF; lia) Hx Hdev Hmp)
    as (k1 & l1 & Hr1 & I1 & S1 & Hl1).
  pose proof (txn_log _ _ _ _ _ _ T I1 Hl1) as T1. rewrite (bind_Done _ _ _ _ _ Hr1).
  set (c := Z.min (u32 (n - tot)) (512 - off mod 512)).
  assert (c = Z.min (n - tot) (512 - off mod 512)) as Hc by (unfold c; rewrite u32_small by lia; done).
  set (a := file_block (view k) x (off / 512)).
  set (F := list_inserts (Z.to_nat (off mod 512)) (load src tot (Z.to_nat c))).
  destruct (update_block_run disksize fuel F k1 l1 bs a T1) as (k2 & l2 & Hr2 & _ & T2 & S2); try done; try lia.
  { apply Hmp. } { unfold F. rewrite length_inserts. apply (view_length k1 l1), I1. }
  rewrite Hr2. clear Hr2. rewrite u32_small by lia.
  assert (fs_step k (write1 (view k) (a, F (view k a))) k2) as S2'.
  { eapply fs_step_trans; [exact S1|]. eapply fs_step_ext; [exact S2|]. intros b. unfold write1. simpl.
    by rewrite !(fs_view _ _ _ S1). }
  assert (wrote (view k) x (from src tot) off c (view k2)) as W2.
  { eapply wrote_view; [intros b; symmetry; apply S2'|]. unfold F, a. rewrite load_from.
    apply wrote_block; try done; try (unfold BSIZE; lia). intros b. apply (view_length k l), T. }
  pose proof (wrote_ind _ _ _ _ _ _ Hsep W2) as E2. pose proof (absorb_length a bs).
  destruct (IH k2 l2 (absorb a bs) (off + c) (tot + c)) as (k3 & l3 & bs3 & Hr3 & T3 & Hlen3 & S3 & W3);
    try done; try lia.
  { by rewrite (fs_icache _ _ _ S2'). } { by eapply separate_ext. }
  { intros Hrest. specialize (Hm Hlt). replace ((off + c) mod 512) with 0; [lia|].
    apply (Z.mod_unique _ _ (off / 512 + 1)); lia. }
  { intros j Hj Hj'. apply (mapped_ext _ _ _ _ E2), Hmap; [|lia].
    pose proof (Z.div_le_mono off (off + c) 512 ltac:(lia) ltac:(lia)). lia. }
  exists k3, l3, bs3. split_and!; try done; [lia|by eapply fs_step_trans|].
  replace (n - tot) with (c + (n - (tot + c))) by lia. eapply wrote_app; try done; try lia.
  eapply wrote_ext; [|exact W3]. intros i. unfold from. f_equal. lia.
Qed.

(** The tail of [writei]: a file that grew gets its new size. *)
Definition grown (e : Z) (x : inode) : inode := if i_size x <? e then set_i_size e x else x.

(** The block of the inode is none of the blocks of the file. *)
Definition apart (v : Z -> list Z) (x : inode) (b : Z) : Prop :=
  in_disk disksize b /\ get_addr x 12 <> b /\ forall m, mapped disksize v x m -> file_block v x m <> b.

Lemma txn_inode i f k l bs : txn k l bs -> txn (upd_inode i f k) l bs.
Proof. intros [I H1 H2]. split; [by apply idle_inode|done|done]. Qed.

Lemma writei_tail k l bs ip x e n :
  txn k l bs -> disksize <= 2 ^ 31 -> (length bs < 29)%nat -> k_icache k !! ip = Some x ->
  i_dev x = ROOTDEV -> in_disk disksize (IBLOCK (i_inum x) (k_sb k)) -> 0 <= n < 2 ^ 31 -> (n = 0 -> e <= i_size x) ->
  exists k' l' bs', (let! x := read_inode ip in
    when ((0 <? n) && (i_size x <? e)) (modify (upd_inode ip (set_i_size e)) ;;; iupdate (S fuel) ip) ;;;
    ret (i32 n)) k = Done n k' /\
    txn k' l' bs' /\ (length bs' <= S (length bs))%nat /\
    k_icache k' = <[ip := grown e x]> (k_icache k) /\ k_disk k' = k_disk k /\
    forall c, c <> IBLOCK (i_inum x) (k_sb k) -> view k' c = view k c.
Proof.
  intros T Hsz Hlen Hx Hdev Hin Hn H0. rewrite (bind_Done _ _ _ _ _ (read_inode_run _ _ _ Hx)). unfold grown.
  destruct (Z.ltb_spec 0 n), (Z.ltb_spec (i_size x) e); cbn [andb when].
  2-4: exists k, l, bs; rewrite bind_ret, i32_small by lia.
  2-4: split; [done|]; split; [done|]; (split; [lia|]); (split; [|done]); try lia; by rewrite list_insert_id.
  set (k1 := upd_inode ip (set_i_size e) k).
  assert (k_icache k1 !! ip = Some (set_i_size e x)) as Hx1 by by apply (upd_inode_lookup k ip _ x).
  destruct (iupdate_run k1 l bs ip (set_i_size e x)) as (k2 & l2 & _ & Hr2 & T2 & S2); try done.
  { by apply txn_inode. }
  exists k2, l2, (absorb (IBLOCK (i_inum x) (k_sb k)) bs).
  rewrite (bind_Done _ _ _ tt k2) by (rewrite bind_modify; exact Hr2). rewrite i32_small by lia.
  split; [done|]. split; [exact T2|]. split; [apply absorb_length|]. split; [|split].
  - rewrite (fs_icache _ _ _ S2). unfold k1. simpl. by apply list_alter_Some.
  - by rewrite (fs_disk _ _ _ S2).
  - intros c Hc. rewrite (fs_view _ _ _ S2). by apply write1_ne.
Qed.

Lemma file_block_grown v e x m : file_block v (grown e x) m = file_block v x m.
Proof. unfold grown. by case_if. Qed.

(** A change of a block apart from those of the file does not show in it. *)
Lemma file_byte_apart v v' x b e j :
  apart v x b -> (forall c, c <> b -> v' c = v c) -> mapped disksize v x (j / BSIZE) ->
  file_byte v' (grown e x) j = file_byte v x j.
Proof.
  intros (_ & Hi & Hb) Hv Hm. unfold file_byte.
  rewrite file_block_grown, (file_block_ext v v') by (by apply Hv). by rewrite Hv by (by apply Hb).
Qed.
Lemma apart_wrote v x b src off n v' :
  separate v x -> wrote v x src off n v' -> apart v x b -> apart v' x b.
Proof.
  intros Hs W (H1 & H2 & H3). pose proof (wrote_ind _ _ _ _ _ _ Hs W) as E. split; [done|]. split; [done|].
  intros m Hm. rewrite (mapped_ext _ _ _ _ E) in Hm. rewrite (file_block_ext _ _ _ _ E). by apply H3.
Qed.

Context `{DS : Devsw}.

(** The whole of [writei]. *)
Lemma writei_run k l bs ip x src off n :
  txn k l bs -> disksize <= 2 ^ 31 -> (length bs + turns n < 29)%nat -> k_icache k !! ip = Some x ->
  i_dev x = ROOTDEV -> i_type x <> T_DEV -> 0 <= i_size x <= MAXFILE * BSIZE ->
  0 <= off < 2 ^ 32 -> 0 <= n < 2 ^ 32 ->
  separate (view k) x -> apart (view k) x (IBLOCK (i_inum x) (k_sb k)) ->
  (forall b, 0 <= b < MAXFILE -> b * BSIZE < off + n -> mapped disksize (view k) x b) ->
  if (i_size x <? off) || (MAXFILE * BSIZE <? off + n) then
    writei (S fuel) ip src off n k = Done (-1) k
  else
    let x' := grown (off + n) x in
    exists k' l' bs', writei (S fuel) ip src off n k = Done n k' /\ txn k' l' bs' /\
      (length bs' <= length bs + turns n + 1)%nat /\
      k_icache k' = <[ip := x']> (k_icache k) /\ k_disk k' = k_disk k /\
      (forall j, mapped disksize (view k) x (j / BSIZE) ->
         file_byte (view k') x' j =
         if bool_decide (off <= j < off + n) then src (j - off) else file_byte (view k) x j) /\
      (forall c, c <> IBLOCK (i_inum x) (k_sb k) ->
         (forall m, mapped disksize (view k) x m -> c <> file_block (view k) x m) -> view k' c = view k c).
Proof.
  intros T Hsz Hlen Hx Hdev Hty Hfs Hoff Hn Hsep Hap Hmap. assert (0 <= i_size x <= 71680) as Hfs' by exact Hfs.
  unfold writei. rewrite (bind_Done _ _ _ _ _ (read_inode_run _ _ _ Hx)).
  destruct (Z.eqb_spec (i_type x) T_DEV) as [|_]; [done|]. rewrite u32_overflow by done.
  change (MAXFILE * BSIZE) with 71680.
  destruct (Z.ltb_spec (i_size x) off), (Z.leb_spec (2 ^ 32) (off + n)), (Z.ltb_spec 71680 (off + n));
    cbn [orb]; try done; try lia.
  1: rewrite u32_small by lia; by destruct (Z.ltb_spec 71680 (off + n)); [|lia].
  rewrite !u32_small by lia. destruct (Z.ltb_spec 71680 (off + n)); [lia|]. cbv zeta.
  destruct (writei_loop_run (turns n) k l bs ip x src off 0 n) as (k1 & l1 & bs1 & Hr1 & T1 & Hlen1 & S1 & W1);
    try done; try lia.
  { intros _. rewrite Z.sub_0_r. apply turns_enough. lia. }
  { intros b Hb Hb'. unfold BSIZE in *. pose proof (Z.div_pos off 512 ltac:(lia) ltac:(lia)).
    apply Hmap; [change MAXFILE with 140|]; lia. }
  rewrite Z.sub_0_r in W1. rewrite (bind_Done _ _ _ _ _ Hr1).
  assert (k_icache k1 !! ip = Some x) as Hx1 by by rewrite (fs_icache _ _ _ S1).
  destruct (writei_tail k1 l1 bs1 ip x (off + n) n) as (k2 & l2 & bs2 & Hr2 & T2 & Hlen2 & Hi2 & Hd2 & Hv2);
    rewrite ?(fs_sb _ _ _ S1) in *; try done; try lia; [apply Hap|].
  exists k2, l2, bs2. split; [exact Hr2|]. split; [done|]. split; [lia|]. split; [by rewrite Hi2, (fs_icache _ _ _ S1)|].
  split; [by rewrite Hd2, (fs_disk _ _ _ S1)|]. split.
  - intros j Hj. pose proof (wrote_ind _ _ _ _ _ _ Hsep W1) as E1.
    rewrite (file_byte_apart (view k1) (view k2) x (IBLOCK (i_inum x) (k_sb k))); try done.
    + rewrite (wr_bytes _ _ _ _ _ _ W1) by done. case_bool_decide; [|done]. unfold from. f_equal; lia.
    + by eapply apart_wrote.
    + by apply (mapped_ext _ _ _ _ E1).
  - intros c Hc Hne. rewrite Hv2 by done. by apply (wr_other _ _ _ _ _ _ W1).
Qed.


End Write.

(** ** A transaction on the file of [FsRead] *)

Definition demo_sb : superblock := Superblock 101657 98000 725 LOGSIZE 2 32 25 4065 29.
Definition demo_txn : kernel :=
  set_k_sb demo_sb (upd_log (fun lg => set_l_size LOGSIZE (set_l_outstanding 1 lg)) demo_fs).

Lemma idle_sb sb k l bs : idle k l bs -> idle (set_k_sb sb k) l bs.
Proof.
  intros [[[[? ? ? ?] ? ? ? ? ? ?] ? ? ?] Hl [[H1 H2 H3] H4 H5 H6]]. split; [|done|].
  - split; [|done..]. split; done.
  - split; [split|..]; done.
Qed.
Lemma idle_txn k l bs : idle k l bs ->
  txn (upd_log (fun lg => set_l_size LOGSIZE (set_l_outstanding 1 lg)) k) l bs.
Proof.
  intros [[C1 C2 C3 C4] Hl [[H1 H2 H3] H4 H5 H6]]. split; [|done|simpl; lia].
  split; [|done|].
  - split; [by apply bcache_inv_log|done..].
  - split; [split|..]; done.
Qed.
Lemma txn_sb sb k l bs : txn k l bs -> txn (set_k_sb sb k) l bs.
Proof. intros [I H1 H2]. split; [by apply idle_sb|done|done]. Qed.
Lemma demo_txn_ok : txn demo_txn demo_order [].
Proof. apply txn_sb, idle_txn, demo_fs_idle. Qed.
Lemma demo_txn_inode : k_icache demo_txn !! 0%nat = Some demo_inode.
Proof. reflexivity. Qed.

Lemma iupdate_ilock_roundtrip_witness :
  exists k1 k2, @iupdate (Memide.driver 200) 1 0 demo_txn = Done tt k1 /\
    @ilock (Memide.driver 200) 1 (Some 0%nat) k1 = Done tt k2 /\
    k_icache k2 !! 0%nat = Some (with_dinode demo_inode (set_i_flags (Z.lor I_BUSY I_VALID) demo_inode)).
Proof.
  destruct (@iupdate_ilock_roundtrip (Memide.driver 200) 200 (memide_ok 200) 0 demo_txn demo_order [] 0 demo_inode)
    as (k1 & l1 & Hr & _ & Hi & _ & _ & Hb).
  - apply demo_txn_ok.
  - simpl. lia.
  - apply demo_txn_inode.
  - reflexivity.
  - split; [vm_compute; intuition congruence..|]. split; [reflexivity|].
    repeat constructor; vm_compute; intuition congruence.
  - discriminate.
  - apply not_elem_of_empty.
  - lia.
  - vm_compute. intuition congruence.
  - destruct (Hb 0%nat demo_inode) as (k2 & H2); try reflexivity.
    + rewrite Hi. apply demo_txn_inode.
    + exists k1, k2. split; [exact Hr|exact H2].
Defined.

Lemma demo_mapped v m : mapped 200 v demo_inode m -> m = 0 \/ m = 1.
Proof.
  intros (Hm & Hb & _ & Hi). destruct (decide (m < 12)) as [Hlt|Hge].
  - unfold file_block in Hb. destruct (Z.ltb_spec m NDIRECT) as [_|Hbad]; [|by unfold NDIRECT in Hbad; lia].
    unfold get_addr in Hb. destruct (decide (m = 0)), (decide (m = 1)); [tauto..|]. exfalso. apply Hb.
    replace (Z.to_nat m) with (S (S (Z.to_nat (m - 2)))) by lia.
    assert (Z.to_nat (m - 2) < 10)%nat as Hi' by lia. revert Hi'. generalize (Z.to_nat (m - 2)) as i. intros i Hi'.
    do 10 (destruct i as [|i]; [done|]). lia.
  - destruct Hi as [Hi _]; [unfold NDIRECT; lia|]. done.
Qed.
Lemma demo_separate v : separate 200 v demo_inode.
Proof.
  split.
  - intros a b Ha Hb. apply demo_mapped in Ha, Hb. destruct Ha as [-> | ->], Hb as [-> | ->]; done.
  - intros a Ha. apply demo_mapped in Ha. by destruct Ha as [-> | ->].
Qed.
Lemma demo_apart v : apart 200 v demo_inode 33.
Proof.
  split; [vm_compute; intuition congruence|]. split; [done|].
  intros m Hm. apply demo_mapped in Hm. by destruct Hm as [-> | ->].
Qed.

