(* ===== verification/FsAlloc.v ===== *)
(** FsAlloc: the block allocator of fs.c, [bzero], [balloc] and [bfree], on
    the bitmaps of the block groups. *)

From S2P Require Import Prelude Kernel StringLib Bytes ProcCore Bio BioSpec LogCopy FsLayout Log LogProof LogOps Fs FsTx FsRead FsWrite.

(** ** Bits of a bitmap block *)

Definition bit (d : list Z) (j : Z) : bool := Z.testbit (get8 d (Z.to_nat (j / 8))) (j mod 8).

Lemma land_pow2 x i : 0 <= i -> (Z.land x (Z.shiftl 1 i) =? 0) = negb (Z.testbit x i).
Proof.
  intros Hi. rewrite Z.shiftl_1_l. destruct (Z.testbit x i) eqn:E; simpl.
  - apply Z.eqb_neq. intros H. assert (Z.testbit (Z.land x (2 ^ i)) i = false) as C by (rewrite H; apply Z.bits_0).
    by rewrite Z.land_spec, E, Z.pow2_bits_true in C.
  - apply Z.eqb_eq. apply Z.bits_inj'. intros j Hj. rewrite Z.land_spec, Z.bits_0.
    destruct (decide (j = i)) as [->|Hne]; [by rewrite E|]. rewrite Z.pow2_bits_false by done. apply andb_false_r.
Qed.
Lemma bit_of_zero d j : (bit_of d j =? 0) = negb (bit d j).
Proof. apply land_pow2, Z.mod_pos_bound. lia. Qed.

Lemma testbit_u8 x i : 0 <= i < 8 -> Z.testbit (u8 x) i = Z.testbit x i.
Proof. intros Hi. apply Z.mod_pow2_bits_low. lia. Qed.
Lemma get8_insert_eq d n v : (n < length d)%nat -> get8 (<[n := v]> d) n = v.
Proof. intros Hn. unfold get8. by rewrite list_lookup_insert_eq. Qed.
Lemma get8_insert_ne d n m v : n <> m -> get8 (<[n := v]> d) m = get8 d m.
Proof. intros Hn. unfold get8. by rewrite list_lookup_insert_ne. Qed.

(** Rewriting one byte changes one bit, when the new byte differs from the
    old one in that bit only. *)
Lemma bit_insert d bi v b j :
  0 <= bi -> (Z.to_nat (bi / 8) < length d)%nat -> 0 <= j ->
  (forall i, 0 <= i < 8 -> Z.testbit v i =
     if i =? bi mod 8 then b else Z.testbit (get8 d (Z.to_nat (bi / 8))) i) ->
  bit (<[Z.to_nat (bi / 8) := v]> d) j = if j =? bi then b else bit d j.
Proof.
  intros Hbi Hl Hj Hv. unfold bit. pose proof (Z.mod_pos_bound j 8 ltac:(lia)).
  pose proof (Z.div_mod j 8 ltac:(lia)). pose proof (Z.div_mod bi 8 ltac:(lia)).
  destruct (decide (j / 8 = bi / 8)) as [E|E].
  - rewrite E, get8_insert_eq, Hv by done.
    destruct (Z.eqb_spec (j mod 8) (bi mod 8)), (Z.eqb_spec j bi); congruence || lia.
  - rewrite get8_insert_ne. 2:{ pose proof (Z.div_pos bi 8 Hbi ltac:(lia)). pose proof (Z.div_pos j 8 Hj ltac:(lia)). lia. }
    destruct (Z.eqb_spec j bi); [congruence|done].
Qed.
Lemma bit_set d bi j :
  0 <= bi -> (Z.to_nat (bi / 8) < length d)%nat -> 0 <= j ->
  bit (set_bit bi d) j = if j =? bi then true else bit d j.
Proof.
  intros Hbi Hl Hj. apply bit_insert; try done. intros i Hi. pose proof (Z.mod_pos_bound bi 8 ltac:(lia)).
  rewrite testbit_u8, Z.lor_spec, Z.shiftl_1_l by lia. destruct (Z.eqb_spec i (bi mod 8)) as [->|Hne].
  - rewrite Z.pow2_bits_true by lia. apply orb_true_r.
  - rewrite Z.pow2_bits_false by done. apply orb_false_r.
Qed.
Lemma bit_clear d bi j :
  0 <= bi -> (Z.to_nat (bi / 8) < length d)%nat -> 0 <= j ->
  bit (clear_bit bi d) j = if j =? bi then false else bit d j.
Proof.
  intros Hbi Hl Hj. apply bit_insert; try done. intros i Hi. pose proof (Z.mod_pos_bound bi 8 ltac:(lia)).
  rewrite testbit_u8, Z.ldiff_spec, Z.shiftl_1_l by lia. destruct (Z.eqb_spec i (bi mod 8)) as [->|Hne].
  - rewrite Z.pow2_bits_true by lia. apply andb_false_r.
  - rewrite Z.pow2_bits_false by done. apply andb_true_r.
Qed.
Lemma set_bit_length bi d : length (set_bit bi d) = length d.
Proof. apply length_insert. Qed.

(** The inner loop of [balloc] finds the first free bit. *)
Lemma free_bit_Some d b size bi n r :
  free_bit d b size bi n = Some r ->
  bi <= r < bi + Z.of_nat n /\ bit d r = false /\ u32 (b + r) < size /\ forall j, bi <= j < r -> bit d j = true.
Proof.
  revert bi. induction n as [|n IH]; intros bi; simpl; [done|]. rewrite bit_of_zero.
  destruct (Z.ltb_spec (u32 (b + bi)) size) as [Hs|Hs]; [|done]. destruct (bit d bi) eqn:E; simpl.
  - intros H. destruct (IH _ H) as (H1 & H2 & H3 & H4). split; [lia|]. split; [done|]. split; [done|].
    intros j Hj. destruct (decide (j = bi)) as [->|Hne]; [done|]. apply H4. lia.
  - intros [= <-]. split; [lia|]. split; [done|]. split; [done|]. lia.
Qed.
Lemma free_bit_first d b size bi n r :
  bi <= r < bi + Z.of_nat n -> bit d r = false -> (forall j, bi <= j < r -> bit d j = true) ->
  (forall j, bi <= j <= r -> u32 (b + j) < size) -> free_bit d b size bi n = Some r.
Proof.
  revert bi. induction n as [|n IH]; intros bi Hr H0 H1 Hs; simpl; [lia|]. rewrite bit_of_zero.
  destruct (Z.ltb_spec (u32 (b + bi)) size) as [_|Hbad]; [|specialize (Hs bi ltac:(lia)); lia]. simpl.
  destruct (decide (bi = r)) as [->|Hne]; [by rewrite H0|]. rewrite H1 by lia. simpl.
  apply IH; [lia|done|intros; apply H1; lia|intros; apply Hs; lia].
Qed.

(** ** [bzero] *)

Definition zeros : list Z := replicate (Z.to_nat BSIZE) 0.

Lemma zero_fill d : length d = 512%nat -> list_inserts 0 (replicate (Z.to_nat BSIZE) 0) d = zeros.
Proof.
  intros Hd. rewrite <- (app_nil_r d), list_inserts_0_r; [apply app_nil_r|by rewrite length_replicate, Hd].
Qed.

Section Alloc.
Context `{D : DiskDriver} (disksize : Z) `{!DriverOk D disksize} (fuel : nat).

Lemma bzero_run k l bs b :
  txn k l bs -> in_disk disksize b -> disksize <= 2 ^ 31 -> (length bs < 29)%nat ->
  exists k' l', bzero (S fuel) ROOTDEV b k = Done tt k' /\ txn k' l' (absorb b bs) /\
    fs_step k (write1 (view k) (b, zeros)) k'.
Proof.
  intros T Hin Hsz Hlen. assert (length (view k b) = 512%nat) as Hl by (apply (view_length k l), T).
  destruct (update_block_run disksize fuel (list_inserts 0 (replicate (Z.to_nat BSIZE) 0)) k l bs b T Hin Hsz)
    as (k' & l' & _ & Hrun & T' & S'); [by rewrite length_inserts|done|].
  exists k', l'. split; [|by rewrite (zero_fill _ Hl) in S'].
  unfold bzero. rewrite (u32_small b) by (unfold in_disk in Hin; lia). exact Hrun.
Qed.

(** ** [balloc] *)

(** The group with data blocks from [b] on has no free block. *)
Definition full (k : kernel) (b : Z) : Prop :=
  free_bit (view k (BBLOCK b (k_sb k))) b (sb_size (k_sb k)) 0 (Z.to_nat BPB) = None.

Lemma full_step k v k' b : fs_step k v k' -> (forall c, v c = view k c) -> full k b -> full k' b.
Proof. intros S Hv. unfold full. by rewrite (fs_sb _ _ _ S), (fs_view _ _ _ S), Hv. Qed.

(** The group has free bit [bi]. *)
Lemma balloc_here f k l bs b head bi :
  let sb := k_sb k in
  txn k l bs -> disksize <= 2 ^ 31 -> (length bs < 28)%nat ->
  0 <= b < sb_nblocks sb -> sb_nblocks sb <= 2 ^ 31 - BPB ->
  0 <= head < sb_size sb -> sb_size sb <= 2 ^ 31 - BPBG -> in_disk disksize (BBLOCK b sb) ->
  free_bit (view k (BBLOCK b sb)) b (sb_size sb) 0 (Z.to_nat BPB) = Some bi -> in_disk disksize (b + bi) ->
  exists k' l', balloc_groups (S fuel) (S f) ROOTDEV b head k = Done (Some (DBLOCK (b + bi) sb)) k' /\
    txn k' l' (absorb (b + bi) (absorb (BBLOCK b sb) bs)) /\
    fs_step k (write1 (write1 (view k) (BBLOCK b sb, set_bit bi (view k (BBLOCK b sb)))) (b + bi, zeros)) k'.
Proof.
  intros sb T Hsz Hlen Hb Hnb Hh Hss Hin Hbit Hz. cbn [balloc_groups]. rewrite bind_gets. fold sb.
  change BPB with 4060 in *. change BPBG with 4065 in *. rewrite !(u32_small head), !(u32_small b) by lia.
  destruct (Z.ltb_spec head (sb_size sb)) as [_|]; [|lia]. destruct (Z.ltb_spec b (sb_nblocks sb)) as [_|]; [|lia].
  cbn [andb negb].
  destruct (idle_bread disksize fuel k l bs _ (tn_idle _ _ _ T) Hin) as (i & k1 & Hr1 & O); [unfold NBUF; lia|].
  rewrite (bind_Done _ _ _ _ _ Hr1), (bind_Done _ _ _ _ _ (opened_read _ _ _ _ _ _ O)), (op_data _ _ _ _ _ _ O), Hbit.
  destruct (opened_update disksize _ _ _ _ _ _ (set_bit bi) O T Hin Hsz) as (k2 & k3 & k4 & l4 & H2 & H3 & H4 & T4 & S4).
  { rewrite set_bit_length. apply (view_length k l), T. } { lia. }
  rewrite (bind_Done _ _ _ _ _ H2), (bind_Done _ _ _ _ _ H3), (bind_Done _ _ _ _ _ H4).
  pose proof (absorb_length (BBLOCK b sb) bs).
  destruct (bzero_run k4 l4 (absorb (BBLOCK b sb) bs) (b + bi) T4 Hz Hsz) as (k5 & l5 & H5 & T5 & S5); [lia|].
  rewrite (bind_Done _ _ _ _ _ H5). exists k5, l5. unfold ret.
  rewrite (u32_small (bi + b)) by (unfold in_disk in Hz; lia). rewrite (Z.add_comm bi b).
  split; [done|]. split; [done|]. eapply fs_step_trans; [exact S4|]. eapply fs_step_ext; [exact S5|].
  intros c. unfold write1. simpl. by rewrite (fs_view _ _ _ S4).
Qed.

(** The group is full: on to the next one. *)
Lemma balloc_next f k l bs b head :
  let sb := k_sb k in
  txn k l bs -> (length bs < 28)%nat -> 0 <= b < sb_nblocks sb -> sb_nblocks sb <= 2 ^ 31 - BPB ->
  0 <= head < sb_size sb -> sb_size sb <= 2 ^ 31 - BPBG -> in_disk disksize (BBLOCK b sb) -> full k b ->
  exists k' l', balloc_groups (S fuel) (S f) ROOTDEV b head k =
      balloc_groups (S fuel) f ROOTDEV (b + BPB) (head + BPBG) k' /\
    txn k' l' bs /\ fs_step k (view k) k'.
Proof.
  intros sb T Hlen Hb Hnb Hh Hss Hin Hf. cbn [balloc_groups]. rewrite bind_gets. fold sb.
  change BPB with 4060 in *. change BPBG with 4065 in *. rewrite !(u32_small head), !(u32_small b) by lia.
  destruct (Z.ltb_spec head (sb_size sb)) as [_|]; [|lia]. destruct (Z.ltb_spec b (sb_nblocks sb)) as [_|]; [|lia].
  cbn [andb negb].
  destruct (idle_bread disksize fuel k l bs _ (tn_idle _ _ _ T) Hin) as (i & k1 & Hr1 & O); [unfold NBUF; lia|].
  rewrite (bind_Done _ _ _ _ _ Hr1), (bind_Done _ _ _ _ _ (opened_read _ _ _ _ _ _ O)), (op_data _ _ _ _ _ _ O).
  unfold full in Hf. fold sb in Hf. change BPB with 4060 in Hf. rewrite Hf.
  destruct (opened_brelse _ _ _ _ _ _ O) as (k2 & l2 & H2 & I2 & S2 & Hl2).
  rewrite (bind_Done _ _ _ _ _ H2), !i32_small by lia. exists k2, l2. split; [done|]. split; [|done].
  by eapply txn_log.
Qed.

(** The outer loop: [n] full groups, then one with free bit [bi]. *)
Lemma balloc_groups_run n f k l bs b head bi :
  let sb := k_sb k in let a := b + Z.of_nat n * BPB in
  txn k l bs -> disksize <= 2 ^ 31 -> (length bs < 28)%nat -> (n < f)%nat ->
  0 <= b -> a < sb_nblocks sb -> sb_nblocks sb <= 2 ^ 31 - BPB ->
  0 <= head -> head + Z.of_nat n * BPBG < sb_size sb -> sb_size sb <= 2 ^ 31 - BPBG ->
  (forall j, (j < n)%nat -> in_disk disksize (BBLOCK (b + Z.of_nat j * BPB) sb) /\ full k (b + Z.of_nat j * BPB)) ->
  in_disk disksize (BBLOCK a sb) ->
  free_bit (view k (BBLOCK a sb)) a (sb_size sb) 0 (Z.to_nat BPB) = Some bi -> in_disk disksize (a + bi) ->
  exists k' l', balloc_groups (S fuel) f ROOTDEV b head k = Done (Some (DBLOCK (a + bi) sb)) k' /\
    txn k' l' (absorb (a + bi) (absorb (BBLOCK a sb) bs)) /\
    fs_step k (write1 (write1 (view k) (BBLOCK a sb, set_bit bi (view k (BBLOCK a sb)))) (a + bi, zeros)) k'.
Proof.
  revert f k l bs b head. induction n as [|n IH];
    intros f k l bs b head sb a T Hsz Hlen Hf Hb Ha Hnb Hh Hhs Hss Hfull Hin Hbit Hz; (destruct f as [|f]; [lia|]).
  - assert (a = b) as Ea by (unfold a; lia). clearbody a. subst a sb. apply (balloc_here f k l bs b head bi); try assumption; lia.
  - assert (a = b + BPB + Z.of_nat n * BPB) as Ea by (unfold a; lia). clearbody a. subst a.
    assert (0 < BPB /\ 0 < BPBG) as [HB HG] by done.
    destruct (Hfull O ltac:(lia)) as [Hin0 Hf0]. rewrite Z.mul_0_l, Z.add_0_r in Hin0, Hf0.
    destruct (balloc_next f k l bs b head T Hlen ltac:(fold sb; lia) Hnb ltac:(fold sb; lia) Hss Hin0 Hf0)
      as (k2 & l2 & E2 & T2 & S2).
    assert (k_sb k2 = sb) as Esb by by apply fs_sb in S2.
    destruct (IH f k2 l2 bs (b + BPB) (head + BPBG) T2 Hsz Hlen) as (k3 & l3 & H3 & T3 & S3).
    1-7: rewrite ?Esb; lia.
    + intros j Hj. specialize (Hfull (S j) ltac:(lia)). rewrite Esb.
      replace (b + BPB + Z.of_nat j * BPB) with (b + Z.of_nat (S j) * BPB) by lia.
      split; [apply Hfull|]. eapply full_step; [exact S2|reflexivity|apply Hfull].
    + rewrite Esb. exact Hin.
    + rewrite (fs_view _ _ _ S2), Esb. exact Hbit.
    + exact Hz.
    + rewrite Esb in H3, T3, S3. exists k3, l3. split; [by rewrite E2|]. split; [exact T3|].
      eapply fs_step_trans; [exact S2|]. eapply fs_step_ext; [exact S3|].
      intros c. unfold write1. simpl. by rewrite !(fs_view _ _ _ S2).
Qed.

(** The inode number of the current directory of the current process. *)
Definition cwd_of (k : kernel) (inum : Z) : Prop :=
  exists i p ip x, curproc (k_sched k) = Some i /\ procs (k_sched k) !! i = Some p /\
    p_cwd p = Some ip /\ k_icache k !! ip = Some x /\ i_inum x = inum.
Lemma cwd_inum_run k inum : cwd_of k inum -> cwd_inum k = Done inum k.
Proof.
  intros (i & p & ip & x & H1 & H2 & H3 & H4 & <-). unfold cwd_inum, bind, myproc. rewrite H1. simpl.
  unfold read_proc. rewrite H2. simpl. rewrite H3. unfold read_inode. by rewrite H4.
Qed.


(** ** [bfree] *)

(** [readsb] of the super block that is in memory changes nothing. *)
Lemma readsb_run k l bs :
  idle k l bs -> (length bs < NBUF)%nat -> in_disk disksize 1 -> decode_sb (view k 1) = k_sb k ->
  exists k' l', readsb (S fuel) ROOTDEV k = Done (k_sb k) k' /\ idle k' l' bs /\ fs_step k (view k) k' /\
    k_log k' = k_log k.
Proof.
  intros I Hlen Hin Hsb.
  destruct (read_block_run disksize fuel (fun b => ret (decode_sb (b_data b))) k l bs 1 I Hin Hlen)
    as (b & k' & l' & Hrun & Hb & I' & S' & Hl').
  exists k', l'. split; [|done]. unfold readsb. rewrite Hrun. unfold ret. by rewrite Hb, Hsb.
Qed.
Lemma set_sb_same k : set_k_sb (k_sb k) k = k.
Proof. by destruct k. Qed.

(** [bfree] works on the bit [b mod BPB] of the bitmap [BBLOCK b]. *)
Lemma bfree_run k l bs b :
  let sb := k_sb k in
  txn k l bs -> (length bs < 29)%nat -> disksize <= 2 ^ 31 -> in_disk disksize 1 -> decode_sb (view k 1) = sb ->
  in_disk disksize (BBLOCK b sb) ->
  if bit (view k (BBLOCK b sb)) (b mod BPB) then
    exists k' l', bfree (S fuel) ROOTDEV b k = Done tt k' /\ txn k' l' (absorb (BBLOCK b sb) bs) /\
      fs_step k (write1 (view k) (BBLOCK b sb, clear_bit (b mod BPB) (view k (BBLOCK b sb)))) k'
  else exists k', bfree (S fuel) ROOTDEV b k = Panicked "freeing free block" k'.
Proof.
  intros sb T Hlen Hsz Hin1 Hsb Hin.
  destruct (readsb_run k l bs (tn_idle _ _ _ T) ltac:(unfold NBUF; lia) Hin1 Hsb) as (k1 & l1 & H1 & I1 & S1 & Hl1).
  assert (k_sb k1 = sb) as Esb by by apply fs_sb in S1.
  assert (forall A (g : superblock -> M kernel A), (let! sb := readsb (S fuel) ROOTDEV in modify (set_k_sb sb) ;;; g sb) k = g sb k1) as Hpre.
  { intros A g. rewrite (bind_Done _ _ _ _ _ H1), bind_modify. fold sb. by rewrite <- Esb, set_sb_same. }
  unfold bfree. change (u32 ROOTDEV) with ROOTDEV. rewrite Hpre.
  destruct (idle_bread disksize fuel k1 l1 bs _ I1 Hin) as (i & k2 & H2 & O); [unfold NBUF; lia|].
  rewrite (bind_Done _ _ _ _ _ H2). cbv zeta.
  rewrite (bind_Done _ _ _ _ _ (opened_read _ _ _ _ _ _ O)), (op_data _ _ _ _ _ _ O), (fs_view _ _ _ S1), bit_of_zero.
  destruct (bit (view k (BBLOCK b sb)) (b mod BPB)); cbn [negb]; [|by eexists].
  pose proof (txn_log _ _ _ _ _ _ T I1 Hl1) as T1.
  destruct (opened_update disksize _ _ _ _ _ _ (clear_bit (b mod BPB)) O T1 Hin Hsz)
    as (k3 & k4 & k5 & l5 & H3 & H4 & H5 & T5 & S5); [|lia|].
  { unfold clear_bit. rewrite length_insert. apply (view_length k1 l1), I1. }
  exists k5, l5. rewrite (bind_Done _ _ _ _ _ H3), (bind_Done _ _ _ _ _ H4). split; [done|]. split; [done|].
  eapply fs_step_trans; [exact S1|]. eapply fs_step_ext; [exact S5|].
  intros c. unfold write1. simpl. by rewrite !(fs_view _ _ _ S1).
Qed.

(** C40: balloc and bfree disagree on block numbers.  In the layout mkfs writes
    (block groups from block 32 on, 4065 blocks each), with the first group's
    data blocks [0 .. bi-1] in use, [balloc] marks data block [bi] and returns
    its disk block [bi + 36].  [bfree] of that disk block does not convert the
    number back: it looks at bit [bi + 36], which is clear unless another
    block happens to be allocated there, and panics. *)
Theorem balloc_bfree_panics k l bs inum bi :
  let sb := k_sb k in
  txn k l bs -> disksize <= 2 ^ 31 -> (length bs < 26)%nat ->
  sb_bgstart sb = 32 -> sb_bpbg sb = 4065 -> 4065 + 32 <= sb_size sb <= 2 ^ 31 - BPBG -> 0 < sb_nblocks sb <= 2 ^ 31 - BPB ->
  decode_sb (view k 1) = sb -> in_disk disksize (4065 + 32) ->
  cwd_of k inum -> 0 <= inum < sb_ipbg sb ->
  33 <= bi -> bi + 36 < BPB ->
  (forall j, 0 <= j < bi -> bit (view k 32) j = true) -> bit (view k 32) bi = false -> bit (view k 32) (bi + 36) = false ->
  exists k', balloc (S fuel) ROOTDEV k = Done (bi + 36) k' /\
    exists k2, bfree (S fuel) ROOTDEV (bi + 36) k' = Panicked "freeing free block" k2.
Proof.
  intros sb T Hsz Hlen Hbg Hbp Hs Hnb Hsb Hin Hcwd Hi H33 Hbi Hused Hfree Hnext.
  change BPB with 4060 in Hbi, Hnb. change BPBG with 4065 in Hs.
  assert (forall j, 0 <= j <= 4065 + 32 -> in_disk disksize j) as Hd by (unfold in_disk in *; lia).
  assert (forall j, 0 <= j < 4060 -> BBLOCK j sb = 32) as HB.
  { intros j Hj. unfold BBLOCK. change BPB with 4060. rewrite Z.div_small, Hbg, Hbp by lia. done. }
  assert (BMAP_HEAD inum sb = 32) as Hhead by (unfold BMAP_HEAD; rewrite Z.div_small, Hbg by lia; done).
  assert (BGROUP inum sb * BPB = 0) as Hb0 by (unfold BGROUP; rewrite Z.div_small by lia; done).
  assert (DBLOCK bi sb = bi + 36) as Hdb.
  { unfold DBLOCK. change BPB with 4060. change NINODEBLOCKS with 4.
    rewrite Z.div_small, Z.mod_small, Hbg, Hbp, u32_small by lia. lia. }
  destruct (balloc_groups_run 0 (S fuel) k l bs 0 32 bi T Hsz ltac:(lia)) as (k1 & l1 & H1 & T1 & S1);
    cbv zeta; fold sb; change (0 + Z.of_nat 0 * BPB) with 0; rewrite ?(HB 0), ?Z.add_0_l; change BPB with 4060; change BPBG with 4065; try lia.
  { apply Hd. lia. }
  { apply free_bit_first; rewrite ?Z2Nat.id; try lia; try assumption. intros j Hj. rewrite u32_small; lia. }
  { apply Hd. lia. }
  fold sb in H1, T1, S1. change (0 + Z.of_nat 0 * BPB) with 0 in H1, T1, S1. rewrite Z.add_0_l in H1, T1, S1.
  rewrite (HB 0) in T1, S1 by lia.
  assert (k_sb k1 = sb) as Esb by by apply fs_sb in S1.
  exists k1. split.
  - unfold balloc. rewrite bind_gets, (bind_Done _ _ _ _ _ (cwd_inum_run _ _ Hcwd)). fold sb.
    rewrite Hb0, Hhead. change (i32 0) with 0. change (i32 32) with 32. by rewrite (bind_Done _ _ _ _ _ H1), Hdb.
  - pose proof (absorb_length bi (absorb 32 bs)). pose proof (absorb_length 32 bs).
    pose proof (bfree_run k1 l1 _ (bi + 36) T1 ltac:(lia) Hsz) as Hrun. cbv zeta in Hrun.
    rewrite Esb, HB in Hrun by lia. rewrite (fs_view _ _ _ S1 32), write1_ne, write1_eq in Hrun by lia.
    rewrite (fs_view _ _ _ S1 1), !write1_ne in Hrun by lia. change BPB with 4060 in Hrun.
    rewrite Z.mod_small, bit_set in Hrun; [|lia| |lia|lia].
    2:{ rewrite (view_length k l) by apply T. pose proof (Z.div_lt_upper_bound bi 8 512 ltac:(lia) ltac:(lia)).
        pose proof (Z.div_pos bi 8 ltac:(lia) ltac:(lia)). lia. }
    destruct (Z.eqb_spec (bi + 36) bi); [lia|]. rewrite Hnext in Hrun. apply Hrun; [apply Hd; lia|done|apply Hd; lia].
Qed.

End Alloc.

(** ** A concrete disk: the layout of mkfs, 40 data blocks of group 0 in use *)

Definition cache_on (d : Z -> list Z) : kernel := set_k_disk d demo_cache.

Lemma ring_disk d k l : ring k l -> ring (set_k_disk d k) l.
Proof. intros [? ? ? ?]. by split. Qed.
Lemma cache_on_inv d : (forall c, length (d c) = 512%nat) -> bcache_inv (cache_on d) demo_order /\ quiet (cache_on d).
Proof.
  intros Hd. apply slots_inv; [vm_compute; reflexivity| |exact Hd|].
  - apply ring_disk, demo_cache_ring.
  - right. vm_compute. repeat split.
Qed.
Lemma dirty_disk d k c : dirty (set_k_disk d k) c = dirty k c.
Proof. done. Qed.
Lemma cache_on_idle d : (forall c, length (d c) = 512%nat) -> idle (cache_on d) demo_order [].
Proof.
  intros Hd. destruct (cache_on_inv d Hd). split; [|apply not_elem_of_empty|].
  - split; [assumption|assumption| |]; apply not_elem_of_empty.
  - split; [split|reflexivity|intros i b Hi; discriminate Hi|intros b Hb; by apply not_elem_of_nil in Hb].
    + reflexivity.
    + apply NoDup_nil_2.
    + intros c. unfold cache_on. rewrite dirty_disk, demo_clean.
      split; [discriminate|intros Hc; by apply not_elem_of_nil in Hc].
Qed.
Lemma idle_sched f k l bs : idle k l bs -> idle (upd_sched f k) l bs.
Proof.
  intros [[[[? ? ? ?] ? ? ? ? ? ?] ? ? ?] Hl [[H1 H2 H3] H4 H5 H6]]. split; [|done|].
  - split; [|done..]. split; done.
  - split; [split|..]; done.
Qed.
Lemma txn_sched f k l bs : txn k l bs -> txn (upd_sched f k) l bs.
Proof. intros [I H1 H2]. split; [by apply idle_sched|done|done]. Qed.

(** A process in the directory of inode [demo_inode], in a transaction. *)
Definition demo_on (d : Z -> list Z) : kernel :=
  upd_sched (fun sc => set_curproc (Some 0%nat) (set_procs (alter (set_p_cwd (Some 0%nat)) 0%nat (procs sc)) sc))
    (set_k_sb demo_sb (upd_log (fun lg => set_l_size LOGSIZE (set_l_outstanding 1 lg))
      (upd_inode 0 (fun _ => demo_inode) (cache_on d)))).
Lemma demo_on_txn d : (forall c, length (d c) = 512%nat) -> txn (demo_on d) demo_order [].
Proof. intros Hd. by apply txn_sched, txn_sb, idle_txn, idle_inode, cache_on_idle. Qed.

Definition empty_block : list Z := replicate 512 0.
Definition encode_sb (sb : superblock) : list Z :=
  put32 0 (sb_size sb) (put32 4 (sb_nblocks sb) (put32 8 (sb_ninodes sb) (put32 12 (sb_nlog sb)
    (put32 16 (sb_logstart sb) (put32 20 (sb_bgstart sb) (put32 24 (sb_nblockgroups sb)
      (put32 28 (sb_bpbg sb) (put32 32 (sb_ipbg sb) empty_block)))))))).
Definition demo_disk (c : Z) : list Z :=
  if c =? 1 then encode_sb demo_sb
  else if c =? 32 then replicate 5 255 ++ replicate 507 0
  else empty_block.
Lemma demo_disk_length c : length (demo_disk c) = 512%nat.
Proof. unfold demo_disk. case_if; [reflexivity|]. by case_if. Qed.
Definition demo_alloc : kernel := demo_on demo_disk.
Lemma demo_alloc_view c : view demo_alloc c = demo_disk c.
Proof. reflexivity. Qed.
Lemma demo_alloc_cwd : cwd_of demo_alloc 5.
Proof. eexists 0%nat, _, 0%nat, demo_inode. split_and!; reflexivity. Qed.


Lemma forall_below (p : Z -> bool) n :
  forallb (fun j => p (Z.of_nat j)) (seq 0 n) = true -> forall j, 0 <= j < Z.of_nat n -> p j = true.
Proof.
  intros H j Hj. rewrite forallb_forall in H. specialize (H (Z.to_nat j)). rewrite Z2Nat.id in H by lia.
  apply H, in_seq. lia.
Qed.

Lemma balloc_bfree_panics_witness :
  exists k' k2, @balloc (Memide.driver 5000) 1 ROOTDEV demo_alloc = Done 76 k' /\
    @bfree (Memide.driver 5000) 1 ROOTDEV 76 k' = Panicked "freeing free block" k2.
Proof.
  destruct (@balloc_bfree_panics (Memide.driver 5000) 5000 (memide_ok 5000) 0 demo_alloc demo_order [] 5 40)
    as (k' & H1 & k2 & H2).
  - apply demo_on_txn, demo_disk_length.
  - lia.
  - simpl. lia.
  - reflexivity.
  - reflexivity.
  - by vm_compute.
  - by vm_compute.
  - rewrite demo_alloc_view. by vm_compute.
  - by vm_compute.
  - apply demo_alloc_cwd.
  - by vm_compute.
  - lia.
  - by vm_compute.
  - rewrite demo_alloc_view. apply (forall_below _ 40). by vm_compute.
  - rewrite demo_alloc_view. by vm_compute.
  - rewrite demo_alloc_view. by vm_compute.
  - exists k', k2. split; [exact H1|exact H2].
Defined.
