(* ===== verification/Icache.v ===== *)
(** Icache: the inode cache of fs.c as a table of reference counts.

    [iget], [idup] and [iput] keep at most one slot per inode, and the counts
    of the slots are the numbers of references handed out. *)

From S2P Require Import Prelude Kernel StringLib Bytes ProcCore Bio BioSpec LogCopy FsLayout Log LogProof LogOps Fs FsTx FsRead FsWrite.

(** ** The abstract table: device and inode number to the number of references *)

Definition ikey (x : inode) : Z * Z := (i_dev x, i_inum x).
Definition refs_get (key : Z * Z) (m : gmap (Z * Z) Z) : gmap (Z * Z) Z :=
  <[key := default 0 (m !! key) + 1]> m.
Definition refs_put (key : Z * Z) (m : gmap (Z * Z) Z) : gmap (Z * Z) Z :=
  if default 0 (m !! key) <=? 1 then delete key m else <[key := default 0 (m !! key) - 1]> m.

Record icache_rep (ic : list inode) (m : gmap (Z * Z) Z) : Prop := {
  ir_ref : forall i x, ic !! i = Some x -> 0 <= i_ref x < 2 ^ 31;
  ir_cached : forall i x, ic !! i = Some x -> 0 < i_ref x -> m !! ikey x = Some (i_ref x);
  ir_slot : forall key c, m !! key = Some c ->
    0 < c /\ exists i x, ic !! i = Some x /\ ikey x = key /\ i_ref x = c;
  ir_unique : forall i j x y, ic !! i = Some x -> ic !! j = Some y ->
    0 < i_ref x -> 0 < i_ref y -> ikey x = ikey y -> i = j
}.

(** Slot [ip] gets contents [y] for inode [key] with [c] references; no other
    slot holds [key]. *)
Lemma icache_rep_insert ic m ip x y key c :
  icache_rep ic m -> ic !! ip = Some x -> ikey y = key -> i_ref y = c -> 0 <= c < 2 ^ 31 ->
  (0 < i_ref x -> ikey x = key) ->
  (forall j z, ic !! j = Some z -> j <> ip -> 0 < i_ref z -> ikey z <> key) ->
  icache_rep (<[ip := y]> ic) (if 0 <? c then <[key := c]> m else delete key m).
Proof.
  intros [Hr Hc Hs Hu] Hx Hk Hy Hcr Hxk Hno. pose proof (lookup_lt_Some _ _ _ Hx) as Hlt. split.
  - intros i z Hz. apply list_lookup_insert_Some in Hz as [(-> & -> & _)|[Hne Hz]]; [lia|by apply (Hr i)].
  - intros i z Hz Hpos. apply list_lookup_insert_Some in Hz as [(-> & -> & _)|[Hne Hz]].
    + rewrite Hk, Hy in *. destruct (Z.ltb_spec 0 c); [|lia]. by rewrite lookup_insert_eq.
    + pose proof (Hno i z Hz ltac:(congruence) Hpos) as Hd. pose proof (Hc i z Hz Hpos).
      case_if; [rewrite lookup_insert_ne by done|rewrite lookup_delete_ne by done]; done.
  - intros key' c' Hm. destruct (decide (key' = key)) as [->|Hne].
    + destruct (Z.ltb_spec 0 c); [|by rewrite lookup_delete_eq in Hm]. rewrite lookup_insert_eq in Hm. injection Hm as <-.
      split; [done|]. exists ip, y. by rewrite list_lookup_insert_eq.
    + assert (m !! key' = Some c') as Hm'.
      { revert Hm. case_if; [by rewrite lookup_insert_ne|by rewrite lookup_delete_ne]. }
      destruct (Hs _ _ Hm') as (Hpos & i & z & Hz & Hzk & Hzr). split; [done|]. exists i, z. split; [|done].
      rewrite list_lookup_insert_ne; [done|]. intros ->. rewrite Hx in Hz. injection Hz as <-. apply Hne.
      rewrite <- Hzk. apply Hxk. lia.
  - intros i j z w Hz Hw Hzp Hwp E.
    apply list_lookup_insert_Some in Hz as [(-> & -> & _)|[Hni Hz]], Hw as [(E2 & -> & _)|[Hnj Hw]]; try done; try congruence.
    + by destruct (Hno j w Hw ltac:(congruence) Hwp); rewrite <- E.
    + subst. by destruct (Hno i z Hz ltac:(congruence) Hzp).
    + by apply (Hu i j z w).
Qed.

(** Changing the count of a live slot. *)
Lemma icache_rep_count ic m ip x c f :
  icache_rep ic m -> ic !! ip = Some x -> 0 < i_ref x -> 0 <= c < 2 ^ 31 ->
  ikey (f x) = ikey x -> i_ref (f x) = c ->
  icache_rep (alter f ip ic) (if 0 <? c then <[ikey x := c]> m else delete (ikey x) m).
Proof.
  intros R Hx Hp Hc Hk Hr. rewrite (list_alter_Some _ _ _ _ Hx). eapply icache_rep_insert; try done.
  intros j z Hz Hne Hzp E. apply Hne. by eapply (ir_unique _ _ R).
Qed.

Lemma cached_iff dev inum x : cached dev inum x = true <-> 0 < i_ref x /\ ikey x = (dev, inum).
Proof.
  unfold cached, ikey. rewrite !andb_true_iff, Z.ltb_lt, !Z.eqb_eq. split; [intros [[? ->] ->]|intros [? [= -> ->]]]; done.
Qed.

(** ** [iget] *)

Lemma iget_run k dev inum :
  L_icache ∉ k_held k ->
  iget dev inum k =
    match find_idx (cached dev inum) (k_icache k) with
    | Some ip => Done ip (upd_inode ip (fun x => set_i_ref (i32 (i_ref x + 1)) x) k)
    | None =>
        match find_idx (fun x => i_ref x =? 0) (k_icache k) with
        | Some ip => Done ip (upd_inode ip (fun x =>
            set_i_flags 0 (set_i_ref 1 (set_i_inum inum (set_i_dev dev x)))) k)
        | None => Panicked "iget: no inodes" (set_k_held ({[L_icache]} ∪ k_held k) k)
        end
    end.
Proof.
  intros Hl. unfold iget. rewrite bind_acquire by done. rewrite bind_gets. simpl.
  destruct (find_idx (cached dev inum) (k_icache k)) as [ip|].
  - rewrite bind_modify, bind_release by (simpl; set_solver). unfold ret. f_equal. unfold upd_inode. simpl.
    rewrite held_release_acquire by done. by destruct k.
  - destruct (find_idx (fun x => i_ref x =? 0) (k_icache k)) as [ip|]; [|done].
    rewrite bind_modify, bind_release by (simpl; set_solver). unfold ret. f_equal. unfold upd_inode. simpl.
    rewrite held_release_acquire by done. by destruct k.
Qed.

Lemma iget_refines k m dev inum :
  L_icache ∉ k_held k -> icache_rep (k_icache k) m -> default 0 (m !! (dev, inum)) < 2 ^ 31 - 1 ->
  (exists ip k' x', iget dev inum k = Done ip k' /\ icache_rep (k_icache k') (refs_get (dev, inum) m) /\
     k_icache k' !! ip = Some x' /\ ikey x' = (dev, inum) /\ k_held k' = k_held k) \/
  (m !! (dev, inum) = None /\ Forall (fun x => 0 < i_ref x) (k_icache k) /\
   exists k', iget dev inum k = Panicked "iget: no inodes" k').
Proof.
  intros Hl R Hmax. rewrite iget_run by done.
  destruct (find_idx (cached dev inum) (k_icache k)) as [ip|] eqn:E.
  - left. apply find_idx_lookup in E as (x & Hx & Hc). apply cached_iff in Hc as [Hp Hk].
    pose proof (ir_cached _ _ R _ _ Hx Hp) as Hm. rewrite Hk in Hm. rewrite Hm in Hmax. simpl in Hmax.
    pose proof (i32_small (i_ref x + 1) ltac:(lia)) as Hi.
    eexists ip, _, (set_i_ref (i_ref x + 1) x). split; [done|]. split; [|split; [|done]].
    + pose proof (icache_rep_count _ _ ip x (i_ref x + 1) (fun x => set_i_ref (i32 (i_ref x + 1)) x) R Hx Hp ltac:(lia) eq_refl Hi) as R'.
      destruct (Z.ltb_spec 0 (i_ref x + 1)); [|lia]. unfold refs_get. rewrite Hm. rewrite Hk in R'. exact R'.
    + rewrite (upd_inode_lookup _ _ _ x) by done. by rewrite Hi.
  - assert (m !! (dev, inum) = None) as Hnone.
    { apply eq_None_not_Some. intros [c Hc]. destruct (ir_slot _ _ R _ _ Hc) as (Hp & i & x & Hx & Hk & Hr).
      apply find_idx_None, Forall_lookup_1 with (i := i) (x := x) in E; [|done].
      assert (cached dev inum x = true) by (apply cached_iff; split; [lia|done]). congruence. }
    destruct (find_idx (fun x => i_ref x =? 0) (k_icache k)) as [ip|] eqn:E0.
    + left. apply find_idx_lookup in E0 as (x & Hx & H0). apply Z.eqb_eq in H0.
      eexists ip, _, _. split; [done|]. split; [|split; [by apply upd_inode_lookup|done]].
      simpl. rewrite (list_alter_Some _ _ _ _ Hx). unfold refs_get. rewrite Hnone.
      apply (icache_rep_insert _ _ ip x _ (dev, inum) 1 R Hx); try done; try lia.
      intros j z Hz Hne Hp Hk. apply find_idx_None, Forall_lookup_1 with (i := j) (x := z) in E; [|done].
      assert (cached dev inum z = true) by (by apply cached_iff). congruence.
    + right. split; [done|]. split; [|by eexists]. apply Forall_lookup_2. intros i x Hx.
      apply find_idx_None, Forall_lookup_1 with (i := i) (x := x) in E0; [|done]. apply Z.eqb_neq in E0.
      pose proof (ir_ref _ _ R _ _ Hx). lia.
Qed.

(** ** [idup] and [iput] *)

Section Put.
Context `{D : DiskDriver} (fuel : nat).

Lemma idup_run k ip :
  L_icache ∉ k_held k -> idup ip k = Done ip (upd_inode ip (fun x => set_i_ref (i32 (i_ref x + 1)) x) k).
Proof.
  intros Hl. unfold idup. rewrite bind_acquire, bind_modify, bind_release by (simpl; set_solver).
  unfold ret. f_equal. unfold upd_inode. simpl. rewrite held_release_acquire by done. by destruct k.
Qed.

(** The reference is not the last one, or the file still has a name. *)
Lemma iput_run k ip x :
  L_icache ∉ k_held k -> k_icache k !! ip = Some x ->
  (i_ref x =? 1) && flag (i_flags x) I_VALID && (i_nlink x =? 0) = false ->
  iput fuel ip k = Done tt (upd_inode ip (fun x => set_i_ref (i32 (i_ref x - 1)) x) k).
Proof.
  intros Hl Hx Hc. unfold iput. rewrite bind_acquire by done.
  rewrite (bind_Done _ _ _ x (set_k_held ({[L_icache]} ∪ k_held k) k)) by (by apply read_inode_run). rewrite Hc. cbn [when].
  rewrite bind_ret, bind_modify. rewrite (release_held) by (simpl; set_solver). f_equal.
  unfold upd_inode. simpl. rewrite held_release_acquire by done. by destruct k.
Qed.

(** C21: the inode cache counts references.  As long as every slot in use
    belongs to a different inode and its count is the number of references
    handed out, [iget] returns a slot for the inode with one more reference,
    or panics, exactly when the inode is not cached and all slots are in use;
    [idup] adds a reference; [iput] of a reference that is not the last one
    of an unlinked file takes it back, freeing the slot when none is left.
    Each keeps one slot per inode and the counts right. *)
Theorem icache_refcounts k m dev inum :
  L_icache ∉ k_held k -> icache_rep (k_icache k) m ->
  (default 0 (m !! (dev, inum)) < 2 ^ 31 - 1 ->
   (exists ip k' x', iget dev inum k = Done ip k' /\ icache_rep (k_icache k') (refs_get (dev, inum) m) /\
      k_icache k' !! ip = Some x' /\ ikey x' = (dev, inum) /\ k_held k' = k_held k) \/
   (m !! (dev, inum) = None /\ Forall (fun x => 0 < i_ref x) (k_icache k) /\
    exists k', iget dev inum k = Panicked "iget: no inodes" k')) /\
  forall ip x, k_icache k !! ip = Some x -> 0 < i_ref x ->
    (i_ref x < 2 ^ 31 - 1 ->
     exists k', idup ip k = Done ip k' /\ icache_rep (k_icache k') (refs_get (ikey x) m)) /\
    ((i_ref x =? 1) && flag (i_flags x) I_VALID && (i_nlink x =? 0) = false ->
     exists k', iput fuel ip k = Done tt k' /\ icache_rep (k_icache k') (refs_put (ikey x) m)).
Proof.
  intros Hl R. split; [intros Hmax; by apply iget_refines|]. intros ip x Hx Hp.
  pose proof (ir_cached _ _ R _ _ Hx Hp) as Hm. pose proof (ir_ref _ _ R _ _ Hx) as Hr. split.
  - intros Hmax. eexists. split; [by apply idup_run|]. pose proof (i32_small (i_ref x + 1) ltac:(lia)) as Hi.
    pose proof (icache_rep_count _ _ ip x (i_ref x + 1) (fun x => set_i_ref (i32 (i_ref x + 1)) x) R Hx Hp ltac:(lia) eq_refl Hi) as R'.
    destruct (Z.ltb_spec 0 (i_ref x + 1)); [|lia]. unfold refs_get. rewrite Hm. exact R'.
  - intros Hc. eexists. split; [by eapply iput_run|]. pose proof (i32_small (i_ref x - 1) ltac:(lia)) as Hi.
    pose proof (icache_rep_count _ _ ip x (i_ref x - 1) (fun x => set_i_ref (i32 (i_ref x - 1)) x) R Hx Hp ltac:(lia) eq_refl Hi) as R'.
    unfold refs_put. rewrite Hm. simpl.
    destruct (Z.ltb_spec 0 (i_ref x - 1)), (Z.leb_spec (i_ref x) 1); try lia; exact R'.
Qed.

End Put.

(** ** A cache with one inode *)

Lemma demo_slots : k_icache demo_fs = demo_inode :: replicate 49 zero_inode.
Proof. vm_compute. reflexivity. Qed.
Lemma demo_rep : icache_rep (k_icache demo_fs) {[ (ROOTDEV, 5) := 1 ]}.
Proof.
  rewrite demo_slots.
  assert (forall i x, (demo_inode :: replicate 49 zero_inode) !! i = Some x ->
    i = 0%nat /\ x = demo_inode \/ i_ref x = 0) as H.
  { intros [|i] x Hx; [injection Hx as <-; by left|]. right. by apply lookup_replicate in Hx as [-> _]. }
  split.
  - intros i x Hx. destruct (H i x Hx) as [[_ ->]| ->]; simpl; lia.
  - intros i x Hx Hp. destruct (H i x Hx) as [[_ ->]|H0]; [done|lia].
  - intros key c Hc. apply lookup_singleton_Some in Hc as [<- <-]. split; [lia|]. by exists 0%nat, demo_inode.
  - intros i j x y Hx Hy Hpx Hpy _. destruct (H i x Hx) as [[-> _]|?], (H j y Hy) as [[-> _]|?]; [done|lia..].
Qed.

Lemma icache_refcounts_witness :
  exists k1, @iput (Memide.driver 200) 1 0 demo_fs = Done tt k1 /\
    icache_rep (k_icache k1) (refs_put (ROOTDEV, 5) {[ (ROOTDEV, 5) := 1 ]}).
Proof.
  destruct (@icache_refcounts (Memide.driver 200) 1 demo_fs {[ (ROOTDEV, 5) := 1 ]} ROOTDEV 7) as [_ H].
  - apply not_elem_of_empty.
  - apply demo_rep.
  - destruct (H 0%nat demo_inode) as [_ Hput]; [reflexivity|reflexivity|]. apply Hput. reflexivity.
Defined.
