(* ===== verification/Dir.v ===== *)
(** Dir: the directory and path layers of fs.c.

    A path is the list of its bytes before the NUL; a name is the array of
    [DIRSIZ] bytes [skipelem] fills, which is NUL-padded only when the
    element is shorter. *)

From S2P Require Import Prelude Kernel StringLib Bytes ProcCore Bio FsLayout Log Fs.

(** ** [struct dirent]: 16 bytes, the inode number and the name *)

Definition de_inum (de : list Z) : Z := get16 de 0.
Definition de_name (de : list Z) : list Z := drop 2 de.

Definition namecmp (s t : list Z) : Z := strncmp (of_list s) (of_list t) (Z.to_nat DIRSIZ).

(** ** [skipelem] *)

Definition SLASH : Z := 47.

Fixpoint drop_slashes (path : list Z) : list Z :=
  match path with
  | c :: rest => if c =? SLASH then drop_slashes rest else path
  | [] => []
  end.

(** The second loop of [skipelem]: the element and what follows it. *)
Fixpoint span_elem (path : list Z) : list Z * list Z :=
  match path with
  | c :: rest =>
      if c =? SLASH then ([], path)
      else let '(e, r) := span_elem rest in (c :: e, r)
  | [] => ([], [])
  end.

(** The rest of the path and the new contents of [name]; [None] when there is
    no element. *)
Definition skipelem (path name : list Z) : option (list Z * list Z) :=
  let path := drop_slashes path in
  match path with
  | [] => None
  | _ =>
      let '(s, rest) := span_elem path in
      let name :=
        if DIRSIZ <=? Z.of_nat (length s) then list_inserts 0 (take (Z.to_nat DIRSIZ) s) name
        else list_inserts 0 (s ++ [0]) name in
      Some (drop_slashes rest, name)
  end.

Section Dir.
Context `{D : DiskDriver} (fuel : nat) `{DS : Devsw}.

(** The loop of [dirlookup] from [off] on: the inode and the offset of the
    entry.  A directory of [size] bytes takes [size / 16 + 1] turns. *)
Fixpoint dirlookup_loop (f dp : nat) (name : list Z) (off : Z) : M kernel (option (nat * Z)) :=
  let! x := read_inode dp in
  if negb (off <? i_size x) then ret None else
  match f with
  | O => exhausted
  | S f =>
      let! r := readi fuel dp off DIRENT_SIZE in
      if negb (r.1 =? DIRENT_SIZE) then panic "dirlink read" else
      if de_inum r.2 =? 0 then dirlookup_loop f dp name (u32 (off + DIRENT_SIZE)) else
      if namecmp name (de_name r.2) =? 0 then
        let! ip := iget (i_dev x) (de_inum r.2) in
        ret (Some (ip, off))
      else dirlookup_loop f dp name (u32 (off + DIRENT_SIZE))
  end.
Definition entries (size : Z) : nat := Z.to_nat (size / DIRENT_SIZE + 1).

Definition dirlookup (dp : nat) (name : list Z) : M kernel (option (nat * Z)) :=
  let! x := read_inode dp in
  if negb (i_type x =? T_DIR) then panic "dirlookup not DIR" else
  dirlookup_loop (entries (i_size x)) dp name 0.

(** The loop of [dirlink]: the offset of a free entry, or of the end. *)
Fixpoint free_dirent (f dp : nat) (off : Z) : M kernel Z :=
  let! x := read_inode dp in
  if negb (u32 off <? i_size x) then ret off else
  match f with
  | O => exhausted
  | S f =>
      let! r := readi fuel dp (u32 off) DIRENT_SIZE in
      if negb (r.1 =? DIRENT_SIZE) then panic "dirlink read" else
      if de_inum r.2 =? 0 then ret off
      else free_dirent f dp (i32 (off + DIRENT_SIZE))
  end.

Definition dirlink (dp : nat) (name : list Z) (inum : Z) : M kernel Z :=
  let! r := dirlookup dp name in
  match r with
  | Some (ip, _) => iput fuel ip ;;; ret (-1)
  | None =>
      let! x := read_inode dp in
      let! off := free_dirent (entries (i_size x)) dp 0 in
      let de := half_bytes inum ++ strncpy (of_list name) (Z.to_nat DIRSIZ) in
      let! n := writei fuel dp (of_list de) (u32 off) DIRENT_SIZE in
      if negb (n =? DIRENT_SIZE) then panic "dirlink" else ret 0
  end.

(** ** Paths *)

(** The loop of [namex]; every turn takes an element off the path. *)
Fixpoint namex_loop (f ip : nat) (path : list Z) (parent : bool) (name : list Z) :
    M kernel (option nat * list Z) :=
  match skipelem path name with
  | None =>
      if parent then iput fuel ip ;;; ret (None, name)
      else ret (Some ip, name)
  | Some (path, name) =>
      match f with
      | O => exhausted
      | S f =>
          ilock fuel (Some ip) ;;;
          let! x := read_inode ip in
          if negb (i_type x =? T_DIR) then iunlockput fuel ip ;;; ret (None, name) else
          if parent && bool_decide (path = []) then iunlock (Some ip) ;;; ret (Some ip, name) else
          let! r := dirlookup ip name in
          match r with
          | None => iunlockput fuel ip ;;; ret (None, name)
          | Some (next, _) =>
              iunlockput fuel ip ;;;
              namex_loop f next path parent name
          end
      end
  end.

Definition namex (path : list Z) (parent : bool) (name : list Z) : M kernel (option nat * list Z) :=
  let! ip :=
    (if bool_decide (head path = Some SLASH) then iget ROOTDEV ROOTINO
     else
       let! i := myproc in
       let! p := read_proc i in
       match p_cwd p with
       | None => fault "proc->cwd"
       | Some cwd => idup cwd
       end) in
  namex_loop (S (length path)) ip path parent name.

(** The name array of [namei] is a local whose initial contents are not read. *)
Definition empty_name : list Z := replicate (Z.to_nat DIRSIZ) 0.
Definition namei (path : list Z) : M kernel (option nat) :=
  let! r := namex path false empty_name in
  ret r.1.
Definition nameiparent (path name : list Z) : M kernel (option nat * list Z) :=
  namex path true name.

End Dir.
