(* ===== verification/DirPath.v ===== *)
(** DirPath: path names.  The loop of [namex] takes the elements of a path one
    by one with [skipelem]; here they are compared with a reference splitting
    of the path at its slashes. *)

From S2P Require Import Prelude Kernel StringLib Bytes Fs Dir FsLayout.

(** ** The reference *)

(** The non-empty strings between the slashes, read from left to right; [cur]
    holds the characters of the current one, last first. *)
Fixpoint split_path (cur path : list Z) : list (list Z) :=
  match path with
  | [] => match cur with [] => [] | _ => [rev cur] end
  | c :: rest =>
      if c =? SLASH then
        match cur with [] => split_path [] rest | _ => rev cur :: split_path [] rest end
      else split_path (c :: cur) rest
  end.
Definition elements (path : list Z) : list (list Z) := split_path [] path.

(** The string in a name array: up to the first NUL or the end of the array. *)
Fixpoint name_str (name : list Z) : list Z :=
  match name with
  | [] => []
  | c :: rest => if c =? 0 then [] else c :: name_str rest
  end.

(** The names [namex] looks up, in order. *)
Fixpoint walk (f : nat) (path name : list Z) : option (list (list Z)) :=
  match skipelem path name with
  | None => Some []
  | Some (path, name) =>
      match f with
      | O => None
      | S f => cons (name_str name) <$> walk f path name
      end
  end.

(** ** Lemmas *)

Lemma split_drop_slashes path : split_path [] (drop_slashes path) = split_path [] path.
Proof. induction path as [|c path IH]; simpl; [done|]. destruct (Z.eqb_spec c SLASH) as [->|Hne]; [done|]. simpl. by destruct (Z.eqb_spec c SLASH). Qed.

Lemma split_span cur path e rest :
  span_elem path = (e, rest) ->
  split_path cur path = match rev cur ++ e with [] => split_path [] rest | s => s :: split_path [] rest end.
Proof.
  revert cur e rest. induction path as [|c path IH]; intros cur e rest; simpl.
  - intros [= <- <-]. rewrite app_nil_r. destruct cur as [|x cur]; simpl; [done|]. by destruct (rev cur ++ [x]) eqn:E; [destruct (rev cur)|].
  - destruct (Z.eqb_spec c SLASH) as [->|Hne].
    + intros [= <- <-]. rewrite app_nil_r. simpl. destruct cur as [|x cur]; simpl; [done|].
      by destruct (rev cur ++ [x]) eqn:E; [destruct (rev cur)|].
    + destruct (span_elem path) as [e' r'] eqn:E. intros [= <- <-]. rewrite (IH (c :: cur) e' r' eq_refl). simpl.
      by rewrite <- app_assoc.
Qed.

Lemma drop_slashes_head path c rest : drop_slashes path = c :: rest -> c <> SLASH.
Proof.
  induction path as [|d path IH]; simpl; [done|]. destruct (Z.eqb_spec d SLASH) as [->|Hne]; [exact IH|].
  intros [= <- _]. done.
Qed.
Lemma drop_slashes_length path : (length (drop_slashes path) <= length path)%nat.
Proof. induction path as [|c path IH]; simpl; [done|]. case_if; simpl; lia. Qed.
Lemma span_elem_app path e rest : span_elem path = (e, rest) -> path = e ++ rest.
Proof.
  revert e rest. induction path as [|c path IH]; intros e rest; simpl; [by intros [= <- <-]|].
  case_if; [by intros [= <- <-]|]. destruct (span_elem path) as [e' r']. intros [= <- <-]. simpl. f_equal. by apply IH.
Qed.

Lemma skipelem_none path name : skipelem path name = None <-> elements path = [].
Proof.
  unfold skipelem, elements. rewrite <- split_drop_slashes. pose proof (drop_slashes_head path) as Hh.
  destruct (drop_slashes path) as [|c r]; [done|]. specialize (Hh c r eq_refl).
  destruct (span_elem (c :: r)) as [e rest] eqn:E. split; [done|]. rewrite (split_span [] _ e rest E). simpl in E.
  destruct (Z.eqb_spec c SLASH); [done|]. destruct (span_elem r). by injection E as <- <-.
Qed.

(** One step: the first element, and a rest without leading slash. *)
Lemma skipelem_step path name rest name' :
  skipelem path name = Some (rest, name') ->
  exists e, e <> [] /\ elements path = e :: elements rest /\ (length rest < length path)%nat /\
    (forall c, c ∈ e -> c ∈ path) /\ (forall c, c ∈ rest -> c ∈ path) /\ head rest <> Some SLASH /\
    name' = if DIRSIZ <=? Z.of_nat (length e) then list_inserts 0 (take 14 e) name else list_inserts 0 (e ++ [0]) name.
Proof.
  unfold skipelem, elements. rewrite <- (split_drop_slashes path). pose proof (drop_slashes_head path) as Hh.
  pose proof (drop_slashes_length path) as Hlen.
  assert (forall l c, c ∈ drop_slashes l -> c ∈ l) as Hsub.
  { clear. induction l as [|d l IH]; intros c; simpl; [done|]. case_if; [|done]. intros Hc. apply list_elem_of_further. by apply IH. }
  pose proof (Hsub path) as Hsp.
  destruct (drop_slashes path) as [|c r] eqn:Ed; [done|]. specialize (Hh c r eq_refl).
  destruct (span_elem (c :: r)) as [e s] eqn:E. intros [= <- <-].
  pose proof (span_elem_app _ _ _ E) as Eapp. exists e.
  assert (e <> []) as He. { simpl in E. destruct (Z.eqb_spec c SLASH); [done|]. destruct (span_elem r). by injection E as <- <-. }
  assert (1 <= length e)%nat by (destruct e; [done|simpl; lia]).
  pose proof (drop_slashes_length s) as Hs. assert (length e + length s <= length path)%nat by (rewrite Eapp, length_app in Hlen; lia).
  split_and!; [done| |lia| | | |done].
  - rewrite (split_span [] _ e s E), split_drop_slashes. simpl. by destruct e.
  - intros x Hx. apply Hsp. rewrite Eapp. apply elem_of_app. by left.
  - intros x Hx. apply Hsp. rewrite Eapp. apply elem_of_app. right. by apply Hsub.
  - destruct (drop_slashes s) as [|x y] eqn:Es; [done|]. intros [= ->]. by apply (drop_slashes_head s SLASH y).
Qed.

Lemma name_str_nonul l : (forall c, c ∈ l -> c <> 0) -> name_str l = l.
Proof.
  induction l as [|c l IH]; intros H; simpl; [done|]. destruct (Z.eqb_spec c 0) as [->|]; [by destruct (H 0); [left|]|].
  f_equal. apply IH. intros x Hx. apply H. by right.
Qed.
Lemma name_str_nul l r : (forall c, c ∈ l -> c <> 0) -> name_str (l ++ 0 :: r) = l.
Proof.
  induction l as [|c l IH]; intros H; simpl; [done|]. destruct (Z.eqb_spec c 0) as [->|]; [by destruct (H 0); [left|]|].
  f_equal. apply IH. intros x Hx. apply H. by right.
Qed.
Lemma inserts_0 (l d : list Z) : (length l <= length d)%nat -> list_inserts 0 l d = l ++ drop (length l) d.
Proof.
  intros H. rewrite <- (take_drop (length l) d) at 1. rewrite list_inserts_0_r; [done|]. rewrite length_take. lia.
Qed.

(** The array [skipelem] leaves holds the element, cut to [DIRSIZ] bytes. *)
Lemma stored_name e name :
  length name = 14%nat -> (forall c, c ∈ e -> c <> 0) ->
  let name' := if DIRSIZ <=? Z.of_nat (length e) then list_inserts 0 (take 14 e) name else list_inserts 0 (e ++ [0]) name in
  name_str name' = take 14 e /\ length name' = 14%nat.
Proof.
  intros Hl He. unfold DIRSIZ. destruct (Z.leb_spec 14 (Z.of_nat (length e))); rewrite length_inserts; (split; [|done]).
  - rewrite inserts_0 by (rewrite length_take; lia). rewrite length_take, Nat.min_l by lia.
    rewrite drop_ge, app_nil_r by lia. apply name_str_nonul. intros c Hc. apply He. apply elem_of_take in Hc as (i & Hi & _). by eapply list_elem_of_lookup_2.
  - rewrite inserts_0 by (rewrite length_app; simpl; lia). rewrite take_ge, <- app_assoc by lia. by apply name_str_nul.
Qed.

(** Path elements.  On a path of any number of slashes and elements the
    successive calls of [skipelem] in [namex] end after at most as many turns
    as the path has characters, and fill the name array with exactly the
    non-empty strings between the slashes, in order, each cut to [DIRSIZ]
    bytes; an element of [DIRSIZ] bytes or more is not terminated by NUL. *)
Theorem skipelem_elements path name :
  length name = 14%nat -> (forall c, c ∈ path -> c <> 0) ->
  walk (length path) path name = Some (map (take 14) (elements path)).
Proof.
  remember (length path) as n eqn:Hn. assert (length path <= n)%nat as Hle by lia. clear Hn. revert path name Hle.
  induction n as [|n IH]; intros path name Hle Hl Hp; cbn [walk];
    (destruct (skipelem path name) as [[rest name']|] eqn:E; [|by apply skipelem_none in E as ->]);
    destruct (skipelem_step _ _ _ _ E) as (e & He & -> & Hlen & Hin & Hrest & _ & ->); [lia|].
  destruct (stored_name e name Hl) as [Hs Hl']; [intros c Hc; apply Hp, Hin, Hc|]. cbv zeta in Hs, Hl'.
  rewrite IH; [|lia|exact Hl'|intros c Hc; apply Hp, Hrest, Hc]. simpl. by rewrite Hs.
Qed.

(** ["//usr/a_rather_long_name/x"] *)
Definition demo_path : list Z :=
  [47; 47; 117; 115; 114; 47; 97; 95; 114; 97; 116; 104; 101; 114; 95; 108; 111; 110; 103; 95; 110; 97; 109; 101; 47; 120].
Lemma skipelem_elements_witness :
  walk (length demo_path) demo_path (replicate 14 0) =
  Some [[117; 115; 114]; [97; 95; 114; 97; 116; 104; 101; 114; 95; 108; 111; 110; 103; 95]; [120]].
Proof.
  apply (skipelem_elements demo_path (replicate 14 0)); [reflexivity|].
  apply Forall_forall. repeat constructor; discriminate.
Defined.
