(* ===== verification/DirProof.v ===== *)
(** DirProof: [dirlookup] and [dirlink] on the list of entries of a directory. *)

From S2P Require Import Prelude Kernel StringLib Bytes ProcCore Bio BioSpec LogCopy FsLayout Log LogProof LogOps Fs FsTx FsRead FsWrite FsAlloc Dir.

(** ** The entries of a directory *)

Definition dent (v : Z -> list Z) (x : inode) (e : nat) : list Z := file_bytes v x (16 * Z.of_nat e) 16.
Definition dents (v : Z -> list Z) (x : inode) (n : nat) : list (list Z) := map (dent v x) (seq 0 n).

(** The tests of the loops of [dirlookup] and [dirlink]. *)
Definition matches (name de : list Z) : bool := negb (de_inum de =? 0) && (namecmp name (de_name de) =? 0).
Definition unused (de : list Z) : bool := de_inum de =? 0.

Lemma dents_length v x n : length (dents v x n) = n.
Proof. unfold dents. by rewrite length_map, length_seq. Qed.
Lemma dents_lookup v x n e : (e < n)%nat -> dents v x n !! e = Some (dent v x e).
Proof.
  intros He. unfold dents. change (map ?f ?l) with (f <$> l). rewrite list_lookup_fmap, lookup_seq_lt by done. done.
Qed.

Section Lookup.
Context `{D : DiskDriver} (disksize : Z) `{!DriverOk D disksize} (fuel : nat) `{DS : Devsw}.

(** A directory of [n] entries, all its blocks allocated. *)
Record dir_ok (v : Z -> list Z) (x : inode) (n : nat) : Prop := {
  dk_whole : whole disksize v x;
  dk_type : i_type x = T_DIR;
  dk_size : i_size x = 16 * Z.of_nat n
}.

(** Only the cache has changed. *)
Definition looked (k k' : kernel) (bs : list Z) : Prop :=
  exists l', idle k' l' bs /\ fs_step k (view k) k' /\ k_log k' = k_log k.

Lemma looked_trans k k1 k2 bs : looked k k1 bs -> looked k1 k2 bs -> looked k k2 bs.
Proof.
  intros (l1 & I1 & S1 & H1) (l2 & I2 & S2 & H2). exists l2. split; [done|]. split; [|congruence].
  eapply fs_step_trans; [exact S1|]. eapply fs_step_ext; [exact S2|]. apply S1.
Qed.

Lemma dent_view v v' x e : (forall c, v' c = v c) -> dent v' x e = dent v x e.
Proof.
  intros Hv. apply file_bytes_ext. intros j _. unfold file_byte. by rewrite Hv, (file_block_ext v v').
Qed.
Lemma dir_ok_view v v' x n : (forall c, v' c = v c) -> dir_ok v x n -> dir_ok v' x n.
Proof.
  intros Hv [[H1 H2 H3 H4] H5 H6]. split; [split|..]; try done. intros b Hb Hb'. by apply (mapped_ext _ v), H4.
Qed.

(** Reading entry [e]. *)
Lemma dirent_run k l bs dp x n e :
  idle k l bs -> (length bs < NBUF)%nat -> k_icache k !! dp = Some x -> dir_ok (view k) x n -> (e < n)%nat ->
  exists k', looked k k' bs /\
    readi (S fuel) dp (u32 (16 * Z.of_nat e)) DIRENT_SIZE k = Done (DIRENT_SIZE, dent (view k) x e) k'.
Proof.
  intros I Hlen Hx [W _ Hsz] He. pose proof (wh_size _ _ _ W) as Hs. change (MAXFILE * BSIZE) with 71680 in Hs.
  rewrite u32_small by lia.
  destruct (readi_run disksize fuel k l bs dp x (16 * Z.of_nat e) DIRENT_SIZE I Hlen Hx W) as (k' & l' & Hr & I' & S' & Hl');
    [lia|unfold DIRENT_SIZE; lia|].
  exists k'. split; [by exists l'|]. rewrite Hr. f_equal. unfold readi_spec, DIRENT_SIZE.
  destruct (Z.ltb_spec (i_size x) (16 * Z.of_nat e)); [lia|]. destruct (Z.leb_spec (2 ^ 32) (16 * Z.of_nat e + 16)); [lia|].
  cbn [orb]. cbv zeta. by rewrite Z.min_l by lia.
Qed.

(** The loop of [dirlookup]: [r] entries from [e] on. *)
Lemma dirlookup_loop_run r f k l bs dp x n e name :
  idle k l bs -> (length bs < NBUF)%nat -> k_icache k !! dp = Some x -> dir_ok (view k) x n ->
  (e + r = n)%nat -> (r <= f)%nat ->
  match find_idx (matches name) (map (dent (view k) x) (seq e r)) with
  | Some j => exists k', looked k k' bs /\ dirlookup_loop (S fuel) f dp name (16 * Z.of_nat e) k =
      (let! ip := iget (i_dev x) (de_inum (dent (view k) x (e + j))) in
       ret (Some (ip, 16 * Z.of_nat (e + j)))) k'
  | None => exists k', looked k k' bs /\ dirlookup_loop (S fuel) f dp name (16 * Z.of_nat e) k = Done None k'
  end.
Proof.
  revert f k l e. induction r as [|r IH]; intros f k l e I Hlen Hx Dk He Hf; pose proof (dk_size _ _ _ Dk) as Hsz;
    pose proof (wh_size _ _ _ (dk_whole _ _ _ Dk)) as Hmax; change (MAXFILE * BSIZE) with 71680 in Hmax.
  - simpl. exists k. split; [exists l; split; [done|]; split; [apply fs_step_refl|done]|].
    destruct f; cbn [dirlookup_loop]; rewrite (bind_Done _ _ _ _ _ (read_inode_run _ _ _ Hx));
      (destruct (Z.ltb_spec (16 * Z.of_nat e) (i_size x)); [lia|done]).
  - destruct f as [|f]; [lia|]. cbn [dirlookup_loop]. rewrite (bind_Done _ _ _ _ _ (read_inode_run _ _ _ Hx)).
    destruct (Z.ltb_spec (16 * Z.of_nat e) (i_size x)); [|lia]. cbn [negb].
    destruct (dirent_run k l bs dp x n e I Hlen Hx Dk ltac:(lia)) as (k1 & L1 & Hr).
    rewrite (u32_small (16 * Z.of_nat e)) in Hr by lia. rewrite (bind_Done _ _ _ _ _ Hr). cbn [fst snd].
    rewrite Z.eqb_refl. cbn [negb]. cbn [seq map find_idx].
    assert (forall o, o = 16 * Z.of_nat e + 16 -> u32 o = 16 * Z.of_nat (S e)) as Enext by (intros o ->; rewrite u32_small; lia).
    pose proof L1 as (l1 & I1 & S1 & Hl1).
    specialize (IH f k1 l1 (S e) I1 Hlen ltac:(by rewrite (fs_icache _ _ _ S1)) (dir_ok_view _ _ _ _ (fs_view _ _ _ S1) Dk) ltac:(lia) ltac:(lia)).
    rewrite (map_ext _ (dent (view k) x)) in IH by (intros; apply dent_view, S1).
    unfold matches at 1. rewrite Enext by done. destruct (de_inum (dent (view k) x e) =? 0); cbn [negb andb].
    2: destruct (namecmp name (de_name (dent (view k) x e)) =? 0).
    2:{ exists k1. split; [done|]. by rewrite Nat.add_0_r. }
    all: destruct (find_idx (matches name) (map (dent (view k) x) (seq (S e) r))) as [j|]; simpl;
      destruct IH as (k2 & L2 & IH); exists k2; (split; [by eapply looked_trans|]); try done;
      rewrite IH, (dent_view (view k)) by apply S1; by replace (S e + j)%nat with (e + S j)%nat by lia.
Qed.

Lemma entries_enough x n : i_size x = 16 * Z.of_nat n -> (n <= entries (i_size x))%nat.
Proof. intros ->. unfold entries, DIRENT_SIZE. rewrite Z.mul_comm, Z.div_mul by lia. lia. Qed.

Lemma dirlookup_run k l bs dp x n name :
  idle k l bs -> (length bs < NBUF)%nat -> k_icache k !! dp = Some x -> dir_ok (view k) x n ->
  match find_idx (matches name) (dents (view k) x n) with
  | Some e => exists k', looked k k' bs /\ dirlookup (S fuel) dp name k =
      (let! ip := iget (i_dev x) (de_inum (dent (view k) x e)) in ret (Some (ip, 16 * Z.of_nat e))) k'
  | None => exists k', looked k k' bs /\ dirlookup (S fuel) dp name k = Done None k'
  end.
Proof.
  intros I Hlen Hx Dk. unfold dirlookup. rewrite (bind_Done _ _ _ _ _ (read_inode_run _ _ _ Hx)), (dk_type _ _ _ Dk).
  rewrite Z.eqb_refl. cbn [negb].
  apply (dirlookup_loop_run n (entries (i_size x)) k l bs dp x n 0 name I Hlen Hx Dk ltac:(lia)).
  by apply entries_enough, Dk.
Qed.

(** C24: dirlookup.  On a directory whose blocks are allocated, [dirlookup] reads
    the entries in order and stops at the first one in use whose name agrees
    with the wanted name; its result is then the inode [iget] returns for the
    entry's inode number, with the byte offset of the entry.  If no entry
    matches, the result is the null pointer.  No block, no inode and not the
    log is changed by the search. *)
Theorem dirlookup_correct k l bs dp x n name :
  idle k l bs -> (length bs < NBUF)%nat -> k_icache k !! dp = Some x -> dir_ok (view k) x n ->
  exists k', (forall c, view k' c = view k c) /\ k_icache k' = k_icache k /\ k_log k' = k_log k /\ k_disk k' = k_disk k /\
    ((exists e, (e < n)%nat /\ matches name (dent (view k) x e) = true /\
        (forall j, (j < e)%nat -> matches name (dent (view k) x j) = false) /\
        dirlookup (S fuel) dp name k =
          (let! ip := iget (i_dev x) (de_inum (dent (view k) x e)) in ret (Some (ip, 16 * Z.of_nat e))) k') \/
     (forall e, (e < n)%nat -> matches name (dent (view k) x e) = false) /\ dirlookup (S fuel) dp name k = Done None k').
Proof.
  intros I Hlen Hx Dk. pose proof (dirlookup_run k l bs dp x n name I Hlen Hx Dk) as H.
  destruct (find_idx (matches name) (dents (view k) x n)) as [e|] eqn:E; destruct H as (k' & (l' & _ & S' & Hl') & Hr);
    exists k'; (split; [apply S'|]; split; [by eapply fs_icache|]; split; [done|]; split; [by eapply fs_disk|]).
  - left. apply find_idx_Some in E as [(d & Hd & Hm) Hbefore].
    assert (e < n)%nat as He by (apply lookup_lt_Some in Hd; by rewrite dents_length in Hd).
    rewrite dents_lookup in Hd by done. injection Hd as <-. exists e. split_and!; try done.
    intros j Hj. apply (Hbefore j); [done|]. apply dents_lookup. lia.
  - right. split; [|done]. intros e He. apply find_idx_None in E. apply (Forall_lookup_1 _ _ e _ E), dents_lookup, He.
Qed.

(** ** [dirlink] *)

(** The loop that looks for a free entry. *)
Lemma free_dirent_run r f k l bs dp x n e :
  idle k l bs -> (length bs < NBUF)%nat -> k_icache k !! dp = Some x -> dir_ok (view k) x n ->
  (e + r = n)%nat -> (r <= f)%nat ->
  exists k', looked k k' bs /\ free_dirent (S fuel) f dp (16 * Z.of_nat e) k =
    Done (16 * Z.of_nat (e + default r (find_idx unused (map (dent (view k) x) (seq e r))))) k'.
Proof.
  revert f k l e. induction r as [|r IH]; intros f k l e I Hlen Hx Dk He Hf; pose proof (dk_size _ _ _ Dk) as Hsz;
    pose proof (wh_size _ _ _ (dk_whole _ _ _ Dk)) as Hmax; change (MAXFILE * BSIZE) with 71680 in Hmax.
  - simpl. exists k. split; [exists l; split; [done|]; split; [apply fs_step_refl|done]|]. rewrite Nat.add_0_r.
    destruct f; cbn [free_dirent]; rewrite (bind_Done _ _ _ _ _ (read_inode_run _ _ _ Hx)), u32_small by lia;
      (destruct (Z.ltb_spec (16 * Z.of_nat e) (i_size x)); [lia|done]).
  - destruct f as [|f]; [lia|]. cbn [free_dirent]. rewrite (bind_Done _ _ _ _ _ (read_inode_run _ _ _ Hx)).
    rewrite (u32_small (16 * Z.of_nat e)) by lia. destruct (Z.ltb_spec (16 * Z.of_nat e) (i_size x)); [|lia]. cbn [negb].
    destruct (dirent_run k l bs dp x n e I Hlen Hx Dk ltac:(lia)) as (k1 & L1 & Hr).
    rewrite (u32_small (16 * Z.of_nat e)) in Hr by lia. rewrite (bind_Done _ _ _ _ _ Hr). cbn [fst snd].
    rewrite Z.eqb_refl. cbn [negb seq map find_idx]. unfold unused at 1.
    destruct (de_inum (dent (view k) x e) =? 0); [exists k1; split; [done|]; simpl; by rewrite Nat.add_0_r|].
    pose proof L1 as (l1 & I1 & S1 & Hl1). rewrite i32_small by (unfold DIRENT_SIZE; lia).
    replace (16 * Z.of_nat e + DIRENT_SIZE) with (16 * Z.of_nat (S e)) by (unfold DIRENT_SIZE; lia).
    destruct (IH f k1 l1 (S e) I1 Hlen ltac:(by rewrite (fs_icache _ _ _ S1)) (dir_ok_view _ _ _ _ (fs_view _ _ _ S1) Dk) ltac:(lia) ltac:(lia))
      as (k2 & L2 & Hr2).
    rewrite (map_ext _ (dent (view k) x)) in Hr2 by (intros; apply dent_view, S1).
    exists k2. split; [by eapply looked_trans|]. rewrite Hr2. do 2 f_equal.
    destruct (find_idx unused _); simpl; lia.
Qed.

(** The entry [dirlink] writes. *)
Definition new_dent (name : list Z) (inum : Z) : list Z := half_bytes inum ++ strncpy (of_list name) 14.

Lemma new_dent_matches name inum :
  0 < inum < 2 ^ 16 -> (forall i, 0 <= of_list name i < 256) ->
  matches name (new_dent name inum) = true /\ de_inum (new_dent name inum) = inum.
Proof.
  intros Hi Hb. assert (de_inum (new_dent name inum) = inum) as E.
  { unfold de_inum, new_dent, get16, get8, half_bytes. cbn [app lookup list_lookup default Nat.add]. unfold u8. rewrite Z.shiftr_div_pow2 by lia.
    pose proof (Z.div_mod inum 256 ltac:(lia)). change (2 ^ 8) with 256.
    unfold id. rewrite (Z.mod_small (inum / 256)); [lia|]. split; [apply Z.div_pos; lia|apply Z.div_lt_upper_bound; lia]. }
  split; [|done]. unfold matches. rewrite E. destruct (Z.eqb_spec inum 0); [lia|]. cbn [negb andb].
  apply Z.eqb_eq. change (de_name (new_dent name inum)) with (strncpy (of_list name) 14).
  unfold namecmp. by apply strncmp_strncpy.
Qed.
Lemma new_dent_length name inum : length (new_dent name inum) = 16%nat.
Proof. unfold new_dent. rewrite length_app, strncpy_length. done. Qed.

(** The directory after [dirlink]: entry [e] is the new one. *)
Lemma grown_fields e x : i_dev (grown e x) = i_dev x /\ i_type (grown e x) = i_type x /\ i_size (grown e x) = Z.max (i_size x) e.
Proof. unfold grown. destruct (Z.ltb_spec (i_size x) e); simpl; split_and!; try done; lia. Qed.
Lemma mapped_grown v e x b : mapped disksize v (grown e x) b <-> mapped disksize v x b.
Proof. unfold mapped. rewrite file_block_grown. unfold grown. by case_if. Qed.

Lemma dent_written v v' x e e' de :
  length de = 16%nat ->
  (forall j, 16 * Z.of_nat e' <= j < 16 * Z.of_nat e' + 16 -> mapped disksize v x (j / BSIZE)) ->
  (forall j, mapped disksize v x (j / BSIZE) -> file_byte v' (grown (16 * Z.of_nat e + DIRENT_SIZE) x) j =
     if bool_decide (16 * Z.of_nat e <= j < 16 * Z.of_nat e + DIRENT_SIZE) then of_list de (j - 16 * Z.of_nat e) else file_byte v x j) ->
  dent v' (grown (16 * Z.of_nat e + DIRENT_SIZE) x) e' = if bool_decide (e' = e) then de else dent v x e'.
Proof.
  intros Hl Hm Hb. unfold DIRENT_SIZE in *. case_bool_decide as E.
  - subst. apply list_eq. intros i. unfold dent. destruct (decide (i < 16)%nat) as [Hi|Hi].
    + unfold file_bytes. change (map ?f ?l) with (f <$> l). rewrite list_lookup_fmap, lookup_seq_lt by done. simpl.
      rewrite Hb by (apply Hm; lia). rewrite bool_decide_eq_true_2 by lia.
      replace (16 * Z.of_nat e + Z.of_nat i - 16 * Z.of_nat e) with (Z.of_nat i) by lia. unfold of_list.
      destruct (Z.ltb_spec (Z.of_nat i) 0); [lia|]. rewrite Nat2Z.id.
      destruct (lookup_lt_is_Some_2 de i) as [b ->]; [lia|done].
    + rewrite !lookup_ge_None_2; [done|lia|rewrite file_bytes_length; lia].
  - apply file_bytes_ext. intros j Hj. rewrite Hb by (apply Hm; lia). rewrite bool_decide_eq_false_2 by lia. done.
Qed.

Lemma block_of j s : 0 <= j < s -> 0 <= j / BSIZE /\ j / BSIZE * BSIZE < s.
Proof.
  unfold BSIZE. intros Hj. pose proof (Z.div_mod j 512 ltac:(lia)). pose proof (Z.mod_pos_bound j 512 ltac:(lia)).
  pose proof (Z.div_pos j 512 ltac:(lia) ltac:(lia)). lia.
Qed.

Lemma apart_ext v v' x b : v' (get_addr x 12) = v (get_addr x 12) -> apart disksize v x b -> apart disksize v' x b.
Proof.
  intros E (H1 & H2 & H3). split; [done|]. split; [done|]. intros m Hm.
  rewrite (mapped_ext _ _ _ _ _ E) in Hm. rewrite (file_block_ext _ _ _ _ E). by apply H3.
Qed.

(** Every block up to entry [e] is allocated. *)
Lemma dir_mapped v x n e b :
  dir_ok v x n -> (e <= n)%nat -> mapped disksize v x (16 * Z.of_nat e / BSIZE) ->
  0 <= b -> b * BSIZE < 16 * Z.of_nat (Nat.max n (S e)) -> mapped disksize v x b.
Proof.
  intros [W _ Hs] He Hme Hb Hlt. destruct (decide (b * BSIZE < i_size x)) as [H|H]; [by apply W|].
  replace b with (16 * Z.of_nat e / BSIZE); [done|]. unfold BSIZE in *. symmetry. apply (Z.div_unique _ _ _ (16 * Z.of_nat e - 512 * b)); lia.
Qed.

(** Writing the entry. *)
Lemma write_dent_run k l bs dp x n e de :
  txn k l bs -> disksize <= 2 ^ 31 -> (length bs < 27)%nat -> k_icache k !! dp = Some x -> dir_ok (view k) x n ->
  separate disksize (view k) x -> apart disksize (view k) x (IBLOCK (i_inum x) (k_sb k)) ->
  (e <= n)%nat -> (Z.of_nat e + 1) * 16 <= MAXFILE * BSIZE -> mapped disksize (view k) x (16 * Z.of_nat e / BSIZE) ->
  length de = 16%nat ->
  let n' := Nat.max n (S e) in let x' := grown (16 * Z.of_nat e + DIRENT_SIZE) x in
  exists k' l' bs', writei (S fuel) dp (of_list de) (16 * Z.of_nat e) DIRENT_SIZE k = Done DIRENT_SIZE k' /\
    txn k' l' bs' /\ (length bs' <= length bs + 3)%nat /\ k_disk k' = k_disk k /\ k_icache k' = <[dp := x']> (k_icache k) /\
    dir_ok (view k') x' n' /\
    dents (view k') x' n' = map (fun j => if bool_decide (j = e) then de else dent (view k) x j) (seq 0 n').
Proof.
  intros T Hsz Hlen Hx Dk Hsep Hap He Hfit Hme Hde n' x'.
  pose proof (dk_whole _ _ _ Dk) as W. pose proof (dk_size _ _ _ Dk) as Hs. change (MAXFILE * BSIZE) with 71680 in Hfit.
  destruct (grown_fields (16 * Z.of_nat e + DIRENT_SIZE) x) as (Hg1 & Hg2 & Hg3).
  assert (forall j, 0 <= j < 16 * Z.of_nat n' -> mapped disksize (view k) x (j / BSIZE)) as Hmap.
  { intros j Hj. destruct (block_of j _ Hj). by eapply dir_mapped. }
  pose proof (writei_run disksize fuel k l bs dp x (of_list de) (16 * Z.of_nat e) DIRENT_SIZE T Hsz ltac:(change (turns DIRENT_SIZE) with 2%nat; lia) Hx
    (wh_dev _ _ _ W) (wh_type _ _ _ W) (wh_size _ _ _ W) ltac:(lia) ltac:(unfold DIRENT_SIZE; lia) Hsep Hap) as Hrun.
  change (MAXFILE * BSIZE) with 71680 in Hrun.
  destruct (Z.ltb_spec (i_size x) (16 * Z.of_nat e)); [lia|]. destruct (Z.ltb_spec 71680 (16 * Z.of_nat e + DIRENT_SIZE)); [unfold DIRENT_SIZE in *; lia|].
  cbn [orb] in Hrun. destruct Hrun as (k' & l' & bs' & Hr & T' & Hlen' & Hi' & Hd' & Hbytes & Hother).
  { intros b Hb Hlt. eapply dir_mapped; try done; [lia|]. unfold DIRENT_SIZE in Hlt. lia. }
  exists k', l', bs'. split; [done|]. split; [done|]. change (turns DIRENT_SIZE) with 2%nat in Hlen'.
  assert (view k' (get_addr x 12) = view k (get_addr x 12)) as Eind.
  { apply Hother; [apply Hap|]. intros m Hm E. by apply (sp_ind _ _ _ Hsep m). }
  split; [lia|]. split; [done|]. split; [done|]. split.
  - split; [split|..]; fold x' in Hg1, Hg2, Hg3; rewrite ?Hg1, ?Hg2, ?Hg3; try apply W; try apply Dk.
    + change (MAXFILE * BSIZE) with 71680. pose proof (wh_size _ _ _ W) as H1. change (MAXFILE * BSIZE) with 71680 in H1. unfold DIRENT_SIZE. lia.
    + intros b Hb Hlt. apply mapped_grown, (mapped_ext _ _ _ _ _ Eind). eapply dir_mapped; try done. unfold DIRENT_SIZE in Hlt. lia.
    + unfold DIRENT_SIZE, n'. lia.
  - apply map_ext_in. intros j Hj. apply in_seq in Hj. apply (dent_written (view k)); try done.
    intros i Hi. apply Hmap. lia.
Qed.

Lemma entry_find (f : nat -> list Z) de p n e :
  (e < n)%nat -> p de = true -> (forall j, (j < e)%nat -> p (f j) = false) ->
  find_idx p (map (fun j => if bool_decide (j = e) then de else f j) (seq 0 n)) = Some e.
Proof.
  intros He Hp Hb. apply find_idx_Some. change (map ?g ?l) with (g <$> l). split.
  - exists de. rewrite list_lookup_fmap, lookup_seq_lt by done. simpl. by rewrite bool_decide_eq_true_2.
  - intros j d Hj Hd. rewrite list_lookup_fmap, lookup_seq_lt in Hd by lia. simpl in Hd.
    rewrite bool_decide_eq_false_2 in Hd by lia. injection Hd as <-. by apply Hb.
Qed.

Lemma dirlink_run k l bs dp x n name inum :
  let e := default n (find_idx unused (dents (view k) x n)) in
  txn k l bs -> disksize <= 2 ^ 31 -> (length bs < 27)%nat -> k_icache k !! dp = Some x -> dir_ok (view k) x n ->
  separate disksize (view k) x -> apart disksize (view k) x (IBLOCK (i_inum x) (k_sb k)) ->
  (Z.of_nat e + 1) * 16 <= MAXFILE * BSIZE -> mapped disksize (view k) x (16 * Z.of_nat e / BSIZE) ->
  0 < inum < 2 ^ 16 -> (forall i, 0 <= of_list name i < 256) ->
  (forall j, (j < n)%nat -> matches name (dent (view k) x j) = false) ->
  let n' := Nat.max n (S e) in let x' := grown (16 * Z.of_nat e + DIRENT_SIZE) x in
  exists k' l' bs', dirlink (S fuel) dp name inum k = Done 0 k' /\ txn k' l' bs' /\ k_disk k' = k_disk k /\
    k_icache k' = <[dp := x']> (k_icache k) /\ dir_ok (view k') x' n' /\
    dents (view k') x' n' = map (fun j => if bool_decide (j = e) then new_dent name inum else dent (view k) x j) (seq 0 n') /\ (length bs' < NBUF)%nat.
Proof.
  intros e T Hsz Hlen Hx Dk Hsep Hap Hfit Hme Hi Hb Hno n' x'.
  pose proof (dk_whole _ _ _ Dk) as W. pose proof (dk_size _ _ _ Dk) as Hs. change (MAXFILE * BSIZE) with 71680 in Hfit.
  assert (find_idx (matches name) (dents (view k) x n) = None) as Hnone.
  { apply find_idx_None, Forall_lookup_2. intros j d Hd. pose proof (lookup_lt_Some _ _ _ Hd) as Hj. rewrite dents_length in Hj.
    rewrite dents_lookup in Hd by done. injection Hd as <-. by apply Hno. }
  assert (e <= n)%nat as He.
  { unfold e. destruct (find_idx unused _) as [j|] eqn:E; simpl; [|lia].
    apply find_idx_lookup in E as (d & Hd & _). apply lookup_lt_Some in Hd. rewrite dents_length in Hd. lia. }
  pose proof (dirlookup_run k l bs dp x n name (tn_idle _ _ _ T) ltac:(unfold NBUF; lia) Hx Dk) as H1.
  rewrite Hnone in H1. destruct H1 as (k1 & L1 & Hr1). pose proof L1 as (l1 & I1 & S1 & Hl1).
  assert (k_icache k1 !! dp = Some x) as Hx1 by by rewrite (fs_icache _ _ _ S1).
  destruct (free_dirent_run n (entries (i_size x)) k1 l1 bs dp x n 0 I1 ltac:(unfold NBUF; lia) Hx1
    (dir_ok_view _ _ _ _ (fs_view _ _ _ S1) Dk) ltac:(lia) ltac:(by apply entries_enough)) as (k2 & L2 & Hr2).
  rewrite (map_ext _ (dent (view k) x)) in Hr2 by (intros; apply dent_view, S1).
  change (map (dent (view k) x) (seq 0 n)) with (dents (view k) x n) in Hr2. fold e in Hr2.
  pose proof (looked_trans _ _ _ _ L1 L2) as (l2 & I2 & S2 & Hl2). pose proof (fs_view _ _ _ S2) as V2.
  destruct (write_dent_run k2 l2 bs dp x n e (new_dent name inum)) as (k3 & l3 & bs3 & Hr3 & T3 & Hlen3 & Hd3 & Hi3 & Dk3 & Hdents);
    rewrite ?(fs_sb _ _ _ S2); try done.
  { by eapply txn_log. } { by rewrite (fs_icache _ _ _ S2). } { by eapply dir_ok_view. } { by eapply separate_ext; [apply V2|]. }
  { by eapply apart_ext; [apply V2|]. } { by apply (mapped_ext _ (view k)). } { apply new_dent_length. }
  rewrite (fs_icache _ _ _ S2) in Hi3. rewrite (fs_disk _ _ _ S2) in Hd3.
  rewrite (map_ext _ (fun j => if bool_decide (j = e) then new_dent name inum else dent (view k) x j)) in Hdents
    by (intros j; by rewrite (dent_view (view k))).
  exists k3, l3, bs3. split_and!; try done.
  - unfold dirlink. rewrite (bind_Done _ _ _ _ _ Hr1), (bind_Done _ _ _ _ _ (read_inode_run _ _ _ Hx1)), (bind_Done _ _ _ _ _ Hr2).
    change (0 + e)%nat with e. rewrite u32_small by lia. change (Z.to_nat DIRSIZ) with 14%nat. fold (new_dent name inum).
    by rewrite (bind_Done _ _ _ _ _ Hr3).
  - unfold NBUF. lia.
Qed.

(** C23: dirlink and dirlookup.  On a directory without an entry of that name,
    [dirlink] returns 0 and stores the name (cut to [DIRSIZ] bytes) and the
    inode number in the first free entry, or in a new entry at the end; all
    other entries and all other blocks but the directory's inode are
    unchanged, and everything is under the log.  Afterwards [dirlookup] of the
    name returns that inode number and the offset of the new entry. *)
Theorem dirlink_dirlookup k l bs dp x n name inum :
  let e := default n (find_idx unused (dents (view k) x n)) in
  txn k l bs -> disksize <= 2 ^ 31 -> (length bs < 27)%nat -> k_icache k !! dp = Some x -> dir_ok (view k) x n ->
  separate disksize (view k) x -> apart disksize (view k) x (IBLOCK (i_inum x) (k_sb k)) ->
  (Z.of_nat e + 1) * 16 <= MAXFILE * BSIZE -> mapped disksize (view k) x (16 * Z.of_nat e / BSIZE) ->
  0 < inum < 2 ^ 16 -> (forall i, 0 <= of_list name i < 256) ->
  (forall j, (j < n)%nat -> matches name (dent (view k) x j) = false) ->
  let n' := Nat.max n (S e) in let x' := grown (16 * Z.of_nat e + DIRENT_SIZE) x in
  exists k' l' bs', dirlink (S fuel) dp name inum k = Done 0 k' /\ txn k' l' bs' /\ k_disk k' = k_disk k /\
    k_icache k' = <[dp := x']> (k_icache k) /\ dir_ok (view k') x' n' /\
    dents (view k') x' n' = map (fun j => if bool_decide (j = e) then new_dent name inum else dent (view k) x j) (seq 0 n') /\
    exists k'', looked k' k'' bs' /\ dirlookup (S fuel) dp name k' =
      (let! ip := iget (i_dev x) inum in ret (Some (ip, 16 * Z.of_nat e))) k''.
Proof.
  intros e T Hsz Hlen Hx Dk Hsep Hap Hfit Hme Hi Hb Hno n' x'.
  destruct (new_dent_matches name inum Hi Hb) as [Hmt Hinum].
  destruct (dirlink_run k l bs dp x n name inum T Hsz Hlen Hx Dk Hsep Hap Hfit Hme Hi Hb Hno)
    as (k3 & l3 & bs3 & Hr3 & T3 & Hd3 & Hi3 & Dk3 & Hdents & Hlen3). fold e in Hi3, Dk3, Hdents. fold n' x' in Hi3, Dk3, Hdents.
  exists k3, l3, bs3. split_and!; try done.
  pose proof (dirlookup_run k3 l3 bs3 dp x' n' name (tn_idle _ _ _ T3) Hlen3
    ltac:(rewrite Hi3; apply list_lookup_insert_eq; by eapply lookup_lt_Some) Dk3) as H4.
  assert (e < n')%nat as He by (unfold n'; lia).
  assert (find_idx (matches name) (dents (view k3) x' n') = Some e) as Efind.
  { rewrite Hdents. apply entry_find; try done. intros j Hj. apply Hno.
    unfold e in Hj. destruct (find_idx unused _) as [i|] eqn:E; simpl in Hj; [|lia].
    apply find_idx_lookup in E as (d & Hd & _). apply lookup_lt_Some in Hd. rewrite dents_length in Hd. lia. }
  rewrite Efind in H4. destruct H4 as (k4 & L4 & Hr4). exists k4. split; [done|]. rewrite Hr4.
  assert (dent (view k3) x' e = new_dent name inum) as ->.
  { pose proof (dents_lookup (view k3) x' n' e He) as Hd. rewrite Hdents in Hd.
    change (map ?f ?l) with (f <$> l) in Hd. rewrite list_lookup_fmap, lookup_seq_lt in Hd by done. simpl in Hd.
    rewrite bool_decide_eq_true_2 in Hd by reflexivity. congruence. }
  rewrite Hinum. unfold x'. by destruct (grown_fields (16 * Z.of_nat e + DIRENT_SIZE) x) as (-> & _).
Qed.

End Lookup.

(** ** A concrete directory: ["."], [".."] and ["a"] in block 40 *)

Definition dir_inode : inode := Inode ROOTDEV 5 1 0 T_DIR 0 0 1 48 (40 :: replicate 12 0).
Definition dir_block : list Z :=
  new_dent [46] 5 ++ new_dent [46; 46] 1 ++ new_dent [97] 7 ++ replicate 464 0.
Definition dir_disk (c : Z) : list Z := if c =? 40 then dir_block else empty_block.
Definition demo_dir : kernel :=
  set_k_sb demo_sb (upd_log (fun lg => set_l_size LOGSIZE (set_l_outstanding 1 lg))
    (upd_inode 0 (fun _ => dir_inode) (cache_on dir_disk))).

Lemma dir_disk_length c : length (dir_disk c) = 512%nat.
Proof. unfold dir_disk. by case_if. Qed.
Lemma demo_dir_txn : txn demo_dir demo_order [].
Proof. by apply txn_sb, idle_txn, idle_inode, cache_on_idle, dir_disk_length. Qed.
Lemma demo_dir_view c : view demo_dir c = dir_disk c.
Proof. reflexivity. Qed.
Lemma dir_inode_mapped v : mapped 200 v dir_inode 0.
Proof. split; [done|]. split; [done|]. split; [done|]. unfold NDIRECT. lia. Qed.
Lemma dir_inode_only v m : mapped 200 v dir_inode m -> m = 0.
Proof.
  intros (Hm & Hb & _ & Hi). destruct (decide (m < 12)) as [Hlt|Hge].
  - unfold file_block in Hb. destruct (Z.ltb_spec m NDIRECT) as [_|Hbad]; [|by unfold NDIRECT in Hbad; lia].
    destruct (decide (m = 0)) as [|Hne]; [done|]. exfalso. apply Hb. unfold get_addr.
    replace (Z.to_nat m) with (S (Z.to_nat (m - 1))) by lia. change (i_addrs dir_inode) with (40 :: replicate 12 0).
    assert (forall i, (40 :: replicate 12 0) !! S i = replicate 12 0 !! i) as -> by done. by rewrite lookup_replicate_2 by lia.
  - destruct Hi as [Hi _]; [unfold NDIRECT; lia|]. done.
Qed.
Lemma demo_dir_ok v : dir_ok 200 v dir_inode 3.
Proof.
  split; [split|..]; try done. intros b Hb Hlt. change (i_size dir_inode) with 48 in Hlt. unfold BSIZE in Hlt.
  replace b with 0 by lia. apply dir_inode_mapped.
Qed.

Lemma dirlookup_correct_witness :
  exists k', @dirlookup (Memide.driver 200) 1 no_devices 0 [97] demo_dir =
    (let! ip := iget ROOTDEV 7 in ret (Some (ip, 32))) k'.
Proof.
  destruct (@dirlookup_correct (Memide.driver 200) 200 (memide_ok 200) 0 no_devices demo_dir demo_order [] 0 dir_inode 3 [97])
    as (k' & _ & _ & _ & _ & [(e & He & Hm & Hb & Hr)|[Hno _]]).
  - apply demo_dir_txn.
  - unfold NBUF. simpl. lia.
  - reflexivity.
  - apply demo_dir_ok.
  - exists k'. destruct e as [|[|[|e]]].
    + vm_compute in Hm. discriminate Hm.
    + vm_compute in Hm. discriminate Hm.
    + assert (de_inum (dent (view demo_dir) dir_inode 2) = 7) as E by (vm_compute; reflexivity).
      rewrite E in Hr. exact Hr.
    + lia.
  - specialize (Hno 2%nat ltac:(lia)). vm_compute in Hno. discriminate Hno.
Defined.

Lemma dirlink_dirlookup_witness :
  exists k' k'', @dirlink (Memide.driver 200) 1 no_devices 0 [98; 99] 9 demo_dir = Done 0 k' /\
    @dirlookup (Memide.driver 200) 1 no_devices 0 [98; 99] k' = (let! ip := iget ROOTDEV 9 in ret (Some (ip, 48))) k''.
Proof.
  destruct (@dirlink_dirlookup (Memide.driver 200) 200 (memide_ok 200) 0 no_devices demo_dir demo_order [] 0 dir_inode 3 [98; 99] 9)
    as (k' & l' & bs' & H1 & _ & _ & _ & _ & _ & k'' & _ & H2).
  - apply demo_dir_txn.
  - lia.
  - simpl. lia.
  - reflexivity.
  - apply demo_dir_ok.
  - split; [intros a b Ha Hb _|intros a Ha]; apply dir_inode_only in Ha; [apply dir_inode_only in Hb; congruence|by rewrite Ha].
  - split; [done|]. split; [done|]. intros m Hm. by apply dir_inode_only in Hm as ->.
  - by vm_compute.
  - apply dir_inode_mapped.
  - lia.
  - apply of_list_byte. repeat constructor; lia.
  - intros [|[|[|j]]] Hj; [by vm_compute..|lia].
  - exists k', k''. split; [exact H1|exact H2].
Defined.
