(* ===== verification/Mkfs.v ===== *)
(** Mkfs: mkfs.c, the host program that builds the initial image of the
    block-group file system (the build without [xv6ffs]).

    The state is the image file, as sectors, and the program's globals.  The
    host is the one the build assumes: a little-endian machine on which
    [lseek], [read] and [write] of the open image succeed, a [read] past the
    end of the image apart.  [Panicked] is a failed [assert] or an
    [exit(1)]; what [printf] writes is left out. *)

From S2P Require Import Prelude Kernel StringLib Bytes FsLayout Fs.

Record mkfs := Mkfs {
  img : Z -> list Z;
  img_size : Z;
  m_sb : superblock;
  freeinode : Z;
  freeblock : Z
}.

Definition set_img (f : Z -> list Z) (n : Z) (m : mkfs) : mkfs :=
  Mkfs f n (m_sb m) (freeinode m) (freeblock m).
Definition set_m_sb (sb : superblock) (m : mkfs) : mkfs :=
  Mkfs (img m) (img_size m) sb (freeinode m) (freeblock m).
Definition set_freeinode (v : Z) (m : mkfs) : mkfs :=
  Mkfs (img m) (img_size m) (m_sb m) v (freeblock m).
Definition set_freeblock (v : Z) (m : mkfs) : mkfs :=
  Mkfs (img m) (img_size m) (m_sb m) (freeinode m) v.

(** The image with sector [b] replaced. *)
Definition put_sect (f : Z -> list Z) (b : Z) (d : list Z) : Z -> list Z :=
  fun c => if c =? b then d else f c.

(** The words the on-disk bytes of [x] make up on the host. *)
Definition xshort (x : Z) : Z := get16 (half_bytes x) 0.
Definition xint (x : Z) : Z := get32 (word_bytes x) 0.

(** ** Sectors *)

(** The sector [lseek(fsfd, sec * BSIZE, 0)] moves to: the product is a [uint]. *)
Definition seek (sec : Z) : Z := u32 (sec * BSIZE) / BSIZE.

Definition wsect (sec : Z) (buf : list Z) : M mkfs unit :=
  modify (fun m => set_img (put_sect (img m) (seek sec) buf) (Z.max (img_size m) (seek sec + 1)) m).

Definition rsect (sec : Z) : M mkfs (list Z) :=
  let! m := gets id in
  if img_size m <=? seek sec then panic "read" else ret (img m (seek sec)).

(** ** Inodes *)

(** A zeroed [struct dinode]. *)
Definition zero_dinode : inode := Inode 0 0 0 0 0 0 0 0 0 (replicate 13 0).

(** The offset of the [inum % IPB]-th [struct dinode] of a block. *)
Definition mkfs_off (inum : Z) : nat := Z.to_nat (DINODE_SIZE * (inum mod IPB)).

Definition winode (inum : Z) (ip : inode) : M mkfs unit :=
  let! sb := gets m_sb in
  let bn := IBLOCK inum sb in
  let! buf := rsect bn in
  wsect bn (store_dinode (mkfs_off inum) ip buf).

Definition rinode (inum : Z) : M mkfs inode :=
  let! sb := gets m_sb in
  let! buf := rsect (IBLOCK inum sb) in
  ret (load_dinode (mkfs_off inum) buf zero_dinode).

Definition ialloc (type : Z) : M mkfs Z :=
  let! inum := gets freeinode in
  modify (set_freeinode (u32 (inum + 1))) ;;;
  winode inum (set_i_type (xshort type) (set_i_nlink (xshort 1) (set_i_size (xint 0) zero_dinode))) ;;;
  ret inum.

(** ** [iappend] *)

(** [xint(DBLOCK(freeblock, sb)); ++freeblock] *)
Definition take_block : M mkfs Z :=
  let! m := gets id in
  modify (set_freeblock (u32 (freeblock m + 1))) ;;;
  ret (xint (DBLOCK (freeblock m) (m_sb m))).

Definition addr (din : inode) (i : Z) : Z := default 0 (i_addrs din !! Z.to_nat i).
Definition set_addr (i a : Z) (din : inode) : inode :=
  set_i_addrs (<[Z.to_nat i := a]> (i_addrs din)) din.

(** The body of the loop up to the choice of [x]: the block of the file's
    block [fbn], allocated when there is none. *)
Definition data_block (din : inode) (fbn : Z) : M mkfs (inode * Z) :=
  if fbn <? NDIRECT then
    let! din :=
      (if xint (addr din fbn) =? 0 then let! a := take_block in ret (set_addr fbn a din) else ret din) in
    ret (din, xint (addr din fbn))
  else
    let! din :=
      (if xint (addr din NDIRECT) =? 0 then let! a := take_block in ret (set_addr NDIRECT a din) else ret din) in
    let o := Z.to_nat (4 * (fbn - NDIRECT)) in
    let! indirect := rsect (xint (addr din NDIRECT)) in
    let! indirect :=
      (if get32 indirect o =? 0 then
         let! a := take_block in
         let indirect := put32 o a indirect in
         wsect (xint (addr din NDIRECT)) indirect ;;;
         ret indirect
       else ret indirect) in
    ret (din, xint (get32 indirect o)).

(** [while(n > 0)]: every turn copies at least a byte. *)
Fixpoint iappend_loop (fuel : nat) (din : inode) (off : Z) (p : list Z) : M mkfs (inode * Z) :=
  match p with
  | [] => ret (din, off)
  | _ =>
      match fuel with
      | O => exhausted
      | S fuel =>
          let fbn := off / BSIZE in
          if MAXFILE <=? fbn then panic "assert" else
          let! r := data_block din fbn in
          let n1 := Z.min (Z.of_nat (length p)) (u32 ((fbn + 1) * BSIZE - off)) in
          let! buf := rsect r.2 in
          wsect r.2 (list_inserts (Z.to_nat (off - fbn * BSIZE)) (take (Z.to_nat n1) p) buf) ;;;
          iappend_loop fuel r.1 (u32 (off + n1)) (drop (Z.to_nat n1) p)
      end
  end.

Definition iappend (inum : Z) (p : list Z) : M mkfs unit :=
  let! din := rinode inum in
  let! r := iappend_loop (length p) din (xint (i_size din)) p in
  winode inum (set_i_size (xint r.2) r.1).

(** ** The bitmap of the first block group *)

Definition balloc (used : Z) : M mkfs unit :=
  if BPB <=? used then panic "assert" else
  let! sb := gets m_sb in
  wsect (sb_bgstart sb) (foldl (fun buf i => set_bit i buf) zero_block (seqZ 0 used)).

(** ** [main] *)

Definition nlog : Z := LOGSIZE.
Definition ninodeblocks : Z := NINODEBLOCKS * BLOCKGROUPS.
Definition nbitmap : Z := BLOCKGROUPS.
Definition NINODES : Z := IPBG * BLOCKGROUPS.
Definition nmeta : Z := 2 + nlog + ninodeblocks + nbitmap.
Definition nblocks : Z := FSSIZE - nmeta.

Definition mkfs_sb : superblock := {|
  sb_size := xint (NDATABLOCKS * BLOCKGROUPS);
  sb_nblocks := xint nblocks;
  sb_ninodes := xint NINODES;
  sb_nlog := xint nlog;
  sb_logstart := xint 2;
  sb_bgstart := xint (2 + nlog);
  sb_nblockgroups := xint BLOCKGROUPS;
  sb_bpbg := xint BPBG;
  sb_ipbg := xint IPBG
|}.

(** [memset(buf, 0, sizeof(buf)); memmove(buf, &sb, sizeof(sb))] *)
Definition sb_block (sb : superblock) : list Z :=
  list_inserts 0
    (concat (map word_bytes [sb_size sb; sb_nblocks sb; sb_ninodes sb; sb_nlog sb; sb_logstart sb;
       sb_bgstart sb; sb_nblockgroups sb; sb_bpbg sb; sb_ipbg sb])) zero_block.

(** [for(i = 0; i < FSSIZE; i++) wsect(i, zeroes)] *)
Fixpoint clear_image (i : Z) (n : nat) : M mkfs unit :=
  match n with
  | O => ret tt
  | S n => wsect i zero_block ;;; clear_image (i + 1) n
  end.

(** A zeroed [struct dirent] given its number and the first [DIRSIZ] bytes of
    its name. *)
Definition mkdirent (inum : Z) (name : list Z) : list Z :=
  half_bytes (xshort inum) ++ take 14 name ++ replicate (14 - length name) 0.

(** [while((cc = read(fd, buf, sizeof(buf))) > 0) iappend(inum, buf, cc)] *)
Fixpoint copy_file (fuel : nat) (inum : Z) (data : list Z) : M mkfs unit :=
  match data with
  | [] => ret tt
  | _ =>
      match fuel with
      | O => exhausted
      | S fuel => iappend inum (take 512 data) ;;; copy_file fuel inum (drop 512 data)
      end
  end.

(** A file argument: its name, and its bytes if [open] finds it. *)
Definition arg : Type := list Z * option (list Z).

Definition skip_underscore (name : list Z) : list Z :=
  match name with c :: s => if c =? 95 then s else name | [] => name end.

Definition add_file (rootino : Z) (a : arg) : M mkfs unit :=
  if existsb (fun c => c =? 47) a.1 then panic "assert" else
  match a.2 with
  | None => panic "open"
  | Some data =>
      let! inum := ialloc T_FILE in
      iappend rootino (mkdirent inum (skip_underscore a.1)) ;;;
      copy_file (length data) inum data
  end.

Fixpoint add_files (rootino : Z) (l : list arg) : M mkfs unit :=
  match l with
  | [] => ret tt
  | a :: l => add_file rootino a ;;; add_files rootino l
  end.

(** The run after the image is opened, on the arguments that follow it. *)
Definition main (files : list arg) : M mkfs unit :=
  modify (set_m_sb mkfs_sb) ;;;
  modify (set_freeblock nmeta) ;;;
  clear_image 0 (Z.to_nat FSSIZE) ;;;
  wsect 1 (sb_block mkfs_sb) ;;;
  let! rootino := ialloc T_DIR in
  if negb (rootino =? ROOTINO) then panic "assert" else
  iappend rootino (mkdirent rootino [46]) ;;;
  iappend rootino (mkdirent rootino [46; 46]) ;;;
  add_files rootino files ;;;
  let! din := rinode rootino in
  let off := u32 ((xint (i_size din) / BSIZE + 1) * BSIZE) in
  winode rootino (set_i_size (xint off) din) ;;;
  let! used := gets freeblock in
  balloc used.

(** The image just created by [open], and the globals' initial values. *)
Definition mkfs_start : mkfs :=
  Mkfs (fun _ => zero_block) 0 (Superblock 0 0 0 0 0 0 0 0 0) 1 0.
