(* ===== verification/MkfsProof.v ===== *)
(** MkfsProof: the image [mkfs] builds holds the files it was given, as the
    kernel reads them. *)

From S2P Require Import Prelude Kernel StringLib Bytes FsLayout Fs FsWrite FsAlloc Mkfs.

(** ** The layout [mkfs] works with *)

Lemma xint_u32 x : xint x = u32 x.
Proof. unfold xint, get32. rewrite <- word_split. done. Qed.
Lemma xshort_u16 x : xshort x = u16 x.
Proof. unfold xshort, get16. rewrite <- half_split. done. Qed.
Lemma xint_small x : 0 <= x < 2 ^ 32 -> xint x = x.
Proof. rewrite xint_u32. apply u32_small. Qed.

Lemma mkfs_sb_eq : mkfs_sb = Superblock 101500 101500 725 30 2 32 25 4065 29.
Proof. by vm_compute. Qed.

Lemma seek_small b : 0 <= b < 2 ^ 23 -> seek b = b.
Proof.
  intros Hb. unfold seek. change BSIZE with 512. rewrite u32_small by lia. apply Z.div_mul. lia.
Qed.

(** Data block [b] of the first group. *)
Lemma DBLOCK_first b : 0 <= b < 4060 -> DBLOCK b mkfs_sb = b + 36.
Proof.
  intros Hb. unfold DBLOCK. rewrite mkfs_sb_eq. change BPB with 4060. change NINODEBLOCKS with 4. cbn [sb_bpbg sb_bgstart].
  rewrite Z.div_small, Z.mod_small by lia. rewrite u32_small; lia.
Qed.
Lemma IBLOCK_first i : 0 <= i < 29 -> IBLOCK i mkfs_sb = 33 + i / 8.
Proof.
  intros Hi. unfold IBLOCK. rewrite mkfs_sb_eq. change IPB with 8. cbn [sb_bpbg sb_bgstart sb_ipbg].
  rewrite Z.div_small, Z.mod_small by lia. pose proof (Z.div_le_upper_bound i 8 4). rewrite u32_small; [lia|].
  pose proof (Z.div_pos i 8). lia.
Qed.

(** [mkfs] and the kernel put an inode of the first group at the same offset... *)
Lemma mkfs_off_first i : 0 <= i < 29 -> mkfs_off i = dinode_off i mkfs_sb.
Proof.
  intros Hi. unfold mkfs_off, dinode_off, DINODEOFFSET. rewrite mkfs_sb_eq. cbn [sb_ipbg].
  by rewrite (Z.mod_small i 29) by lia.
Qed.
(** ... and the first inode of the second group at different ones. *)
Lemma mkfs_off_second : mkfs_off 29 = 320%nat /\ dinode_off 29 mkfs_sb = 0%nat.
Proof. by vm_compute. Qed.

Lemma inode_off_bound i : (mkfs_off i + 64 <= 512)%nat.
Proof.
  unfold mkfs_off. change DINODE_SIZE with 64. change IPB with 8. pose proof (Z.mod_pos_bound i 8). lia.
Qed.
Lemma inode_off_apart i j :
  0 <= i -> 0 <= j -> i <> j -> i / 8 = j / 8 -> (mkfs_off i + 64 <= mkfs_off j \/ mkfs_off j + 64 <= mkfs_off i)%nat.
Proof.
  intros Hi Hj Hne He. unfold mkfs_off. change DINODE_SIZE with 64. change IPB with 8.
  pose proof (Z.mod_pos_bound i 8). pose proof (Z.mod_pos_bound j 8).
  pose proof (Z.div_mod i 8). pose proof (Z.div_mod j 8). lia.
Qed.

(** ** Sectors *)

Lemma put_sect_eq f b d : put_sect f b d b = d.
Proof. unfold put_sect. by rewrite Z.eqb_refl. Qed.
Lemma put_sect_ne f b d c : c <> b -> put_sect f b d c = f c.
Proof. intros. unfold put_sect. by rewrite (proj2 (Z.eqb_neq c b)). Qed.

(** A state whose image is [f], of the full size, and whose next free block is [fb]. *)
Definition at_ (f : Z -> list Z) (fi fb : Z) : mkfs := Mkfs f FSSIZE mkfs_sb fi fb.

Lemma FSSIZE_eq : FSSIZE = 101657.
Proof. done. Qed.

Lemma rsect_run b f fi fb : 0 <= b < 4096 -> rsect b (at_ f fi fb) = Done (f b) (at_ f fi fb).
Proof.
  intros Hb. unfold rsect. rewrite bind_gets. rewrite seek_small by lia. unfold id.
  change (img_size (at_ f fi fb)) with FSSIZE. rewrite (proj2 (Z.leb_gt _ _)) by (rewrite FSSIZE_eq; lia). done.
Qed.
Lemma wsect_run b d f fi fb : 0 <= b < 4096 -> wsect b d (at_ f fi fb) = Done tt (at_ (put_sect f b d) fi fb).
Proof.
  intros Hb. unfold wsect, modify. rewrite seek_small by lia. unfold at_ at 1, set_img. cbn [img_size at_ m_sb freeinode freeblock].
  rewrite FSSIZE_eq. by rewrite Z.max_l by lia.
Qed.
Lemma take_block_run f fi fb :
  0 <= fb < 4060 -> take_block (at_ f fi fb) = Done (fb + 36) (at_ f fi (fb + 1)).
Proof.
  intros Hb. unfold take_block. rewrite bind_gets, bind_modify. unfold id.
  change (freeblock (at_ f fi fb)) with fb. change (m_sb (at_ f fi fb)) with mkfs_sb.
  rewrite DBLOCK_first, xint_small, u32_small by lia. done.
Qed.

(** ** The blocks of the files

    The slots of an inode: [-1] is its indirect block, [0] to [139] are the
    blocks of its data. *)

Definition slot (f : Z -> list Z) (x : inode) (s : Z) : Z :=
  if s =? -1 then addr x 12
  else if s <? 12 then addr x s
  else if addr x 12 =? 0 then 0
  else get32 (f (addr x 12)) (Z.to_nat (4 * (s - 12))).

Definition alter_one {A} (g : Z -> A) (i : Z) (v : A) : Z -> A := fun j => if j =? i then v else g j.
Lemma alter_at {A} (g : Z -> A) i v : alter_one g i v i = v.
Proof. unfold alter_one. by rewrite Z.eqb_refl. Qed.
Lemma alter_off {A} (g : Z -> A) i v j : j <> i -> alter_one g i v j = g j.
Proof. intros. unfold alter_one. by rewrite (proj2 (Z.eqb_neq j i)). Qed.

(** Inodes [1] to [nf - 1] are [D]; inode [i] has its first [nb i] blocks; no
    block is in two slots, and those from [fb] on are unused and zero. *)
Record tables (f : Z -> list Z) (D : Z -> inode) (nf : Z) (nb : Z -> Z) (fb : Z) : Prop := {
  t_len : forall b, length (f b) = 512%nat;
  t_ok : forall i, 0 < i < nf -> dinode_ok (D i);
  t_range : forall i s, 0 < i < nf -> -1 <= s < 140 -> slot f (D i) s <> 0 -> 193 <= slot f (D i) s < fb + 36;
  t_inj : forall i s j t, 0 < i < nf -> -1 <= s < 140 -> 0 < j < nf -> -1 <= t < 140 ->
    slot f (D i) s <> 0 -> slot f (D i) s = slot f (D j) t -> i = j /\ s = t;
  t_alloc : forall i s, 0 < i < nf -> 0 <= s < 140 -> (slot f (D i) s <> 0 <-> s < nb i);
  t_zero : forall b, fb + 36 <= b < 4096 -> f b = zero_block;
  t_fb : 157 <= fb <= 4060
}.

(** Giving the next free block to an empty slot. *)
Lemma tables_alloc f D nf nb fb cur s f' D' nb' :
  tables f D nf nb fb -> fb < 4060 -> 0 < cur < nf -> -1 <= s < 140 ->
  (forall i t, 0 < i < nf -> -1 <= t < 140 ->
     slot f' (D' i) t = if bool_decide (i = cur /\ t = s) then fb + 36 else slot f (D i) t) ->
  (forall i t, 0 < i < nf -> 0 <= t < 140 -> t < nb' i <-> t < nb i \/ i = cur /\ t = s) ->
  (forall b, length (f' b) = 512%nat) -> (forall i, 0 < i < nf -> dinode_ok (D' i)) ->
  (forall b, fb + 37 <= b < 4096 -> f' b = f b) ->
  tables f' D' nf nb' (fb + 1).
Proof.
  intros [T1 T2 T3 T4 T5 T6 T7] Hfb Hc Hs Hsl Hnb Hlen Hok Hf. split; try done; try lia.
  - intros i t Hi Ht. rewrite Hsl by done. case_bool_decide; [lia|]. intros Hz. pose proof (T3 i t Hi Ht Hz). lia.
  - intros i t j u Hi Ht Hj Hu. rewrite !Hsl by done. repeat case_bool_decide; try (intros; lia).
    + intros _ He. pose proof (T3 j u Hj Hu). lia.
    + intros Hz He. pose proof (T3 i t Hi Ht Hz). lia.
    + by apply T4.
  - intros i t Hi Ht. rewrite Hsl, Hnb by lia. case_bool_decide; [naive_solver lia|]. rewrite <- T5 by done. naive_solver.
  - intros b Hb. rewrite Hf by lia. apply T6. lia.
Qed.

(** Writing a data block. *)
Lemma slot_data f D nf nb fb i s d j t :
  tables f D nf nb fb -> 0 < i < nf -> 0 <= s < 140 -> slot f (D i) s <> 0 -> 0 < j < nf -> -1 <= t < 140 ->
  slot (put_sect f (slot f (D i) s) d) (D j) t = slot f (D j) t.
Proof.
  intros T Hi Hs H0 Hj Ht. unfold slot at 1 3. repeat case_if; try done. rewrite put_sect_ne; [done|].
  intros He. b2p. destruct (t_inj _ _ _ _ _ T i s j (-1)) as [_ C]; try done; lia.
Qed.
Lemma tables_data f D nf nb fb i s d :
  tables f D nf nb fb -> 0 < i < nf -> 0 <= s < 140 -> slot f (D i) s <> 0 -> length d = 512%nat ->
  tables (put_sect f (slot f (D i) s) d) D nf nb fb.
Proof.
  intros T Hi Hs H0 Hd. pose proof T as [T1 T2 T3 T4 T5 T6 T7]. pose proof (T3 i s Hi ltac:(lia) H0).
  split; try done.
  - intros b. unfold put_sect. by case_if.
  - intros j t Hj Ht. erewrite slot_data by done. by apply T3.
  - intros j t j' t' Hj Ht Hj' Ht'. erewrite !slot_data by done. by apply T4.
  - intros j t Hj Ht. erewrite slot_data; [by apply T5|done..|lia].
  - intros b Hb. rewrite put_sect_ne by lia. by apply T6.
Qed.

(** The slots after each of the three stores of an address. *)
Lemma addr_set x k a j :
  length (i_addrs x) = 13%nat -> 0 <= k <= 12 -> 0 <= j -> addr (set_addr k a x) j = if j =? k then a else addr x j.
Proof.
  intros Hl Hk Hj. unfold addr, set_addr. cbn [i_addrs set_i_addrs]. case_if; b2p.
  - subst j. by rewrite list_lookup_insert_eq by lia.
  - by rewrite list_lookup_insert_ne by lia.
Qed.
Lemma slot_direct f x k a s :
  length (i_addrs x) = 13%nat -> 0 <= k < 12 -> -1 <= s ->
  slot f (set_addr k a x) s = if s =? k then a else slot f x s.
Proof.
  intros Hl Hk Hs. unfold slot. rewrite !(addr_set x k a 12) by lia. rewrite (proj2 (Z.eqb_neq 12 k)) by lia.
  destruct (Z.eqb_spec s (-1)); [by rewrite (proj2 (Z.eqb_neq s k)) by lia|].
  destruct (Z.ltb_spec s 12); [by rewrite addr_set by lia|]. by rewrite (proj2 (Z.eqb_neq s k)) by lia.
Qed.
Lemma get8_zero j : get8 zero_block j = 0.
Proof. unfold get8, zero_block. destruct (decide (j < 512)%nat); [by rewrite lookup_replicate_2|]. rewrite lookup_ge_None_2; [done|]. rewrite length_replicate. lia. Qed.
Lemma get32_zero j : get32 zero_block j = 0.
Proof. unfold get32. by rewrite !get8_zero. Qed.
Lemma slot_indirect f x a s :
  length (i_addrs x) = 13%nat -> addr x 12 = 0 -> a <> 0 -> f a = zero_block -> -1 <= s ->
  slot f (set_addr 12 a x) s = if s =? -1 then a else slot f x s.
Proof.
  intros Hl H0 Ha Hf Hs. unfold slot. rewrite !(addr_set x 12 a 12) by lia. rewrite Z.eqb_refl.
  destruct (Z.eqb_spec s (-1)); [done|]. destruct (Z.ltb_spec s 12).
  - rewrite addr_set by lia. by rewrite (proj2 (Z.eqb_neq s 12)) by lia.
  - rewrite (proj2 (Z.eqb_neq a 0)), Hf, get32_zero by done. by rewrite H0.
Qed.
Lemma slot_entry f x k a s :
  addr x 12 <> 0 -> (length (f (addr x 12)) = 512)%nat -> 0 <= a < 2 ^ 32 -> 12 <= k < 140 -> -1 <= s < 140 ->
  slot (put_sect f (addr x 12) (put32 (Z.to_nat (4 * (k - 12))) a (f (addr x 12)))) x s
  = if s =? k then a else slot f x s.
Proof.
  intros H0 Hl Ha Hk Hs. unfold slot. rewrite put_sect_eq.
  destruct (Z.eqb_spec s (-1)); [by rewrite (proj2 (Z.eqb_neq s k)) by lia|].
  destruct (Z.ltb_spec s 12); [by rewrite (proj2 (Z.eqb_neq s k)) by lia|].
  rewrite (proj2 (Z.eqb_neq (addr x 12) 0)) by done. destruct (Z.eqb_spec s k) as [->|].
  - rewrite get32_put32 by lia. by apply u32_small.
  - by rewrite get32_put32_ne by lia.
Qed.
Lemma slot_other f b d x s : addr x 12 <> b -> slot (put_sect f b d) x s = slot f x s.
Proof. intros Hb. unfold slot. by rewrite put_sect_ne. Qed.

Lemma set_addr_ok x k a : dinode_ok x -> 0 <= a < 2 ^ 32 -> dinode_ok (set_addr k a x).
Proof.
  intros [? ? ? ? ? [Hl HF]] Ha. split; try done. cbn [set_addr i_addrs set_i_addrs]. split; [by rewrite length_insert|].
  by apply Forall_insert.
Qed.

(** ** One file grows

    [cur] is the inode being written; the others stay as they are. *)
Section Grow.
Context (D : Z -> inode) (nf cur fi : Z) (NB : Z -> Z).
Hypothesis Hcur : 0 < cur < nf.

Definition T (f : Z -> list Z) (x : inode) (n fb : Z) : Prop :=
  tables f (alter_one D cur x) nf (alter_one NB cur n) fb.

(** From [(f, x, n, fb)] to [(f', x', n', fb')] by allocation only. *)
Record grows (f : Z -> list Z) (x : inode) (n fb : Z) (f' : Z -> list Z) (x' : inode) (n' fb' : Z) : Prop := {
  g_T : T f' x' n' fb';
  g_addrs : exists l, x' = set_i_addrs l x;
  g_low : forall b, b < 193 -> f' b = f b;
  g_slot : forall i s, 0 < i < nf -> -1 <= s < 140 -> slot f (alter_one D cur x i) s <> 0 ->
    slot f' (alter_one D cur x' i) s = slot f (alter_one D cur x i) s;
  g_data : forall i s, 0 < i < nf -> 0 <= s < 140 -> slot f (alter_one D cur x i) s <> 0 ->
    f' (slot f (alter_one D cur x i) s) = f (slot f (alter_one D cur x i) s);
  g_new : forall s, 0 <= s < 140 -> slot f x s = 0 -> slot f' x' s <> 0 -> f' (slot f' x' s) = zero_block
}.

Lemma grows_refl f x n fb : T f x n fb -> grows f x n fb f x n fb.
Proof. intros HT. split; try done. exists (i_addrs x). by destruct x. Qed.

Lemma grows_trans f x n fb f1 x1 n1 fb1 f2 x2 n2 fb2 :
  grows f x n fb f1 x1 n1 fb1 -> grows f1 x1 n1 fb1 f2 x2 n2 fb2 -> grows f x n fb f2 x2 n2 fb2.
Proof.
  intros [A1 [l A2] A3 A4 A5 A6] [B1 [l' B2] B3 B4 B5 B6]. split; try done.
  - exists l'. by rewrite B2, A2.
  - intros b Hb. by rewrite B3, A3.
  - intros i s Hi Hs H0. pose proof (A4 i s Hi Hs H0) as E. rewrite B4; [done..|by rewrite E].
  - intros i s Hi Hs H0. pose proof (A4 i s Hi ltac:(lia) H0) as E. pose proof (A5 i s Hi Hs H0) as E'.
    rewrite <- E in E' |- *. rewrite B5; [done..|by rewrite E].
  - intros s Hs H0 H2. destruct (decide (slot f1 x1 s = 0)) as [H1|H1]; [by apply B6|].
    specialize (B4 cur s Hcur ltac:(lia)). specialize (B5 cur s Hcur Hs). rewrite !alter_at in B4. rewrite !alter_at in B5.
    rewrite B4, B5 by done. by apply A6.
Qed.

(** [grows] when a slot of [cur] takes the block [fb]. *)
Lemma grows_alloc f x n fb s f' x' n' :
  T f x n fb -> fb < 4060 -> -1 <= s < 140 -> slot f x s = 0 ->
  (exists l, x' = set_i_addrs l x) -> dinode_ok x' -> (forall b, length (f' b) = 512%nat) ->
  (forall t, -1 <= t < 140 -> slot f' x' t = if t =? s then fb + 36 else slot f x t) ->
  (forall b, b = addr x 12 /\ b <> 0 \/ f' b = f b) ->
  (forall t, 0 <= t < 140 -> t < n' <-> t < n \/ t = s) ->
  grows f x n fb f' x' n' (fb + 1).
Proof.
  intros HT Hfb Hs H0 Hx Hok Hlen Hsl Hf Hn. pose proof HT as [T1 T2 T3 T4 T5 T6 T7].
  assert (forall i t, 0 < i < nf -> -1 <= t < 140 -> slot f (alter_one D cur x i) t <> 0 ->
            193 <= slot f (alter_one D cur x i) t < fb + 36) as Hr by auto.
  pose proof (Hr cur (-1) Hcur ltac:(lia)) as Hx12. rewrite alter_at in Hx12. unfold slot in Hx12. simpl in Hx12.
  assert (forall b, b < 193 \/ fb + 36 <= b -> f' b = f b) as Hlow.
  { intros b Hb. destruct (Hf b) as [[-> ?]|E]; [|done]. lia. }
  assert (forall i t, 0 < i < nf -> -1 <= t < 140 ->
     slot f' (alter_one D cur x' i) t = if bool_decide (i = cur /\ t = s) then fb + 36 else slot f (alter_one D cur x i) t) as Hall.
  { intros i t Hi Ht. destruct (decide (i = cur)) as [->|Hne].
    - rewrite !alter_at, Hsl by done. case_bool_decide as C; case_cmp; try done; [by destruct C|]. by exfalso; apply C.
    - rewrite !alter_off by done. rewrite bool_decide_eq_false_2 by naive_solver. unfold slot. repeat case_if; try done.
      destruct (Hf (addr (D i) 12)) as [[He _]|E']; [|by rewrite E']. b2p.
      destruct (T4 i (-1) cur (-1)) as [C _]; try done; rewrite ?alter_at, ?alter_off by done; done. }
  split.
  - eapply tables_alloc; [exact HT|done|exact Hcur|exact Hs|exact Hall| |done| |].
    + intros i t Hi Ht. destruct (decide (i = cur)) as [->|Hne]; [rewrite !alter_at, Hn by done; naive_solver|].
      rewrite !alter_off by done. naive_solver.
    + intros i Hi. destruct (decide (i = cur)) as [->|Hne]; [by rewrite alter_at|]. rewrite alter_off by done.
      specialize (T2 i Hi). by rewrite alter_off in T2.
    + intros b Hb. apply Hlow. lia.
  - done.
  - intros b Hb. apply Hlow. lia.
  - intros i t Hi Ht Hz. rewrite Hall by done. case_bool_decide as C; [|done]. destruct C as [-> ->]. by rewrite alter_at in Hz.
  - intros i t Hi Ht Hz. destruct (Hf (slot f (alter_one D cur x i) t)) as [[He _]|E]; [|done].
    destruct (T4 i t cur (-1)) as [_ C]; try done; [lia..| |lia]. by rewrite alter_at, He.
  - intros t Ht Hz. rewrite Hsl by lia. case_if; [|done]. intros _. rewrite Hlow by lia. apply T6. lia.
Qed.

Lemma T_ok f x n fb : T f x n fb -> dinode_ok x.
Proof. intros HT. pose proof (t_ok _ _ _ _ _ HT cur Hcur) as H. by rewrite alter_at in H. Qed.
Lemma T_alloc f x n fb s : T f x n fb -> 0 <= s < 140 -> slot f x s <> 0 <-> s < n.
Proof. intros HT Hs. pose proof (t_alloc _ _ _ _ _ HT cur s Hcur Hs) as H. by rewrite !alter_at in H. Qed.
Lemma T_range f x n fb s : T f x n fb -> -1 <= s < 140 -> slot f x s <> 0 -> 193 <= slot f x s < fb + 36.
Proof. intros HT Hs H0. pose proof (t_range _ _ _ _ _ HT cur s Hcur Hs) as H. rewrite alter_at in H. by apply H. Qed.
Lemma T_addr f x n fb k : T f x n fb -> xint (addr x k) = addr x k.
Proof.
  intros HT. apply T_ok in HT as [_ _ _ _ _ [_ HF]]. apply xint_small. unfold addr.
  destruct (i_addrs x !! Z.to_nat k) eqn:E; [|simpl; lia]. by apply (Forall_lookup_1 _ _ _ _ HF E).
Qed.
Lemma T_slot f x n fb s : T f x n fb -> -1 <= s < 140 -> xint (slot f x s) = slot f x s.
Proof.
  intros HT Hs. apply xint_small. destruct (decide (slot f x s = 0)) as [->|H0]; [lia|].
  pose proof (T_range _ _ _ _ _ HT Hs H0). pose proof (t_fb _ _ _ _ _ HT). lia.
Qed.

Lemma set_addr_set k a x : exists l, set_addr k a x = set_i_addrs l x.
Proof. eexists. done. Qed.

Lemma direct_block f x n fb fbn :
  T f x n fb -> 0 <= fbn <= n -> fbn < 12 -> fb < 4060 ->
  exists f' x' fb', data_block x fbn (at_ f fi fb) = Done (x', slot f' x' fbn) (at_ f' fi fb') /\
    grows f x n fb f' x' (Z.max n (fbn + 1)) fb' /\ fb <= fb' <= fb + 1.
Proof.
  intros HT Hn Hk Hfb. pose proof (t_fb _ _ _ _ _ HT) as Hfb'. unfold data_block. change NDIRECT with 12.
  rewrite (proj2 (Z.ltb_lt fbn 12)) by lia. rewrite (T_addr _ _ _ _ _ HT).
  assert (forall f y, slot f y fbn = addr y fbn) as Hsl.
  { intros g y. unfold slot. by rewrite (proj2 (Z.eqb_neq fbn (-1))), (proj2 (Z.ltb_lt fbn 12)) by lia. }
  pose proof (T_alloc _ _ _ _ fbn HT ltac:(lia)) as Ha. rewrite Hsl in Ha. pose proof (T_ok _ _ _ _ HT) as Hok.
  destruct (do_addrs _ Hok) as [Hl _]. destruct (Z.eqb_spec (addr x fbn) 0) as [E|E].
  - assert (n = fbn) as -> by lia. exists f, (set_addr fbn (fb + 36) x), (fb + 1).
    erewrite bind_Done by (erewrite bind_Done by (apply take_block_run; lia); done).
    assert (grows f x fbn fb f (set_addr fbn (fb + 36) x) (Z.max fbn (fbn + 1)) (fb + 1)) as G.
    { apply grows_alloc with fbn; try done; try lia.
      - rewrite Hsl. done.
      - apply set_addr_set.
      - apply set_addr_ok; [done|lia].
      - apply (t_len _ _ _ _ _ HT).
      - intros t Ht. apply slot_direct; [done|lia|lia].
      - intros b. by right. }
    split; [|split; [done|lia]]. rewrite (T_addr _ _ _ _ _ (g_T _ _ _ _ _ _ _ _ G)), Hsl. done.
  - exists f, x, fb. rewrite bind_ret, (T_addr _ _ _ _ _ HT), Hsl. rewrite Z.max_l by lia.
    split; [done|]. split; [by apply grows_refl|lia].
Qed.

(** The indirect block, allocated when there is none. *)
Lemma indirect_step f x n fb :
  T f x n fb -> fb < 4060 ->
  exists x' fb',
    (if xint (addr x NDIRECT) =? 0 then let! a := take_block in ret (set_addr NDIRECT a x) else ret x)
      (at_ f fi fb) = Done x' (at_ f fi fb') /\
    grows f x n fb f x' n fb' /\ addr x' 12 <> 0 /\ fb <= fb' <= fb + 1.
Proof.
  intros HT Hfb. pose proof (t_fb _ _ _ _ _ HT) as Hfb'. change NDIRECT with 12. rewrite (T_addr _ _ _ _ _ HT).
  pose proof (T_ok _ _ _ _ HT) as Hok. destruct (do_addrs _ Hok) as [Hl _].
  destruct (Z.eqb_spec (addr x 12) 0) as [E|E].
  - exists (set_addr 12 (fb + 36) x), (fb + 1). rewrite (bind_Done _ _ _ _ _ (take_block_run f fi fb ltac:(lia))).
    split; [done|]. split; [|rewrite addr_set, Z.eqb_refl by lia; lia].
    apply grows_alloc with (-1); try done; try lia.
    + apply set_addr_set.
    + apply set_addr_ok; [done|lia].
    + apply (t_len _ _ _ _ _ HT).
    + intros t Ht. apply slot_indirect; try done; try lia. apply (t_zero _ _ _ _ _ HT). lia.
    + intros b. by right.
  - exists x, fb. split; [done|]. split; [by apply grows_refl|lia].
Qed.

(** The entry of the indirect block, allocated when there is none. *)
Lemma entry_step f x n fb fbn :
  T f x n fb -> addr x 12 <> 0 -> 12 <= fbn <= n -> fbn < 140 -> fb < 4060 ->
  let o := Z.to_nat (4 * (fbn - NDIRECT)) in
  exists f' fb',
    (if get32 (f (addr x 12)) o =? 0 then
       let! a := take_block in
       let indirect := put32 o a (f (addr x 12)) in
       wsect (xint (addr x NDIRECT)) indirect ;;; ret indirect
     else ret (f (addr x 12))) (at_ f fi fb) = Done (f' (addr x 12)) (at_ f' fi fb') /\
    grows f x n fb f' x (Z.max n (fbn + 1)) fb' /\ fb <= fb' <= fb + 1.
Proof.
  intros HT H12 Hn Hk Hfb o. pose proof (t_fb _ _ _ _ _ HT) as Hfb'. unfold o. change NDIRECT with 12. clear o.
  assert (forall g, slot g x fbn = get32 (g (addr x 12)) (Z.to_nat (4 * (fbn - 12)))) as Hsl.
  { intros g. unfold slot. rewrite (proj2 (Z.eqb_neq fbn (-1))), (proj2 (Z.ltb_ge fbn 12)) by lia.
    by rewrite (proj2 (Z.eqb_neq (addr x 12) 0)). }
  pose proof (T_alloc _ _ _ _ fbn HT ltac:(lia)) as Ha. rewrite Hsl in Ha.
  pose proof (T_range _ _ _ _ (-1) HT ltac:(lia) H12) as Hr. change (slot f x (-1)) with (addr x 12) in Hr.
  destruct (Z.eqb_spec (get32 (f (addr x 12)) (Z.to_nat (4 * (fbn - 12)))) 0) as [E|E].
  - assert (n = fbn) as -> by lia.
    exists (put_sect f (addr x 12) (put32 (Z.to_nat (4 * (fbn - 12))) (fb + 36) (f (addr x 12)))), (fb + 1).
    rewrite (bind_Done _ _ _ _ _ (take_block_run f fi fb ltac:(lia))). cbv zeta. rewrite (T_addr _ _ _ _ _ HT).
    rewrite (bind_Done _ _ _ _ _ (wsect_run (addr x 12) _ f fi (fb + 1) ltac:(lia))), put_sect_eq. split; [done|]. split; [|lia].
    apply grows_alloc with fbn; try done; try lia.
    + by rewrite Hsl.
    + exists (i_addrs x). by destruct x.
    + by eapply T_ok.
    + intros b. unfold put_sect. case_if; [|apply (t_len _ _ _ _ _ HT)]. rewrite put32_length. apply (t_len _ _ _ _ _ HT).
    + intros t Ht. apply slot_entry; try done; try lia. apply (t_len _ _ _ _ _ HT).
    + intros b. destruct (decide (b = addr x 12)) as [->|]; [by left|right]. by apply put_sect_ne.
  - exists f, fb. split; [done|]. rewrite Z.max_l by lia. split; [by apply grows_refl|lia].
Qed.

Lemma data_block_run f x n fb fbn :
  T f x n fb -> 0 <= fbn <= n -> fbn < 140 -> fb + 2 <= 4060 ->
  exists f' x' fb', data_block x fbn (at_ f fi fb) = Done (x', slot f' x' fbn) (at_ f' fi fb') /\
    grows f x n fb f' x' (Z.max n (fbn + 1)) fb' /\ fb <= fb' <= fb + 2.
Proof.
  intros HT Hn Hk Hfb. pose proof (t_fb _ _ _ _ _ HT) as Hfb'. destruct (Z.lt_ge_cases fbn 12) as [Hd|Hd].
  { destruct (direct_block f x n fb fbn) as (f' & x' & fb' & E & G & ?); try done; [lia|].
    exists f', x', fb'. split; [done|]. split; [done|lia]. }
  unfold data_block. rewrite (proj2 (Z.ltb_ge fbn NDIRECT)) by (change NDIRECT with 12; lia).
  destruct (indirect_step f x n fb HT) as (x1 & fb1 & E1 & G1 & H12 & ?); [lia|]. rewrite (bind_Done _ _ _ _ _ E1).
  pose proof (g_T _ _ _ _ _ _ _ _ G1) as HT1. cbv zeta. rewrite (T_addr _ _ _ _ _ HT1). change (addr x1 NDIRECT) with (addr x1 12).
  pose proof (T_range _ _ _ _ (-1) HT1 ltac:(lia) H12) as Hr. change (slot f x1 (-1)) with (addr x1 12) in Hr.
  rewrite (bind_Done _ _ _ _ _ (rsect_run (addr x1 12) f fi fb1 ltac:(lia))).
  destruct (entry_step f x1 n fb1 fbn HT1 H12) as (f2 & fb2 & E2 & G2 & ?); try lia. cbv zeta in E2.
  rewrite (T_addr _ _ _ _ _ HT1) in E2. change (addr x1 NDIRECT) with (addr x1 12) in E2.
  rewrite (bind_Done _ _ _ _ _ E2). exists f2, x1, fb2. split; [|split; [by eapply grows_trans|lia]].
  pose proof (T_slot _ _ _ _ fbn (g_T _ _ _ _ _ _ _ _ G2) ltac:(lia)) as Es. unfold slot in Es |- *.
  rewrite (proj2 (Z.eqb_neq fbn (-1))), (proj2 (Z.ltb_ge fbn 12)), (proj2 (Z.eqb_neq (addr x1 12) 0)) in Es |- * by lia.
  change (fbn - NDIRECT) with (fbn - 12). by rewrite Es.
Qed.

(** ** Bytes of a file *)

Definition fbyte (f : Z -> list Z) (x : inode) (k : Z) : Z :=
  get8 (f (slot f x (k / 512))) (Z.to_nat (k mod 512)).
(** The blocks [n] bytes take. *)
Definition nblk (n : Z) : Z := (n + 511) / 512.

Record appended (f : Z -> list Z) (x : inode) (off : Z) (p : list Z) (f' : Z -> list Z) (x' : inode) : Prop := {
  a_addrs : exists l, x' = set_i_addrs l x;
  a_low : forall b, b < 193 -> f' b = f b;
  a_slot : forall i s, 0 < i < nf -> 0 <= s < 140 -> slot f (alter_one D cur x i) s <> 0 -> slot f' (alter_one D cur x' i) s <> 0;
  a_old : forall i k, 0 < i < nf -> 0 <= k < 71680 -> slot f (alter_one D cur x i) (k / 512) <> 0 -> i <> cur \/ k < off ->
    fbyte f' (alter_one D cur x' i) k = fbyte f (alter_one D cur x i) k;
  a_new : forall j, (j < length p)%nat -> fbyte f' x' (off + Z.of_nat j) = get8 p j;
  a_tail : (forall k, off <= k < 71680 -> slot f x (k / 512) <> 0 -> fbyte f x k = 0) ->
    forall k, off + Z.of_nat (length p) <= k < 71680 -> slot f' x' (k / 512) <> 0 -> fbyte f' x' k = 0
}.

Lemma block_index k : 0 <= k < 71680 -> 0 <= k / 512 < 140.
Proof. intros. split; [apply Z.div_pos; lia|apply Z.div_lt_upper_bound; lia]. Qed.

Lemma nblk_lt k n : k < n -> k / 512 < nblk n.
Proof.
  intros Hk. unfold nblk. apply Z.div_lt_upper_bound; [lia|]. pose proof (Z.div_mod (n + 511) 512 ltac:(lia)).
  pose proof (Z.mod_pos_bound (n + 511) 512 ltac:(lia)). lia.
Qed.

Lemma appended_nil f x off : appended f x off [] f x.
Proof. split; try done. { exists (i_addrs x). by destruct x. } { simpl. lia. }
  simpl. intros Ht k Hk. apply Ht. lia.
Qed.

Lemma get8_app1 (p q : list Z) j : (j < length p)%nat -> get8 (p ++ q) j = get8 p j.
Proof. intros. unfold get8. by rewrite lookup_app_l. Qed.
Lemma get8_app2 (p q : list Z) j : (length p <= j)%nat -> get8 (p ++ q) j = get8 q (j - length p).
Proof. intros. unfold get8. by rewrite lookup_app_r. Qed.

Lemma appended_app f x off p f1 x1 q f2 x2 n1 fb1 :
  0 <= off -> off + Z.of_nat (length p) + Z.of_nat (length q) <= 71680 ->
  T f1 x1 n1 fb1 -> nblk (off + Z.of_nat (length p)) <= n1 ->
  appended f x off p f1 x1 -> appended f1 x1 (off + Z.of_nat (length p)) q f2 x2 ->
  appended f x off (p ++ q) f2 x2.
Proof.
  intros Hoff Hb HT Hn [A1 A2 A3 A4 A5 A6] [B1 B2 B3 B4 B5 B6]. split.
  - destruct A1 as [l ->], B1 as [l' ->]. by exists l'.
  - intros b Hb'. by rewrite B2, A2.
  - intros i s Hi Hs H0. apply B3; try done. by apply A3.
  - intros i k Hi Hk H0 Hc. pose proof (block_index k Hk). rewrite B4; try done; [by apply A4|by apply A3|lia].
  - intros j Hj. rewrite length_app in Hj. destruct (decide (j < length p)%nat) as [Hp|Hp].
    + rewrite get8_app1 by done. rewrite <- A5 by done.
      pose proof (block_index (off + Z.of_nat j) ltac:(lia)). specialize (B4 cur (off + Z.of_nat j) Hcur).
      rewrite !alter_at in B4. apply B4; [lia| |lia]. apply (T_alloc _ _ _ _ _ HT); [done|].
      pose proof (nblk_lt (off + Z.of_nat j) (off + Z.of_nat (length p))). lia.
    + rewrite get8_app2 by lia. rewrite <- B5 by lia. f_equal. lia.
  - intros Ht k Hk. rewrite length_app in Hk. apply B6; [by apply A6|lia].
Qed.

(** Writing inside the block of [off]. *)
Lemma appended_write f x n fb f1 x1 n1 fb1 off q :
  T f x n fb -> grows f x n fb f1 x1 n1 fb1 -> 0 <= off -> off / 512 < 140 -> off / 512 < n1 ->
  off mod 512 + Z.of_nat (length q) <= 512 ->
  let b := slot f1 x1 (off / 512) in
  let f2 := put_sect f1 b (list_inserts (Z.to_nat (off mod 512)) q (f1 b)) in
  T f2 x1 n1 fb1 /\ appended f x off q f2 x1.
Proof.
  intros HT [G1 G2 G3 G4 G5 G6] Hoff Hm Hn Hq b f2. pose proof (Z.div_pos off 512 Hoff ltac:(lia)) as Hp.
  assert (b <> 0) as Hb by (apply (T_alloc _ _ _ _ _ G1); lia).
  pose proof (T_range _ _ _ _ (off / 512) G1 ltac:(lia) Hb) as Hr. fold b in Hr.
  assert (slot f1 (alter_one D cur x1 cur) (off / 512) = b) as Eb by by rewrite alter_at.
  assert (forall i s, 0 < i < nf -> 0 <= s < 140 -> slot f2 (alter_one D cur x1 i) s = slot f1 (alter_one D cur x1 i) s) as Hsl.
  { intros i s Hi Hs. unfold f2. rewrite <- Eb at 1. erewrite slot_data; [done|exact G1|exact Hcur|lia|by rewrite Eb|done|lia]. }
  split; [|split].
  - unfold T, f2. rewrite <- Eb at 1. apply tables_data; [exact G1|exact Hcur|lia|by rewrite Eb|].
    rewrite length_inserts. apply (t_len _ _ _ _ _ G1).
  - done.
  - intros c Hc. unfold f2. rewrite put_sect_ne by lia. by apply G3.
  - intros i s Hi Hs H0. rewrite Hsl by done. rewrite G4; try done. lia.
  - intros i k Hi Hk H0 Hc. pose proof (block_index k Hk) as Hbk. unfold fbyte. rewrite Hsl, G4 by (done || lia).
    unfold f2, put_sect. case_if; b2p; [|by rewrite G5].
    assert (i = cur /\ k / 512 = off / 512) as [-> Ek].
    { apply (t_inj _ _ _ _ _ G1); [done|lia|done|lia| |]; rewrite G4 by (done || lia); [done|by rewrite Eb]. }
    rewrite get8_inserts_out; [by rewrite <- E, G5|]. left.
    pose proof (Z.div_mod k 512 ltac:(lia)). pose proof (Z.div_mod off 512 ltac:(lia)).
    pose proof (Z.mod_pos_bound k 512 ltac:(lia)). lia.
  - intros j Hj. pose proof (Z.mod_pos_bound off 512 ltac:(lia)). pose proof (Z.div_mod off 512 ltac:(lia)).
    assert ((off + Z.of_nat j) / 512 = off / 512 /\ (off + Z.of_nat j) mod 512 = off mod 512 + Z.of_nat j) as [E1 E2].
    { split; [symmetry; apply Z.div_unique with (off mod 512 + Z.of_nat j); lia|].
      symmetry. apply Z.mod_unique with (off / 512); lia. }
    unfold fbyte. rewrite E1, E2. specialize (Hsl cur (off / 512) Hcur ltac:(lia)). rewrite alter_at in Hsl. rewrite Hsl.
    fold b. unfold f2. rewrite put_sect_eq. rewrite get8_inserts_in; [unfold get8; do 2 f_equal; lia|lia|].
    rewrite (t_len _ _ _ _ _ G1). lia.
  - intros Ht k Hk. pose proof (block_index k ltac:(lia)) as Hbk. unfold fbyte.
    pose proof (Hsl cur (k / 512) Hcur Hbk) as Ek. rewrite alter_at in Ek. rewrite Ek. intros Hz.
    assert (get8 (f1 (slot f1 x1 (k / 512))) (Z.to_nat (k mod 512)) = 0) as E0.
    { destruct (decide (slot f x (k / 512) = 0)) as [H0|H0]; [rewrite G6 by done; apply get8_zero|].
      specialize (G4 cur (k / 512) Hcur ltac:(lia)). specialize (G5 cur (k / 512) Hcur Hbk). rewrite !alter_at in G4. rewrite !alter_at in G5.
      rewrite G4, G5 by done. apply Ht; [lia|done]. }
    unfold f2, put_sect. case_if; b2p; [|done]. rewrite get8_inserts_out; [by rewrite <- E|]. right.
    destruct (t_inj _ _ _ _ _ G1 cur (k / 512) cur (off / 512)) as [_ Eq]; rewrite ?alter_at; try done; try lia.
    pose proof (Z.div_mod k 512 ltac:(lia)). pose proof (Z.div_mod off 512 ltac:(lia)).
    pose proof (Z.mod_pos_bound off 512 ltac:(lia)). pose proof (Z.mod_pos_bound k 512 ltac:(lia)). lia.
Qed.

(** The blocks [n] bytes at [off] fall into. *)
Definition turns (off n : Z) : Z := nblk (off + n) - off / 512.

Lemma turns_step off n r :
  0 <= off -> 0 < r <= n -> off mod 512 + r <= 512 -> r = n \/ off mod 512 + r = 512 ->
  nblk (off + r) = off / 512 + 1 /\ 1 <= turns off n /\ (r < n -> turns (off + r) (n - r) + 1 = turns off n).
Proof.
  intros Hoff Hr Hm Hc. unfold turns, nblk. pose proof (Z.div_mod off 512 ltac:(lia)).
  pose proof (Z.mod_pos_bound off 512 ltac:(lia)).
  assert ((off + r + 511) / 512 = off / 512 + 1) as E.
  { symmetry. apply Z.div_unique with (off mod 512 + r - 1); lia. }
  pose proof (Z.div_le_mono (off + r + 511) (off + n + 511) 512 ltac:(lia) ltac:(lia)).
  split; [done|]. split; [lia|]. intros Hrn. replace (off + r + (n - r)) with (off + n) by lia.
  enough ((off + r) / 512 = off / 512 + 1) by lia. symmetry. apply Z.div_unique with 0; lia.
Qed.

Lemma iappend_loop_nil fuel x off m : iappend_loop fuel x off [] m = Done (x, off) m.
Proof. by destruct fuel. Qed.

Lemma iappend_loop_cons fuel x off p :
  p <> [] ->
  iappend_loop (S fuel) x off p =
  (if 140 <=? off / 512 then panic "assert" else
   let! r := data_block x (off / 512) in
   let n1 := Z.min (Z.of_nat (length p)) (u32 ((off / 512 + 1) * 512 - off)) in
   let! buf := rsect r.2 in
   wsect r.2 (list_inserts (Z.to_nat (off - off / 512 * 512)) (take (Z.to_nat n1) p) buf) ;;;
   iappend_loop fuel r.1 (u32 (off + n1)) (drop (Z.to_nat n1) p)).
Proof. by destruct p. Qed.

(** One turn of the loop, which copies the bytes [p1] of [p1 ++ p2]. *)
Lemma iappend_turn fuel p1 p2 f x off fb :
  let n1 := Z.of_nat (length p1) in
  T f x (nblk off) fb -> 0 <= off -> off + n1 <= 71680 -> fb + 2 <= 4060 ->
  0 < n1 -> off mod 512 + n1 <= 512 -> (p2 = [] \/ off mod 512 + n1 = 512) ->
  exists f' x' fb',
    iappend_loop (S fuel) x off (p1 ++ p2) (at_ f fi fb) = iappend_loop fuel x' (off + n1) p2 (at_ f' fi fb') /\
    T f' x' (nblk (off + n1)) fb' /\ appended f x off p1 f' x' /\ fb <= fb' <= fb + 2.
Proof.
  intros n1 HT Hoff Hb Hfb Hn Hm Hc. pose proof (Z.div_mod off 512 ltac:(lia)) as Hdm.
  pose proof (Z.mod_pos_bound off 512 ltac:(lia)) as Hmb. pose proof (block_index off ltac:(lia)) as Hk.
  assert (Z.min (Z.of_nat (length (p1 ++ p2))) (u32 ((off / 512 + 1) * 512 - off)) = n1) as En.
  { rewrite length_app, u32_small by lia. fold n1. destruct Hc as [->|]; cbn [length]; unfold n1 in *; lia. }
  rewrite iappend_loop_cons by (by destruct p1). rewrite En. cbv zeta.
  rewrite (proj2 (Z.leb_gt 140 (off / 512))) by lia. unfold n1. rewrite Nat2Z.id, take_app_length, drop_app_length. fold n1.
  destruct (turns_step off n1 n1) as (En1 & _); try lia.
  assert (off / 512 <= nblk off <= off / 512 + 1) as Hnb.
  { unfold nblk. split; [apply Z.div_le_mono; lia|]. apply Z.lt_succ_r, Z.div_lt_upper_bound; lia. }
  destruct (data_block_run f x (nblk off) fb (off / 512)) as (f1 & x1 & fb1 & E1 & G & Hfb1); try done; try lia.
  rewrite Z.max_r in G by lia. rewrite (bind_Done _ _ _ _ _ E1). cbn [fst snd].
  replace (off - off / 512 * 512) with (off mod 512) by lia.
  destruct (appended_write f x (nblk off) fb f1 x1 (off / 512 + 1) fb1 off p1) as [HT2 A]; try done; try lia.
  pose proof (g_T _ _ _ _ _ _ _ _ G) as HT1. pose proof (t_fb _ _ _ _ _ HT1) as Hfb2.
  assert (slot f1 x1 (off / 512) <> 0) as H0 by (apply (T_alloc _ _ _ _ _ HT1); lia).
  pose proof (T_range _ _ _ _ (off / 512) HT1 ltac:(lia) H0) as Hr. set (b := slot f1 x1 (off / 512)) in *.
  rewrite (bind_Done _ _ _ _ _ (rsect_run b f1 fi fb1 ltac:(lia))).
  rewrite (bind_Done _ _ _ _ _ (wsect_run b _ f1 fi fb1 ltac:(lia))). rewrite u32_small by lia.
  eexists _, x1, fb1. split; [done|]. rewrite En1. split; [exact HT2|]. split; [exact A|lia].
Qed.

Lemma iappend_loop_run fuel : forall p f x off fb,
  (length p <= fuel)%nat -> T f x (nblk off) fb -> 0 <= off -> off + Z.of_nat (length p) <= 71680 ->
  fb + 2 * turns off (Z.of_nat (length p)) <= 4060 ->
  exists f' x' fb',
    iappend_loop fuel x off p (at_ f fi fb) = Done (x', off + Z.of_nat (length p)) (at_ f' fi fb') /\
    T f' x' (nblk (off + Z.of_nat (length p))) fb' /\ appended f x off p f' x' /\
    fb <= fb' <= Z.max fb (fb + 2 * turns off (Z.of_nat (length p))).
Proof.
  induction fuel as [|fuel IH]; intros p f x off fb Hp HT Hoff Hb Hfb; (destruct (decide (p = [])) as [->|Hne];
    [exists f, x, fb; rewrite iappend_loop_nil; simpl; rewrite Z.add_0_r; split; [done|];
     split; [done|]; split; [apply appended_nil|lia]|]).
  { destruct p; simpl in Hp; [done|lia]. }
  assert (0 < Z.of_nat (length p)) as Hp0 by (destruct p; simpl; [done|lia]).
  pose proof (Z.mod_pos_bound off 512 ltac:(lia)) as Hmb.
  set (n := Z.to_nat (512 - off mod 512)). rewrite <- (take_drop n p) in Hb, Hfb |- *.
  set (p1 := take n p) in *. set (p2 := drop n p) in *. rewrite length_app in Hb, Hfb |- *.
  rewrite Nat2Z.inj_add in Hb, Hfb |- *.
  assert (0 < Z.of_nat (length p1) <= 512 - off mod 512 /\ (length p1 + length p2 = length p)%nat /\
          (p2 = [] \/ off mod 512 + Z.of_nat (length p1) = 512)) as (H1 & H2 & Hc).
  { unfold p1, p2. rewrite length_take, length_drop. split; [lia|]. split; [lia|].
    destruct (decide (length p <= n)%nat); [left; by apply drop_ge|right; lia]. }
  destruct (turns_step off (Z.of_nat (length p1) + Z.of_nat (length p2)) (Z.of_nat (length p1))) as (E1 & Ht & Hts); try lia.
  { destruct Hc as [->|]; simpl; lia. }
  destruct (iappend_turn fuel p1 p2 f x off fb) as (f1 & x1 & fb1 & R1 & HT1 & A1 & Hf1); try done; try lia.
  rewrite R1. destruct (decide (p2 = [])) as [->|Hne2].
  - exists f1, x1, fb1. rewrite iappend_loop_nil. simpl. rewrite app_nil_r, Z.add_0_r. simpl in Ht. rewrite Z.add_0_r in Ht. split; [done|].
    split; [done|]. split; [done|]. lia.
  - assert (0 < Z.of_nat (length p2)) as Hp2 by (destruct p2; simpl; [done|lia]). specialize (Hts ltac:(lia)).
    replace (Z.of_nat (length p1) + Z.of_nat (length p2) - Z.of_nat (length p1)) with (Z.of_nat (length p2)) in Hts by lia.
    destruct (IH p2 f1 x1 (off + Z.of_nat (length p1)) fb1) as (f2 & x2 & fb2 & R2 & HT2 & A2 & Hf2); try done; try lia.
    exists f2, x2, fb2. rewrite R2. replace (off + (Z.of_nat (length p1) + Z.of_nat (length p2)))
      with (off + Z.of_nat (length p1) + Z.of_nat (length p2)) by lia.
    split; [done|]. split; [done|]. split; [eapply appended_app; [done|lia|exact HT1|lia|done|done]|lia].
Qed.

End Grow.

(** ** The image holds the files *)

Definition dino (f : Z -> list Z) (i : Z) : inode :=
  load_dinode (mkfs_off i) (f (IBLOCK i mkfs_sb)) zero_dinode.

(** A file has its type and its contents; what follows the contents in the
    last block is zero. *)
Definition holds (f : Z -> list Z) (x : inode) (t : Z) (c : list Z) : Prop :=
  i_type x = t /\ i_nlink x = 1 /\ i_size x = Z.of_nat (length c) /\ i_size x <= 71680 /\
  (forall k, 0 <= k < 71680 -> slot f x (k / 512) <> 0 -> fbyte f x k = get8 c (Z.to_nat k)).

Definition sizes (f : Z -> list Z) (i : Z) : Z := nblk (i_size (dino f i)).

(** File [n] is inode [n + 1]. *)
Record image (f : Z -> list Z) (fb : Z) (fs : list (Z * list Z)) : Prop := {
  im_count : Z.of_nat (length fs) <= 28;
  im_tables : tables f (dino f) (1 + Z.of_nat (length fs)) (sizes f) fb;
  im_files : forall n t c, fs !! n = Some (t, c) -> holds f (dino f (Z.of_nat n + 1)) t c
}.

Lemma slot_addrs f x y s : i_addrs y = i_addrs x -> slot f y s = slot f x s.
Proof. intros E. unfold slot, addr. by rewrite E. Qed.
Lemma tables_ext f D D' nf nb nb' fb :
  (forall i, 0 < i < nf -> i_addrs (D' i) = i_addrs (D i) /\ dinode_ok (D' i)) ->
  (forall i, 0 < i < nf -> nb' i = nb i) ->
  tables f D nf nb fb -> tables f D' nf nb' fb.
Proof.
  intros HD Hn [T1 T2 T3 T4 T5 T6 T7].
  assert (forall i s, 0 < i < nf -> slot f (D' i) s = slot f (D i) s) as Hs by (intros; by apply slot_addrs, HD).
  split; try done.
  - intros i Hi. by apply HD.
  - intros i s Hi Hb. rewrite !Hs by done. by apply T3.
  - intros i s j t Hi Hb Hj Ht. rewrite !Hs by done. by apply T4.
  - intros i s Hi Hb. rewrite Hs, Hn by done. by apply T5.
Qed.

(** Blocks before the data do not matter to the slots. *)
Lemma slot_low f f' x s : (forall b, 193 <= b -> f' b = f b) -> (addr x 12 <> 0 -> 193 <= addr x 12) -> slot f' x s = slot f x s.
Proof. intros Hf Hx. unfold slot. repeat case_if; try done. b2p. by rewrite Hf by auto. Qed.
Lemma tables_low f f' D nf nb fb :
  (forall b, 193 <= b -> f' b = f b) -> (forall b, length (f' b) = 512%nat) ->
  tables f D nf nb fb -> tables f' D nf nb fb.
Proof.
  intros Hf Hl [T1 T2 T3 T4 T5 T6 T7].
  assert (forall i s, 0 < i < nf -> slot f' (D i) s = slot f (D i) s) as Hs.
  { intros i s Hi. apply slot_low; [done|]. intros H0. apply (T3 i (-1)); [done|lia|done]. }
  split; try done.
  - intros i s Hi Hb. rewrite Hs by done. by apply T3.
  - intros i s j t Hi Hb Hj Ht. rewrite !Hs by done. by apply T4.
  - intros i s Hi Hb. rewrite Hs by done. by apply T5.
  - intros b Hb. rewrite Hf by lia. by apply T6.
Qed.

Lemma load_dinode_ext o d d' y :
  (forall j, (o <= j < o + 64)%nat -> get8 d j = get8 d' j) -> load_dinode o d y = load_dinode o d' y.
Proof.
  intros H. unfold load_dinode, get16, get32. rewrite !H by lia. f_equal. f_equal. f_equal. f_equal. f_equal. f_equal.
  apply map_ext_in. intros i Hi%in_seq. unfold addr_off. by rewrite !H by lia.
Qed.

(** [x] as a [struct dinode]: nothing but the on-disk fields. *)
Definition on_disk (x : inode) : Prop := with_dinode x zero_dinode = x.
Lemma dino_on_disk f i : on_disk (dino f i).
Proof. done. Qed.
Lemma set_on_disk v l x : on_disk x -> on_disk (set_i_size v (set_i_addrs l x)).
Proof. destruct x. unfold on_disk, with_dinode. simpl. intros [=]. by subst. Qed.

Definition iput (f : Z -> list Z) (i : Z) (x : inode) : Z -> list Z :=
  put_sect f (IBLOCK i mkfs_sb) (store_dinode (mkfs_off i) x (f (IBLOCK i mkfs_sb))).

Lemma iput_dino f i x j :
  (forall b, length (f b) = 512%nat) -> 0 <= i < 29 -> 0 <= j < 29 -> dinode_ok x -> on_disk x ->
  dino (iput f i x) j = if j =? i then x else dino f j.
Proof.
  intros Hl Hi Hj Hok Hx. unfold dino, iput. destruct (Z.eqb_spec j i) as [->|Hne].
  - rewrite put_sect_eq, load_store_dinode; [done..|]. rewrite Hl. apply inode_off_bound.
  - unfold put_sect. case_if; [|done]. b2p. rewrite !IBLOCK_first in * by done. rewrite E.
    apply load_dinode_ext. intros n Hn. rewrite store_dinode_out; [done|by apply do_addrs|].
    destruct (inode_off_apart i j); lia.
Qed.
Lemma iput_high f i x b : 0 <= i < 29 -> 37 <= b \/ b <= 32 -> iput f i x b = f b.
Proof.
  intros Hi Hb. unfold iput. apply put_sect_ne. rewrite IBLOCK_first by done.
  pose proof (Z.div_lt_upper_bound i 8 4 ltac:(lia) ltac:(lia)). pose proof (Z.div_pos i 8). lia.
Qed.
Lemma iput_length f i x b : (forall b, length (f b) = 512%nat) -> length (iput f i x b) = 512%nat.
Proof. intros Hl. unfold iput, put_sect. case_if; [by rewrite store_dinode_length|done]. Qed.

Lemma winode_run i x f fi fb : 0 <= i < 29 -> winode i x (at_ f fi fb) = Done tt (at_ (iput f i x) fi fb).
Proof.
  intros Hi. unfold winode. rewrite bind_gets. change (m_sb (at_ f fi fb)) with mkfs_sb. cbv zeta.
  pose proof (Z.div_lt_upper_bound i 8 4 ltac:(lia) ltac:(lia)). pose proof (Z.div_pos i 8).
  assert (0 <= IBLOCK i mkfs_sb < 4096) as Hb by (rewrite IBLOCK_first by done; lia).
  rewrite (bind_Done _ _ _ _ _ (rsect_run _ f fi fb Hb)). by apply wsect_run.
Qed.
Lemma rinode_run i f fi fb : 0 <= i < 29 -> rinode i (at_ f fi fb) = Done (dino f i) (at_ f fi fb).
Proof.
  intros Hi. unfold rinode. rewrite bind_gets. change (m_sb (at_ f fi fb)) with mkfs_sb.
  pose proof (Z.div_lt_upper_bound i 8 4 ltac:(lia) ltac:(lia)). pose proof (Z.div_pos i 8).
  assert (0 <= IBLOCK i mkfs_sb < 4096) as Hb by (rewrite IBLOCK_first by done; lia).
  by rewrite (bind_Done _ _ _ _ _ (rsect_run _ f fi fb Hb)).
Qed.

Lemma fbyte_low f f' D nf nb fb i y k :
  (forall b, 193 <= b -> f' b = f b) -> tables f D nf nb fb -> 0 < i < nf -> i_addrs y = i_addrs (D i) ->
  0 <= k < 71680 -> slot f' y (k / 512) <> 0 ->
  slot f (D i) (k / 512) <> 0 /\ fbyte f' y k = fbyte f (D i) k.
Proof.
  intros Hf [_ _ T3 _ _ _ _] Hi Hy Hk. pose proof (block_index k Hk). unfold fbyte.
  rewrite (slot_addrs f' (D i) y) by done. rewrite (slot_low f f' (D i)); [|done|].
  - intros H0. split; [done|]. rewrite Hf; [done|]. apply T3; [done|lia|done].
  - intros Ha. apply (T3 i (-1)); [done|lia|done].
Qed.

Lemma resized_fields v l x :
  i_type (set_i_size v (set_i_addrs l x)) = i_type x /\ i_nlink (set_i_size v (set_i_addrs l x)) = i_nlink x.
Proof. done. Qed.

(** The grown file, and the others. *)
Lemma holds_grown f nf cur t c p f1 x1 fb1 n1 f2 x2 fb :
  let D := alter_one (dino f) cur x1 in
  tables f (dino f) nf (sizes f) fb -> 0 < cur < nf -> holds f (dino f cur) t c ->
  Z.of_nat (length c) + Z.of_nat (length p) <= 71680 -> T (dino f) nf cur (sizes f) f1 x1 n1 fb1 ->
  appended (dino f) nf cur f (dino f cur) (Z.of_nat (length c)) p f1 x1 ->
  (forall b, 193 <= b -> f2 b = f1 b) -> x2 = set_i_size (Z.of_nat (length c) + Z.of_nat (length p)) x1 ->
  holds f2 x2 t (c ++ p).
Proof.
  intros D HT Hcur (Ht & Hnl & Hsz & _ & Hby) Hs HT1 [[l Hx1] A2 A3 A4 A5 A6] Hf2 ->. unfold holds.
  destruct (resized_fields (Z.of_nat (length c) + Z.of_nat (length p)) l (dino f cur)) as [E1 E2].
  split; [by rewrite Hx1, E1|]. split; [by rewrite Hx1, E2|]. rewrite length_app. split; [simpl; lia|]. split; [simpl; lia|].
  intros k Hk H0. destruct (fbyte_low f1 f2 _ _ _ _ cur (set_i_size (Z.of_nat (length c) + Z.of_nat (length p)) x1) k Hf2 HT1)
    as [Hk1 ->]; [done|by rewrite alter_at|done..|]. rewrite alter_at in Hk1 |- *. pose proof (block_index k Hk).
  specialize (A4 cur k Hcur Hk). rewrite !alter_at in A4.
  destruct (decide (k < Z.of_nat (length c))) as [Hc|Hc]; [|destruct (decide (k < Z.of_nat (length c) + Z.of_nat (length p))) as [Hp|Hp]].
  - assert (slot f (dino f cur) (k / 512) <> 0) as Hz.
    { apply (t_alloc _ _ _ _ _ HT); [done..|]. unfold sizes. rewrite Hsz. by apply nblk_lt. }
    rewrite A4, get8_app1 by (done || lia). apply Hby; [lia|done].
  - rewrite get8_app2 by lia. rewrite <- A5 by lia. f_equal. lia.
  - rewrite A6; [|  |lia|done].
    + unfold get8. rewrite lookup_ge_None_2; [done|]. rewrite length_app. lia.
    + intros k' Hk' Hz. rewrite Hby; [|lia|done]. unfold get8. by rewrite lookup_ge_None_2 by lia.
Qed.
Lemma holds_other f nf cur i t c x p f1 x1 fb1 n1 off f2 fb :
  tables f (dino f) nf (sizes f) fb -> 0 < i < nf -> i <> cur -> holds f (dino f i) t c ->
  T (dino f) nf cur (sizes f) f1 x1 n1 fb1 -> appended (dino f) nf cur f x off p f1 x1 ->
  (forall b, 193 <= b -> f2 b = f1 b) -> holds f2 (dino f i) t c.
Proof.
  intros HT Hi Hne (Ht & Hnl & Hsz & Hb & Hby) HT1 [_ _ _ A4 _ _] Hf2. do 4 (split; [done|]). intros k Hk H0.
  destruct (fbyte_low f1 f2 _ _ _ _ i (dino f i) k Hf2 HT1) as [Hk1 ->]; [done|by rewrite alter_off|done..|].
  pose proof (block_index k Hk) as Hbk. apply (t_alloc _ _ _ _ _ HT1 i _ Hi Hbk) in Hk1. rewrite alter_off in Hk1 by done.
  apply (t_alloc _ _ _ _ _ HT i _ Hi Hbk) in Hk1. rewrite A4; rewrite ?alter_off by done; try done; [by apply Hby|by left].
Qed.

(** The image once the grown inode is written back. *)
Lemma image_append f fb fs n t c p f1 x1 fb1 :
  let cur := Z.of_nat n + 1 in
  let nf := 1 + Z.of_nat (length fs) in
  let size := Z.of_nat (length c) + Z.of_nat (length p) in
  image f fb fs -> fs !! n = Some (t, c) -> size <= 71680 ->
  T (dino f) nf cur (sizes f) f1 x1 (nblk size) fb1 ->
  appended (dino f) nf cur f (dino f cur) (Z.of_nat (length c)) p f1 x1 ->
  image (iput f1 cur (set_i_size size x1)) fb1 (<[n := (t, c ++ p)]> fs) /\
  forall b, b <= 32 -> iput f1 cur (set_i_size size x1) b = f b.
Proof.
  intros cur nf size [H28 HT HF] Hn Hs HT1 HA. pose proof HA as [[l Hx1] A2 _ _ _ _]. pose proof (lookup_lt_Some _ _ _ Hn) as Hlt.
  assert (0 < cur < nf /\ cur < 29) as [Hcur H29] by (unfold cur, nf; lia).
  destruct (HF _ _ _ Hn) as (Ht & Hnl & Hsz & _ & Hby). fold cur in Ht, Hnl, Hsz, Hby.
  set (x2 := set_i_size size x1). set (f2 := iput f1 cur x2).
  assert (dinode_ok x2 /\ on_disk x2) as [Hok Hod].
  { pose proof (T_ok _ _ _ _ Hcur _ _ _ _ HT1) as []. split; [split; try done; unfold x2, size; simpl; lia|].
    unfold x2. rewrite Hx1. apply set_on_disk, dino_on_disk. }
  pose proof (t_len _ _ _ _ _ HT1) as Hl1.
  assert (forall b, 193 <= b -> f2 b = f1 b) as Hhigh by (intros b Hb; apply iput_high; lia).
  assert (forall j, 0 < j < nf -> dino f2 j = alter_one (dino f) cur x2 j) as Hd.
  { intros j Hj. unfold f2. rewrite iput_dino by (done || lia). unfold alter_one. case_if; [done|]. unfold dino.
    rewrite A2; [done|]. rewrite IBLOCK_first by lia. pose proof (Z.div_lt_upper_bound j 8 4 ltac:(lia) ltac:(lia)). lia. }
  assert (tables f2 (dino f2) nf (sizes f2) fb1) as HT2.
  { eapply tables_ext; [| |eapply tables_low; [exact Hhigh|intros; by apply iput_length|exact HT1]].
    - intros i Hi. rewrite Hd by done. unfold alter_one. case_if; [done|]. by split; [|apply (t_ok _ _ _ _ _ HT)].
    - intros i Hi. unfold sizes. rewrite Hd by done. unfold alter_one. case_if; done. }
  split; [split|].
  - by rewrite length_insert.
  - by rewrite length_insert.
  - intros m t' c' Hm. assert (0 < Z.of_nat m + 1 < nf) as Hmb.
    { apply lookup_lt_Some in Hm. rewrite length_insert in Hm. unfold nf. lia. }
    rewrite Hd by done. destruct (decide (m = n)) as [->|Hne].
    + rewrite list_lookup_insert_eq in Hm by done. injection Hm as <- <-. fold cur. rewrite alter_at.
      apply (holds_grown f nf cur t c p f1 x1 fb1 (nblk size) f2 x2 fb); try assumption; [by apply HF|done].
    + rewrite list_lookup_insert_ne in Hm by done. rewrite alter_off by (unfold cur; lia).
      apply (holds_other f nf cur (Z.of_nat m + 1) t' c' (dino f cur) p f1 x1 fb1 (nblk size) (Z.of_nat (length c)) f2 fb);
        try assumption; [unfold cur; lia|by apply HF].
  - intros b Hb. unfold f2. rewrite iput_high by lia. apply A2. lia.
Qed.

(** [iappend] appends. *)
Lemma iappend_run f fi fb fs n t c p :
  image f fb fs -> fs !! n = Some (t, c) -> Z.of_nat (length c) + Z.of_nat (length p) <= 71680 ->
  fb + 2 * turns (Z.of_nat (length c)) (Z.of_nat (length p)) <= 4060 ->
  exists f' fb', iappend (Z.of_nat n + 1) p (at_ f fi fb) = Done tt (at_ f' fi fb') /\
    image f' fb' (<[n := (t, c ++ p)]> fs) /\ (forall b, b <= 32 -> f' b = f b) /\
    fb <= fb' <= Z.max fb (fb + 2 * turns (Z.of_nat (length c)) (Z.of_nat (length p))).
Proof.
  intros [H28 HT HF] Hn Hlen Hfb. pose proof (lookup_lt_Some _ _ _ Hn) as Hlt.
  set (cur := Z.of_nat n + 1). set (nf := 1 + Z.of_nat (length fs)) in *.
  assert (0 < cur < nf /\ cur < 29) as [Hcur H29] by (unfold cur, nf; lia).
  destruct (HF _ _ _ Hn) as (Ht & Hnl & Hsz & _ & Hby). fold cur in Ht, Hnl, Hsz, Hby.
  assert (T (dino f) nf cur (sizes f) f (dino f cur) (nblk (Z.of_nat (length c))) fb) as HT0.
  { unfold T. eapply tables_ext; [| |exact HT].
    - intros i Hi. unfold alter_one. case_if; b2p; subst; by split; [|apply (t_ok _ _ _ _ _ HT)].
    - intros i Hi. unfold alter_one, sizes. case_if; b2p; subst; by rewrite ?Hsz. }
  unfold iappend. rewrite (bind_Done _ _ _ _ _ (rinode_run cur f fi fb ltac:(lia))).
  rewrite Hsz, xint_small by lia.
  destruct (iappend_loop_run (dino f) nf cur fi (sizes f) Hcur (length p) p f (dino f cur) (Z.of_nat (length c)) fb)
    as (f1 & x1 & fb1 & R & HT1 & A & Hfb1); try done; try lia.
  rewrite (bind_Done _ _ _ _ _ R). cbn [fst snd]. rewrite xint_small by lia.
  rewrite winode_run by lia. destruct (image_append f fb fs n t c p f1 x1 fb1) as [HI Hlow]; try done.
  by exists (iput f1 cur (set_i_size (Z.of_nat (length c) + Z.of_nat (length p)) x1)), fb1.
Qed.

(** ** A new file *)

Definition fresh_inode (t : Z) : inode := set_i_type t (set_i_nlink 1 (set_i_size 0 zero_dinode)).

Lemma fresh_slot f t s : slot f (fresh_inode t) s = 0.
Proof.
  assert (forall k, addr (fresh_inode t) k = 0) as Ha.
  { intros k. unfold addr. change (i_addrs (fresh_inode t)) with (replicate 13 (0:Z)).
    destruct (replicate 13 0 !! Z.to_nat k) eqn:E; [|done]. by apply lookup_replicate in E as [-> _]. }
  unfold slot. rewrite !Ha. by repeat case_if.
Qed.
Lemma fresh_ok t : 0 <= t < 2 ^ 15 -> dinode_ok (fresh_inode t).
Proof.
  intros Ht. split; simpl; try lia. split; [done|]. apply (Forall_replicate (fun a => 0 <= a < 2 ^ 32) 13 0). lia.
Qed.

Lemma tables_new f D nf nb fb t :
  0 < nf -> 0 <= t < 2 ^ 15 -> tables f D nf nb fb -> D nf = fresh_inode t -> nb nf = 0 -> tables f D (nf + 1) nb fb.
Proof.
  intros Hnf Ht [T1 T2 T3 T4 T5 T6 T7] HD Hn.
  assert (forall i, 0 < i < nf + 1 -> i = nf \/ 0 < i < nf) as Hc by lia.
  assert (forall s, slot f (D nf) s = 0) as H0 by (intros; rewrite HD; apply fresh_slot).
  split; try done.
  - intros i [->|Hi]%Hc; [rewrite HD; by apply fresh_ok|by apply T2].
  - intros i s [->|Hi]%Hc Hs Hz; [by rewrite H0 in Hz|by apply T3].
  - intros i s j u [->|Hi]%Hc Hs [->|Hj]%Hc Hu Hz; rewrite ?H0 in *; try done; by apply T4.
  - intros i s [->|Hi]%Hc Hs; [rewrite H0, Hn; lia|by apply T5].
Qed.

Lemma image_new f fb fs t :
  let nf := 1 + Z.of_nat (length fs) in
  image f fb fs -> 0 <= t < 2 ^ 15 -> nf <= 28 -> image (iput f nf (fresh_inode t)) fb (fs ++ [(t, [])]).
Proof.
  intros nf [_ HT HF] Ht Hnf. set (f2 := iput f nf (fresh_inode t)).
  assert (forall b, 193 <= b -> f2 b = f b) as Hhigh by (intros b Hb; apply iput_high; lia).
  assert (forall j, 0 < j <= nf -> dino f2 j = if j =? nf then fresh_inode t else dino f j) as Hd.
  { intros j Hj. apply iput_dino; [apply (t_len _ _ _ _ _ HT)|lia|lia|by apply fresh_ok|done]. }
  assert (forall j, 0 < j < nf -> dino f2 j = dino f j) as Hd'.
  { intros j Hj. rewrite Hd by lia. by rewrite (proj2 (Z.eqb_neq j nf)) by lia. }
  assert (dino f2 nf = fresh_inode t) as Hn by (rewrite Hd, Z.eqb_refl by lia; done).
  assert (tables f2 (dino f2) nf (sizes f2) fb) as HT2.
  { eapply tables_ext; [| |eapply tables_low; [exact Hhigh|intros; apply iput_length, (t_len _ _ _ _ _ HT)|exact HT]].
    - intros i Hi. rewrite Hd' by done. split; [done|by apply (t_ok _ _ _ _ _ HT)].
    - intros i Hi. unfold sizes. by rewrite Hd'. }
  split.
  - rewrite length_app. simpl. lia.
  - rewrite length_app. replace (1 + Z.of_nat (length fs + length [(t, [] : list Z)])) with (nf + 1) by (simpl; lia).
    apply (tables_new _ _ _ _ _ t); try done; [lia|]. unfold sizes. by rewrite Hn.
  - intros m t' c Hm. destruct (decide (m < length fs)%nat) as [Hlt|Hge].
    + rewrite lookup_app_l in Hm by done. rewrite Hd' by lia. destruct (HF _ _ _ Hm) as (H1 & H2 & H3 & H4 & H5).
      do 4 (split; [done|]). intros k Hk Hz.
      destruct (fbyte_low f f2 _ _ _ _ (Z.of_nat m + 1) (dino f (Z.of_nat m + 1)) k Hhigh HT) as [Hk1 ->]; try done; [lia|].
      by apply H5.
    + rewrite lookup_app_r in Hm by lia. destruct (m - length fs)%nat as [|?] eqn:E; [|done]. injection Hm as <- <-.
      replace (Z.of_nat m + 1) with nf by lia. rewrite Hn. do 4 (split; [done|]). intros k Hk Hz. by rewrite fresh_slot in Hz.
Qed.

Lemma ialloc_run f fb fs t :
  let nf := 1 + Z.of_nat (length fs) in
  image f fb fs -> 0 <= t < 2 ^ 15 -> nf <= 28 ->
  ialloc t (at_ f nf fb) = Done nf (at_ (iput f nf (fresh_inode t)) (nf + 1) fb).
Proof.
  intros nf HI Ht Hnf. unfold ialloc. rewrite bind_gets. change (freeinode (at_ f nf fb)) with nf. rewrite bind_modify.
  rewrite u32_small by lia. change (set_freeinode (nf + 1) (at_ f nf fb)) with (at_ f (nf + 1) fb).
  rewrite xshort_u16. unfold u16. rewrite (Z.mod_small t) by lia. change (xshort 1) with 1. change (xint 0) with 0.
  by rewrite (bind_Done _ _ _ _ _ (winode_run nf _ f (nf + 1) fb ltac:(lia))).
Qed.

(** ** [main] *)

(** Blocks before the inodes do not matter. *)
Lemma image_low f f' fb fs :
  (forall b, 33 <= b -> f' b = f b) -> (forall b, length (f' b) = 512%nat) -> image f fb fs -> image f' fb fs.
Proof.
  intros Hf Hl [H28 HT HF].
  assert (forall j, 0 < j < 1 + Z.of_nat (length fs) -> dino f' j = dino f j) as Hd.
  { intros j Hj. unfold dino. rewrite Hf; [done|]. rewrite IBLOCK_first by lia. pose proof (Z.div_pos j 8). lia. }
  split; [done| |].
  - eapply tables_ext; [| |eapply tables_low; [|exact Hl|exact HT]].
    + intros i Hi. rewrite Hd by done. split; [done|by apply (t_ok _ _ _ _ _ HT)].
    + intros i Hi. unfold sizes. by rewrite Hd.
    + intros b Hb. apply Hf. lia.
  - intros n t c Hn. pose proof (lookup_lt_Some _ _ _ Hn). rewrite Hd by lia.
    destruct (HF _ _ _ Hn) as (H1 & H2 & H3 & H4 & H5). do 4 (split; [done|]). intros k Hk Hz.
    destruct (fbyte_low f f' (dino f) _ _ _ (Z.of_nat n + 1) (dino f (Z.of_nat n + 1)) k ltac:(intros; apply Hf; lia) HT)
      as [Hk1 ->]; try done; [lia|]. by apply H5.
Qed.

(** The bytes after the contents are zero, so the file may be declared to
    extend to the end of its last block. *)
Lemma image_round f fb t c fs :
  let pad := nblk (Z.of_nat (length c)) * 512 - Z.of_nat (length c) in
  image f fb ((t, c) :: fs) -> nblk (Z.of_nat (length c)) <= 140 ->
  image (iput f 1 (set_i_size (nblk (Z.of_nat (length c)) * 512) (dino f 1))) fb
    ((t, c ++ replicate (Z.to_nat pad) 0) :: fs).
Proof.
  intros pad HI Hc. pose proof HI as [H28 HT HF]. destruct (HF 0%nat t c eq_refl) as (_ & _ & Hsz & _ & Hby).
  change (Z.of_nat 0 + 1) with 1 in Hsz, Hby. set (n := Z.of_nat (length c)) in *.
  assert (0 <= pad < 512 /\ nblk (n + pad) = nblk n) as [Hpad Hn].
  { unfold pad, nblk. pose proof (Z.div_mod (n + 511) 512 ltac:(lia)). pose proof (Z.mod_pos_bound (n + 511) 512 ltac:(lia)).
    split; [lia|]. symmetry. apply Z.div_unique with 511; lia. }
  destruct (image_append f fb ((t, c) :: fs) 0 t c (replicate (Z.to_nat pad) 0) f (dino f 1) fb) as [HI' _]; try done.
  - rewrite length_replicate. fold n. unfold pad in *. lia.
  - rewrite length_replicate, Z2Nat.id by lia. fold n. rewrite Hn. unfold T. eapply tables_ext; [| |exact HT].
    + intros i Hi. unfold alter_one. case_if; b2p; subst; by split; [|apply (t_ok _ _ _ _ _ HT)].
    + intros i Hi. unfold alter_one, sizes. case_if; b2p; [|done]. rewrite E. change (Z.of_nat 0 + 1) with 1. by rewrite Hsz.
  - change (Z.of_nat 0 + 1) with 1. split; try done; [by exists (i_addrs (dino f 1))| |].
    + intros j Hj. rewrite length_replicate in Hj. fold n. rewrite Hby.
      * unfold get8. rewrite lookup_ge_None_2, lookup_replicate_2 by lia. done.
      * unfold pad in *. lia.
      * apply (t_alloc _ _ _ _ _ HT); [simpl; lia|apply block_index; unfold pad in *; lia|].
        unfold sizes. rewrite Hsz, <- Hn. apply nblk_lt. lia.
    + intros Ht k Hk. apply Ht. lia.
  - rewrite length_replicate, Z2Nat.id in HI' by lia. fold n in HI'.
    replace (n + pad) with (nblk n * 512) in HI' by (unfold pad; lia). exact HI'.
Qed.
