(* ===== verification/MkfsMain.v ===== *)
(** MkfsMain: [main] of mkfs.c on any list of files that fits the first block
    group. *)

From S2P Require Import Prelude Kernel StringLib Bytes FsLayout Fs FsWrite FsAlloc Mkfs MkfsProof.

(** ** Copying one file *)

Lemma nblk_mono a b : a <= b -> nblk a <= nblk b.
Proof. intros. apply Z.div_le_mono; lia. Qed.
Lemma nblk_add a b : nblk (a * 512 + b) = a + nblk b.
Proof. unfold nblk. replace (a * 512 + b + 511) with (b + 511 + a * 512) by lia. rewrite Z.div_add by lia. lia. Qed.
Lemma nblk_pos n : 0 <= n -> 0 <= nblk n.
Proof. intros. apply Z.div_pos; lia. Qed.
Lemma turns_chunk a n : 0 < n <= 512 -> turns (a * 512) n = 1.
Proof.
  intros Hn. unfold turns. rewrite nblk_add, Z.div_mul by lia. enough (nblk n = 1) by lia.
  symmetry. apply Z.div_unique with (n - 1); lia.
Qed.
(** A directory entry never crosses a block. *)
Lemma turns_entry a : 0 <= a -> turns (a * 16) 16 = 1.
Proof.
  intros Ha. pose proof (Z.div_mod a 32 ltac:(lia)). pose proof (Z.mod_pos_bound a 32 ltac:(lia)).
  unfold turns, nblk.
  replace ((a * 16) / 512) with (a / 32) by (apply Z.div_unique with (a mod 32 * 16); lia).
  enough ((a * 16 + 16 + 511) / 512 = a / 32 + 1) by lia. symmetry. apply Z.div_unique with (a mod 32 * 16 + 15); lia.
Qed.

Definition blk (l : list Z) : Z := nblk (Z.of_nat (length l)).

Lemma blk_drop data : data <> [] -> blk (drop 512 data) + 1 = blk data.
Proof.
  intros Hne. assert (0 < length data)%nat by (destruct data; simpl; [done|lia]).
  unfold blk. rewrite length_drop. destruct (Z.le_ge_cases 512 (Z.of_nat (length data))).
  - replace (Z.of_nat (length data)) with (1 * 512 + Z.of_nat (length data - 512)) by lia. rewrite nblk_add. lia.
  - replace (length data - 512)%nat with 0%nat by lia. change (nblk (Z.of_nat 0)) with 0.
    apply Z.div_unique with (Z.of_nat (length data) - 1); lia.
Qed.

Lemma copy_file_nil fuel i m : copy_file fuel i [] m = Done tt m.
Proof. by destruct fuel. Qed.

Lemma copy_file_run n t fi fuel : forall data f fb fs c a,
  (length data <= fuel)%nat -> image f fb fs -> fs !! n = Some (t, c) -> Z.of_nat (length c) = a * 512 ->
  Z.of_nat (length c) + Z.of_nat (length data) <= 71680 -> fb + 2 * blk data <= 4060 ->
  exists f' fb', copy_file fuel (Z.of_nat n + 1) data (at_ f fi fb) = Done tt (at_ f' fi fb') /\
    image f' fb' (<[n := (t, c ++ data)]> fs) /\ (forall b, b <= 32 -> f' b = f b) /\
    fb <= fb' <= fb + 2 * blk data.
Proof.
  induction fuel as [|fuel IH]; intros data f fb fs c a Hf HI Hn Hc Hs Hfb; (destruct (decide (data = [])) as [->|Hne];
    [exists f, fb; rewrite copy_file_nil, app_nil_r, list_insert_id by done; pose proof (nblk_pos 0); split; [done|];
     split; [done|]; split; [done|]; change (blk []) with 0; lia|]).
  { destruct data; simpl in Hf; [done|lia]. }
  change (copy_file (S fuel) (Z.of_nat n + 1) data) with
    (match data with [] => ret tt | _ => iappend (Z.of_nat n + 1) (take 512 data) ;;; copy_file fuel (Z.of_nat n + 1) (drop 512 data) end).
  assert (0 < length data)%nat as Hd by (destruct data; simpl; [done|lia]).
  assert (Z.of_nat (length (take 512 data)) = Z.min 512 (Z.of_nat (length data))) as Hl by (rewrite length_take; lia).
  assert (Z.of_nat (length (drop 512 data)) = Z.of_nat (length data) - Z.min 512 (Z.of_nat (length data))) as Hl2
    by (rewrite length_drop; lia).
  pose proof (blk_drop data Hne) as Hb.
  pose proof (nblk_pos (Z.of_nat (length (drop 512 data))) ltac:(lia)) as Hp. fold (blk (drop 512 data)) in Hp.
  assert (turns (Z.of_nat (length c)) (Z.of_nat (length (take 512 data))) = 1) as Ht by (rewrite Hc; apply turns_chunk; lia).
  destruct (iappend_run f fi fb fs n t c (take 512 data)) as (f1 & fb1 & R1 & HI1 & Hlow1 & Hfb1); try done; try lia.
  destruct data as [|d0 data0] eqn:Ed; [done|]. rewrite <- Ed in *. rewrite (bind_Done _ _ _ _ _ R1).
  destruct (decide (drop 512 data = [])) as [E0|Hne2].
  - exists f1, fb1. rewrite E0, copy_file_nil.
    assert (take 512 data = data) as Et by (pose proof (take_drop 512 data) as E1; by rewrite E0, app_nil_r in E1).
    rewrite Et in HI1. split; [done|]. split; [done|]. split; [done|lia].
  - destruct (IH (drop 512 data) f1 fb1 (<[n:=(t, c ++ take 512 data)]> fs) (c ++ take 512 data) (a + 1))
      as (f2 & fb2 & R2 & HI2 & Hlow2 & Hfb2); try done.
    + rewrite length_drop. lia.
    + apply list_lookup_insert_eq. by eapply lookup_lt_Some.
    + rewrite length_app, Nat2Z.inj_add, Hl, Hc. enough (512 <= Z.of_nat (length data)) by lia.
      destruct (decide (512 <= length data)%nat); [lia|]. rewrite drop_ge in Hne2 by lia. done.
    + rewrite length_app. lia.
    + lia.
    + exists f2, fb2. rewrite R2. rewrite list_insert_insert_eq, <- app_assoc, take_drop in HI2.
      split; [done|]. split; [done|]. split; [|lia]. intros b Hb'. by rewrite Hlow2, Hlow1.
Qed.

(** ** Adding the files *)

Definition entries (l : list arg) (i : Z) : list Z :=
  concat (imap (fun n a => mkdirent (i + Z.of_nat n) (skip_underscore a.1)) l).
Definition contents_of (l : list arg) : list (Z * list Z) := map (fun a => (T_FILE, default [] a.2)) l.

(** [open] finds the file in the current directory, and it is not too large. *)
Definition good_arg (a : arg) : Prop :=
  existsb (fun c => c =? 47) a.1 = false /\
  exists data, a.2 = Some data /\ Z.of_nat (length data) <= MAXFILE * BSIZE.
(** A bound on the blocks a file takes: its data and its indirect block, and
    two for its entry. *)
Definition need (a : arg) : Z := 2 + 2 * blk (default [] a.2).
Definition needs (l : list arg) : Z := foldr (fun a n => need a + n) 0 l.

Lemma need_pos a : 0 <= need a.
Proof. unfold need, blk. pose proof (nblk_pos (Z.of_nat (length (default [] a.2))) ltac:(lia)). lia. Qed.
Lemma needs_pos l : 0 <= needs l.
Proof. induction l as [|a l IH]; simpl; [lia|]. pose proof (need_pos a). lia. Qed.

Lemma mkdirent_length i s : length (mkdirent i s) = 16%nat.
Proof. unfold mkdirent. rewrite !length_app, length_take, length_replicate. change (length (half_bytes (xshort i))) with 2%nat. lia. Qed.

Lemma add_entry_run f fi fb dir t fs i s a :
  image f fb ((t, dir) :: fs) -> Z.of_nat (length dir) = a * 16 -> a <= 100 -> fb + 2 <= 4060 ->
  exists f' fb', iappend 1 (mkdirent i s) (at_ f fi fb) = Done tt (at_ f' fi fb') /\
    image f' fb' ((t, dir ++ mkdirent i s) :: fs) /\ (forall b, b <= 32 -> f' b = f b) /\ fb <= fb' <= fb + 2.
Proof.
  intros HI Hd Ha Hfb. assert (turns (Z.of_nat (length dir)) (Z.of_nat (length (mkdirent i s))) = 1) as Ht.
  { rewrite mkdirent_length, Hd. apply turns_entry. lia. }
  destruct (iappend_run f fi fb ((t, dir) :: fs) 0 t dir (mkdirent i s)) as (f' & fb' & R & HI' & Hlow & Hfb');
    [exact HI|done|rewrite mkdirent_length; lia|lia|].
  exists f', fb'. split; [exact R|]. split; [exact HI'|]. split; [done|lia].
Qed.

Lemma add_file_run f fb dir fs (a : arg) :
  let nf := 2 + Z.of_nat (length fs) in
  image f fb ((T_DIR, dir) :: fs) -> Z.of_nat (length dir) = nf * 16 -> nf <= 28 -> good_arg a -> fb + need a <= 4060 ->
  exists f' fb', add_file 1 a (at_ f nf fb) = Done tt (at_ f' (nf + 1) fb') /\
    image f' fb' ((T_DIR, dir ++ mkdirent nf (skip_underscore a.1)) :: fs ++ contents_of [a]) /\
    (forall b, b <= 32 -> f' b = f b) /\ fb <= fb' <= fb + need a.
Proof.
  intros nf HI Hd Hnf (Hs & data & Ha & Hsz) Hfb. change (MAXFILE * BSIZE) with 71680 in Hsz.
  unfold need in *. unfold contents_of. cbn [map]. rewrite Ha in Hfb |- *.
  change (default [] (Some data)) with data in *.
  pose proof (nblk_pos (Z.of_nat (length data)) ltac:(lia)) as Hp. fold (blk data) in Hp.
  unfold add_file. rewrite Hs, Ha.
  assert (1 + Z.of_nat (length ((T_DIR, dir) :: fs)) = nf) as Hlen by (simpl; lia).
  pose proof (ialloc_run f fb _ T_FILE HI ltac:(unfold T_FILE; lia) ltac:(lia)) as R0. cbv zeta in R0.
  pose proof (image_new f fb _ T_FILE HI ltac:(unfold T_FILE; lia) ltac:(lia)) as HI0. cbv zeta in HI0.
  rewrite Hlen in R0, HI0. rewrite (bind_Done _ _ _ _ _ R0). set (f0 := iput f nf (fresh_inode T_FILE)) in *.
  assert (forall b, b <= 32 -> f0 b = f b) as Hlow0 by (intros b Hb; apply iput_high; lia).
  destruct (add_entry_run f0 (nf + 1) fb dir T_DIR (fs ++ [(T_FILE, [])]) nf (skip_underscore a.1) nf)
    as (f1 & fb1 & R1 & HI1 & Hlow1 & Hfb1); [exact HI0|exact Hd|lia|lia|].
  rewrite (bind_Done _ _ _ _ _ R1).
  destruct (copy_file_run (S (length fs)) T_FILE (nf + 1) (length data) data f1 fb1
    ((T_DIR, dir ++ mkdirent nf (skip_underscore a.1)) :: fs ++ [(T_FILE, [])]) [] 0)
    as (f2 & fb2 & R2 & HI2 & Hlow2 & Hfb2); [done|exact HI1| |done|simpl; lia|lia|].
  { simpl. rewrite lookup_app_r by lia. by rewrite Nat.sub_diag. }
  replace (Z.of_nat (S (length fs)) + 1) with nf in R2 by lia. exists f2, fb2. split; [exact R2|]. split; [|split].
  - simpl in HI2. rewrite insert_app_r_alt, Nat.sub_diag in HI2 by lia. exact HI2.
  - intros b Hb. by rewrite Hlow2, Hlow1, Hlow0.
  - lia.
Qed.

Lemma entries_cons a l i :
  entries (a :: l) i = mkdirent i (skip_underscore a.1) ++ entries l (i + 1).
Proof.
  unfold entries. rewrite imap_cons. cbn [concat]. change (Z.of_nat 0) with 0. rewrite Z.add_0_r.
  apply (f_equal (app _)), (f_equal (@concat _)), imap_ext. intros n a' _. unfold compose.
  by replace (i + Z.of_nat (S n)) with (i + 1 + Z.of_nat n) by lia.
Qed.

Lemma add_files_run l : forall f fb dir fs,
  let nf := 2 + Z.of_nat (length fs) in
  image f fb ((T_DIR, dir) :: fs) -> Z.of_nat (length dir) = nf * 16 -> nf + Z.of_nat (length l) <= 29 ->
  Forall good_arg l -> fb + needs l <= 4060 ->
  exists f' fb', add_files 1 l (at_ f nf fb) = Done tt (at_ f' (nf + Z.of_nat (length l)) fb') /\
    image f' fb' ((T_DIR, dir ++ entries l nf) :: fs ++ contents_of l) /\
    (forall b, b <= 32 -> f' b = f b) /\ fb <= fb' <= fb + needs l.
Proof.
  induction l as [|a l IH]; intros f fb dir fs nf HI Hd Hnf HF Hfb.
  { exists f, fb. simpl. rewrite Z.add_0_r. unfold entries. simpl. rewrite !app_nil_r. split; [done|]. split; [done|].
    split; [done|lia]. }
  inversion HF as [|? ? Ha Hl]; subst. simpl in Hfb. pose proof (needs_pos l) as Hp. simpl length in Hnf.
  destruct (add_file_run f fb dir fs a) as (f1 & fb1 & R1 & HI1 & Hlow1 & Hfb1); try done; try (fold nf; lia).
  destruct (IH f1 fb1 (dir ++ mkdirent nf (skip_underscore a.1)) (fs ++ contents_of [a]))
    as (f2 & fb2 & R2 & HI2 & Hlow2 & Hfb2); try done; try (rewrite !length_app, ?mkdirent_length; simpl; lia); try lia.
  rewrite length_app in R2, HI2. simpl length in R2, HI2.
  replace (2 + Z.of_nat (length fs + 1)) with (nf + 1) in R2, HI2 by lia.
  exists f2, fb2. change (add_files 1 (a :: l)) with (add_file 1 a ;;; add_files 1 l). fold nf in R1.
  rewrite (bind_Done _ _ _ _ _ R1), R2, entries_cons.
  replace (nf + Z.of_nat (length (a :: l))) with (nf + 1 + Z.of_nat (length l)) by (simpl; lia). split; [done|].
  rewrite <- !app_assoc in HI2. split; [exact HI2|]. split; [|simpl; lia]. intros b Hb. by rewrite Hlow2, Hlow1.
Qed.

(** ** The start and the end of the run *)

Lemma clear_image_run n : forall i m,
  (forall b, img m b = zero_block) -> img_size m = i -> 0 <= i -> i + Z.of_nat n <= 2 ^ 23 ->
  exists f, clear_image i n m = Done tt (Mkfs f (i + Z.of_nat n) (m_sb m) (freeinode m) (freeblock m)) /\
    forall b, f b = zero_block.
Proof.
  induction n as [|n IH]; intros i m Hz Hs Hi Hn.
  { exists (img m). split; [|done]. simpl. rewrite Z.add_0_r. destruct m. simpl in *. by subst. }
  simpl. unfold wsect. rewrite bind_modify, seek_small by lia.
  destruct (IH (i + 1) (set_img (put_sect (img m) i zero_block) (Z.max (img_size m) (i + 1)) m)) as (f & R & Hf).
  - intros b. simpl. unfold put_sect. by case_if.
  - simpl. lia.
  - lia.
  - lia.
  - exists f. rewrite R. split; [|done]. simpl. do 2 f_equal. lia.
Qed.

Definition bitmap (used : Z) : list Z := foldl (fun buf i => set_bit i buf) zero_block (seqZ 0 used).
Lemma bitmap_bit n : Z.of_nat n <= 4096 ->
  length (bitmap (Z.of_nat n)) = 512%nat /\
  forall j, 0 <= j < 4096 -> bit (bitmap (Z.of_nat n)) j = (j <? Z.of_nat n).
Proof.
  unfold bitmap. induction n as [|n IH]; intros Hn.
  { split; [done|]. intros j Hj. unfold bit. simpl foldl. rewrite get8_zero, Z.bits_0. symmetry. apply Z.ltb_ge. lia. }
  destruct IH as [IH1 IH2]; [lia|]. replace (Z.of_nat (S n)) with (Z.of_nat n + 1) by lia.
  rewrite seqZ_app, foldl_app by lia. simpl. split; [by rewrite set_bit_length|]. intros j Hj.
  pose proof (Z.div_lt_upper_bound (Z.of_nat n) 8 512 ltac:(lia) ltac:(lia)). pose proof (Z.div_pos (Z.of_nat n) 8).
  replace (Z.of_nat 0 + (0 + Z.of_nat n)) with (Z.of_nat n) by lia. rewrite bit_set; [rewrite IH2 by done; case_cmp; try done; exfalso; lia|lia|lia|lia].
Qed.
Lemma balloc_run f fi fb used :
  0 <= used < 4060 -> balloc used (at_ f fi fb) = Done tt (at_ (put_sect f 32 (bitmap used)) fi fb).
Proof.
  intros Hu. unfold balloc. change BPB with 4060. rewrite (proj2 (Z.leb_gt 4060 used)) by lia. rewrite bind_gets.
  change (sb_bgstart (m_sb (at_ f fi fb))) with (sb_bgstart mkfs_sb). rewrite mkfs_sb_eq. by apply wsect_run.
Qed.

(** The super block the kernel reads is the one [mkfs] meant. *)
Lemma sb_block_decode : decode_sb (sb_block mkfs_sb) = mkfs_sb /\ length (sb_block mkfs_sb) = 512%nat.
Proof. by vm_compute. Qed.

(** ** The image *)

(** Inode [i] where the kernel's [ilock] looks for it. *)
Definition kernel_inode (f : Z -> list Z) (i : Z) : inode :=
  let sb := decode_sb (f 1) in load_dinode (dinode_off i sb) (f (IBLOCK i sb)) zero_dinode.
(** Its bytes, in the blocks its addresses name. *)
Definition read_file (f : Z -> list Z) (x : inode) : list Z :=
  map (fun k => fbyte f x (Z.of_nat k)) (seq 0 (Z.to_nat (i_size x))).
(** The root directory: its entries, and free ones up to the end of the block. *)
Definition root_entries (l : list arg) : list Z :=
  mkdirent ROOTINO [46] ++ mkdirent ROOTINO [46; 46] ++ entries l 2.
Definition root_dir (l : list arg) : list Z :=
  root_entries l ++ replicate (512 - length (root_entries l)) 0.

Lemma entries_length l i : length (entries l i) = (16 * length l)%nat.
Proof.
  revert i. induction l as [|a l IH]; intros i; [done|]. rewrite entries_cons, length_app, mkdirent_length, IH. simpl. lia.
Qed.
Lemma root_entries_length l : length (root_entries l) = (16 * (length l + 2))%nat.
Proof. unfold root_entries. rewrite !length_app, !mkdirent_length, entries_length. lia. Qed.

Lemma image_start f : (forall b, 2 <= b -> f b = zero_block) -> (forall b, length (f b) = 512%nat) -> image f 157 [].
Proof.
  intros Hf Hl. split; [done| |by intros [|?]]. split; try done; try (intros; simpl in *; lia).
  intros b Hb. apply Hf. lia.
Qed.

(** The first half of [main]: the cleared image, the super block and the root
    directory with its first two entries. *)
Lemma root_run : exists f fb,
  image f fb [(T_DIR, mkdirent ROOTINO [46] ++ mkdirent ROOTINO [46; 46])] /\ f 1 = sb_block mkfs_sb /\
  157 <= fb <= 161 /\
  forall A (k : Z -> M mkfs A),
    (modify (set_m_sb mkfs_sb) ;;; modify (set_freeblock nmeta) ;;; clear_image 0 (Z.to_nat FSSIZE) ;;;
     wsect 1 (sb_block mkfs_sb) ;;;
     let! rootino := ialloc T_DIR in
     if negb (rootino =? ROOTINO) then panic "assert" else
     iappend rootino (mkdirent rootino [46]) ;;; iappend rootino (mkdirent rootino [46; 46]) ;;; k rootino) mkfs_start
    = k 1 (at_ f 2 fb).
Proof.
  destruct (clear_image_run (Z.to_nat FSSIZE) 0 (set_freeblock nmeta (set_m_sb mkfs_sb mkfs_start))) as (f0 & R0 & Hf0);
    [done|done|lia|rewrite Z2Nat.id, FSSIZE_eq by (rewrite FSSIZE_eq; lia); lia|].
  rewrite Z2Nat.id in R0 by (rewrite FSSIZE_eq; lia). cbn [m_sb freeinode freeblock set_freeblock set_m_sb mkfs_start] in R0.
  rewrite Z.add_0_l in R0. change nmeta with 157 in R0 at 2. change (Mkfs f0 FSSIZE mkfs_sb 1 157) with (at_ f0 1 157) in R0.
  set (f1 := put_sect f0 1 (sb_block mkfs_sb)). destruct sb_block_decode as [_ Hsb].
  assert (image f1 157 []) as HI1.
  { apply image_start; intros b; unfold f1, put_sect; [intros; case_if; b2p; [lia|done]|case_if; [exact Hsb|by rewrite Hf0]]. }
  pose proof (ialloc_run f1 157 [] T_DIR HI1 ltac:(unfold T_DIR; lia) ltac:(simpl; lia)) as R2.
  pose proof (image_new f1 157 [] T_DIR HI1 ltac:(unfold T_DIR; lia) ltac:(simpl; lia)) as HI2. cbv zeta in R2, HI2.
  change (1 + Z.of_nat (length [])) with 1 in R2, HI2. change (1 + 1) with 2 in R2. rewrite app_nil_l in HI2.
  set (f2 := iput f1 1 (fresh_inode T_DIR)) in *.
  destruct (add_entry_run f2 2 157 [] T_DIR [] 1 [46] 0) as (f3 & fb3 & R3 & HI3 & L3 & B3);
    [exact HI2|done|lia|lia|]. rewrite app_nil_l in HI3.
  destruct (add_entry_run f3 2 fb3 (mkdirent 1 [46]) T_DIR [] 1 [46; 46] 1) as (f4 & fb4 & R4 & HI4 & L4 & B4);
    [exact HI3|by rewrite mkdirent_length|lia|lia|].
  exists f4, fb4. split; [exact HI4|]. split; [|split; [lia|]].
  { rewrite L4, L3 by lia. unfold f2. rewrite iput_high by lia. apply put_sect_eq. }
  intros A k. rewrite !bind_modify. rewrite (bind_Done _ _ _ _ _ R0).
  rewrite (bind_Done _ _ _ _ _ (wsect_run 1 (sb_block mkfs_sb) f0 1 157 ltac:(lia))). fold f1.
  rewrite (bind_Done _ _ _ _ _ R2). change (negb (1 =? ROOTINO)) with false. cbv iota.
  by rewrite (bind_Done _ _ _ _ _ R3), (bind_Done _ _ _ _ _ R4).
Qed.

Lemma kernel_inode_eq f i : f 1 = sb_block mkfs_sb -> 0 <= i < 29 -> kernel_inode f i = dino f i.
Proof.
  intros Hf Hi. unfold kernel_inode, dino. destruct sb_block_decode as [E _]. rewrite Hf, E. cbv zeta.
  by rewrite mkfs_off_first.
Qed.

Lemma read_file_image f fb fs n t c :
  image f fb fs -> fs !! n = Some (t, c) -> read_file f (dino f (Z.of_nat n + 1)) = c.
Proof.
  intros [H28 HT HF] Hn. pose proof (lookup_lt_Some _ _ _ Hn) as Hlt. destruct (HF _ _ _ Hn) as (_ & _ & Hsz & Hb & Hby).
  unfold read_file. rewrite Hsz, Nat2Z.id. apply list_eq. intros k. change (map ?g ?l) with (g <$> l).
  rewrite list_lookup_fmap. destruct (decide (k < length c)%nat) as [Hk|Hk].
  - rewrite lookup_seq_lt by done. simpl. rewrite Hby; [|lia|].
    + rewrite Nat2Z.id. unfold get8. by destruct (lookup_lt_is_Some_2 c k Hk) as [v ->].
    + apply (t_alloc _ _ _ _ _ HT); [lia|apply block_index; lia|]. unfold sizes. rewrite Hsz. apply nblk_lt. lia.
  - rewrite !lookup_ge_None_2; [done|lia|rewrite length_seq; lia].
Qed.

(** The second half: the files, the root's size, the bitmap. *)
Lemma files_run l f fb :
  image f fb [(T_DIR, mkdirent ROOTINO [46] ++ mkdirent ROOTINO [46; 46])] -> f 1 = sb_block mkfs_sb ->
  Forall good_arg l -> Z.of_nat (length l) <= 27 -> 157 <= fb -> fb + needs l < 4060 ->
  exists f' fb',
    (add_files 1 l ;;;
     let! din := rinode 1 in
     let off := u32 ((xint (i_size din) / BSIZE + 1) * BSIZE) in
     winode 1 (set_i_size (xint off) din) ;;;
     let! used := gets freeblock in
     balloc used) (at_ f 2 fb) = Done tt (at_ f' (2 + Z.of_nat (length l)) fb') /\
    image f' fb' ((T_DIR, root_dir l) :: contents_of l) /\ f' 1 = sb_block mkfs_sb /\
    f' 32 = bitmap fb' /\ 157 <= fb' < 4060.
Proof.
  intros HI Hsb HF Hl Hfb Hn.
  destruct (add_files_run l f fb _ [] HI) as (f1 & fb1 & R1 & HI1 & L1 & B1); [by rewrite length_app, !mkdirent_length|simpl; lia|done|lia|].
  change (2 + Z.of_nat (length [])) with 2 in R1, HI1. rewrite app_nil_l in HI1.
  rewrite <- app_assoc in HI1. fold (root_entries l) in HI1. rewrite (bind_Done _ _ _ _ _ R1).
  rewrite (bind_Done _ _ _ _ _ (rinode_run 1 f1 _ fb1 ltac:(lia))).
  pose proof (root_entries_length l) as Hlen.
  destruct (im_files _ _ _ HI1 0%nat T_DIR _ eq_refl) as (_ & _ & Hsz & _). change (Z.of_nat 0 + 1) with 1 in Hsz.
  assert (nblk (Z.of_nat (length (root_entries l))) = 1) as Hb.
  { symmetry. apply Z.div_unique with (Z.of_nat (length (root_entries l)) - 1); lia. }
  rewrite Hsz, (xint_small (Z.of_nat _)), Z.div_small by (change BSIZE with 512; lia). cbv zeta.
  change (xint (u32 ((0 + 1) * BSIZE))) with 512. rewrite (bind_Done _ _ _ _ _ (winode_run 1 _ f1 _ fb1 ltac:(lia))).
  pose proof (image_round f1 fb1 T_DIR _ _ HI1 ltac:(lia)) as HI2. cbv zeta in HI2. rewrite Hb in HI2.
  replace (Z.to_nat (1 * 512 - Z.of_nat (length (root_entries l)))) with (512 - length (root_entries l))%nat in HI2 by lia.
  fold (root_dir l) in HI2. change (1 * 512) with 512 in HI2. set (f2 := iput f1 1 _) in *.
  rewrite bind_gets. change (freeblock (at_ f2 _ fb1)) with fb1. rewrite balloc_run by lia.
  assert (fb1 = Z.of_nat (Z.to_nat fb1)) as Efb by lia. destruct (bitmap_bit (Z.to_nat fb1)) as [Hbl _]; [lia|].
  rewrite <- Efb in Hbl. exists (put_sect f2 32 (bitmap fb1)), fb1. split; [done|]. split; [|split; [|split; [|lia]]].
  - eapply image_low; [| |exact HI2].
    + intros b Hb'. apply put_sect_ne. lia.
    + intros b. unfold put_sect. case_if; [done|]. apply (t_len _ _ _ _ _ (im_tables _ _ _ HI2)).
  - rewrite put_sect_ne by lia. unfold f2. rewrite iput_high by lia. by rewrite L1 by lia.
  - apply put_sect_eq.
Qed.


Definition demo_files : list arg := [([95; 99; 97; 116], Some [127; 69; 76; 70]); ([82], Some [120; 118; 54])].
