(* ===== verification/Printf.v ===== *)
(** Printf: formatted output, printf.c of the user library; [printint] is the
    same function in console.c but for its digits.

    The characters written are a list.  The arguments after the format are
    the words [ap 0], [ap 1], ... of the stack, and [str a] is the C string at
    address [a]. *)

From S2P Require Import Prelude StringLib Ulib.

(** ** [printint] *)

(** "0123456789ABCDEF" of printf.c and "0123456789abcdef" of console.c *)
Definition digits_upper : list Z := [48; 49; 50; 51; 52; 53; 54; 55; 56; 57; 65; 66; 67; 68; 69; 70].
Definition digits_lower : list Z := [48; 49; 50; 51; 52; 53; 54; 55; 56; 57; 97; 98; 99; 100; 101; 102].

Section Printint.
Context (digits : list Z).

(** [digits[x % base]] *)
Definition digit (x base : Z) : Z := default 0 (digits !! Z.to_nat (x mod base)).

(** The [do] loop: [buf], the last digit first.  Every turn divides [x]: with
    a base of two or more, 32 turns are enough. *)
Fixpoint int_digits (n : nat) (x base : Z) : list Z :=
  match n with
  | O => []
  | S n => digit x base :: if x / base =? 0 then [] else int_digits n (x / base) base
  end.

(** The characters of [printint(xx, base, sgn)] *)
Definition printint (xx base sgn : Z) : list Z :=
  let neg := negb (sgn =? 0) && (xx <? 0) in
  let x := u32 (if neg then - xx else xx) in
  rev (int_digits 32 x base ++ if neg then [45] else []).
End Printint.

(** ** [printf] *)

Section Printf.
Context (str : Z -> list Z).

(** "(null)" *)
Definition null_text : list Z := [40; 110; 117; 108; 108; 41].

(** [state] is 0 or the percent sign. *)
Fixpoint printf_loop (fmt : list Z) (state : Z) (ap : nat -> Z) : list Z :=
  match fmt with
  | [] => []
  | f :: fmt =>
      let c := Z.land f 0xff in
      if state =? 0 then
        if c =? 37 then printf_loop fmt 37 ap else c :: printf_loop fmt state ap
      else if state =? 37 then
        if c =? 100 then printint digits_upper (i32 (ap O)) 10 1 ++ printf_loop fmt 0 (fun i => ap (S i))
        else if (c =? 120) || (c =? 112) then printint digits_upper (i32 (ap O)) 16 0 ++ printf_loop fmt 0 (fun i => ap (S i))
        else if c =? 115 then (if ap O =? 0 then null_text else str (ap O)) ++ printf_loop fmt 0 (fun i => ap (S i))
        else if c =? 99 then u8 (ap O) :: printf_loop fmt 0 (fun i => ap (S i))
        else if c =? 37 then c :: printf_loop fmt 0 ap
        else 37 :: c :: printf_loop fmt 0 ap
      else printf_loop fmt state ap
  end.
Definition printf (fmt : list Z) (ap : nat -> Z) : list Z := printf_loop fmt 0 ap.
End Printf.

(** ** The digits of a number *)

(** The value of a string of decimal digits, as [atoi] computes it without
    the wrap-around. *)
Definition value (ds : list Z) : Z := foldl (fun n c => n * 10 + (c - 48)) 0 ds.

Lemma value_app a c : value (a ++ [c]) = value a * 10 + (c - 48).
Proof. unfold value. by rewrite foldl_app. Qed.

Lemma digit_decimal digits x : digits = digits_upper \/ digits = digits_lower -> digit digits x 10 = 48 + x mod 10.
Proof.
  intros Hd. unfold digit. pose proof (Z.mod_pos_bound x 10 ltac:(lia)) as H. revert H. generalize (x mod 10). intros r Hr.
  assert (r = 0 \/ r = 1 \/ r = 2 \/ r = 3 \/ r = 4 \/ r = 5 \/ r = 6 \/ r = 7 \/ r = 8 \/ r = 9) as Hc by lia.
  destruct Hd as [-> | ->]; destruct Hc as [->|[->|[->|[->|[->|[->|[->|[->|[->| ->]]]]]]]]]; done.
Qed.

Section Decimal.
Context (digits : list Z) (Hd : digits = digits_upper \/ digits = digits_lower).

Lemma int_digits_value n : forall x, 0 <= x < 10 ^ Z.of_nat n -> (0 < n)%nat -> value (rev (int_digits digits n x 10)) = x.
Proof.
  induction n as [|n IH]; intros x Hx Hn; [lia|]. simpl int_digits. simpl rev. rewrite value_app, digit_decimal by done.
  pose proof (Z.div_mod x 10 ltac:(lia)) as E. rewrite Nat2Z.inj_succ, Z.pow_succ_r in Hx by lia.
  destruct (Z.eqb_spec (x / 10) 0) as [E0|E0]; [simpl; unfold value; simpl; lia|].
  destruct (decide (n = O)) as [->|]; [simpl in Hx; rewrite Z.div_small in E0 by lia; done|].
  rewrite IH; [lia| |lia]. split; [apply Z.div_pos; lia|apply Z.div_lt_upper_bound; lia].
Qed.
Lemma int_digits_chars n : forall x, Forall (fun c => 48 <= c <= 57) (int_digits digits n x 10).
Proof.
  induction n as [|n IH]; intros x; [constructor|]. simpl. rewrite digit_decimal by done.
  pose proof (Z.mod_pos_bound x 10 ltac:(lia)). constructor; [lia|]. case_match; [constructor|apply IH].
Qed.
Lemma int_digits_length n k : forall x, 0 <= x < 10 ^ Z.of_nat k -> (0 < k)%nat -> (length (int_digits digits n x 10) <= k)%nat.
Proof.
  revert k. induction n as [|n IH]; intros k x Hx Hk; simpl; [lia|]. destruct (Z.eqb_spec (x / 10) 0) as [E|E]; [simpl; lia|].
  destruct k as [|k]; [lia|]. rewrite Nat2Z.inj_succ, Z.pow_succ_r in Hx by lia.
  destruct (decide (k = O)) as [->|]; [simpl in Hx; rewrite Z.div_small in E by lia; done|].
  apply le_n_S, IH; [|lia]. split; [apply Z.div_pos; lia|apply Z.div_lt_upper_bound; lia].
Qed.
End Decimal.

Lemma i32_add_l a b : i32 (i32 a + b) = i32 (a + b).
Proof. unfold i32, sint. f_equal. replace ((a + 2 ^ (32 - 1)) mod 2 ^ 32 - 2 ^ (32 - 1) + b + 2 ^ (32 - 1)) with ((a + 2 ^ (32 - 1)) mod 2 ^ 32 + b) by lia. rewrite Zplus_mod_idemp_l. f_equal. lia. Qed.
Lemma i32_mul_l a b : i32 (i32 a * b) = i32 (a * b).
Proof.
  unfold i32, sint. f_equal. set (h := 2 ^ (32 - 1)). set (w := 2 ^ 32).
  replace (((a + h) mod w - h) * b + h) with ((a + h) mod w * b + (h - h * b)) by lia.
  rewrite <- Zplus_mod_idemp_l, Zmult_mod_idemp_l, Zplus_mod_idemp_l. f_equal. lia.
Qed.

Lemma atoi_loop_digits l : forall fuel s n, Forall (fun c => 48 <= c <= 57) l -> (length l < fuel)%nat ->
  (forall i, (i <= length l)%nat -> s (Z.of_nat i) = default 0 (l !! i)) ->
  atoi_loop fuel s (i32 n) = Some (i32 (foldl (fun n c => n * 10 + (c - 48)) n l)).
Proof.
  induction l as [|c l IH]; intros fuel s n Hl Hf Hs; (destruct fuel as [|fuel]; [simpl in Hf; lia|]); simpl atoi_loop.
  - specialize (Hs O ltac:(simpl; lia)). change (Z.of_nat 0) with 0 in Hs. by rewrite Hs.
  - apply Forall_cons in Hl as [Hc Hl]. assert (s 0 = c) as H0 by exact (Hs O ltac:(simpl; lia)). rewrite H0.
    assert (i8 c = c) as -> by (apply sint_small; simpl; lia).
    destruct (Z.leb_spec 48 c), (Z.leb_spec c 57); try lia. cbn [andb].
    replace (i32 (i32 n * 10 + c - 48)) with (i32 (n * 10 + (c - 48))).
    + simpl foldl. apply IH; [done|simpl in Hf; lia|]. intros i Hi. unfold from.
      replace (1 + Z.of_nat i) with (Z.of_nat (S i)) by lia. rewrite Hs by (simpl; lia). done.
    + replace (i32 n * 10 + c - 48) with (i32 n * 10 + (c - 48)) by lia. by rewrite <- (i32_add_l (i32 n * 10)), i32_mul_l, i32_add_l.
Qed.

(** Numbers printed and read back.  Every [int] is printed by [printint]
    in base 10 as a minus sign if it is negative and then the decimal digits
    of its magnitude, in the 16 characters of its buffer, and [atoi] of these
    digits is the magnitude as an [int]: the number itself when it is not
    negative, and [INT_MIN] for the magnitude of [INT_MIN], which no [int]
    holds. *)
Theorem printint_atoi digits xx :
  digits = digits_upper \/ digits = digits_lower -> - 2 ^ 31 <= xx < 2 ^ 31 ->
  exists ds, printint digits xx 10 1 = (if xx <? 0 then [45] else []) ++ ds /\
    value ds = Z.abs xx /\ Forall (fun c => 48 <= c <= 57) ds /\ (1 <= length ds <= 10)%nat /\
    atoi (S (length ds)) (of_list ds) = Some (i32 (Z.abs xx)).
Proof.
  intros Hd Hx. set (ds := rev (int_digits digits 32 (Z.abs xx) 10)).
  assert (value ds = Z.abs xx) as Ev by (apply int_digits_value; [done|simpl; lia|lia]).
  assert (Forall (fun c => 48 <= c <= 57) ds) as Hf by (apply Forall_rev, int_digits_chars; done).
  exists ds. split; [|split; [done|split; [done|split]]].
  - unfold printint. change (negb (1 =? 0)) with true. cbn [andb]. cbv zeta. rewrite rev_app_distr.
    destruct (Z.ltb_spec xx 0).
    + rewrite u32_small by lia. replace (- xx) with (Z.abs xx) by lia. exact eq_refl.
    + rewrite u32_small by lia. replace xx with (Z.abs xx) at 1 by lia. exact eq_refl.
  - unfold ds. rewrite length_rev. split; [cbn [int_digits length]; lia|]. apply int_digits_length; [change (10 ^ Z.of_nat 10) with 10000000000; lia|lia].
  - unfold atoi. change 0 with (i32 0) at 1. rewrite (atoi_loop_digits ds); [|done|lia|].
    + by rewrite <- Ev.
    + intros i Hi. unfold of_list. destruct (Z.ltb_spec (Z.of_nat i) 0); [lia|]. by rewrite Nat2Z.id.
Qed.

(** ** Witnesses *)

Lemma printint_atoi_witness :
  exists ds, printint digits_upper (-2048) 10 1 = 45 :: ds /\ atoi (S (length ds)) (of_list ds) = Some 2048.
Proof.
  destruct (printint_atoi digits_upper (-2048)) as (ds & E & _ & _ & _ & Ha).
  - left. reflexivity.
  - lia.
  - exists ds. split; [exact E|]. rewrite Ha. reflexivity.
Defined.
