(* ===== verification/Console.v ===== *)
(** Console: console.c with the serial line of uart.c.

    The characters typed come from [getc], a list up to its first negative
    result.  The screen's cursor registers and memory, and the characters sent
    to the serial port, are in the state.  [procdump] only prints. *)

From S2P Require Import Prelude Kernel StringLib ProcCore Pipe Bio FsLayout Log Fs Ulib Printf.

Definition BACKSPACE : Z := 0x100.
Definition INPUT_BUF : Z := 128.
(** [C(x)] *)
Definition Ctl (x : Z) : Z := x - 64.

Section Output.
(** [uart]: there is a serial port. *)
Context (uart : bool).

Definition uartputc (c : Z) (s : console) : console :=
  if uart then set_uart_out (uart_out s ++ [u8 c]) s else s.

(** [crt[i] = v] for [n] cells from [i] *)
Definition crt_fill (i n v : Z) (m : Z -> Z) : Z -> Z := fun j => if (i <=? j) && (j <? i + n) then v else m j.
Definition crt_scroll (m : Z -> Z) : Z -> Z := fun j => if (0 <=? j) && (j <? 23 * 80) then m (j + 80) else m j.

(** The position after [c] is shown, before scrolling. *)
Definition crt_next (pos c : Z) : Z :=
  if c =? 10 then pos + (80 - Z.rem pos 80)
  else if c =? BACKSPACE then if 0 <? pos then pos - 1 else pos
  else pos + 1.

Definition cgaputc (c : Z) : M kernel unit :=
  let! pos := gets (fun k => crt_pos (k_cons k)) in
  when (negb ((c =? 10) || (c =? BACKSPACE)))
    (modify (upd_cons (fun s => set_crt (crt_fill pos 1 (Z.lor (Z.land c 0xff) 0x0700) (crt s)) s))) ;;;
  let pos := crt_next pos c in
  if (pos <? 0) || (25 * 80 <? pos) then panic "pos under/overflow" else
  let pos' := if 24 <=? pos ÷ 80 then pos - 80 else pos in
  when (24 <=? pos ÷ 80)
    (modify (upd_cons (fun s => set_crt (crt_fill pos' (24 * 80 - pos') 0 (crt_scroll (crt s))) s))) ;;;
  modify (upd_cons (fun s => set_crt (crt_fill pos' 1 (Z.lor 32 0x0700) (crt s)) (set_crt_pos (u16 pos') s))).

(** A panicked machine spins. *)
Definition consputc (c : Z) : M kernel unit :=
  let! p := gets (fun k => panicked (k_cons k)) in
  if negb (p =? 0) then exhausted else
  modify (upd_cons (fun s => if c =? BACKSPACE then uartputc 8 (uartputc 32 (uartputc 8 s)) else uartputc c s)) ;;;
  cgaputc c.

Fixpoint consputs (l : list Z) : M kernel unit :=
  match l with
  | [] => ret tt
  | c :: l => consputc c ;;; consputs l
  end.

(** ** [cprintf] *)

Section Cprintf.
Context (str : Z -> list Z).
Fixpoint cprintf_loop (fmt : list Z) (argp : nat -> Z) : list Z :=
  match fmt with
  | [] => []
  | f :: fmt =>
      let c := Z.land f 0xff in
      if negb (c =? 37) then c :: cprintf_loop fmt argp else
      match fmt with
      | [] => []
      | f :: fmt =>
          let c := Z.land f 0xff in
          if c =? 100 then printint digits_lower (i32 (argp O)) 10 1 ++ cprintf_loop fmt (fun i => argp (S i))
          else if (c =? 120) || (c =? 112) then printint digits_lower (i32 (argp O)) 16 0 ++ cprintf_loop fmt (fun i => argp (S i))
          else if c =? 115 then (if argp O =? 0 then null_text else str (argp O)) ++ cprintf_loop fmt (fun i => argp (S i))
          else if c =? 37 then 37 :: cprintf_loop fmt argp
          else 37 :: c :: cprintf_loop fmt argp
      end
  end.
(** [None] is a null format. *)
Definition cprintf (fmt : option (list Z)) (argp : nat -> Z) : M kernel unit :=
  let! locking := gets (fun k => locking (k_cons k)) in
  when (negb (locking =? 0)) (acquire L_cons) ;;;
  match fmt with
  | None => panic "null fmt"
  | Some fmt =>
      consputs (cprintf_loop fmt argp) ;;;
      when (negb (locking =? 0)) (release L_cons)
  end.
End Cprintf.

(** ** Input *)

(** [input.buf[i % INPUT_BUF]] *)
Definition in_at (s : console) (i : Z) : Z := default 0 (in_buf s !! Z.to_nat (i mod INPUT_BUF)).

(** Kill line: at most [INPUT_BUF] characters are in the line. *)
Fixpoint kill_line (n : nat) : M kernel unit :=
  match n with
  | O => exhausted
  | S n =>
      let! s := gets k_cons in
      if negb (in_e s =? in_w s) && negb (in_at s (u32 (in_e s - 1)) =? 10) then
        modify (upd_cons (fun s => set_in_e (u32 (in_e s - 1)) s)) ;;;
        consputc BACKSPACE ;;;
        kill_line n
      else ret tt
  end.

(** [input.buf[input.e++ % INPUT_BUF] = c] *)
Definition put_char (c : Z) (s : console) : console :=
  set_in_e (u32 (in_e s + 1)) (set_in_buf (<[Z.to_nat (in_e s mod INPUT_BUF) := u8 c]> (in_buf s)) s).

Definition key (c : Z) : M kernel unit :=
  if c =? Ctl 80 then ret tt
  else if c =? Ctl 85 then kill_line (S (Z.to_nat INPUT_BUF))
  else if (c =? Ctl 72) || (c =? 0x7f) then
    let! s := gets k_cons in
    when (negb (in_e s =? in_w s))
      (modify (upd_cons (fun s => set_in_e (u32 (in_e s - 1)) s)) ;;;
       consputc BACKSPACE)
  else
    let! s := gets k_cons in
    when (negb (c =? 0) && (u32 (in_e s - in_r s) <? INPUT_BUF))
      (let c := if c =? 13 then 10 else c in
       modify (upd_cons (put_char c)) ;;;
       consputc c ;;;
       let! s := gets k_cons in
       when ((c =? 10) || (c =? Ctl 68) || (in_e s =? u32 (in_r s + INPUT_BUF)))
         (modify (upd_cons (fun s => set_in_w (in_e s) s)) ;;;
          wakeup C_input)).

Fixpoint keys (getc : list Z) : M kernel unit :=
  match getc with
  | [] => ret tt
  | c :: getc => if c <? 0 then ret tt else key c ;;; keys getc
  end.
Definition consoleintr (getc : list Z) : M kernel unit :=
  acquire L_cons ;;;
  keys getc ;;;
  release L_cons.

(** ** The device *)

Context `{D : DiskDriver} (fuel : nat).

(** [while(input.r == input.w)]; false when the process was killed. *)
Fixpoint consoleread_wait (f : nat) : M kernel bool :=
  match f with
  | O => exhausted
  | S f =>
      let! s := gets k_cons in
      if in_r s =? in_w s then
        let! killed := proc_killed in
        if (killed : bool) then ret false else
        sleep C_input (Some L_cons) ;;;
        consoleread_wait f
      else ret true
  end.

(** The loop, with [n] characters to go: the characters stored, or [None]
    when the process was killed. *)
Fixpoint consoleread_loop (n : nat) (target : Z) : M kernel (option (list Z)) :=
  match n with
  | O => ret (Some [])
  | S n' =>
      let! ok := consoleread_wait fuel in
      if negb ok then ret None else
      let! s := gets k_cons in
      let c := in_at s (in_r s) in
      modify (upd_cons (fun s => set_in_r (u32 (in_r s + 1)) s)) ;;;
      if c =? Ctl 68 then
        when (Z.of_nat n <? target) (modify (upd_cons (fun s => set_in_r (u32 (in_r s - 1)) s))) ;;;
        ret (Some [])
      else if c =? 10 then ret (Some [c])
      else
        let! rest := consoleread_loop n' target in
        ret (option_map (cons c) rest)
  end.

Definition consoleread (ip : nat) (n : Z) : M kernel (Z * list Z) :=
  iunlock (Some ip) ;;;
  acquire L_cons ;;;
  let! r := consoleread_loop (Z.to_nat n) (u32 n) in
  release L_cons ;;;
  ilock fuel (Some ip) ;;;
  match r with
  | None => ret (-1, [])
  | Some bytes => ret (Z.of_nat (length bytes), bytes)
  end.

Definition consolewrite (ip : nat) (buf : Z -> Z) (n : Z) : M kernel Z :=
  iunlock (Some ip) ;;;
  acquire L_cons ;;;
  consputs (map (fun i => Z.land (buf (Z.of_nat i)) 0xff) (seq 0 (Z.to_nat n))) ;;;
  release L_cons ;;;
  ilock fuel (Some ip) ;;;
  ret n.

Definition CONSOLE : Z := 1.

(** [consoleinit], less the interrupt controllers; [devsw] is an instance. *)
Definition consoleinit : M kernel unit := modify (upd_cons (set_locking 1)).
Definition console_devsw : Devsw := {|
  dev_read := fun major => if major =? CONSOLE then Some consoleread else None;
  dev_write := fun major => if major =? CONSOLE then Some consolewrite else None
|}.
End Output.

(** ** Output leaves the input alone *)

(** The machine runs and the cursor is on the screen, above the last line. *)
Definition screen_ok (s : console) : Prop := panicked s = 0 /\ 0 <= crt_pos s < 24 * 80.
Definition same_input (s s' : console) : Prop :=
  in_buf s' = in_buf s /\ in_r s' = in_r s /\ in_w s' = in_w s /\ in_e s' = in_e s.
(** Nothing but the console changed. *)
Definition only_cons (k k' : kernel) : Prop := k' = set_k_cons (k_cons k') k.

Lemma only_cons_upd f k : only_cons k (upd_cons f k).
Proof. done. Qed.
Lemma only_cons_trans k1 k2 k3 : only_cons k1 k2 -> only_cons k2 k3 -> only_cons k1 k3.
Proof. unfold only_cons. intros E1 E2. rewrite E2, E1. by destruct k1. Qed.

Lemma crt_next_range pos c : 0 <= pos < 24 * 80 -> 0 <= crt_next pos c <= 24 * 80.
Proof.
  intros H. unfold crt_next. rewrite Z.rem_mod_nonneg by lia. pose proof (Z.mod_pos_bound pos 80 ltac:(lia)).
  pose proof (Z.div_mod pos 80 ltac:(lia)). assert (pos / 80 < 24) by (apply Z.div_lt_upper_bound; lia).
  repeat case_if; b2p; lia.
Qed.

Section OutputFacts.
Context (uart : bool).

(** The cursor never leaves the screen, and [consputc] always returns. *)
Lemma consputc_run c k : screen_ok (k_cons k) ->
  exists k', consputc uart c k = Done tt k' /\ only_cons k k' /\ screen_ok (k_cons k') /\ same_input (k_cons k) (k_cons k').
Proof.
  intros [Hp Hpos]. unfold consputc. rewrite bind_gets, Hp. cbn [Z.eqb negb]. rewrite bind_modify.
  set (g := fun s => if c =? BACKSPACE then _ else _). set (k1 := upd_cons g k).
  assert (screen_ok (k_cons k1) /\ same_input (k_cons k) (k_cons k1) /\ crt_pos (k_cons k1) = crt_pos (k_cons k)) as (S1 & I1 & P1).
  { unfold k1, upd_cons, g, uartputc. simpl. destruct uart, (c =? BACKSPACE); done. }
  unfold cgaputc. rewrite bind_gets, P1. set (pos := crt_pos (k_cons k)) in *.
  pose proof (crt_next_range pos c Hpos) as Hn. set (pos1 := crt_next pos c) in *.
  assert (0 <= (if 24 <=? pos1 ÷ 80 then pos1 - 80 else pos1) < 24 * 80) as Hr.
  { rewrite Z.quot_div_nonneg by lia. pose proof (Z.div_mod pos1 80 ltac:(lia)). pose proof (Z.mod_pos_bound pos1 80 ltac:(lia)). case_cmp; lia. }
  set (pos2 := if 24 <=? pos1 ÷ 80 then pos1 - 80 else pos1) in *.
  assert (u16 pos2 = pos2) as Eu by (apply Z.mod_small; lia).
  assert ((pos1 <? 0) || (25 * 80 <? pos1) = false) as Ep by (apply orb_false_iff; rewrite !Z.ltb_ge; lia).
  destruct S1 as [S1 _], I1 as (I1 & I2 & I3 & I4). unfold when, screen_ok, same_input, only_cons.
  destruct (negb _); rewrite ?bind_modify, ?bind_ret; cbv zeta; fold pos2; rewrite Ep;
    (destruct (24 <=? pos1 ÷ 80); rewrite ?bind_modify, ?bind_ret; eexists; (split; [reflexivity|]); simpl; rewrite Eu; auto 10).
Qed.

(** ** The line discipline *)

(** The characters ready to be read, and the line being edited. *)
Record cons_rep (s : console) (ready line : list Z) : Prop := {
  cr_buf : length (in_buf s) = 128%nat;
  cr_r : 0 <= in_r s < 2 ^ 32;
  cr_w : in_w s = u32 (in_r s + Z.of_nat (length ready));
  cr_e : in_e s = u32 (in_r s + Z.of_nat (length ready) + Z.of_nat (length line));
  cr_len : (length ready + length line <= 128)%nat;
  cr_at : forall i x, (ready ++ line) !! i = Some x ->
    in_buf s !! Z.to_nat ((in_r s + Z.of_nat i) mod INPUT_BUF) = Some x;
  cr_line : 10 ∉ line
}.

(** What a key does to them: erase the line, erase a character, or type one;
    a newline, an end of file or a full buffer makes the line ready. *)
Definition edit (st : list Z * list Z) (c : Z) : list Z * list Z :=
  match st with
  | (ready, line) =>
      if c =? Ctl 80 then st
      else if c =? Ctl 85 then (ready, [])
      else if (c =? Ctl 72) || (c =? 0x7f) then (ready, take (length line - 1) line)
      else if negb (c =? 0) && (Z.of_nat (length ready + length line) <? INPUT_BUF) then
        let c := if c =? 13 then 10 else c in
        if (c =? 10) || (c =? Ctl 68) || (Z.of_nat (length ready + length line) + 1 =? INPUT_BUF)
        then (ready ++ line ++ [c], [])
        else (ready, line ++ [c])
      else st
  end.

Lemma ring128 x : u32 x mod INPUT_BUF = x mod INPUT_BUF.
Proof.
  unfold u32, INPUT_BUF. change (2 ^ 32) with (128 * 33554432).
  rewrite Z.rem_mul_r by lia. rewrite Z.mul_comm, Z.mod_add by lia. apply Z.mod_mod. lia.
Qed.
Lemma ring128_ne r i j : 0 <= i < 128 -> 0 <= j < 128 -> i <> j -> Z.to_nat ((r + i) mod INPUT_BUF) <> Z.to_nat ((r + j) mod INPUT_BUF).
Proof.
  unfold INPUT_BUF. intros Hi Hj Hne E. pose proof (Z.mod_pos_bound (r + i) 128 ltac:(lia)). pose proof (Z.mod_pos_bound (r + j) 128 ltac:(lia)).
  apply Z2Nat.inj in E; [|lia..]. pose proof (Z.div_mod (r + i) 128 ltac:(lia)). pose proof (Z.div_mod (r + j) 128 ltac:(lia)). lia.
Qed.
Lemma u32_inj_ne r i j : 0 <= i < 2 ^ 32 -> 0 <= j < 2 ^ 32 -> u32 (r + i) = u32 (r + j) -> i = j.
Proof.
  unfold u32. intros Hi Hj E. pose proof (Z.div_mod (r + i) (2 ^ 32) ltac:(lia)). pose proof (Z.div_mod (r + j) (2 ^ 32) ltac:(lia)). lia.
Qed.
Lemma u32_diff a b : u32 (u32 a - b) = u32 (a - b).
Proof. unfold u32. apply Zminus_mod_idemp_l. Qed.

Lemma rep_input s s' ready line : cons_rep s ready line -> same_input s s' -> cons_rep s' ready line.
Proof. intros [? ? ? ? ? ? ?] (E1 & E2 & E3 & E4). split; by rewrite ?E1, ?E2, ?E3, ?E4. Qed.

Lemma rep_empty_iff s ready line : cons_rep s ready line -> in_e s = in_w s <-> line = [].
Proof.
  intros R. rewrite (cr_e _ _ _ R), (cr_w _ _ _ R). pose proof (cr_len _ _ _ R) as Hl. split; [|by intros ->; rewrite Z.add_0_r].
  intros E. rewrite <- Z.add_assoc in E. apply u32_inj_ne in E; [|lia..]. destruct line; [done|simpl in E; lia].
Qed.
Lemma rep_count s ready line : cons_rep s ready line -> u32 (in_e s - in_r s) = Z.of_nat (length ready + length line).
Proof.
  intros R. rewrite (cr_e _ _ _ R), u32_diff. pose proof (cr_len _ _ _ R). rewrite u32_small; lia.
Qed.

(** Erasing the last character. *)
Lemma rep_erase s ready line c :
  cons_rep s ready (line ++ [c]) -> cons_rep (set_in_e (u32 (in_e s - 1)) s) ready line /\ in_at s (u32 (in_e s - 1)) = c.
Proof.
  intros R. pose proof (cr_len _ _ _ R) as Hl. rewrite length_app in Hl. simpl in Hl.
  assert (u32 (in_e s - 1) = u32 (in_r s + Z.of_nat (length ready) + Z.of_nat (length line))) as Ee.
  { rewrite (cr_e _ _ _ R), u32_diff, length_app. f_equal. simpl. lia. }
  split.
  - destruct R as [? ? ? ? ? Ha Hn]. split; simpl; try done; [lia| |set_solver].
    intros i x Hx. apply Ha. rewrite app_assoc. by apply lookup_app_l_Some.
  - unfold in_at. rewrite Ee, ring128, <- Z.add_assoc, <- Nat2Z.inj_add, (cr_at _ _ _ R _ c); [done|].
    rewrite app_assoc, lookup_app_r, length_app, Nat.sub_diag by (rewrite length_app; lia). done.
Qed.

(** Typing a character. *)
Lemma rep_put s ready line c :
  cons_rep s ready line -> (length ready + length line < 128)%nat -> 0 <= c < 256 ->
  let s' := put_char c s in
  (c <> 10 -> cons_rep s' ready (line ++ [c])) /\ cons_rep (set_in_w (in_e s') s') (ready ++ line ++ [c]) [].
Proof.
  intros R Hl Hc s'. destruct R as [Hb Hr Hw He _ Ha Hn].
  assert (in_e s' = u32 (in_r s + Z.of_nat (length ready) + Z.of_nat (length (line ++ [c])))) as Ee.
  { unfold s', put_char. simpl. rewrite He, u32_add_l, length_app. f_equal. simpl. lia. }
  assert (forall i x, ((ready ++ line ++ [c])) !! i = Some x -> in_buf s' !! Z.to_nat ((in_r s + Z.of_nat i) mod INPUT_BUF) = Some x) as Ha'.
  { intros i x Hx. unfold s', put_char. simpl. rewrite He, ring128, <- Z.add_assoc, <- Nat2Z.inj_add, (u8_small c) by done.
    rewrite app_assoc in Hx. apply lookup_app_Some in Hx as [Hx|[Hi Hx]].
    - pose proof (lookup_lt_Some _ _ _ Hx) as Hlt. rewrite length_app in Hlt.
      rewrite list_lookup_insert_ne by (apply ring128_ne; lia). by apply Ha.
    - apply list_lookup_singleton_Some in Hx as [Hx <-]. rewrite length_app in Hi, Hx.
      replace i with (length ready + length line)%nat by lia. apply list_lookup_insert_eq. rewrite Hb.
      pose proof (Z.mod_pos_bound (in_r s + Z.of_nat (length ready + length line)) INPUT_BUF ltac:(done)). unfold INPUT_BUF in *. lia. }
  assert (length (in_buf s') = 128%nat) as Hb' by (unfold s', put_char; simpl; by rewrite length_insert).
  split.
  - intros Hc10. split; try done; [rewrite length_app; simpl; lia|set_solver].
  - split; simpl; try done.
    + rewrite He, u32_add_l, !length_app. f_equal. simpl. lia.
    + rewrite He, u32_add_l, !length_app. f_equal. simpl. lia.
    + rewrite !length_app. simpl. lia.
    + by rewrite app_nil_r.
    + set_solver.
Qed.

(** The state between two keys. *)
Record typing (k : kernel) (ready line : list Z) : Prop := {
  ty_screen : screen_ok (k_cons k);
  ty_rep : cons_rep (k_cons k) ready line
}.
(** [m] returns with this text, with the same locks held and the same inodes. *)
Definition others (k : kernel) : gset lock_id * list inode := (k_held k, k_icache k).
Definition types (m : M kernel unit) (k : kernel) (st : list Z * list Z) : Prop :=
  exists k', m k = Done tt k' /\ typing k' (fst st) (snd st) /\ others k' = others k.
Lemma others_held k k' : others k' = others k -> k_held k' = k_held k.
Proof. by intros [=]. Qed.

Lemma echo_types c k s' ready line :
  screen_ok (k_cons k) -> cons_rep s' ready line -> panicked s' = panicked (k_cons k) -> crt_pos s' = crt_pos (k_cons k) ->
  exists k', consputc uart c (set_k_cons s' k) = Done tt k' /\ typing k' ready line /\ others k' = others k /\ same_input s' (k_cons k').
Proof.
  intros [Hs Hp] R E1 E2. destruct (consputc_run c (set_k_cons s' k)) as (k' & Hrun & Ho & S' & I').
  - simpl. split; by rewrite ?E1, ?E2.
  - exists k'. split; [done|]. split; [split; [done|by eapply rep_input]|]. split; [by rewrite Ho|done].
Qed.

Lemma kill_line_types line : forall n k ready, typing k ready line -> (length line < n)%nat -> types (kill_line uart n) k (ready, []).
Proof.
  induction line as [|c line IH] using rev_ind; intros n k ready [Hs R] Hn; (destruct n as [|n]; [lia|]);
    unfold types; cbn [kill_line]; rewrite bind_gets.
  - rewrite (proj2 (rep_empty_iff _ _ _ R) eq_refl), Z.eqb_refl. exists k. split; [done|]. done.
  - assert (in_e (k_cons k) <> in_w (k_cons k)) as Hne by (rewrite (rep_empty_iff _ _ _ R); by destruct line).
    destruct (rep_erase _ _ _ _ R) as [R' Ec]. rewrite Ec.
    assert (c <> 10) as Hc by (pose proof (cr_line _ _ _ R); set_solver).
    destruct (Z.eqb_spec (in_e (k_cons k)) (in_w (k_cons k))), (Z.eqb_spec c 10); try done. cbn [negb andb].
    rewrite bind_modify. destruct (echo_types BACKSPACE k _ _ _ Hs R' eq_refl eq_refl) as (k1 & Hrun & T1 & Hh & _).
    unfold upd_cons. rewrite (bind_Done _ _ _ _ _ Hrun). destruct (IH n k1 ready T1) as (k2 & Hrun2 & T2 & Hh2).
    + rewrite length_app in Hn. simpl in Hn. lia.
    + exists k2. split; [done|]. split; [done|]. by rewrite Hh2.
Qed.

Lemma woken_cons ch k : k_cons (woken ch k) = k_cons k.
Proof. done. Qed.

(** A character typed. *)
Lemma type_char c k ready line : 0 <= c < 256 -> L_ptable ∉ k_held k -> typing k ready line -> (length ready + length line < 128)%nat ->
  types (modify (upd_cons (put_char c)) ;;; consputc uart c ;;;
         let! s := gets k_cons in
         when ((c =? 10) || (c =? Ctl 68) || (in_e s =? u32 (in_r s + INPUT_BUF)))
           (modify (upd_cons (fun s => set_in_w (in_e s) s)) ;;; wakeup C_input)) k
    (if (c =? 10) || (c =? Ctl 68) || (Z.of_nat (length ready + length line) + 1 =? INPUT_BUF)
     then (ready ++ line ++ [c], []) else (ready, line ++ [c])).
Proof.
  intros Hc Hpt [Hs R] Hl. unfold types. rewrite bind_modify.
  destruct (rep_put _ _ _ c R Hl Hc) as [R1 R2]. set (s' := put_char c (k_cons k)) in *.
  destruct (consputc_run c (upd_cons (put_char c) k)) as (k1 & Hrun & Ho & S1 & I1); [done|].
  rewrite (bind_Done _ _ _ _ _ Hrun), bind_gets. destruct I1 as (J1 & J2 & J3 & J4). rewrite J2, J4.
  assert ((in_e (k_cons (upd_cons (put_char c) k)) =? u32 (in_r (k_cons (upd_cons (put_char c) k)) + INPUT_BUF)) =
    (Z.of_nat (length ready + length line) + 1 =? INPUT_BUF)) as ->.
  { change (in_e (k_cons (upd_cons (put_char c) k))) with (u32 (in_e (k_cons k) + 1)).
    change (in_r (k_cons (upd_cons (put_char c) k))) with (in_r (k_cons k)). rewrite (cr_e _ _ _ R), u32_add_l.
    apply eq_bool_prop_intro. rewrite !Is_true_true, !Z.eqb_eq. unfold INPUT_BUF. split.
    - intros E. rewrite <- !Z.add_assoc in E. apply u32_inj_ne in E; lia.
    - intros E. f_equal. lia. }
  assert (others k1 = others k) as Hh by (by rewrite Ho).
  destruct ((c =? 10) || (c =? Ctl 68) || _) eqn:Eb; unfold when.
  - rewrite bind_modify. rewrite wakeup_run by (simpl; by rewrite (others_held _ _ Hh)). eexists. split; [done|]. split; [|done]. split.
    + rewrite woken_cons. destruct S1 as [S1 S2]. split; done.
    + rewrite woken_cons. eapply rep_input; [exact R2|]. unfold same_input. simpl. rewrite J1, J2, J4. done.
  - exists k1. split; [done|]. split; [|done]. split; [done|]. eapply rep_input; [|by split].
    apply R1. intros ->. by rewrite Z.eqb_refl in Eb.
Qed.

Lemma key_types c k ready line : 0 <= c < 256 -> L_ptable ∉ k_held k -> typing k ready line ->
  types (key uart c) k (edit (ready, line) c).
Proof.
  intros Hc Hpt T. pose proof T as [Hs R]. pose proof (cr_len _ _ _ R) as Hlen. unfold key, edit.
  destruct (c =? Ctl 80); [by exists k|]. destruct (c =? Ctl 85).
  { apply (kill_line_types line); [done|]. change (S (Z.to_nat INPUT_BUF)) with 129%nat. lia. }
  destruct ((c =? Ctl 72) || (c =? 0x7f)).
  - unfold types. rewrite bind_gets. destruct (Z.eqb_spec (in_e (k_cons k)) (in_w (k_cons k))) as [E|E].
    + apply (rep_empty_iff _ _ _ R) in E as ->. by exists k.
    + rewrite (rep_empty_iff _ _ _ R) in E. destruct (exists_last E) as (l' & d & ->). cbn [negb when].
      destruct (rep_erase _ _ _ _ R) as [R' _]. rewrite bind_modify.
      destruct (echo_types BACKSPACE k _ _ _ Hs R' eq_refl eq_refl) as (k1 & Hrun & T1 & Hh & _). exists k1. split; [done|].
      rewrite length_app. simpl. by rewrite Nat.add_sub, take_app_length.
  - unfold types. rewrite bind_gets, (rep_count _ _ _ R).
    destruct (negb (c =? 0) && (Z.of_nat (length ready + length line) <? INPUT_BUF)) eqn:Eg; [|by exists k].
    apply andb_true_iff in Eg as [_ Eg%Z.ltb_lt]. unfold INPUT_BUF in Eg. unfold when at 1. cbv zeta.
    apply type_char; [case_if; lia|done|done|lia].
Qed.

Lemma keys_types cs : forall k st, Forall (fun c => 0 <= c < 256) cs -> L_ptable ∉ k_held k -> typing k (fst st) (snd st) ->
  types (keys uart cs) k (foldl edit st cs).
Proof.
  induction cs as [|c cs IH]; intros k st Hcs Hpt T; [by exists k|]. apply Forall_cons in Hcs as [Hc Hcs].
  unfold types. cbn [keys]. destruct (Z.ltb_spec c 0); [lia|]. destruct st as [ready line].
  destruct (key_types c k ready line Hc Hpt T) as (k1 & Hrun & T1 & Hh). rewrite (bind_Done _ _ _ _ _ Hrun).
  destruct (IH k1 _ Hcs ltac:(by rewrite (others_held _ _ Hh)) T1) as (k2 & Hrun2 & T2 & Hh2). exists k2. split; [done|]. split; [done|]. by rewrite Hh2.
Qed.

Lemma consoleintr_run cs k ready line :
  L_cons ∉ k_held k -> L_ptable ∉ k_held k -> Forall (fun c => 0 <= c < 256) cs -> typing k ready line ->
  exists k', consoleintr uart cs k = Done tt k' /\ others k' = others k /\
    typing k' (fst (foldl edit (ready, line) cs)) (snd (foldl edit (ready, line) cs)).
Proof.
  intros Hl Hpt Hcs T. unfold consoleintr. rewrite bind_acquire by done.
  destruct (keys_types cs (set_k_held ({[L_cons]} ∪ k_held k) k) (ready, line)) as (k1 & Hrun & T1 & Hh); [done|simpl; set_solver|by destruct T|].
  rewrite (bind_Done _ _ _ _ _ Hrun). injection Hh as Hh Hi. simpl in Hh, Hi. rewrite release_held by (rewrite Hh; set_solver).
  eexists. split; [done|]. unfold others. simpl. split; [by rewrite Hh, Hi, held_release_acquire|]. by destruct T1.
Qed.
End OutputFacts.

(** ** Reading *)

(** What a read of [n] characters takes from the ready text, without waiting:
    up to a newline; an end of file ends the read and is taken only by a read
    that has nothing before it. *)
Fixpoint read_ready (n : nat) (first : bool) (ready : list Z) : option (list Z * list Z) :=
  match n, ready with
  | O, _ => Some ([], ready)
  | S _, [] => None
  | S n, c :: q =>
      if c =? Ctl 68 then Some ([], if first then q else ready)
      else if c =? 10 then Some ([c], q)
      else
        match read_ready n false q with
        | Some (bytes, rest) => Some (c :: bytes, rest)
        | None => None
        end
  end.

Lemma rep_get s c q line : cons_rep s (c :: q) line ->
  in_r s <> in_w s /\ in_at s (in_r s) = c /\ cons_rep (set_in_r (u32 (in_r s + 1)) s) q line.
Proof.
  intros [Hb Hr Hw He Hl Ha Hn]. split; [|split].
  - rewrite Hw. intros E. rewrite <- (u32_small (in_r s)) in E at 1 by done. rewrite <- (Z.add_0_r (in_r s)) in E at 1.
    apply u32_inj_ne in E; simpl in *; lia.
  - specialize (Ha O c eq_refl). rewrite Z.add_0_r in Ha. unfold in_at. by rewrite Ha.
  - split; simpl; try done.
    + apply u32_range.
    + rewrite Hw, u32_add_l. f_equal. simpl. lia.
    + rewrite He. rewrite <- !Z.add_assoc, u32_add_l. f_equal. simpl. lia.
    + simpl in Hl. lia.
    + intros i x Hx. specialize (Ha (S i) x Hx). rewrite <- Zplus_mod_idemp_l, ring128, Zplus_mod_idemp_l.
      replace (in_r s + 1 + Z.of_nat i) with (in_r s + Z.of_nat (S i)) by lia. done.
Qed.

Section ReadFacts.
Context `{D : DiskDriver} (fuel : nat).

Lemma consoleread_loop_run n : forall target k ready line bytes rest, (0 < fuel)%nat -> (Z.of_nat n <= target) ->
  typing k ready line -> read_ready n (negb (Z.of_nat n <? target)) ready = Some (bytes, rest) ->
  exists k', consoleread_loop fuel n target k = Done (Some bytes) k' /\ typing k' rest line /\ others k' = others k.
Proof.
  induction n as [|n IH]; intros target k ready line bytes rest Hf Ht [Hs R] Hr.
  - injection Hr as <- <-. exists k. done.
  - destruct ready as [|c q]; [done|]. destruct (rep_get _ _ _ _ R) as (Hne & Ec & R').
    assert (consoleread_wait fuel k = Done true k) as Hw.
    { destruct fuel as [|f]; [lia|]. cbn [consoleread_wait]. rewrite bind_gets. by destruct (Z.eqb_spec (in_r (k_cons k)) (in_w (k_cons k))). }
    cbn [consoleread_loop]. rewrite (bind_Done _ _ _ _ _ Hw). cbn [negb]. rewrite bind_gets, Ec. cbv zeta. rewrite bind_modify.
    set (k1 := upd_cons (fun s => set_in_r (u32 (in_r s + 1)) s) k).
    assert (typing k1 q line) as T1 by (destruct Hs; by split).
    cbn [read_ready] in Hr. destruct (c =? Ctl 68).
    + injection Hr as <- <-. destruct (Z.of_nat (S n) <? target); cbn [negb when].
      * rewrite bind_modify. eexists. split; [done|]. split; [|done].
        assert (k_cons (upd_cons (fun s => set_in_r (u32 (in_r s - 1)) s) k1) = k_cons k) as E.
        { simpl. rewrite u32_diff, Z.add_simpl_r, u32_small by apply R. by destruct (k_cons k). }
        split; by rewrite E.
      * by exists k1.
    + destruct (c =? 10); [injection Hr as <- <-; by exists k1|].
      destruct (read_ready n false q) as [[b r]|] eqn:Er; [|done]. injection Hr as <- <-.
      destruct (IH target k1 q line b r Hf ltac:(lia) T1) as (k2 & Hrun & T2 & Ho).
      { destruct (Z.ltb_spec (Z.of_nat n) target); [done|lia]. }
      rewrite (bind_Done _ _ _ _ _ Hrun). by exists k2.
Qed.

(** A locked, valid inode. *)
Definition held_inode (k : kernel) (ip : nat) (x : inode) : Prop :=
  k_icache k !! ip = Some x /\ i_flags x = Z.lor I_BUSY I_VALID /\ 1 <= i_ref x.

Lemma iunlock_run k ip x : held_inode k ip x -> L_icache ∉ k_held k -> L_ptable ∉ k_held k ->
  exists k', iunlock (Some ip) k = Done tt k' /\ k_cons k' = k_cons k /\ k_held k' = k_held k /\
    k_icache k' = <[ip := set_i_flags I_VALID x]> (k_icache k).
Proof.
  intros (Hx & Hfl & Href) Hl Hp. unfold iunlock. unfold bind at 1, read_inode. rewrite Hx. simpl obind.
  rewrite Hfl. destruct (Z.ltb_spec (i_ref x) 1); [lia|]. change (flag (Z.lor I_BUSY I_VALID) I_BUSY) with true. cbn [negb orb].
  rewrite bind_acquire by done. rewrite bind_modify. erewrite bind_Done by (apply wakeup_run; simpl; set_solver).
  rewrite release_held by (simpl; set_solver). eexists. split; [done|]. simpl. split; [done|]. split; [by apply held_release_acquire|].
  rewrite (list_alter_Some _ _ _ _ Hx), Hfl. done.
Qed.
Lemma ilock_valid_run k ip x : k_icache k !! ip = Some x -> i_flags x = I_VALID -> 1 <= i_ref x -> L_icache ∉ k_held k -> (0 < fuel)%nat ->
  exists k', ilock fuel (Some ip) k = Done tt k' /\ k_cons k' = k_cons k /\ k_held k' = k_held k /\
    k_icache k' = <[ip := set_i_flags (Z.lor I_BUSY I_VALID) x]> (k_icache k).
Proof.
  intros Hx Hfl Href Hl Hf. pose proof (lookup_lt_Some _ _ _ Hx) as Hlt.
  unfold ilock. unfold bind at 1, read_inode at 1. rewrite Hx. simpl obind. destruct (Z.ltb_spec (i_ref x) 1); [lia|].
  rewrite bind_acquire by done. destruct fuel as [|f]; [lia|].
  assert (ilock_wait (S f) ip (set_k_held ({[L_icache]} ∪ k_held k) k) = Done tt (set_k_held ({[L_icache]} ∪ k_held k) k)) as Hw.
  { cbn [ilock_wait]. unfold bind at 1, read_inode. simpl k_icache. rewrite Hx. simpl obind. by rewrite Hfl. }
  rewrite (bind_Done _ _ _ _ _ Hw), bind_modify, bind_release by (simpl; set_solver).
  unfold bind at 1, read_inode. simpl k_icache. rewrite list_lookup_alter_eq, Hx. simpl obind. rewrite Hfl.
  change (flag (Z.lor I_VALID I_BUSY) I_VALID) with true. cbv iota. eexists. split; [done|]. simpl.
  split; [done|]. split; [by apply held_release_acquire|]. rewrite (list_alter_Some _ _ _ _ Hx), Hfl. done.
Qed.

Lemma consoleread_run ip x n k ready line bytes rest :
  held_inode k ip x -> L_icache ∉ k_held k -> L_ptable ∉ k_held k -> L_cons ∉ k_held k -> (0 < fuel)%nat -> 0 <= n < 2 ^ 31 ->
  typing k ready line -> read_ready (Z.to_nat n) true ready = Some (bytes, rest) ->
  exists k', consoleread fuel ip n k = Done (Z.of_nat (length bytes), bytes) k' /\ typing k' rest line /\
    others k' = others k.
Proof.
  intros Hi Hl1 Hl2 Hl3 Hf Hn [Hs R] Hr. unfold consoleread. pose proof Hi as (Hx & Hfl & Href). pose proof (lookup_lt_Some _ _ _ Hx) as Hlt.
  destruct (iunlock_run k ip x Hi Hl1 Hl2) as (k1 & Hrun1 & C1 & H1 & I1). rewrite (bind_Done _ _ _ _ _ Hrun1).
  rewrite bind_acquire by (by rewrite H1). rewrite u32_small by lia.
  destruct (consoleread_loop_run (Z.to_nat n) n (set_k_held ({[L_cons]} ∪ k_held k1) k1) ready line bytes rest) as (k2 & Hrun2 & T2 & O2).
  - done.
  - lia.
  - split; simpl; by rewrite C1.
  - rewrite Z2Nat.id, Z.ltb_irrefl by lia. done.
  - rewrite (bind_Done _ _ _ _ _ Hrun2). injection O2 as H2 I2. simpl in H2, I2. rewrite bind_release by (rewrite H2; set_solver).
    destruct (ilock_valid_run (set_k_held (k_held k2 ∖ {[L_cons]}) k2) ip (set_i_flags I_VALID x)) as (k3 & Hrun3 & C3 & H3 & I3).
    + simpl. rewrite I2, I1. by apply list_lookup_insert_eq.
    + done.
    + done.
    + simpl. rewrite H2, H1. set_solver.
    + done.
    + rewrite (bind_Done _ _ _ _ _ Hrun3). exists k3. split; [done|]. destruct T2 as [S2 R2]. split; [split; by rewrite C3|].
      unfold others. rewrite H3, I3. simpl. rewrite H2, I2, H1, I1, held_release_acquire by done. f_equal.
      rewrite list_insert_insert_eq. apply list_insert_id. rewrite Hx. f_equal. rewrite <- Hfl. by destruct x.
Qed.
End ReadFacts.

(** C29: the console's line discipline.  While the keyboard delivers the
    characters [cs], [consoleintr] edits the line as [edit] says: typed
    characters are added, backspace and kill erase only characters of the
    line not yet ready, and a newline, an end of file or a full buffer makes
    the line ready.  A read then returns, without waiting, the characters up
    to the first newline or end of file, at most as many as asked for, and
    leaves the rest of the ready text and the line being edited as they are.
    The 32-bit indices may wrap around, and no key overruns the buffer or
    moves the cursor off the screen. *)
Theorem console_line_discipline `{D : DiskDriver} uart fuel cs ip x n k ready line bytes rest :
  L_icache ∉ k_held k -> L_ptable ∉ k_held k -> L_cons ∉ k_held k -> held_inode k ip x -> (0 < fuel)%nat -> 0 <= n < 2 ^ 31 ->
  Forall (fun c => 0 <= c < 256) cs -> typing k ready line ->
  read_ready (Z.to_nat n) true (fst (foldl edit (ready, line) cs)) = Some (bytes, rest) ->
  exists k1 k2, consoleintr uart cs k = Done tt k1 /\
    consoleread fuel ip n k1 = Done (Z.of_nat (length bytes), bytes) k2 /\
    typing k2 rest (snd (foldl edit (ready, line) cs)) /\ k_held k2 = k_held k /\ k_icache k2 = k_icache k.
Proof.
  intros Hl1 Hl2 Hl3 Hi Hf Hn Hcs T Hr. destruct (consoleintr_run uart cs k ready line Hl3 Hl2 Hcs T) as (k1 & Hrun1 & O1 & T1).
  injection O1 as H1 I1. destruct (consoleread_run fuel ip x n k1 (fst (foldl edit (ready, line) cs)) (snd (foldl edit (ready, line) cs)) bytes rest) as (k2 & Hrun2 & T2 & O2); rewrite ?H1; try done.
  - unfold held_inode. by rewrite I1.
  - injection O2 as H2 I2. exists k1, k2. rewrite H2, I2. done.
Qed.

(** ** Witnesses *)

(** "ab", backspace, "c", return *)
Lemma console_line_discipline_witness :
  exists k1 k2, consoleintr true [97; 98; 8; 99; 13] (upd_inode 0 (fun x => set_i_ref 1 (set_i_flags 3 x)) zero_kernel) = Done tt k1 /\
    @consoleread (Memide.driver 100) 1 0 100 k1 = Done (3, [97; 99; 10]) k2 /\ typing k2 [] [].
Proof.
  destruct (@console_line_discipline (Memide.driver 100) true 1 [97; 98; 8; 99; 13] 0 (set_i_ref 1 (set_i_flags 3 zero_inode)) 100
    (upd_inode 0 (fun x => set_i_ref 1 (set_i_flags 3 x)) zero_kernel) [] [] [97; 99; 10] []) as (k1 & k2 & H1 & H2 & H3 & _).
  1-3: apply not_elem_of_empty.
  - split; [reflexivity|]. split; [reflexivity|]. simpl. lia.
  - lia.
  - lia.
  - repeat constructor; lia.
  - split; [split; simpl; lia|]. split; try reflexivity; simpl; try lia; [done|apply not_elem_of_nil].
  - reflexivity.
  - exists k1, k2. split; [exact H1|]. split; [exact H2|exact H3].
Defined.
