(* ===== verification/Kbd.v ===== *)
(** Kbd: the keyboard, kbd.c and the tables of kbd.h.

    The state is the static variable [shift].  The controller's status and
    data ports are arguments of [kbdgetc]. *)

From S2P Require Import Prelude Kernel Console.

Definition KBS_DIB : Z := 0x01.
Definition NO : Z := 0.
Definition SHIFT : Z := 1.
Definition CTL : Z := 2.
Definition ALT : Z := 4.
Definition CAPSLOCK : Z := 8.
Definition NUMLOCK : Z := 16.
Definition SCROLLLOCK : Z := 32.
Definition E0ESC : Z := 64.

Definition KEY_HOME : Z := 0xE0.
Definition KEY_END : Z := 0xE1.
Definition KEY_UP : Z := 0xE2.
Definition KEY_DN : Z := 0xE3.
Definition KEY_LF : Z := 0xE4.
Definition KEY_RT : Z := 0xE5.
Definition KEY_PGUP : Z := 0xE6.
Definition KEY_PGDN : Z := 0xE7.
Definition KEY_INS : Z := 0xE8.
Definition KEY_DEL : Z := 0xE9.

(** An array of 256 [uchar]: its first elements and its designated ones. *)
Definition uchar_table (first : list Z) (des : list (Z * Z)) : list Z :=
  foldl (fun t p => <[Z.to_nat (fst p) := snd p]> t) (first ++ replicate (256 - length first) 0) des.

Definition shiftcode : list Z :=
  uchar_table [] [(0x1D, CTL); (0x2A, SHIFT); (0x36, SHIFT); (0x38, ALT); (0x9D, CTL); (0xB8, ALT)].
Definition togglecode : list Z :=
  uchar_table [] [(0x3A, CAPSLOCK); (0x45, NUMLOCK); (0x46, SCROLLLOCK)].

(** The keypad and cursor keys of the two first maps. *)
Definition extended (enter div : Z) : list (Z * Z) :=
  [ (0x9C, enter); (0xB5, div); (0xC8, KEY_UP); (0xD0, KEY_DN); (0xC9, KEY_PGUP); (0xD1, KEY_PGDN);
    (0xCB, KEY_LF); (0xCD, KEY_RT); (0x97, KEY_HOME); (0xCF, KEY_END); (0xD2, KEY_INS); (0xD3, KEY_DEL) ].

Definition normalmap : list Z :=
  uchar_table
    [ NO; 0x1B; 49; 50; 51; 52; 53; 54; 55; 56; 57; 48; 45; 61; 8; 9;
      113; 119; 101; 114; 116; 121; 117; 105; 111; 112; 91; 93; 10; NO; 97; 115;
      100; 102; 103; 104; 106; 107; 108; 59; 39; 96; NO; 92; 122; 120; 99; 118;
      98; 110; 109; 44; 46; 47; NO; 42; NO; 32; NO; NO; NO; NO; NO; NO;
      NO; NO; NO; NO; NO; NO; NO; 55; 56; 57; 45; 52; 53; 54; 43; 49;
      50; 51; 48; 46; NO; NO; NO; NO ]
    (extended 10 47).

Definition shiftmap : list Z :=
  uchar_table
    [ NO; 27; 33; 64; 35; 36; 37; 94; 38; 42; 40; 41; 95; 43; 8; 9;
      81; 87; 69; 82; 84; 89; 85; 73; 79; 80; 123; 125; 10; NO; 65; 83;
      68; 70; 71; 72; 74; 75; 76; 58; 34; 126; NO; 124; 90; 88; 67; 86;
      66; 78; 77; 60; 62; 63; NO; 42; NO; 32; NO; NO; NO; NO; NO; NO;
      NO; NO; NO; NO; NO; NO; NO; 55; 56; 57; 45; 52; 53; 54; 43; 49;
      50; 51; 48; 46; NO; NO; NO; NO ]
    (extended 10 47).

Definition ctlmap : list Z :=
  uchar_table
    ([ NO; NO; NO; NO; NO; NO; NO; NO; NO; NO; NO; NO; NO; NO; NO; NO;
       Ctl 81; Ctl 87; Ctl 69; Ctl 82; Ctl 84; Ctl 89; Ctl 85; Ctl 73;
       Ctl 79; Ctl 80; NO; NO; 13; NO; Ctl 65; Ctl 83;
       Ctl 68; Ctl 70; Ctl 71; Ctl 72; Ctl 74; Ctl 75; Ctl 76; NO;
       NO; NO; NO; Ctl 92; Ctl 90; Ctl 88; Ctl 67; Ctl 86;
       Ctl 66; Ctl 78; Ctl 77; NO; NO; u8 (Ctl 47); NO; NO ])
    (extended 13 (u8 (Ctl 47))).

(** [a[i]] *)
Definition code (a : list Z) (i : Z) : Z := default 0 (a !! Z.to_nat i).

(** [charcode] *)
Definition charcode (i : Z) : list Z :=
  if i =? 0 then normalmap else if i =? 1 then shiftmap else ctlmap.

(** The result, and [shift]. *)
Definition kbdgetc (st data shift : Z) : Z * Z :=
  if Z.land st KBS_DIB =? 0 then (-1, shift)
  else if data =? 0xE0 then (0, Z.lor shift E0ESC)
  else if negb (Z.land data 0x80 =? 0) then
    let data := if negb (Z.land shift E0ESC =? 0) then data else Z.land data 0x7F in
    (0, Z.ldiff shift (Z.lor (code shiftcode data) E0ESC))
  else
    let e0 := negb (Z.land shift E0ESC =? 0) in
    let data := if e0 then Z.lor data 0x80 else data in
    let shift := if e0 then Z.ldiff shift E0ESC else shift in
    let shift := Z.lor shift (code shiftcode data) in
    let shift := Z.lxor shift (code togglecode data) in
    let c := code (charcode (Z.land shift (Z.lor CTL SHIFT))) data in
    let c :=
      if negb (Z.land shift CAPSLOCK =? 0) then
        if (97 <=? c) && (c <=? 122) then c + (65 - 97)
        else if (65 <=? c) && (c <=? 90) then c + (97 - 65)
        else c
      else c in
    (c, shift).

(** The characters of a sequence of data bytes. *)
Fixpoint kbd_chars (bytes : list Z) (shift : Z) : list Z * Z :=
  match bytes with
  | [] => ([], shift)
  | b :: bytes =>
      let r := kbdgetc KBS_DIB b shift in
      let rest := kbd_chars bytes (snd r) in
      (fst r :: fst rest, snd rest)
  end.

(** [kbdintr]: the characters of the bytes in the controller, until it has
    none. *)
Definition kbdintr (uart : bool) (bytes : list Z) (shift : Z) : M kernel Z :=
  consoleintr uart (fst (kbd_chars bytes shift)) ;;;
  ret (snd (kbd_chars bytes shift)).

(** Every character is a byte, or 0 for a key that types nothing. *)
Lemma uchar_tables t : t ∈ [normalmap; shiftmap; ctlmap] -> Forall (fun c => 0 <= c < 256) t.
Proof.
  assert (forall t, forallb (fun c => (0 <=? c) && (c <? 256)) t = true -> Forall (fun c => 0 <= c < 256) t) as Hb.
  { intros t' H. rewrite forallb_forall in H. apply Forall_forall. intros c Hc. apply list_elem_of_In, H in Hc.
    rewrite andb_true_iff, Z.leb_le, Z.ltb_lt in Hc. lia. }
  rewrite !elem_of_cons. intros [->|[->|[->|H]]]; [apply Hb; vm_compute; reflexivity..|by apply elem_of_nil in H].
Qed.
Lemma code_range t i : Forall (fun c => 0 <= c < 256) t -> 0 <= code t i < 256.
Proof. intros H. unfold code. destruct (t !! Z.to_nat i) eqn:E; simpl; [|lia]. rewrite Forall_lookup in H. by eapply H. Qed.
Lemma kbdgetc_range data shift : 0 <= fst (kbdgetc KBS_DIB data shift) < 256.
Proof.
  unfold kbdgetc. change (Z.land KBS_DIB KBS_DIB =? 0) with false. cbv iota zeta. case_if; [simpl; lia|]. case_if; [simpl; lia|].
  cbn [fst]. match goal with |- context [code (charcode ?i) ?d] => assert (0 <= code (charcode i) d < 256) as H end.
  { apply code_range, uchar_tables. unfold charcode. rewrite !elem_of_cons. repeat case_if; auto. }
  repeat case_if; b2p; lia.
Qed.

(** The keyboard types into the console's line. *)
Lemma kbdintr_types uart bytes shift k ready line :
  L_cons ∉ k_held k -> L_ptable ∉ k_held k -> typing k ready line ->
  exists k', kbdintr uart bytes shift k = Done (snd (kbd_chars bytes shift)) k' /\
    typing k' (fst (foldl edit (ready, line) (fst (kbd_chars bytes shift)))) (snd (foldl edit (ready, line) (fst (kbd_chars bytes shift)))).
Proof.
  intros Hl Hp T. assert (Forall (fun c => 0 <= c < 256) (fst (kbd_chars bytes shift))) as Hr.
  { clear. revert shift. induction bytes as [|b bytes IH]; intros shift; simpl; constructor; [apply kbdgetc_range|apply IH]. }
  destruct (consoleintr_run uart _ k ready line Hl Hp Hr T) as (k' & Hrun & _ & T'). exists k'. split; [|done].
  unfold kbdintr. by rewrite (bind_Done _ _ _ _ _ Hrun).
Qed.
