(* ===== verification/Uart.v ===== *)
(** Uart: uart.c, the serial port.  [uartputc] is with the console, whose
    state holds the characters sent. *)

From S2P Require Import Prelude Kernel ProcCore Console.

Definition COM1 : Z := 0x3f8.

(** The bytes [uartinit] writes to the ports, in order: the FIFO off, 9600
    baud, 8 data bits, receive interrupts on. *)
Definition uartinit_ports : list (Z * Z) :=
  [ (COM1 + 2, 0); (COM1 + 3, 0x80); (COM1 + 0, 115200 / 9600); (COM1 + 1, 0); (COM1 + 3, 0x03);
    (COM1 + 4, 0); (COM1 + 1, 0x01) ].
(** The line status read then tells whether there is a port: the new value of
    [uart]. *)
Definition uart_present (lsr : Z) : bool := negb (lsr =? 0xFF).
(** ["xv6...\n"] *)
Definition uart_banner : list Z := [120; 118; 54; 46; 46; 46; 10].
Definition uartinit (lsr : Z) : M kernel bool :=
  if negb (uart_present lsr) then ret false else
  modify (upd_cons (fun s => foldl (fun s c => uartputc true c s) s uart_banner)) ;;;
  ret true.

Definition uartgetc (uart : bool) (lsr rbr : Z) : Z :=
  if negb uart then -1
  else if Z.land lsr 0x01 =? 0 then -1
  else rbr.

(** [pending]: the bytes the port has received, read until the line status
    says there are none. *)
Definition uartintr (uart : bool) (pending : list Z) : M kernel unit :=
  consoleintr uart (map (uartgetc uart 0x01) pending ++ [uartgetc uart 0 0]).

(** With a port, an interrupt types the pending bytes on the console; without
    one it types nothing. *)
Lemma keys_stop uart l : keys uart (l ++ [-1]) = keys uart l.
Proof. induction l as [|c l IH]; simpl; [done|]. by rewrite IH. Qed.
Lemma uartintr_types uart pending :
  uartintr uart pending = consoleintr uart (if uart then pending else []).
Proof.
  unfold uartintr, consoleintr. destruct uart; unfold uartgetc; simpl.
  - rewrite keys_stop, map_id. done.
  - by destruct pending.
Qed.
