(* ===== verification/Vm.v ===== *)
(** Vm: page tables (vm.c and the macros of mmu.h).

    [k_mem] is memory by kernel virtual address; a page directory or page
    table is the page of 1024 words at its address.  The control registers
    and the segment descriptors are not part of the state: [switchuvm] keeps
    its check of the page directory.  A null page directory or page table
    entry that the code dereferences is a fault. *)

From S2P Require Import Prelude Kernel StringLib Bytes Words Kalloc.

(** ** mmu.h *)

Definition PDX (va : Z) : Z := Z.land (Z.shiftr va 22) 0x3FF.
Definition PTX (va : Z) : Z := Z.land (Z.shiftr va 12) 0x3FF.
Definition NPDENTRIES : Z := 1024.
Definition NPTENTRIES : Z := 1024.
Definition PTE_P : Z := 0x001.
Definition PTE_W : Z := 0x002.
Definition PTE_U : Z := 0x004.
Definition PTE_COW : Z := 0x800.
Definition PTE_ADDR (pte : Z) : Z := Z.ldiff pte 0xFFF.
Definition PTE_FLAGS (pte : Z) : Z := Z.land pte 0xFFF.
Definition present (pte : Z) : bool := negb (Z.land pte PTE_P =? 0).

(** ** Words of memory *)

Definition read32 (a : Z) : M kernel Z := gets (fun k => ld32 (k_mem k) a).
Definition upd_mem (f : (Z -> Z) -> Z -> Z) (k : kernel) : kernel := set_k_mem (f (k_mem k)) k.
Definition write32 (a v : Z) : M kernel unit := modify (upd_mem (store a (word_bytes v))).

Section Vm.
Context `{Im : Image}.

(** The address of the entry; 0 is the null pointer. *)
Definition walkpgdir (pgdir va : Z) (alloc : bool) : M kernel Z :=
  if pgdir =? 0 then fault "null page directory" else
  let pde := pgdir + 4 * PDX va in
  let! e := read32 pde in
  if present e then ret (P2V (PTE_ADDR e) + 4 * PTX va) else
  if negb alloc then ret 0 else
  let! pgtab := kalloc in
  if pgtab =? 0 then ret 0 else
  modify (upd_mem (memset pgtab 0 PGSIZE)) ;;;
  write32 pde (Z.lor (V2P pgtab) (Z.lor PTE_P (Z.lor PTE_W PTE_U))) ;;;
  ret (pgtab + 4 * PTX va).

(** The loop of [mappages] reaches [last] in [u32 (last - a) / PGSIZE] steps
    of a page. *)
Fixpoint mappages_loop (n : nat) (pgdir a last pa perm : Z) : M kernel Z :=
  let! pte := walkpgdir pgdir a true in
  if pte =? 0 then ret (-1) else
  let! e := read32 pte in
  if present e then panic "remap" else
  write32 pte (Z.lor pa (Z.lor perm PTE_P)) ;;;
  if a =? last then ret 0 else
  match n with
  | O => exhausted
  | S n => mappages_loop n pgdir (u32 (a + PGSIZE)) last (u32 (pa + PGSIZE)) perm
  end.
Definition mappages (pgdir va size pa perm : Z) : M kernel Z :=
  let a := PGROUNDDOWN va in
  let last := PGROUNDDOWN (u32 (va + size - 1)) in
  mappages_loop (Z.to_nat (u32 (last - a) / PGSIZE)) pgdir a last pa perm.

(** [kmap]: virtual start, physical start and end, permissions *)
Definition kmap : list (Z * Z * Z * Z) :=
  [ (KERNBASE, 0, EXTMEM, PTE_W);
    (KERNLINK, V2P KERNLINK, V2P data_, 0);
    (data_, V2P data_, PHYSTOP, PTE_W);
    (DEVSPACE, DEVSPACE, 0, PTE_W) ].

Fixpoint map_kernel (pgdir : Z) (l : list (Z * Z * Z * Z)) : M kernel Z :=
  match l with
  | [] => ret pgdir
  | (virt, phys_start, phys_end, perm) :: l =>
      let! r := mappages pgdir virt (u32 (phys_end - phys_start)) phys_start perm in
      if r <? 0 then ret 0 else map_kernel pgdir l
  end.
Definition setupkvm : M kernel Z :=
  let! pgdir := kalloc in
  if pgdir =? 0 then ret 0 else
  modify (upd_mem (memset pgdir 0 PGSIZE)) ;;;
  if DEVSPACE <? P2V PHYSTOP then panic "PHYSTOP too high" else
  map_kernel pgdir kmap.

(** The new value of [kpgdir]. *)
Definition kvmalloc : M kernel Z := setupkvm.

Definition switchuvm (p : nat) : M kernel unit :=
  let! _i := myproc in
  let! x := read_proc p in
  if p_pgdir x =? 0 then panic "switchuvm: no pgdir" else ret tt.

Definition inituvm (pgdir : Z) (init : list Z) (sz : Z) : M kernel unit :=
  if PGSIZE <=? sz then panic "inituvm: more than a page" else
  let! mem := kalloc in
  modify (upd_mem (memset mem 0 PGSIZE)) ;;;
  let! _r := mappages pgdir 0 PGSIZE (V2P mem) (Z.lor PTE_W PTE_U) in
  modify (upd_mem (store mem (take (Z.to_nat sz) init))).

(** ** Growing and shrinking *)

Fixpoint dealloc_loop (n : nat) (pgdir a oldsz : Z) : M kernel unit :=
  if negb (a <? oldsz) then ret tt else
  match n with
  | O => exhausted
  | S n =>
      let! pte := walkpgdir pgdir a false in
      if pte =? 0 then
        dealloc_loop n pgdir (u32 (u32 (a + (NPTENTRIES - 1) * PGSIZE) + PGSIZE)) oldsz
      else
        let! e := read32 pte in
        when (present e)
          (if PTE_ADDR e =? 0 then panic "kfree" else
           kfree (P2V (PTE_ADDR e)) ;;;
           write32 pte 0) ;;;
        dealloc_loop n pgdir (u32 (a + PGSIZE)) oldsz
  end.
Definition pages (sz : Z) : nat := Z.to_nat (sz / PGSIZE + 1).
Definition deallocuvm (pgdir oldsz newsz : Z) : M kernel Z :=
  if oldsz <=? newsz then ret oldsz else
  dealloc_loop (pages oldsz) pgdir (PGROUNDUP newsz) oldsz ;;;
  ret newsz.

Fixpoint alloc_loop (n : nat) (pgdir a oldsz newsz : Z) : M kernel Z :=
  if negb (a <? newsz) then ret newsz else
  match n with
  | O => exhausted
  | S n =>
      let! mem := kalloc in
      if mem =? 0 then let! _r := deallocuvm pgdir newsz oldsz in ret 0 else
      modify (upd_mem (memset mem 0 PGSIZE)) ;;;
      let! _r := mappages pgdir a PGSIZE (V2P mem) (Z.lor PTE_W PTE_U) in
      alloc_loop n pgdir (u32 (a + PGSIZE)) oldsz newsz
  end.
Definition allocuvm (pgdir oldsz newsz : Z) : M kernel Z :=
  if KERNBASE <=? newsz then ret 0 else
  if newsz <? oldsz then ret oldsz else
  alloc_loop (pages newsz) pgdir (PGROUNDUP oldsz) oldsz newsz.

Fixpoint free_tables (pgdir i : Z) (n : nat) : M kernel unit :=
  match n with
  | O => ret tt
  | S n =>
      let! e := read32 (pgdir + 4 * i) in
      when (present e) (kfree (P2V (PTE_ADDR e))) ;;;
      free_tables pgdir (i + 1) n
  end.
Definition freevm (pgdir : Z) : M kernel unit :=
  if pgdir =? 0 then panic "freevm: no pgdir" else
  let! _r := deallocuvm pgdir KERNBASE 0 in
  free_tables pgdir 0 (Z.to_nat NPDENTRIES) ;;;
  kfree pgdir.

Definition clearpteu (pgdir uva : Z) : M kernel unit :=
  let! pte := walkpgdir pgdir uva false in
  if pte =? 0 then panic "clearpteu" else
  let! e := read32 pte in
  write32 pte (Z.ldiff e PTE_U).

(** ** fork's copies *)

Fixpoint copy_loop (n : nat) (pgdir d i sz : Z) : M kernel Z :=
  if negb (i <? sz) then ret d else
  match n with
  | O => exhausted
  | S n =>
      let! pte := walkpgdir pgdir i false in
      if pte =? 0 then panic "copyuvm: pte should exist" else
      let! e := read32 pte in
      if negb (present e) then panic "copyuvm: page not present" else
      let! mem := kalloc in
      if mem =? 0 then freevm d ;;; ret 0 else
      modify (upd_mem (memmove mem (P2V (PTE_ADDR e)) PGSIZE)) ;;;
      let! r := mappages d i PGSIZE (V2P mem) (PTE_FLAGS e) in
      if r <? 0 then freevm d ;;; ret 0 else
      copy_loop n pgdir d (u32 (i + PGSIZE)) sz
  end.
Definition copyuvm (pgdir sz : Z) : M kernel Z :=
  let! d := setupkvm in
  if d =? 0 then ret 0 else
  copy_loop (pages sz) pgdir d 0 sz.

(** After a failed [mappages] the loop goes on with [d] null. *)
Fixpoint cow_loop (n : nat) (pgdir d i sz : Z) : M kernel Z :=
  if negb (i <? sz) then ret d else
  match n with
  | O => exhausted
  | S n =>
      let! pte := walkpgdir pgdir i false in
      if pte =? 0 then panic "copyuvm: pte should exist" else
      let! e := read32 pte in
      if negb (present e) then panic "copyuvm: page not present" else
      let flags := Z.ldiff (Z.lor (PTE_FLAGS e) PTE_COW) (Z.lor PTE_W PTE_P) in
      incRefCount (PGROUNDDOWN (P2V (PTE_ADDR e))) ;;;
      let! r := mappages d i PGSIZE (PTE_ADDR e) flags in
      let! d := (if r <? 0 then freevm d ;;; ret 0 else ret d) in
      cow_loop n pgdir d (u32 (i + PGSIZE)) sz
  end.
Definition cowuvm (pgdir sz : Z) : M kernel Z :=
  let! d := setupkvm in
  if d =? 0 then ret 0 else
  cow_loop (pages sz) pgdir d 0 sz.

(** ** User addresses *)

Definition uva2ka (pgdir uva : Z) : M kernel Z :=
  let! pte := walkpgdir pgdir uva false in
  if pte =? 0 then fault "uva2ka: null pte" else
  let! e := read32 pte in
  if negb (present e) then ret 0 else
  if Z.land e PTE_U =? 0 then ret 0 else
  ret (P2V (PTE_ADDR e)).

Fixpoint copyout_loop (n : nat) (pgdir va : Z) (p : list Z) : M kernel Z :=
  match p with
  | [] => ret 0
  | _ =>
      match n with
      | O => exhausted
      | S n =>
          let va0 := PGROUNDDOWN va in
          let! pa0 := uva2ka pgdir va0 in
          if pa0 =? 0 then ret (-1) else
          let m := Z.to_nat (PGSIZE - (va - va0)) in
          modify (upd_mem (store (pa0 + (va - va0)) (take m p))) ;;;
          copyout_loop n pgdir (u32 (va0 + PGSIZE)) (drop m p)
      end
  end.
Definition copyout (pgdir va : Z) (p : list Z) : M kernel Z :=
  copyout_loop (pages (Z.of_nat (length p)) + 1) pgdir va p.

End Vm.

(** ** The processor's translation

    The kernel address behind virtual address [va] of page directory [pgdir],
    when the processor finds it mapped. *)
Definition pte_at (m : Z -> Z) (pgdir va : Z) : option Z :=
  let e := ld32 m (pgdir + 4 * PDX va) in
  if present e then Some (ld32 m (P2V (PTE_ADDR e) + 4 * PTX va)) else None.
Definition translate (m : Z -> Z) (pgdir va : Z) : option Z :=
  match pte_at m pgdir va with
  | Some e => if present e then Some (P2V (PTE_ADDR e) + va mod PGSIZE) else None
  | None => None
  end.
