(* ===== verification/VmProof.v ===== *)
(** VmProof: page tables.  What [walkpgdir], [mappages] and [allocuvm] do to
    the translation the processor computes from the page directory in memory. *)

From S2P Require Import Prelude Kernel StringLib Bytes Words Kalloc Vm.

(** ** Words and pages of memory *)

(** The page at [p]. *)
Definition page (p : Z) : Prop := p mod PGSIZE = 0 /\ 0 < p <= 2 ^ 32 - PGSIZE.
Definition in_page (p a : Z) : Prop := p <= a < p + PGSIZE.

Lemma page_disjoint p q a : page p -> page q -> in_page p a -> in_page q a -> p = q.
Proof.
  unfold page, in_page, PGSIZE. intros [Hp _] [Hq _] H1 H2.
  pose proof (Z.div_mod p 4096 ltac:(lia)). pose proof (Z.div_mod q 4096 ltac:(lia)). lia.
Qed.
Lemma entry_in_page p j : 0 <= j < 1024 -> in_page p (p + 4 * j) /\ in_page p (p + 4 * j + 3).
Proof. unfold in_page, PGSIZE. lia. Qed.
Lemma memset_out p c m x : ~ in_page p x -> memset p c PGSIZE m x = m x.
Proof.
  unfold in_page. intros H. rewrite memset_spec by done.
  destruct (Z.leb_spec p x), (Z.ltb_spec x (p + PGSIZE)); try done. lia.
Qed.
Lemma memset_in p c m x : in_page p x -> memset p c PGSIZE m x = u8 c.
Proof.
  unfold in_page. intros H. rewrite memset_spec by done.
  destruct (Z.leb_spec p x), (Z.ltb_spec x (p + PGSIZE)); try done; lia.
Qed.
Lemma page_page_addr i : Z.of_nat i < MAXPAGES -> page (page_addr i).
Proof.
  intros Hi. split; [apply page_addr_aligned|]. change MAXPAGES with 57344 in Hi. unfold page_addr, KERNBASE, PGSIZE. lia.
Qed.
Lemma page_addr_inj i j : page_addr i = page_addr j -> i = j.
Proof. unfold page_addr, PGSIZE. lia. Qed.

(** ** Page table entries *)

Lemma PTE_ADDR_eq e : PTE_ADDR e = e / 4096 * 4096.
Proof. unfold PTE_ADDR. change 0xFFF with (Z.ones 12). by rewrite Z.ldiff_ones_r, Z.shiftl_mul_pow2, Z.shiftr_div_pow2 by lia. Qed.
Lemma lor_low a f : a mod 4096 = 0 -> 0 <= f < 4096 -> Z.lor a f = a + f.
Proof.
  intros Ha Hf. rewrite <- Z.lxor_lor, Z.add_nocarry_lxor; try done; apply Z.bits_inj'; intros i Hi;
    rewrite Z.land_spec, Z.bits_0;
    (destruct (decide (i < 12)) as [Hlt|Hge];
      [replace a with (a / 2 ^ 12 * 2 ^ 12) by (pose proof (Z.div_mod a 4096 ltac:(lia)); change (2 ^ 12) with 4096; lia);
       by rewrite Z.mul_pow2_bits_low
      |replace f with (f mod 2 ^ 12) by (apply Z.mod_small; lia); rewrite Z.mod_pow2_bits_high by lia; apply andb_false_r]).
Qed.
Lemma lor_small f g : 0 <= f < 4096 -> 0 <= g < 4096 -> 0 <= Z.lor f g < 4096.
Proof.
  intros Hf Hg. split; [apply Z.lor_nonneg; lia|]. change 4096 with (2 ^ 12).
  destruct (decide (Z.lor f g = 0)) as [->|Hne]; [done|]. assert (0 <= Z.lor f g) by (apply Z.lor_nonneg; lia).
  apply Z.log2_lt_pow2; [lia|]. rewrite Z.log2_lor by lia.
  assert (forall x, 0 <= x < 4096 -> Z.log2 x < 12) as Hl.
  { intros x Hx. destruct (decide (x = 0)) as [->|]; [done|]. apply Z.log2_lt_pow2; lia. }
  pose proof (Hl f Hf). pose proof (Hl g Hg). lia.
Qed.
Lemma present_lor a f : present (Z.lor a (Z.lor f PTE_P)) = true.
Proof.
  unfold present, PTE_P. apply negb_true_iff, Z.eqb_neq. intros H.
  assert (Z.testbit (Z.land (Z.lor a (Z.lor f 1)) 1) 0 = false) as C by by rewrite H.
  by rewrite Z.land_spec, !Z.lor_spec, !orb_true_r in C.
Qed.

(** An entry for the frame at [pa]. *)
Lemma entry_facts pa f : pa mod 4096 = 0 -> 0 <= pa < 2 ^ 32 -> 0 <= f < 4096 ->
  let e := Z.lor pa (Z.lor f PTE_P) in u32 e = e /\ present e = true /\ PTE_ADDR e = pa.
Proof.
  intros Ha Hr Hf e. pose proof (lor_small f PTE_P Hf ltac:(unfold PTE_P; lia)) as Hl.
  assert (e = pa + Z.lor f PTE_P) as E by (by apply lor_low).
  pose proof (Z.div_mod pa 4096 ltac:(lia)). split; [apply u32_small; lia|]. split; [apply present_lor|].
  rewrite PTE_ADDR_eq, E. replace ((pa + Z.lor f PTE_P) / 4096) with (pa / 4096); [lia|].
  apply (Z.div_unique _ _ _ (Z.lor f PTE_P)); lia.
Qed.

Lemma PDX_eq va : 0 <= va < 2 ^ 32 -> PDX va = va / 4096 / 1024 /\ 0 <= PDX va < 1024.
Proof.
  intros Hva. unfold PDX. change 0x3FF with (Z.ones 10). rewrite Z.land_ones, Z.shiftr_div_pow2 by lia.
  rewrite Z.div_div by lia. change (2 ^ 22) with (4096 * 1024). change (2 ^ 10) with 1024.
  rewrite Z.mod_small; [split; [done|]|]; split; try (apply Z.div_pos; lia); apply Z.div_lt_upper_bound; lia.
Qed.
Lemma PTX_eq va : PTX va = (va / 4096) mod 1024 /\ 0 <= PTX va < 1024.
Proof.
  unfold PTX. change 0x3FF with (Z.ones 10). rewrite Z.land_ones, Z.shiftr_div_pow2 by lia.
  change (2 ^ 12) with 4096. change (2 ^ 10) with 1024. split; [done|]. apply Z.mod_pos_bound. lia.
Qed.
Lemma same_entry va va' : 0 <= va < 2 ^ 32 -> 0 <= va' < 2 ^ 32 -> PDX va = PDX va' -> PTX va = PTX va' -> va / 4096 = va' / 4096.
Proof.
  intros H H'. destruct (PDX_eq va H) as [-> _], (PDX_eq va' H') as [-> _], (PTX_eq va) as [-> _], (PTX_eq va') as [-> _].
  pose proof (Z.div_mod (va / 4096) 1024 ltac:(lia)). pose proof (Z.div_mod (va' / 4096) 1024 ltac:(lia)). lia.
Qed.

(** ** The tables of an address space *)

(** The page table entry [j] of the directory [pd] points to. *)
Definition tab (m : Z -> Z) (pd j : Z) : option Z :=
  let e := ld32 m (pd + 4 * j) in if present e then Some (P2V (PTE_ADDR e)) else None.
Lemma pte_at_tab m pd va :
  pte_at m pd va = (fun t => ld32 m (t + 4 * PTX va)) <$> tab m pd (PDX va).
Proof. unfold pte_at, tab. by case_if. Qed.

Record space (m : Z -> Z) (pd : Z) : Prop := {
  sp_pd : page pd;
  sp_tab : forall j t, 0 <= j < 1024 -> tab m pd j = Some t -> page t /\ t <> pd;
  sp_inj : forall i j t, 0 <= i < 1024 -> 0 <= j < 1024 -> tab m pd i = Some t -> tab m pd j = Some t -> i = j
}.

(** The pages the directory and its tables occupy. *)
Definition table_page (m : Z -> Z) (pd p : Z) : Prop :=
  p = pd \/ exists j, 0 <= j < 1024 /\ tab m pd j = Some p.

(** Memory that agrees outside the page [p] has the same entries elsewhere. *)
Lemma entry_other m m' p q j :
  page p -> page q -> p <> q -> 0 <= j < 1024 -> (forall a, ~ in_page p a -> m' a = m a) ->
  ld32 m' (q + 4 * j) = ld32 m (q + 4 * j).
Proof.
  intros Hp Hq Hne Hj H. apply ld32_ext. intros a Ha. apply H. intros Hin. apply Hne.
  apply (page_disjoint p q a); try done. unfold in_page, PGSIZE. lia.
Qed.

(** Writing entry [q] of the table at [t]. *)
Lemma pte_store_out t q v m a : 0 <= q < 1024 -> ~ in_page t a -> store (t + 4 * q) (word_bytes v) m a = m a.
Proof.
  intros Hq Ha. apply store_out. change (Z.of_nat (length (word_bytes v))) with 4. unfold in_page, PGSIZE in Ha. lia.
Qed.
Lemma pte_store m pd j t q v :
  space m pd -> 0 <= j < 1024 -> tab m pd j = Some t -> 0 <= q < 1024 ->
  let m' := store (t + 4 * q) (word_bytes v) m in
  (forall i, 0 <= i < 1024 -> tab m' pd i = tab m pd i) /\ space m' pd /\
  forall va, 0 <= va < 2 ^ 32 ->
    pte_at m' pd va = if bool_decide (PDX va = j /\ PTX va = q) then Some (u32 v) else pte_at m pd va.
Proof.
  intros Sp Hj Ht Hq m'. destruct (sp_tab _ _ Sp _ _ Hj Ht) as [Hpt Hne]. pose proof (sp_pd _ _ Sp) as Hpd.
  assert (forall a, ~ in_page t a -> m' a = m a) as Hout by (intros; by apply pte_store_out).
  assert (forall i, 0 <= i < 1024 -> tab m' pd i = tab m pd i) as Htab.
  { intros i Hi. unfold tab. by rewrite (entry_other m m' t pd i). }
  split; [done|]. split.
  - split; [done| |].
    + intros i u Hi. rewrite Htab by done. by apply Sp.
    + intros i i' u Hi Hi'. rewrite !Htab by done. by apply Sp.
  - intros va Hva. destruct (PDX_eq va Hva) as [_ Hd], (PTX_eq va) as [_ Hx]. rewrite !pte_at_tab, Htab by done.
    case_bool_decide as E.
    + destruct E as [-> ->]. rewrite Ht. simpl. f_equal. apply ld32_store_eq.
    + destruct (tab m pd (PDX va)) as [u|] eqn:Hu; [|done]. simpl. f_equal.
      destruct (decide (u = t)) as [->|Hut].
      * assert (PDX va = j) as Edj by (by eapply (sp_inj _ _ Sp)). apply ld32_store_ne.
        assert (PTX va <> q) by (intros Eq; by apply E). lia.
      * apply (entry_other m m' t u); try done. by apply (sp_tab _ _ Sp (PDX va)).
Qed.

(** The entry of [va] is unchanged, but for an empty table in place of none. *)
Definition same_pte (pd : Z) (m m' : Z -> Z) (va : Z) : Prop :=
  pte_at m' pd va = pte_at m pd va \/ (pte_at m pd va = None /\ pte_at m' pd va = Some 0).

Lemma same_pte_translate pd m m' va : same_pte pd m m' va -> translate m' pd va = translate m pd va.
Proof. unfold translate. intros [->|[-> ->]]; done. Qed.
Lemma same_pte_Some pd m m' va e : same_pte pd m m' va -> pte_at m pd va = Some e -> pte_at m' pd va = Some e.
Proof. intros [->|[-> _]]; done. Qed.
Lemma same_pte_trans pd m1 m2 m3 va : same_pte pd m1 m2 va -> same_pte pd m2 m3 va -> same_pte pd m1 m3 va.
Proof. unfold same_pte. intros [E|[E1 E2]] [F|[F1 F2]]; rewrite ?F, ?E; auto. right. by rewrite <- E. Qed.

Section Map.
Context `{Im : Image}.

(** The allocator and the address space; free pages are not in use as tables. *)
Record vm_ok (k : kernel) (l : list nat) (pd : Z) : Prop := {
  vo_unlocked : kmem_unlocked k;
  vo_kmem : kmem_inv k l;
  vo_space : space (k_mem k) pd;
  vo_fresh : forall i, i ∈ l -> ~ table_page (k_mem k) pd (page_addr i)
}.

Lemma vm_mem k l pd m' :
  vm_ok k l pd -> space m' pd -> (forall i, i ∈ l -> ~ table_page m' pd (page_addr i)) -> vm_ok (set_k_mem m' k) l pd.
Proof. intros [H1 [? ? ? ? ?] _ _] S F. split; [done|by split|done|done]. Qed.

Lemma read32_run a k : read32 a k = Done (ld32 (k_mem k) a) k.
Proof. done. Qed.

Lemma walk_found k pd va alloc t :
  page pd -> tab (k_mem k) pd (PDX va) = Some t -> walkpgdir pd va alloc k = Done (t + 4 * PTX va) k.
Proof.
  intros [_ Hp] Ht. unfold walkpgdir. destruct (Z.eqb_spec pd 0); [lia|]. cbv zeta. unfold tab in Ht. revert Ht.
  rewrite (bind_Done _ _ _ _ _ (read32_run _ _)). case_if; [|done]. by intros [= <-].
Qed.
Lemma walk_none k pd va :
  page pd -> tab (k_mem k) pd (PDX va) = None -> walkpgdir pd va false k = Done 0 k.
Proof.
  intros [_ Hp] Ht. unfold walkpgdir. destruct (Z.eqb_spec pd 0); [lia|]. cbv zeta. unfold tab in Ht. revert Ht.
  rewrite (bind_Done _ _ _ _ _ (read32_run _ _)). by case_if.
Qed.

(** The memory after a new table for directory entry [j]. *)
Definition new_table (pd j : Z) (i : nat) (m : Z -> Z) : Z -> Z :=
  store (pd + 4 * j) (word_bytes (Z.lor (V2P (page_addr i)) (Z.lor PTE_P (Z.lor PTE_W PTE_U)))) (memset (page_addr i) 0 PGSIZE m).

Lemma new_table_out pd j i m a : 0 <= j < 1024 -> ~ in_page pd a -> ~ in_page (page_addr i) a -> new_table pd j i m a = m a.
Proof. intros Hj H1 H2. unfold new_table. rewrite pte_store_out, memset_out by done. done. Qed.

Lemma new_table_space pd j i m :
  space m pd -> 0 <= j < 1024 -> tab m pd j = None -> Z.of_nat i < MAXPAGES -> ~ table_page m pd (page_addr i) ->
  let m' := new_table pd j i m in
  space m' pd /\ tab m' pd j = Some (page_addr i) /\
  (forall j', 0 <= j' < 1024 -> j' <> j -> tab m' pd j' = tab m pd j') /\
  forall q, 0 <= q < 1024 -> ld32 m' (page_addr i + 4 * q) = 0.
Proof.
  intros Sp Hj Hnone Hi Hfresh m'. pose proof (sp_pd _ _ Sp) as Hpd. pose proof (page_page_addr i Hi) as Hpi.
  assert (page_addr i <> pd) as Hne by (intros E; apply Hfresh; by left).
  set (m1 := memset (page_addr i) 0 PGSIZE m).
  assert (forall j', 0 <= j' < 1024 -> ld32 m1 (pd + 4 * j') = ld32 m (pd + 4 * j')) as E1.
  { intros j' Hj'. apply (entry_other m m1 (page_addr i) pd j'); try done. intros a Ha. by apply memset_out. }
  assert (tab m' pd j = Some (page_addr i)) as Ej.
  { unfold tab, m', new_table. rewrite ld32_store_eq. rewrite page_addr_V2P by done.
    change (Z.lor PTE_P (Z.lor PTE_W PTE_U)) with (Z.lor 6 PTE_P). change MAXPAGES with 57344 in Hi.
    destruct (entry_facts (Z.of_nat i * PGSIZE) 6) as (-> & -> & ->); unfold PGSIZE; try lia; [by rewrite Z.mod_mul by lia|].
    f_equal. unfold P2V, page_addr, KERNBASE, PGSIZE. rewrite u32_small by lia. lia. }
  assert (forall j', 0 <= j' < 1024 -> j' <> j -> tab m' pd j' = tab m pd j') as Eo.
  { intros j' Hj' Hne'. unfold tab, m', new_table. rewrite ld32_store_ne by lia. fold m1. by rewrite E1. }
  split; [|split; [done|split; [done|]]].
  - split; [done| |].
    + intros j' t Hj' Ht. destruct (decide (j' = j)) as [->|Hne']; [rewrite Ej in Ht; by injection Ht as <-|].
      rewrite Eo in Ht by done. by eapply Sp.
    + intros a b t Ha Hb Hta Htb. destruct (decide (a = j)) as [->|Haj], (decide (b = j)) as [->|Hbj]; try done.
      * rewrite Ej in Hta. injection Hta as <-. rewrite Eo in Htb by done. destruct Hfresh. right. by exists b.
      * rewrite Ej in Htb. injection Htb as <-. rewrite Eo in Hta by done. destruct Hfresh. right. by exists a.
      * rewrite Eo in Hta, Htb by done. by eapply (sp_inj _ _ Sp).
  - intros q Hq. unfold m', new_table. rewrite (entry_other m1 _ pd (page_addr i) q); try done.
    + assert (forall x, page_addr i + 4 * q <= x < page_addr i + 4 * q + 4 -> m1 x = 0) as Hz.
      { intros x Hx. unfold m1. rewrite memset_in; [done|]. unfold in_page, PGSIZE. lia. }
      unfold ld32. by rewrite !Hz by lia.
    + intros a Ha. by apply pte_store_out.
Qed.

(** The pages these operations may write: the tables and the free pages. *)
Definition owned (m : Z -> Z) (pd : Z) (l : list nat) (p : Z) : Prop :=
  table_page m pd p \/ exists i, i ∈ l /\ p = page_addr i.

(** One step of the address space: pages leave the free list, memory changes
    only in tables and in pages that were free, and nothing else of the kernel changes. *)
Record vm_step (pd : Z) (k : kernel) (l : list nat) (k' : kernel) (l' : list nat) : Prop := {
  vs_ok : vm_ok k' l' pd;
  vs_free : exists u, l = u ++ l';
  vs_owned : forall p, owned (k_mem k') pd l' p -> owned (k_mem k) pd l p;
  vs_frame : forall a, (forall p, owned (k_mem k) pd l p -> ~ in_page p a) -> k_mem k' a = k_mem k a;
  vs_rest : exists m km, k' = set_k_mem m (set_k_kmem km k)
}.

Lemma vm_step_refl pd k l : vm_ok k l pd -> vm_step pd k l k l.
Proof. split; [done|by exists []|done|done|]. exists (k_mem k), (k_kmem k). by destruct k. Qed.
Lemma vm_step_trans pd k1 l1 k2 l2 k3 l3 : vm_step pd k1 l1 k2 l2 -> vm_step pd k2 l2 k3 l3 -> vm_step pd k1 l1 k3 l3.
Proof.
  intros [_ [u1 E1] O1 F1 (m1 & km1 & R1)] [O [u2 E2] O2 F2 (m2 & km2 & R2)]. split; [done| | | |].
  - exists (u1 ++ u2). by rewrite E1, E2, app_assoc.
  - intros p Hp. by apply O1, O2.
  - intros a Ha. rewrite F2; [by apply F1|]. intros p Hp. apply Ha. by apply O1.
  - exists m2, km2. rewrite R2, R1. by destruct k1.
Qed.

Lemma table_page_tab m m' pd p :
  (forall j, 0 <= j < 1024 -> tab m' pd j = tab m pd j) -> table_page m' pd p -> table_page m pd p.
Proof. intros H [->|(j & Hj & Ht)]; [by left|]. right. exists j. by rewrite <- H. Qed.

(** Writing an entry of a table is a step. *)
Lemma pte_store_step k l pd j t q v :
  vm_ok k l pd -> 0 <= j < 1024 -> tab (k_mem k) pd j = Some t -> 0 <= q < 1024 ->
  vm_step pd k l (upd_mem (store (t + 4 * q) (word_bytes v)) k) l.
Proof.
  intros Ok Hj Ht Hq. destruct (pte_store _ _ _ _ _ v (vo_space _ _ _ Ok) Hj Ht Hq) as (Htab & Sp & _).
  split.
  - apply vm_mem; [done|done|]. intros i Hi Hp. apply (vo_fresh _ _ _ Ok i Hi). by eapply table_page_tab.
  - by exists [].
  - intros p [Hp|Hp]; [left; by eapply table_page_tab|by right].
  - intros a Ha. simpl. apply pte_store_out; [done|]. apply Ha. left. right. by exists j.
  - exists (store (t + 4 * q) (word_bytes v) (k_mem k)), (k_kmem k). by destruct k.
Qed.

(** Taking a page off the free list. *)
Lemma kalloc_step k i l pd :
  vm_ok k (i :: l) pd ->
  exists k', kalloc k = Done (page_addr i) k' /\ vm_step pd k (i :: l) k' l /\ k_mem k' = k_mem k /\
    Z.of_nat i < MAXPAGES /\ ~ owned (k_mem k') pd l (page_addr i).
Proof.
  intros [U Inv Sp F]. destruct (kmem_inv_head _ _ _ Inv) as (x & Hf & Hx & _ & Hni & _ & Hi).
  exists (upd_kmem (popped_kmem i x) k). split; [by apply kalloc_run|].
  assert (kmem_unlocked (upd_kmem (popped_kmem i x) k)) as U'.
  { apply unlocked_upd; [|done]. unfold popped_kmem. by destruct original. }
  split; [split|].
  - split; [done|by eapply kmem_inv_pop|done|]. intros j Hj. apply F. by right.
  - by exists [i].
  - intros p [Hp|(j & Hj & ->)]; [by left|right]. exists j. by split; [right|].
  - done.
  - exists (k_mem k), (popped_kmem i x (k_kmem k)). by destruct k.
  - split; [done|]. split; [done|]. intros [H|(j & Hj & E)]; [by apply (F i); [left|]|].
    apply page_addr_inj in E. by subst.
Qed.

(** ** walkpgdir *)

(** Memory changes confined to a page taken off the free list, and to tables. *)
Lemma fresh_step k i l pd k1 m' :
  vm_ok k (i :: l) pd -> vm_step pd k (i :: l) k1 l -> k_mem k1 = k_mem k -> space m' pd ->
  (forall p, table_page m' pd p -> table_page (k_mem k) pd p \/ p = page_addr i) ->
  ~ owned (k_mem k) pd l (page_addr i) ->
  (forall a, ~ in_page (page_addr i) a -> (forall p, table_page (k_mem k) pd p -> ~ in_page p a) -> m' a = k_mem k a) ->
  vm_step pd k (i :: l) (set_k_mem m' k1) l.
Proof.
  intros Ok [Ok1 Ef Eo _ (m0 & km & Er)] Em Sp Ht Hno Hf. split.
  - apply vm_mem; [done|done|]. intros j Hj Hp. destruct (Ht _ Hp) as [H|H].
    + apply (vo_fresh _ _ _ Ok j); [by right|done].
    + apply Hno. right. by exists j.
  - done.
  - intros p [Hp|(j & Hj & ->)]; simpl in *.
    + destruct (Ht _ Hp) as [H| ->]; [by left|]. right. exists i. by split; [left|].
    + right. exists j. by split; [right|].
  - intros a Ha. simpl. apply Hf.
    + apply Ha. right. exists i. by split; [left|].
    + intros p Hp. apply Ha. by left.
  - exists m', km. by rewrite Er.
Qed.

Lemma new_table_pte pd j i m va :
  0 <= va < 2 ^ 32 -> space m pd -> 0 <= j < 1024 -> tab m pd j = None -> Z.of_nat i < MAXPAGES -> ~ table_page m pd (page_addr i) ->
  let m' := new_table pd j i m in
  same_pte pd m m' va.
Proof.
  intros Hva Sp Hj Hn Hi Hfr m'. destruct (new_table_space pd j i m Sp Hj Hn Hi Hfr) as (_ & Ej & Eo & Ez).
  destruct (PDX_eq va Hva) as [_ Hd], (PTX_eq va) as [_ Hx]. unfold same_pte. rewrite !pte_at_tab. fold m' in Ej, Eo, Ez.
  destruct (decide (PDX va = j)) as [E|Hne].
  - right. rewrite E, Hn, Ej. split; [done|]. simpl. by rewrite Ez.
  - left. rewrite Eo by done. destruct (tab m pd (PDX va)) as [u|] eqn:Hu; [|done]. simpl. f_equal.
    destruct (sp_tab _ _ Sp _ _ Hd Hu) as [Hpu Hup]. apply ld32_ext. intros a Ha.
    assert (in_page u a) as Hin by (unfold in_page, PGSIZE; lia).
    apply new_table_out; [done| |]; intros Hin'.
    + apply Hup. apply (page_disjoint u pd a); try done. apply Sp.
    + apply Hfr. right. exists (PDX va). split; [done|]. rewrite Hu. f_equal.
      apply (page_disjoint u (page_addr i) a); try done. by apply page_page_addr.
Qed.

Lemma walk_alloc k l pd va :
  vm_ok k l pd -> 0 <= va < 2 ^ 32 -> (tab (k_mem k) pd (PDX va) = None -> l <> []) ->
  exists t k' l', walkpgdir pd va true k = Done (t + 4 * PTX va) k' /\ vm_step pd k l k' l' /\
    tab (k_mem k') pd (PDX va) = Some t /\ (length l <= length l' + 1)%nat /\ (is_Some (tab (k_mem k) pd (PDX va)) -> l' = l) /\
    forall va', 0 <= va' < 2 ^ 32 ->
      same_pte pd (k_mem k) (k_mem k') va'.
Proof.
  intros Ok Hva Hl. pose proof (vo_space _ _ _ Ok) as Sp0. pose proof (sp_pd _ _ Sp0) as Hpd. destruct (PDX_eq va Hva) as [_ Hj].
  destruct (tab (k_mem k) pd (PDX va)) as [t|] eqn:Ht.
  { exists t, k, l. split; [by apply walk_found|]. split; [by apply vm_step_refl|]. split; [done|]. split; [lia|]. split; [done|]. by left. }
  destruct l as [|i l]; [by destruct Hl|]. destruct (kalloc_step _ _ _ _ Ok) as (k1 & Hk & Hs & Em & Hi & Hno).
  rewrite Em in Hno. assert (~ table_page (k_mem k) pd (page_addr i)) as Hfr by (intros H; apply Hno; by left).
  destruct (new_table_space pd (PDX va) i (k_mem k)) as (Sp & Ej & Eo & Ez); [done..|].
  set (m' := new_table pd (PDX va) i (k_mem k)) in *.
  exists (page_addr i), (set_k_mem m' k1), l. split; [|split; [|split; [done|split; [simpl; lia|split; [by intros [? ?]|]]]]].
  - unfold walkpgdir. destruct (Z.eqb_spec pd 0); [destruct Hpd; lia|]. cbv zeta. unfold tab in Ht. revert Ht.
    rewrite (bind_Done _ _ _ _ _ (read32_run _ _)). case_if; [done|]. intros _. cbn [negb].
    rewrite (bind_Done _ _ _ _ _ Hk). destruct (Z.eqb_spec (page_addr i) 0) as [Ep|_].
    + unfold page_addr, KERNBASE, PGSIZE in Ep. lia.
    + unfold m', new_table. by rewrite <- Em.
  - apply fresh_step; try done.
    + intros p [->|(j & Hj' & Hp)]; [by left; left|]. destruct (decide (j = PDX va)) as [->|Hne].
      * simpl in Hp. rewrite Ej in Hp. injection Hp as <-. by right.
      * rewrite Eo in Hp by done. left. right. by exists j.
    + intros a H1 H2. apply new_table_out; [done| |done]. apply H2. by left.
  - intros va' Hva'. by apply new_table_pte.
Qed.

(** ** mappages *)

Lemma untranslated m pd va e : translate m pd va = None -> pte_at m pd va = Some e -> present e = false.
Proof. unfold translate. intros H E. rewrite E in H. revert H. by case_if. Qed.

Lemma mod_page a : a mod 4096 = 0 -> (a + PGSIZE) mod 4096 = 0.
Proof. intros H. unfold PGSIZE. by rewrite <- Z.add_mod_idemp_l, H. Qed.

(** One turn of the loop. *)
Lemma map_one k l pd a pa perm :
  vm_ok k l pd -> 0 <= a < 2 ^ 32 -> pa mod 4096 = 0 -> 0 <= pa < 2 ^ 32 -> 0 <= perm < 4096 ->
  translate (k_mem k) pd a = None -> (tab (k_mem k) pd (PDX a) = None -> l <> []) ->
  exists k' l',
    (forall n last, mappages_loop n pd a last pa perm k =
      (if a =? last then ret 0 else
       match n with
       | O => exhausted
       | S n => mappages_loop n pd (u32 (a + PGSIZE)) last (u32 (pa + PGSIZE)) perm
       end) k') /\
    vm_step pd k l k' l' /\ (length l <= length l' + 1)%nat /\ (is_Some (tab (k_mem k) pd (PDX a)) -> l' = l) /\
    pte_at (k_mem k') pd a = Some (Z.lor pa (Z.lor perm PTE_P)) /\
    forall va, 0 <= va < 2 ^ 32 -> va / PGSIZE <> a / PGSIZE ->
      same_pte pd (k_mem k) (k_mem k') va.
Proof.
  intros Ok Ha Hpa Hpr Hperm Hun Hl. destruct (walk_alloc k l pd a) as (t & k1 & l1 & Hw & Hs & Ht & Hlen & Hsame & Hp); [done..|].
  destruct (PDX_eq a Ha) as [_ Hd], (PTX_eq a) as [_ Hx]. pose proof (vs_ok _ _ _ _ _ Hs) as Ok1.
  destruct (sp_tab _ _ (vo_space _ _ _ Ok1) _ _ Hd Ht) as [[_ Hpt] _].
  assert (pte_at (k_mem k1) pd a = Some (ld32 (k_mem k1) (t + 4 * PTX a))) as Ea by (by rewrite pte_at_tab, Ht).
  assert (present (ld32 (k_mem k1) (t + 4 * PTX a)) = false) as Hnp.
  { destruct (Hp a Ha) as [E|[_ E]]; rewrite E in Ea; [by eapply untranslated|]. by injection Ea as <-. }
  set (e := Z.lor pa (Z.lor perm PTE_P)). destruct (entry_facts pa perm Hpa Hpr Hperm) as (Eu & _ & _). fold e in Eu.
  destruct (pte_store _ _ _ _ (PTX a) e (vo_space _ _ _ Ok1) Hd Ht Hx) as (_ & _ & Hpte).
  exists (upd_mem (store (t + 4 * PTX a) (word_bytes e)) k1), l1. split; [|split; [|split; [done|split; [done|split]]]].
  - intros n last. destruct n as [|n]; simpl mappages_loop; rewrite (bind_Done _ _ _ _ _ Hw);
      (destruct (Z.eqb_spec (t + 4 * PTX a) 0); [lia|]);
      rewrite (bind_Done _ _ _ _ _ (read32_run _ _)), Hnp; done.
  - eapply vm_step_trans; [done|]. by apply (pte_store_step _ _ _ (PDX a)).
  - simpl. rewrite Hpte by done. rewrite bool_decide_eq_true_2 by done. by rewrite Eu.
  - intros va Hva Hne. unfold same_pte. simpl. rewrite Hpte by done. rewrite bool_decide_eq_false_2.
    + by apply Hp.
    + intros [E1 E2]. apply Hne. by apply same_entry.
Qed.

(** The tables that mapping [n + 1] pages from [a] on may need. *)
Definition tables_needed (m : Z -> Z) (pd a : Z) (n : nat) : Z :=
  (a / PGSIZE + Z.of_nat n) / 1024 - a / PGSIZE / 1024 + match tab m pd (PDX a) with Some _ => 0 | None => 1 end.

Lemma tables_needed_next m m' pd a n :
  0 <= a -> a + PGSIZE < 2 ^ 32 -> a mod PGSIZE = 0 -> is_Some (tab m' pd (PDX a)) ->
  tables_needed m' pd (a + PGSIZE) n + match tab m pd (PDX a) with Some _ => 0 | None => 1 end <= tables_needed m pd a (S n).
Proof.
  intros Ha Hr Hal [t Ht]. unfold tables_needed, PGSIZE in *.
  assert ((a + 4096) / 4096 = a / 4096 + 1) as Ed by exact (Z.div_add a 1 4096 ltac:(done)). rewrite Ed.
  replace (a / 4096 + 1 + Z.of_nat n) with (a / 4096 + Z.of_nat (S n)) by lia.
  destruct (PDX_eq a) as [E _]; [lia|]. destruct (PDX_eq (a + 4096)) as [E' _]; [lia|]. rewrite Ed in E'.
  pose proof (Z.div_mod (a / 4096) 1024 ltac:(done)) as H1. pose proof (Z.mod_pos_bound (a / 4096) 1024 ltac:(done)) as H2.
  pose proof (Z.div_mod (a / 4096 + 1) 1024 ltac:(done)) as H3. pose proof (Z.mod_pos_bound (a / 4096 + 1) 1024 ltac:(done)) as H4.
  destruct (decide ((a / 4096 + 1) / 1024 = a / 4096 / 1024)) as [Es|Hne].
  - replace (PDX (a + 4096)) with (PDX a) by congruence. rewrite Ht, Es. lia.
  - destruct (tab m' pd (PDX (a + 4096))), (tab m pd (PDX a)); lia.
Qed.

Lemma mappages_loop_run n : forall k l pd a pa perm,
  vm_ok k l pd -> a mod 4096 = 0 -> 0 <= a -> a + Z.of_nat n * PGSIZE < 2 ^ 32 ->
  pa mod 4096 = 0 -> 0 <= pa -> pa + Z.of_nat n * PGSIZE < 2 ^ 32 -> 0 <= perm < 4096 ->
  (forall i, (i <= n)%nat -> translate (k_mem k) pd (a + Z.of_nat i * PGSIZE) = None) ->
  tables_needed (k_mem k) pd a n <= Z.of_nat (length l) ->
  exists k' l', mappages_loop n pd a (a + Z.of_nat n * PGSIZE) pa perm k = Done 0 k' /\
    vm_step pd k l k' l' /\ Z.of_nat (length l) <= Z.of_nat (length l') + tables_needed (k_mem k) pd a n /\
    (forall i, (i <= n)%nat -> pte_at (k_mem k') pd (a + Z.of_nat i * PGSIZE) =
      Some (Z.lor (pa + Z.of_nat i * PGSIZE) (Z.lor perm PTE_P))) /\
    forall va, 0 <= va < 2 ^ 32 -> ~ (a / PGSIZE <= va / PGSIZE <= a / PGSIZE + Z.of_nat n) ->
      same_pte pd (k_mem k) (k_mem k') va.
Proof.
  induction n as [|n IH]; intros k l pd a pa perm Ok Ha Ha0 Han Hpa Hpa0 Hpan Hperm Hun Hl; unfold PGSIZE in Han, Hpan;
    (destruct (map_one k l pd a pa perm) as (k1 & l1 & Hrun & Hs & Hlen & Hsame & Ept & Hoth);
      [done|lia|done|lia|done|specialize (Hun O ltac:(lia)); by rewrite Z.add_0_r in Hun|
       intros Et ->; unfold tables_needed in Hl; rewrite Et in Hl; revert Hl; apply Z.lt_nge; simpl length;
         match goal with |- _ < ?x / 1024 - ?y / 1024 + 1 => pose proof (Z.div_le_mono y x 1024 ltac:(done) ltac:(lia)); lia end|]);
    (assert (Z.of_nat (length l) <= Z.of_nat (length l1) + match tab (k_mem k) pd (PDX a) with Some _ => 0 | None => 1 end) as Hlen1
       by (destruct (tab (k_mem k) pd (PDX a)); [rewrite Hsame by done; lia|lia]));
    (assert (is_Some (tab (k_mem k1) pd (PDX a))) as Htab by (rewrite pte_at_tab in Ept; destruct (tab (k_mem k1) pd (PDX a)); [done|discriminate Ept])).
  - exists k1, l1. rewrite Hrun, Z.add_0_r, Z.eqb_refl. split; [done|]. split; [done|].
    split; [unfold tables_needed; rewrite Z.add_0_r; lia|]. split.
    + intros i Hi. replace i with O by lia. by rewrite !Z.add_0_r.
    + intros va Hva Hne. apply Hoth; [done|lia].
  - assert (forall x i, x + PGSIZE + Z.of_nat i * PGSIZE = x + Z.of_nat (S i) * PGSIZE) as Es by (intros; unfold PGSIZE; lia).
    assert (forall i, (a + Z.of_nat i * 4096) / 4096 = a / 4096 + Z.of_nat i) as Ed by (intros i; by rewrite Z.div_add).
    assert (0 <= a + PGSIZE < 2 ^ 32 /\ 0 <= pa + PGSIZE < 2 ^ 32) as [Hr1 Hr2] by (unfold PGSIZE; lia).
    pose proof (tables_needed_next (k_mem k) (k_mem k1) pd a n Ha0 ltac:(lia) Ha Htab) as Hneed.
    destruct (IH k1 l1 pd (a + PGSIZE) (pa + PGSIZE) perm) as (k2 & l2 & Hrun2 & Hs2 & Hlen2 & Ept2 & Hoth2);
      try lia; try (unfold PGSIZE; lia); [apply Hs|by apply mod_page|by apply mod_page| |].
    { intros i Hi. rewrite Es, (same_pte_translate _ (k_mem k)); [apply Hun; lia|].
      apply Hoth; unfold PGSIZE; [lia|]. rewrite Ed. lia. }
    exists k2, l2. rewrite Hrun, !u32_small, <- Es by done.
    destruct (Z.eqb_spec a (a + PGSIZE + Z.of_nat n * PGSIZE)) as [E|_]; [unfold PGSIZE in E; lia|].
    split; [done|]. split; [by eapply vm_step_trans|]. split; [lia|].
    assert ((a + PGSIZE) / PGSIZE = a / PGSIZE + 1) as Ed1 by exact (Ed 1%nat).
    split.
    + intros [|i] Hi; [|rewrite <- !Es; apply Ept2; lia]. rewrite !Z.add_0_r.
      eapply same_pte_Some; [|done]. apply Hoth2; [lia|]. rewrite Ed1. lia.
    + intros va Hva Hne. eapply same_pte_trans; [apply Hoth; [done|lia]|]. apply Hoth2; [done|]. rewrite Ed1. lia.
Qed.

Lemma PGROUNDDOWN_eq a : PGROUNDDOWN a = a / 4096 * 4096.
Proof. apply PTE_ADDR_eq. Qed.

(** A whole range. *)
Lemma mappages_run k l pd va size pa perm :
  vm_ok k l pd -> 0 <= va -> 0 < size -> va + size <= 2 ^ 32 ->
  let first := va / PGSIZE in let last := (va + size - 1) / PGSIZE in
  pa mod PGSIZE = 0 -> 0 <= pa -> pa + (last - first) * PGSIZE < 2 ^ 32 -> 0 <= perm < PGSIZE ->
  (forall i, first <= i <= last -> translate (k_mem k) pd (i * PGSIZE) = None) ->
  last / 1024 - first / 1024 < Z.of_nat (length l) ->
  exists k' l', mappages pd va size pa perm k = Done 0 k' /\ vm_step pd k l k' l' /\
    Z.of_nat (length l) <= Z.of_nat (length l') + (last / 1024 - first / 1024 + 1) /\
    (forall i, first <= i <= last ->
      pte_at (k_mem k') pd (i * PGSIZE) = Some (Z.lor (pa + (i - first) * PGSIZE) (Z.lor perm PTE_P))) /\
    forall va', 0 <= va' < 2 ^ 32 -> ~ (first <= va' / PGSIZE <= last) -> same_pte pd (k_mem k) (k_mem k') va'.
Proof.
  intros Ok Hva Hsz Hend first last Hpa Hpa0 Hpe Hperm Hun Hl. unfold mappages. rewrite (u32_small (va + size - 1)) by lia.
  rewrite !PGROUNDDOWN_eq. fold PGSIZE. change 4096 with PGSIZE. fold first last. unfold PGSIZE in *.
  pose proof (Z.div_mod va 4096 ltac:(lia)). pose proof (Z.mod_pos_bound va 4096 ltac:(lia)).
  pose proof (Z.div_mod (va + size - 1) 4096 ltac:(lia)). pose proof (Z.mod_pos_bound (va + size - 1) 4096 ltac:(lia)).
  fold first in H. fold last in H1.
  assert (first <= last) as Hfl by (apply Z.div_le_mono; lia).
  rewrite u32_small by lia. replace (last * 4096 - first * 4096) with ((last - first) * 4096) by lia.
  rewrite Z.div_mul by lia. set (n := Z.to_nat (last - first)).
  replace (last * 4096) with (first * 4096 + Z.of_nat n * 4096) by lia.
  assert (tables_needed (k_mem k) pd (first * 4096) n <= last / 1024 - first / 1024 + 1) as Hneed.
  { unfold tables_needed, PGSIZE. rewrite Z.div_mul by done. replace (first + Z.of_nat n) with last by lia. destruct (tab _ _ _); lia. }
  destruct (mappages_loop_run n k l pd (first * 4096) pa perm) as (k' & l' & Hrun & Hs & Hlen & Hp & Ho);
    unfold PGSIZE in *; try lia; try done.
  - by rewrite Z.mod_mul.
  - intros i Hi. rewrite <- Z.mul_add_distr_r. apply Hun. lia.
  - exists k', l'. split; [done|]. split; [done|]. split; [lia|]. split.
    + intros i Hi. specialize (Hp (Z.to_nat (i - first)) ltac:(lia)). rewrite <- Z.mul_add_distr_r in Hp.
      rewrite !Z2Nat.id in Hp by lia. by replace (first + (i - first)) with i in Hp by lia.
    + intros va' Hva' Hne. apply Ho; [done|]. rewrite Z.div_mul by lia. lia.
Qed.

(** C25: mapping a range.  When no page of the range is mapped and there are
    free pages enough for the tables it may need, [mappages] succeeds: every
    page of the range gets the entry for its frame with the permissions
    asked for, the translation of every other address is what it was, the
    address space and the allocator stay well formed, and memory changes
    only inside tables and pages that were free. *)
Theorem mappages_correct k l pd va size pa perm :
  vm_ok k l pd -> 0 <= va -> 0 < size -> va + size <= 2 ^ 32 ->
  pa mod PGSIZE = 0 -> 0 <= pa -> pa + size <= 2 ^ 32 - PGSIZE -> 0 <= perm < PGSIZE ->
  let first := va / PGSIZE in let last := (va + size - 1) / PGSIZE in
  (forall i, first <= i <= last -> translate (k_mem k) pd (i * PGSIZE) = None) ->
  last / 1024 - first / 1024 < Z.of_nat (length l) ->
  exists k' l', mappages pd va size pa perm k = Done 0 k' /\ vm_step pd k l k' l' /\
    (forall i, first <= i <= last ->
      pte_at (k_mem k') pd (i * PGSIZE) = Some (Z.lor (pa + (i - first) * PGSIZE) (Z.lor perm PTE_P))) /\
    forall va', 0 <= va' < 2 ^ 32 -> ~ (first <= va' / PGSIZE <= last) ->
      translate (k_mem k') pd va' = translate (k_mem k) pd va'.
Proof.
  intros Ok Hva Hsz Hend Hpa Hpa0 Hpe Hperm first last Hun Hl.
  destruct (mappages_run k l pd va size pa perm) as (k' & l' & Hrun & Hs & _ & Hp & Ho); try done.
  - unfold PGSIZE in *. pose proof (Z.div_mod va 4096 ltac:(lia)). pose proof (Z.mod_pos_bound va 4096 ltac:(lia)).
    pose proof (Z.div_mod (va + size - 1) 4096 ltac:(lia)). pose proof (Z.mod_pos_bound (va + size - 1) 4096 ltac:(lia)). lia.
  - exists k', l'. do 3 (split; [done|]). intros va' Hva' Hne. by apply same_pte_translate, Ho.
Qed.

(** ** allocuvm *)

Lemma owned_page k l pd p : vm_ok k l pd -> owned (k_mem k) pd l p -> page p.
Proof.
  intros Ok [[->|(j & Hj & Ht)]|(i & Hi & ->)].
  - apply Ok.
  - by eapply (sp_tab _ _ (vo_space _ _ _ Ok)).
  - apply page_page_addr. by apply (ki_range _ _ (vo_kmem _ _ _ Ok)).
Qed.

(** [va] has the frame [i], writable by the user, zero, and not used otherwise. *)
Record user_page (k : kernel) (l : list nat) (pd va : Z) (i : nat) : Prop := {
  up_pte : pte_at (k_mem k) pd va = Some (Z.lor (V2P (page_addr i)) (Z.lor (Z.lor PTE_W PTE_U) PTE_P));
  up_range : Z.of_nat i < MAXPAGES;
  up_frame : ~ owned (k_mem k) pd l (page_addr i);
  up_zero : forall x, in_page (page_addr i) x -> k_mem k x = 0
}.

Lemma step_unowned pd k l k' l' i x :
  vm_ok k l pd -> vm_step pd k l k' l' -> Z.of_nat i < MAXPAGES -> ~ owned (k_mem k) pd l (page_addr i) ->
  in_page (page_addr i) x -> k_mem k' x = k_mem k x.
Proof.
  intros Ok Hs Hi Hno Hx. apply (vs_frame _ _ _ _ _ Hs). intros p Hp Hin. apply Hno.
  by rewrite (page_disjoint (page_addr i) p x); [..|apply page_page_addr|eapply owned_page| |].
Qed.
Lemma user_page_step pd k l k' l' va i :
  vm_ok k l pd -> vm_step pd k l k' l' -> same_pte pd (k_mem k) (k_mem k') va -> user_page k l pd va i -> user_page k' l' pd va i.
Proof.
  intros Ok Hs Hp [E Hi Hf Hz]. split; [by eapply same_pte_Some|done| |].
  - intros H. apply Hf. by apply (vs_owned _ _ _ _ _ Hs).
  - intros x Hx. rewrite (step_unowned pd k l k' l' i) by done. by apply Hz.
Qed.

(** Writing a page that is not a table does not touch the tables. *)
Lemma page_write m m' pd p :
  space m pd -> page p -> ~ table_page m pd p -> (forall a, ~ in_page p a -> m' a = m a) ->
  (forall j, 0 <= j < 1024 -> tab m' pd j = tab m pd j) /\ space m' pd /\
  forall va, 0 <= va < 2 ^ 32 -> pte_at m' pd va = pte_at m pd va.
Proof.
  intros Sp Hp Hno Hm. pose proof (sp_pd _ _ Sp) as Hpd.
  assert (forall q j, page q -> table_page m pd q -> 0 <= j < 1024 -> ld32 m' (q + 4 * j) = ld32 m (q + 4 * j)) as Hq.
  { intros q j Hq Ht Hj. apply (entry_other m m' p q); try done. by intros ->. }
  assert (forall j, 0 <= j < 1024 -> tab m' pd j = tab m pd j) as Htab by (intros j Hj; unfold tab; rewrite Hq; [done..|by left|done]).
  split; [done|]. split.
  - split; [done| |].
    + intros j t Hj. rewrite Htab by done. by apply Sp.
    + intros i j t Hi Hj. rewrite !Htab by done. by apply Sp.
  - intros va Hva. destruct (PDX_eq va Hva) as [_ Hd], (PTX_eq va) as [_ Hx]. rewrite !pte_at_tab, Htab by done.
    destruct (tab m pd (PDX va)) as [t|] eqn:Ht; [|done]. simpl. f_equal. apply Hq; [|right; by exists (PDX va)|done].
    by apply (sp_tab _ _ Sp (PDX va)).
Qed.
Lemma memset_fresh c m pd p :
  space m pd -> page p -> ~ table_page m pd p ->
  let m' := memset p c PGSIZE m in
  (forall j, 0 <= j < 1024 -> tab m' pd j = tab m pd j) /\ space m' pd /\
  forall va, 0 <= va < 2 ^ 32 -> pte_at m' pd va = pte_at m pd va.
Proof. intros Sp Hp Hno m'. apply (page_write _ _ _ _ Sp Hp Hno). intros a Ha. by apply memset_out. Qed.

Lemma fresh_zero k i l pd :
  vm_ok k (i :: l) pd ->
  exists k', (let! mem := kalloc in modify (upd_mem (memset mem 0 PGSIZE)) ;;; ret mem) k = Done (page_addr i) k' /\
    vm_step pd k (i :: l) k' l /\ Z.of_nat i < MAXPAGES /\ ~ owned (k_mem k') pd l (page_addr i) /\
    (forall x, in_page (page_addr i) x -> k_mem k' x = 0) /\
    forall va, 0 <= va < 2 ^ 32 -> pte_at (k_mem k') pd va = pte_at (k_mem k) pd va.
Proof.
  intros Ok. destruct (kalloc_step _ _ _ _ Ok) as (k1 & Hk & Hs & Em & Hi & Hno). rewrite Em in Hno.
  destruct (memset_fresh 0 (k_mem k) pd (page_addr i)) as (Htab & Sp & Hpte);
    [apply Ok|by apply page_page_addr|intros H; apply Hno; by left|].
  exists (set_k_mem (memset (page_addr i) 0 PGSIZE (k_mem k)) k1). split; [|split; [|split; [done|split; [|split; [|done]]]]].
  - rewrite (bind_Done _ _ _ _ _ Hk). unfold ret, modify, bind, upd_mem. by rewrite Em.
  - apply fresh_step; try done.
    + intros p Hp. left. by eapply table_page_tab.
    + intros a Ha _. by apply memset_out.
  - intros [H|H]; apply Hno; [left; by eapply table_page_tab|by right].
  - intros x Hx. simpl. by rewrite memset_in.
Qed.

(** One turn of the loop of [allocuvm]. *)
Lemma alloc_turn k l pd a :
  vm_ok k l pd -> 0 <= a < 2 ^ 32 -> a mod PGSIZE = 0 -> translate (k_mem k) pd a = None -> (2 <= length l)%nat ->
  exists i k' l',
    (forall n oldsz newsz, a < newsz ->
      alloc_loop (S n) pd a oldsz newsz k = alloc_loop n pd (u32 (a + PGSIZE)) oldsz newsz k') /\
    vm_step pd k l k' l' /\ (length l <= length l' + 2)%nat /\ i ∈ l /\ i ∉ l' /\ user_page k' l' pd a i /\
    forall va, 0 <= va < 2 ^ 32 -> va / PGSIZE <> a / PGSIZE -> same_pte pd (k_mem k) (k_mem k') va.
Proof.
  intros Ok Ha Hal Hun Hl. destruct l as [|i l]; [simpl in Hl; lia|].
  destruct (fresh_zero k i l pd Ok) as (k1 & Hk & Hs & Hi & Hno & Hz & Hpte).
  assert (i ∉ l) as Hni by (pose proof (ki_nodup _ _ (vo_kmem _ _ _ Ok)) as N; by apply NoDup_cons in N as [? _]).
  destruct (map_one k1 l pd a (V2P (page_addr i)) (Z.lor PTE_W PTE_U)) as (k2 & l2 & Hrun & Hs2 & Hlen & _ & Ept & Hoth);
    rewrite ?page_addr_V2P by done; unfold PGSIZE in *; change MAXPAGES with 57344 in Hi.
  - apply Hs.
  - done.
  - by rewrite Z.mod_mul.
  - lia.
  - done.
  - unfold translate. rewrite Hpte by done. done.
  - intros _ ->. simpl in Hl. lia.
  - exists i, k2, l2. destruct (vs_free _ _ _ _ _ Hs2) as [u Eu].
    split; [|split; [by eapply vm_step_trans|split; [simpl; lia|split; [by left|split; [set_solver|split]]]]].
    + intros n oldsz newsz Hlt. simpl alloc_loop. destruct (Z.ltb_spec a newsz); [|lia]. cbn [negb].
      assert (exists k0, kalloc k = Done (page_addr i) k0 /\ upd_mem (memset (page_addr i) 0 4096) k0 = k1) as (k0 & Ek0 & Ek).
      { revert Hk. unfold bind. destruct (kalloc k) as [mem k0| | | |]; try done. intros [= -> Ek]. by exists k0. }
      rewrite (bind_Done _ _ _ _ _ Ek0). destruct (Z.eqb_spec (page_addr i) 0) as [Ep|_]; [unfold page_addr, KERNBASE, PGSIZE in Ep; lia|].
      rewrite bind_modify. unfold PGSIZE. rewrite Ek. unfold bind at 1, mappages, PGSIZE.
      assert (a / 4096 * 4096 = a) as Ea by (pose proof (Z.div_mod a 4096 ltac:(lia)); lia).
      assert ((a + 4096 - 1) / 4096 = a / 4096) as Eb by (symmetry; apply (Z.div_unique _ _ _ 4095); lia).
      rewrite !PGROUNDDOWN_eq, (u32_small (a + 4096 - 1)), Eb, Ea, Hrun, Z.eqb_refl by lia. done.
    + split; [by rewrite Ept, page_addr_V2P|done| |].
      * intros H. apply Hno. by apply (vs_owned _ _ _ _ _ Hs2).
      * intros x Hx. rewrite (step_unowned pd k1 l k2 l2 i); [by apply Hz|apply Hs|done..].
    + intros va Hva Hne. eapply same_pte_trans; [left; by apply Hpte|]. by apply Hoth.
Qed.

Lemma alloc_loop_run c : forall n k l pd a oldsz newsz,
  vm_ok k l pd -> 0 <= a -> a mod PGSIZE = 0 -> newsz < KERNBASE -> (c <= n)%nat ->
  a + (Z.of_nat c - 1) * PGSIZE < newsz \/ c = O -> newsz <= a + Z.of_nat c * PGSIZE ->
  (forall j, (j < c)%nat -> translate (k_mem k) pd (a + Z.of_nat j * PGSIZE) = None) -> (2 * c <= length l)%nat ->
  exists k' l' frames, alloc_loop n pd a oldsz newsz k = Done newsz k' /\ vm_step pd k l k' l' /\
    length frames = c /\ NoDup frames /\ (forall i, i ∈ frames -> i ∈ l) /\
    (forall j i, frames !! j = Some i -> user_page k' l' pd (a + Z.of_nat j * PGSIZE) i) /\
    forall va, 0 <= va < 2 ^ 32 -> va / PGSIZE < a / PGSIZE \/ a / PGSIZE + Z.of_nat c <= va / PGSIZE ->
      same_pte pd (k_mem k) (k_mem k') va.
Proof.
  induction c as [|c IH]; intros n k l pd a oldsz newsz Ok Ha Hal Hnew Hn Hlo Hhi Hun Hl.
  - exists k, l, []. assert (alloc_loop n pd a oldsz newsz k = Done newsz k) as ->.
    { destruct n; simpl; (destruct (Z.ltb_spec a newsz); [lia|done]). }
    split_and!; try done; [by apply vm_step_refl|apply NoDup_nil_2|set_solver|]. intros va _ _. by left.
  - destruct n as [|n]; [lia|]. destruct Hlo as [Hlo|]; [|done]. unfold KERNBASE, PGSIZE in *.
    destruct (alloc_turn k l pd a) as (i & k1 & l1 & Hrun & Hs & Hlen & Hin & Hni & Hup & Hoth); unfold PGSIZE; try lia; [done| |].
    { specialize (Hun O ltac:(lia)). by rewrite Z.add_0_r in Hun. }
    unfold PGSIZE in *. rewrite Hrun, u32_small by lia.
    assert (forall j, a + 4096 + Z.of_nat j * 4096 = a + Z.of_nat (S j) * 4096) as Es by lia.
    assert (forall j, (a + Z.of_nat j * 4096) / 4096 = a / 4096 + Z.of_nat j) as Ed by (intros j; by rewrite Z.div_add).
    assert ((a + 4096) / 4096 = a / 4096 + 1) as Ed1 by exact (Ed 1%nat).
    destruct (IH n k1 l1 pd (a + 4096) oldsz newsz) as (k2 & l2 & fr & Hrun2 & Hs2 & Hfl & Hnd & Hfi & Hfu & Hoth2);
      try lia; [apply Hs|by apply mod_page| |].
    { intros j Hj. rewrite Es, (same_pte_translate _ (k_mem k)); [apply Hun; lia|]. apply Hoth; [lia|]. rewrite Ed. lia. }
    destruct (vs_free _ _ _ _ _ Hs) as [u Eu].
    exists k2, l2, (i :: fr). split; [done|]. split; [by eapply vm_step_trans|]. split; [simpl; lia|].
    split; [apply NoDup_cons; split; [intros H; by apply Hni, Hfi|done]|].
    split; [intros x [->|Hx]%elem_of_cons; [done|]; rewrite Eu; apply elem_of_app; right; by apply Hfi|]. split.
    + intros [|j] x Hx; [|rewrite <- Es; by apply Hfu]. injection Hx as <-. rewrite Z.add_0_r.
      eapply user_page_step; [apply Hs|done| |done]. apply Hoth2; [lia|]. rewrite Ed1. lia.
    + intros va Hva Hne. eapply same_pte_trans; [apply Hoth; [done|lia]|]. apply Hoth2; [done|]. rewrite Ed1. lia.
Qed.

(** C26: growing a process.  With free pages enough for the new pages and the
    tables they may need, [allocuvm] from [oldsz] to [newsz] returns [newsz];
    every page from [oldsz] rounded up to [newsz] gets its own frame, taken
    from the free list and no longer on it, user writable and filled with
    zeros; every address outside these pages translates as before, and
    memory changes only inside tables and pages that were free, so the
    contents of every page in use are kept. *)
Theorem allocuvm_correct k l pd oldsz newsz :
  let first := PGROUNDUP oldsz in let c := Z.to_nat ((newsz - first + PGSIZE - 1) / PGSIZE) in
  vm_ok k l pd -> 0 <= oldsz <= newsz -> newsz < KERNBASE ->
  (forall j, (j < c)%nat -> translate (k_mem k) pd (first + Z.of_nat j * PGSIZE) = None) -> (2 * c <= length l)%nat ->
  exists k' l' frames, allocuvm pd oldsz newsz k = Done newsz k' /\ vm_step pd k l k' l' /\
    length frames = c /\ NoDup frames /\ (forall i, i ∈ frames -> i ∈ l /\ i ∉ l') /\
    (forall j i, frames !! j = Some i -> user_page k' l' pd (first + Z.of_nat j * PGSIZE) i) /\
    forall va, 0 <= va < 2 ^ 32 -> va < first \/ first + Z.of_nat c * PGSIZE <= va ->
      translate (k_mem k') pd va = translate (k_mem k) pd va.
Proof.
  intros first c Ok Hold Hnew Hun Hl. unfold allocuvm.
  destruct (Z.leb_spec KERNBASE newsz); [lia|]. destruct (Z.ltb_spec newsz oldsz); [lia|].
  unfold KERNBASE in *. destruct (PGROUNDUP_spec oldsz) as [Hr Hm]; [lia|unfold PGSIZE; lia|]. fold first in Hr, Hm |- *.
  unfold PGSIZE in Hr, Hm. pose proof (Z.div_mod (newsz - first + PGSIZE - 1) PGSIZE ltac:(done)) as Hd.
  pose proof (Z.mod_pos_bound (newsz - first + PGSIZE - 1) PGSIZE ltac:(done)) as Hd'. unfold PGSIZE in Hd, Hd'.
  assert (Z.of_nat c = (newsz - first + 4096 - 1) / 4096) as Ec by (unfold c, PGSIZE; lia).
  destruct (alloc_loop_run c (pages newsz) k l pd first oldsz newsz) as (k' & l' & fr & Hrun & Hs & Hfl & Hnd & Hfi & Hfu & Hoth);
    try done; unfold PGSIZE, KERNBASE in *; try lia.
  - unfold pages, PGSIZE. pose proof (Z.div_mod newsz 4096 ltac:(lia)). pose proof (Z.mod_pos_bound newsz 4096 ltac:(lia)). lia.
  - exists k', l', fr. split; [done|]. split; [done|]. split; [done|]. split; [done|]. split; [|split; [done|]].
    + intros i Hi. split; [by apply Hfi|]. intros Hi'. apply list_elem_of_lookup in Hi as [j Hj].
      apply (up_frame _ _ _ _ _ (Hfu j i Hj)). right. by exists i.
    + intros va Hva Hout. apply same_pte_translate, Hoth; [done|].
      pose proof (Z.div_mod va 4096 ltac:(lia)). pose proof (Z.mod_pos_bound va 4096 ltac:(lia)).
      pose proof (Z.div_mod first 4096 ltac:(lia)). lia.
Qed.

End Map.

(** ** Witnesses *)

(** Two free pages, and an empty page directory. *)
Definition demo_vm : kernel := upd_kmem (@pushed_kmem (demo_image true) 1 1025 (Run 0 None)) (demo_kmem (Some 1024%nat) 0).
Definition demo_pd : Z := page_addr 2000.

Lemma demo_vm_mem : k_mem demo_vm = fun _ => 0.
Proof. reflexivity. Qed.
Lemma demo_untranslated va : translate (k_mem demo_vm) demo_pd va = None.
Proof. rewrite demo_vm_mem. reflexivity. Qed.
Lemma demo_vm_ok : @vm_ok (demo_image true) demo_vm [1025%nat; 1024%nat] demo_pd.
Proof.
  split.
  - intros H. by destruct H.
  - apply (@kmem_inv_push (demo_image true) (demo_kmem (Some 1024%nat) 0) 1025 (Run 0 None) 1 [1024%nat]).
    + apply demo_kmem_inv; [lia|auto].
    + unfold demo_kmem. cbn [k_kmem upd_kmem set_k_kmem set_freelist set_runs runs].
      rewrite list_lookup_insert_ne by done. cbn [zero_kernel k_kmem runs]. apply lookup_replicate_2.
      change (PHYSTOP / PGSIZE) with 57344. lia.
    + set_solver.
    + vm_compute. congruence.
    + change MAXPAGES with 57344. lia.
    + done.
  - rewrite demo_vm_mem. split.
    + apply page_page_addr. change MAXPAGES with 57344. lia.
    + done.
    + done.
  - rewrite demo_vm_mem. intros i Hi [H|(j & _ & H)]; [|done]. apply page_addr_inj in H. subst. set_solver.
Qed.

Lemma mappages_correct_witness :
  exists k', @mappages (demo_image true) demo_pd 0x400123 100 0x7000 PTE_U demo_vm = Done 0 k' /\
    pte_at (k_mem k') demo_pd 0x400000 = Some (Z.lor 0x7000 (Z.lor PTE_U PTE_P)).
Proof.
  destruct (@mappages_correct (demo_image true) demo_vm [1025%nat; 1024%nat] demo_pd 0x400123 100 0x7000 PTE_U)
    as (k' & l' & Hrun & _ & Hp & _).
  1: apply demo_vm_ok.
  1-7: (vm_compute; intuition congruence).
  1: intros; apply demo_untranslated.
  1: reflexivity.
  exists k'. split; [exact Hrun|]. apply (Hp 0x400). vm_compute. intuition congruence.
Defined.

Lemma allocuvm_correct_witness :
  exists k' l' i, @allocuvm (demo_image true) demo_pd 0 100 demo_vm = Done 100 k' /\ user_page k' l' demo_pd 0 i.
Proof.
  destruct (@allocuvm_correct (demo_image true) demo_vm [1025%nat; 1024%nat] demo_pd 0 100)
    as (k' & l' & fr & Hrun & _ & Hl & _ & _ & Hu & _).
  - apply demo_vm_ok.
  - lia.
  - reflexivity.
  - intros; apply demo_untranslated.
  - vm_compute. lia.
  - destruct fr as [|i fr]; [discriminate Hl|]. exists k', l', i. split; [exact Hrun|]. apply (Hu 0%nat i). reflexivity.
Defined.
