(* ===== verification/VmDealloc.v ===== *)
(** VmDealloc: [deallocuvm] gives the pages of a range back. *)

From S2P Require Import Prelude Kernel StringLib Bytes Kalloc Vm VmProof.

(** Only memory and the allocator differ. *)
Definition mem_only (k k' : kernel) : Prop := exists m km, k' = set_k_mem m (set_k_kmem km k).
Lemma mem_only_refl k : mem_only k k.
Proof. exists (k_mem k), (k_kmem k). by destruct k. Qed.
Lemma mem_only_trans k1 k2 k3 : mem_only k1 k2 -> mem_only k2 k3 -> mem_only k1 k3.
Proof. intros (m & km & ->) (m' & km' & ->). by exists m', km'. Qed.

Section Dealloc.
Context `{Im : Image}.

(** [va] is mapped to the frame [i], which is used for nothing else. *)
Record mapped_frame (k : kernel) (l : list nat) (pd va : Z) (i : nat) : Prop := {
  mf_pte : exists e, pte_at (k_mem k) pd va = Some e /\ present e = true /\ PTE_ADDR e = V2P (page_addr i);
  mf_range : 0 < Z.of_nat i < MAXPAGES /\ end_ <= page_addr i;
  mf_ref : exists x, runs (k_kmem k) !! i = Some x /\ (original = false -> ref_count x = 1);
  mf_own : ~ owned (k_mem k) pd l (page_addr i)
}.

(** Freeing a frame: it goes to the head of the free list. *)
Lemma kfree_frame k l pd i x :
  vm_ok k l pd -> Z.of_nat i < MAXPAGES -> end_ <= page_addr i -> runs (k_kmem k) !! i = Some x -> (original = false -> ref_count x = 1) ->
  ~ owned (k_mem k) pd l (page_addr i) ->
  exists k', kfree (page_addr i) k = Done tt k' /\ vm_ok k' (i :: l) pd /\
    (forall a, ~ in_page (page_addr i) a -> k_mem k' a = k_mem k a) /\
    (forall va, 0 <= va < 2 ^ 32 -> pte_at (k_mem k') pd va = pte_at (k_mem k) pd va) /\
    (forall j, 0 <= j < 1024 -> tab (k_mem k') pd j = tab (k_mem k) pd j) /\
    (forall j, j <> i -> runs (k_kmem k') !! j = runs (k_kmem k) !! j) /\ mem_only k k'.
Proof.
  intros [U Inv Sp F] Hi He Hx Href Hno. assert (i ∉ l) as Hni by (intros H; apply Hno; right; by exists i).
  assert (~ table_page (k_mem k) pd (page_addr i)) as Hnt by (intros H; apply Hno; by left).
  destruct (memset_fresh 1 (k_mem k) pd (page_addr i) Sp (page_page_addr i Hi) Hnt) as (Htab & Sp' & Hpte).
  assert (last_ref 0 x = true) as Hlast.
  { unfold last_ref, unref. destruct original; [done|]. simpl. by rewrite Href. }
  assert (original = false -> 0 = 0 -> ref_count x <> 0) as Hr by (intros Ho _; rewrite Href; done).
  exists (upd_kmem (pushed_kmem 0 i x) (junked (page_addr i) k)). split; [by apply _kfree_run|]. split; [split|].
  - apply unlocked_upd; [|done]. unfold pushed_kmem. by rewrite Hlast.
  - pose proof (kmem_inv_push (junked (page_addr i) k) i x 0 l) as Hp. rewrite Hlast in Hp. apply Hp; try done. by apply kmem_inv_junk.
  - done.
  - intros j Hj Hp. apply (table_page_tab _ _ _ _ Htab) in Hp. apply elem_of_cons in Hj as [->|Hj]; [done|]. by apply (F j).
  - split; [|split; [done|split; [done|]]].
    + intros a Ha. simpl. by apply memset_out.
    + split; [|by eexists _, _]. intros j Hne. simpl. unfold pushed_kmem. rewrite Hlast. simpl. by apply list_lookup_insert_ne.
Qed.

(** One turn of the loop of [deallocuvm]. *)
Lemma dealloc_turn k l pd a i :
  vm_ok k l pd -> 0 <= a < 2 ^ 32 -> mapped_frame k l pd a i ->
  exists k', (forall n oldsz, a < oldsz -> dealloc_loop (S n) pd a oldsz k = dealloc_loop n pd (u32 (a + PGSIZE)) oldsz k') /\
    vm_ok k' (i :: l) pd /\ pte_at (k_mem k') pd a = Some 0 /\
    (forall va, 0 <= va < 2 ^ 32 -> va / PGSIZE <> a / PGSIZE -> pte_at (k_mem k') pd va = pte_at (k_mem k) pd va) /\
    (forall j, 0 <= j < 1024 -> tab (k_mem k') pd j = tab (k_mem k) pd j) /\
    (forall x, (forall p, table_page (k_mem k) pd p -> ~ in_page p x) -> ~ in_page (page_addr i) x -> k_mem k' x = k_mem k x) /\
    (forall j, j <> i -> runs (k_kmem k') !! j = runs (k_kmem k) !! j) /\ mem_only k k'.
Proof.
  intros Ok Ha [(e & Epte & Hpr & Ead) [[Hi0 Hi] He] (x & Hx & Href) Hno].
  destruct (kfree_frame k l pd i x Ok Hi He Hx Href Hno) as (k1 & Hk & Ok1 & M1 & P1 & T1 & R1 & F1).
  destruct (PDX_eq a Ha) as [_ Hd], (PTX_eq a) as [_ Hxx]. pose proof (sp_pd _ _ (vo_space _ _ _ Ok)) as Hpd.
  rewrite pte_at_tab in Epte. destruct (tab (k_mem k) pd (PDX a)) as [t|] eqn:Et; [|done]. injection Epte as Ee.
  destruct (sp_tab _ _ (vo_space _ _ _ Ok) _ _ Hd Et) as [[_ Hpt] _].
  assert (tab (k_mem k1) pd (PDX a) = Some t) as Et1 by (by rewrite T1).
  destruct (pte_store _ _ _ _ (PTX a) 0 (vo_space _ _ _ Ok1) Hd Et1 Hxx) as (Htab & _ & Hpte).
  pose proof (pte_store_step k1 (i :: l) pd (PDX a) t (PTX a) 0 Ok1 Hd Et1 Hxx) as Hs.
  exists (upd_mem (store (t + 4 * PTX a) (word_bytes 0)) k1). split; [|split; [apply Hs|split; [|split; [|split; [|split]]]]].
  - intros n oldsz Hlt. simpl dealloc_loop. destruct (Z.ltb_spec a oldsz); [|lia]. cbn [negb].
    rewrite (bind_Done _ _ _ _ _ (walk_found _ _ _ _ _ Hpd Et)). destruct (Z.eqb_spec (t + 4 * PTX a) 0); [lia|].
    rewrite (bind_Done _ _ _ _ _ (read32_run _ _)), Ee, Hpr. unfold when.
    rewrite page_addr_V2P in Ead by done. rewrite (bind_Done _ _ _ tt (upd_mem (store (t + 4 * PTX a) (word_bytes 0)) k1)); [done|].
    destruct (Z.eqb_spec (PTE_ADDR e) 0) as [E0|_]; [unfold PGSIZE in Ead; lia|]. rewrite Ead.
    replace (P2V (Z.of_nat i * PGSIZE)) with (page_addr i); [by rewrite (bind_Done _ _ _ _ _ Hk)|].
    unfold P2V, page_addr, KERNBASE, PGSIZE. change MAXPAGES with 57344 in Hi. rewrite u32_small; lia.
  - simpl. rewrite Hpte by done. by rewrite bool_decide_eq_true_2.
  - intros va Hva Hne. simpl. rewrite Hpte by done. rewrite bool_decide_eq_false_2; [by apply P1|].
    intros [E1 E2]. apply Hne. by apply same_entry.
  - intros j Hj. simpl. by rewrite Htab, T1.
  - intros y H1 H2. change (k_mem (upd_mem ?f k1)) with (f (k_mem k1)). rewrite pte_store_out; [by apply M1|done|]. apply H1. right. by exists (PDX a).
  - split; [intros j Hne; simpl; by apply R1|]. eapply mem_only_trans; [exact F1|]. by eexists _, _.
Qed.

(** Another page keeps its frame. *)
Lemma mapped_frame_keep k l k' pd va i i' :
  mapped_frame k l pd va i' -> i' <> i -> pte_at (k_mem k') pd va = pte_at (k_mem k) pd va ->
  (forall p, table_page (k_mem k') pd p -> table_page (k_mem k) pd p) -> runs (k_kmem k') !! i' = runs (k_kmem k) !! i' ->
  mapped_frame k' (i :: l) pd va i'.
Proof.
  intros [P R X O] Hne Ep Ht Er. split; [by rewrite Ep|done|by rewrite Er|].
  intros [H|(j & Hj & E)]; apply O; [left; by apply Ht|]. apply page_addr_inj in E as <-. apply elem_of_cons in Hj as [->|Hj]; [done|].
  right. by exists i'.
Qed.

Lemma dealloc_loop_run fr : forall n k l pd a oldsz,
  vm_ok k l pd -> 0 <= a -> a mod PGSIZE = 0 -> oldsz <= KERNBASE -> (length fr <= n)%nat ->
  a + (Z.of_nat (length fr) - 1) * PGSIZE < oldsz \/ fr = [] -> oldsz <= a + Z.of_nat (length fr) * PGSIZE -> NoDup fr ->
  (forall j i, fr !! j = Some i -> mapped_frame k l pd (a + Z.of_nat j * PGSIZE) i) ->
  exists k', dealloc_loop n pd a oldsz k = Done tt k' /\ vm_ok k' (rev fr ++ l) pd /\
    (forall j, (j < length fr)%nat -> pte_at (k_mem k') pd (a + Z.of_nat j * PGSIZE) = Some 0) /\
    (forall va, 0 <= va < 2 ^ 32 -> va / PGSIZE < a / PGSIZE \/ a / PGSIZE + Z.of_nat (length fr) <= va / PGSIZE ->
       pte_at (k_mem k') pd va = pte_at (k_mem k) pd va) /\
    (forall p, table_page (k_mem k') pd p -> table_page (k_mem k) pd p) /\
    (forall x, (forall p, table_page (k_mem k) pd p -> ~ in_page p x) -> (forall i, i ∈ fr -> ~ in_page (page_addr i) x) ->
       k_mem k' x = k_mem k x).
Proof.
  induction fr as [|i fr IH]; intros n k l pd a oldsz Ok Ha Hal Hold Hn Hlo Hhi Hnd Hfr; simpl length in *.
  - exists k. assert (dealloc_loop n pd a oldsz k = Done tt k) as ->.
    { destruct n; simpl; (destruct (Z.ltb_spec a oldsz); [lia|done]). }
    split_and!; try done. intros j Hj. lia.
  - destruct n as [|n]; [lia|]. destruct Hlo as [Hlo|]; [|done]. unfold KERNBASE, PGSIZE in *.
    pose proof (Hfr O i eq_refl) as Hf0. rewrite Z.add_0_r in Hf0. apply NoDup_cons in Hnd as [Hni Hnd].
    destruct (dealloc_turn k l pd a i) as (k1 & Hrun & Ok1 & P1 & O1 & T0 & M1 & R1 & _); [done|lia|done|].
    assert (forall p, table_page (k_mem k1) pd p -> table_page (k_mem k) pd p) as T1 by (intros p; by apply table_page_tab). unfold PGSIZE in *.
    rewrite Hrun, u32_small by lia.
    assert (forall j, a + 4096 + Z.of_nat j * 4096 = a + Z.of_nat (S j) * 4096) as Es by lia.
    assert (forall j, (a + Z.of_nat j * 4096) / 4096 = a / 4096 + Z.of_nat j) as Ed by (intros j; by rewrite Z.div_add).
    assert ((a + 4096) / 4096 = a / 4096 + 1) as Ed1 by exact (Ed 1%nat).
    destruct (IH n k1 (i :: l) pd (a + 4096) oldsz) as (k2 & Hrun2 & Ok2 & P2 & O2 & T2 & M2); try done; try lia; [by apply mod_page| |].
    { intros j i' Hj. rewrite Es. pose proof (Hfr (S j) i' Hj) as Hf. pose proof (list_elem_of_lookup_2 _ _ _ Hj).
      pose proof (lookup_lt_Some _ _ _ Hj). assert (i' <> i) by (by intros ->).
      apply (mapped_frame_keep k l); try done; [|by apply R1]. apply O1; [lia|]. rewrite Ed. lia. }
    exists k2. split; [done|]. split; [simpl; by rewrite <- app_assoc|]. split; [|split; [|split]].
    + intros [|j] Hj; [|rewrite <- Es; apply P2; lia]. rewrite Z.add_0_r, O2; [done|lia|]. left. lia.
    + intros va Hva Hne. rewrite O2; [apply O1; [done|lia]|done|lia].
    + auto.
    + intros x Hx1 Hx2. rewrite M2.
      * apply M1; [done|]. apply Hx2. by left.
      * auto.
      * intros i' Hi'. apply Hx2. by right.
Qed.

End Dealloc.

(** A page [allocuvm] mapped can be unmapped. *)
Lemma user_page_mapped `{Im : Image} k l pd va i :
  original = true -> vm_ok k l pd -> user_page k l pd va i -> end_ <= page_addr i -> i <> O -> mapped_frame k l pd va i.
Proof.
  intros Ho Ok [Hp Hi Hf _] He Hi0. split; [|split; [lia|done]| |done].
  - eexists. split; [done|]. rewrite page_addr_V2P by done. change MAXPAGES with 57344 in Hi.
    destruct (entry_facts (Z.of_nat i * PGSIZE) (Z.lor PTE_W PTE_U)) as (_ & H1 & H2); unfold PGSIZE; try done; try lia.
    by rewrite Z.mod_mul.
  - destruct (lookup_lt_is_Some_2 (runs (k_kmem k)) i) as [x Hx].
    + pose proof (ki_len _ _ (vo_kmem _ _ _ Ok)). lia.
    + exists x. split; [done|]. congruence.
Qed.

(** ** Witnesses *)

(** An empty process grown to 100 bytes. *)
Definition demo_grown : kernel :=
  match @allocuvm (demo_image true) demo_pd 0 100 demo_vm with
  | Done _ k => k
  | _ => demo_vm
  end.

Lemma demo_grown_ok : exists l i, @vm_ok (demo_image true) demo_grown l demo_pd /\ @mapped_frame (demo_image true) demo_grown l demo_pd 0 i.
Proof.
  destruct (@alloc_loop_run (demo_image true) 1 (pages 100) demo_vm [1025%nat; 1024%nat] demo_pd 0 0 100)
    as (k' & l' & fr & Hrun & Hs & Hl & _ & Hin & Hu & _).
  - apply demo_vm_ok.
  - lia.
  - reflexivity.
  - reflexivity.
  - vm_compute. lia.
  - left. reflexivity.
  - vm_compute. discriminate.
  - intros. apply demo_untranslated.
  - simpl. lia.
  - destruct fr as [|i fr]; [discriminate Hl|]. assert (demo_grown = k') as ->.
    { unfold demo_grown. change (@allocuvm (demo_image true) demo_pd 0 100 demo_vm) with (@alloc_loop (demo_image true) (pages 100) demo_pd 0 0 100 demo_vm).
      rewrite Hrun. reflexivity. }
    exists l', i. pose proof (vs_ok _ _ _ _ _ Hs) as Ok. split; [exact Ok|].
    assert (i ∈ [1025%nat; 1024%nat]) as Hi by (apply Hin; left).
    apply user_page_mapped; [reflexivity|exact Ok|exact (Hu O i eq_refl)| |];
      (apply elem_of_cons in Hi as [->|Hi%list_elem_of_singleton]; [|subst i]); vm_compute; discriminate.
Qed.

