(* ===== verification/VmFree.v ===== *)
(** VmFree: [freevm] gives back everything an address space holds: the frames
    of the user pages, the page tables and the page directory. *)

From S2P Require Import Prelude Kernel StringLib Bytes Words Kalloc Vm VmProof VmDealloc.

(** The number of user pages, and the pages of the user half. *)
Definition NUSER : Z := KERNBASE / PGSIZE.

Section FreeVm.
Context `{Im : Image}.

(** An allocated page with one reference. *)
Record live (k : kernel) (l : list nat) (i : nat) : Prop := {
  lv_range : 0 < Z.of_nat i < MAXPAGES /\ end_ <= page_addr i;
  lv_ref : exists x, runs (k_kmem k) !! i = Some x /\ (original = false -> ref_count x = 1);
  lv_free : i ∉ l
}.
Lemma live_keep k l k' l' i :
  live k l i -> runs (k_kmem k') !! i = runs (k_kmem k) !! i -> i ∉ l' -> live k' l' i.
Proof. intros [R X F] E H. split; [done|by rewrite E|done]. Qed.
Lemma mapped_live k l pd va i : mapped_frame k l pd va i -> live k l i.
Proof. intros [_ R X O]. split; [done|done|]. intros H. apply O. right. by exists i. Qed.

(** The address space of the directory [pd]: [pf j] is the frame of user page
    [j]; the tables and the directory are pages of the allocator too. *)
Record user_space (k : kernel) (l : list nat) (pd : Z) (pf : Z -> option nat) : Prop := {
  us_ok : vm_ok k l pd;
  us_page : forall j i, 0 <= j < NUSER -> pf j = Some i -> mapped_frame k l pd (j * PGSIZE) i;
  us_hole : forall j e, 0 <= j < NUSER -> pf j = None -> pte_at (k_mem k) pd (j * PGSIZE) = Some e -> present e = false;
  us_inj : forall j j' i, 0 <= j < NUSER -> 0 <= j' < NUSER -> pf j = Some i -> pf j' = Some i -> j = j';
  us_tables : forall p, table_page (k_mem k) pd p -> exists i, p = page_addr i /\ live k l i
}.

(** What a sequence of calls of [kfree] does: exactly the pages of [P] go to
    the free list, and nothing but these pages and the allocator changes. *)
Record frees (P : nat -> Prop) (k : kernel) (l : list nat) (k' : kernel) (l' : list nat) : Prop := {
  fr_unlocked : kmem_unlocked k';
  fr_kmem : kmem_inv k' l';
  fr_list : forall i, i ∈ l' <-> i ∈ l \/ P i;
  fr_runs : forall i, ~ P i -> runs (k_kmem k') !! i = runs (k_kmem k) !! i;
  fr_rest : mem_only k k'
}.
Lemma frees_trans P Q k1 l1 k2 l2 k3 l3 :
  frees P k1 l1 k2 l2 -> frees Q k2 l2 k3 l3 -> frees (fun i => P i \/ Q i) k1 l1 k3 l3.
Proof.
  intros [_ _ L1 R1 M1] [U I L2 R2 M2]. split; [done|done| | |by eapply mem_only_trans].
  - intros i. rewrite L2, L1. tauto.
  - intros i H. rewrite R2 by tauto. apply R1. tauto.
Qed.
Lemma frees_ext P Q k l k' l' : (forall i, P i <-> Q i) -> frees P k l k' l' -> frees Q k l k' l'.
Proof. intros E [U I L R M]. split; try done; intros i; [rewrite L; by rewrite E|rewrite <- E; apply R]. Qed.
Lemma frees_none P k l : (forall i, ~ P i) -> kmem_unlocked k -> kmem_inv k l -> frees P k l k l.
Proof. intros E U I. split; try done; [|apply mem_only_refl]. intros i. specialize (E i). tauto. Qed.

Lemma kfree_live k l i :
  kmem_unlocked k -> kmem_inv k l -> live k l i ->
  exists k', kfree (page_addr i) k = Done tt k' /\ frees (eq i) k l k' (i :: l) /\
    forall a, ~ in_page (page_addr i) a -> k_mem k' a = k_mem k a.
Proof.
  intros U Inv [[[_ Hi] He] (x & Hx & Href) Hni].
  assert (last_ref 0 x = true) as Hlast.
  { unfold last_ref, unref. destruct original; [done|]. simpl. by rewrite Href. }
  assert (original = false -> 0 = 0 -> ref_count x <> 0) as Hr by (intros Ho _; rewrite Href; done).
  exists (upd_kmem (pushed_kmem 0 i x) (junked (page_addr i) k)). split; [by apply _kfree_run|].
  split; [|intros a Ha; simpl; by apply memset_out]. split.
  - apply unlocked_upd; [|done]. unfold pushed_kmem. by rewrite Hlast.
  - pose proof (kmem_inv_push (junked (page_addr i) k) i x 0 l) as Hp. rewrite Hlast in Hp. apply Hp; try done. by apply kmem_inv_junk.
  - intros j. rewrite elem_of_cons. intuition.
  - intros j Hne. simpl. unfold pushed_kmem. rewrite Hlast. simpl. by apply list_lookup_insert_ne.
  - by eexists _, _.
Qed.

(** ** The user pages *)

Lemma user_index j : 0 <= j < NUSER ->
  0 <= j * PGSIZE < 2 ^ 32 /\ j * PGSIZE / PGSIZE = j /\ PDX (j * PGSIZE) = j / 1024 /\ 0 <= j / 1024 < 1024.
Proof.
  change NUSER with 524288. intros H. assert (0 <= j * PGSIZE < 2 ^ 32) as Ha by (unfold PGSIZE; lia).
  split; [done|]. rewrite Z.div_mul by done. split; [done|].
  destruct (PDX_eq _ Ha) as [E Hd]. unfold PGSIZE in *. rewrite E, Z.div_mul in * by done. auto.
Qed.

(** A page that is not mapped is skipped. *)
Lemma dealloc_skip n k l pd a oldsz t e :
  vm_ok k l pd -> 0 <= a < 2 ^ 32 -> a < oldsz -> tab (k_mem k) pd (PDX a) = Some t -> pte_at (k_mem k) pd a = Some e -> present e = false ->
  dealloc_loop (S n) pd a oldsz k = dealloc_loop n pd (u32 (a + PGSIZE)) oldsz k.
Proof.
  intros Ok Ha Hlt Et Ep Hpr. pose proof (sp_pd _ _ (vo_space _ _ _ Ok)) as Hpd. destruct (PDX_eq a Ha) as [_ Hd], (PTX_eq a) as [_ Hx].
  destruct (sp_tab _ _ (vo_space _ _ _ Ok) _ _ Hd Et) as [[_ Hpt] _]. rewrite pte_at_tab, Et in Ep. injection Ep as Ee.
  simpl dealloc_loop. destruct (Z.ltb_spec a oldsz); [|lia]. cbn [negb].
  rewrite (bind_Done _ _ _ _ _ (walk_found _ _ _ _ _ Hpd Et)). destruct (Z.eqb_spec (t + 4 * PTX a) 0); [lia|].
  rewrite (bind_Done _ _ _ _ _ (read32_run _ _)), Ee, Hpr. done.
Qed.

(** A missing table is skipped, with its 1024 pages. *)
Lemma dealloc_skip_table n k l pd a oldsz :
  vm_ok k l pd -> 0 <= a -> a < oldsz <= KERNBASE -> tab (k_mem k) pd (PDX a) = None ->
  dealloc_loop (S n) pd a oldsz k = dealloc_loop n pd (a + 1024 * PGSIZE) oldsz k.
Proof.
  intros Ok Ha Hlt Et. pose proof (sp_pd _ _ (vo_space _ _ _ Ok)) as Hpd. unfold KERNBASE in Hlt.
  simpl dealloc_loop. destruct (Z.ltb_spec a oldsz); [|lia]. cbn [negb].
  rewrite (bind_Done _ _ _ _ _ (walk_none _ _ _ Hpd Et)). f_equal. unfold NPTENTRIES, PGSIZE.
  rewrite (u32_small (a + _)) by lia. rewrite u32_small; lia.
Qed.

Record rest_space (k : kernel) (l : list nat) (pd : Z) (pf : Z -> option nat) (j : Z) : Prop := {
  rs_ok : vm_ok k l pd;
  rs_page : forall j' i, j <= j' < NUSER -> pf j' = Some i -> mapped_frame k l pd (j' * PGSIZE) i;
  rs_hole : forall j' e, j <= j' < NUSER -> pf j' = None -> pte_at (k_mem k) pd (j' * PGSIZE) = Some e -> present e = false
}.
Lemma rest_space_le k l pd pf j j' : rest_space k l pd pf j -> j <= j' -> rest_space k l pd pf j'.
Proof. intros [O P H] Hle. split; [done|intros; apply P; [lia|done]|intros; eapply H; [|done..]; lia]. Qed.
Lemma rest_space_hole k l pd pf j d : 
  rest_space k l pd pf j -> 0 <= j < NUSER -> j / 1024 = d -> tab (k_mem k) pd d = None -> pf j = None.
Proof.
  intros R Hj <- Et. destruct (pf j) as [i|] eqn:E; [|done]. destruct (rs_page _ _ _ _ _ R j i) as [(e & Ee & _) _ _ _]; [lia|done|].
  destruct (user_index j Hj) as (_ & _ & Ed & _). rewrite pte_at_tab, Ed, Et in Ee. done.
Qed.

(** One page given back; the others are as before. *)
Lemma free_user_page k l pd pf j i :
  (forall a b i, 0 <= a < NUSER -> 0 <= b < NUSER -> pf a = Some i -> pf b = Some i -> a = b) ->
  rest_space k l pd pf j -> 0 <= j < NUSER -> pf j = Some i ->
  exists k', (forall n, dealloc_loop (S n) pd (j * PGSIZE) KERNBASE k = dealloc_loop n pd ((j + 1) * PGSIZE) KERNBASE k') /\
    rest_space k' (i :: l) pd pf (j + 1) /\ frees (eq i) k l k' (i :: l) /\
    (forall d, 0 <= d < 1024 -> tab (k_mem k') pd d = tab (k_mem k) pd d) /\
    (forall x, (forall p, table_page (k_mem k) pd p -> ~ in_page p x) -> ~ in_page (page_addr i) x -> k_mem k' x = k_mem k x).
Proof.
  intros Hinj R Hj E. destruct (user_index j Hj) as (Ha & Hq & Hd & Hd').
  destruct (dealloc_turn k l pd (j * PGSIZE) i (rs_ok _ _ _ _ _ R) Ha (rs_page _ _ _ _ _ R j i ltac:(lia) E))
    as (k' & Hrun & Ok & Hp0 & Hp & Ht & Hm & Hr & Hmo).
  assert (j * PGSIZE < KERNBASE) as Hlt by (change NUSER with 524288 in Hj; unfold KERNBASE, PGSIZE; lia).
  exists k'. split; [|split; [|split; [|split; [exact Ht|exact Hm]]]].
  - intros n. rewrite (Hrun _ _ Hlt). f_equal. unfold KERNBASE, PGSIZE in *. rewrite u32_small; lia.
  - assert (forall j', j + 1 <= j' < NUSER -> pte_at (k_mem k') pd (j' * PGSIZE) = pte_at (k_mem k) pd (j' * PGSIZE)) as Hpe.
    { intros j' Hj'. destruct (user_index j' ltac:(lia)) as (Ha' & Hq' & _). apply Hp; [done|]. rewrite Hq, Hq'. lia. }
    split; [done| |].
    + intros j' i' Hj' E'. apply (mapped_frame_keep k l); [apply (rs_page _ _ _ _ _ R); [lia|done]| |by apply Hpe|by intros p; apply table_page_tab|apply Hr];
        intros ->; assert (j = j') by (eapply Hinj; [| |done..]; lia); lia.
    + intros j' e Hj' E'. rewrite Hpe by done. apply (rs_hole _ _ _ _ _ R); [lia|done].
  - destruct Ok as [U I _ _]. split; try done; [intros a; rewrite elem_of_cons; intuition|]. intros a Hne. apply Hr. congruence.
Qed.

(** The frames of the pages from [j] on. *)
Definition user_frame (pf : Z -> option nat) (j : Z) (i : nat) : Prop := exists j', j <= j' < NUSER /\ pf j' = Some i.

(** The pages from [j] on are given back: what the loop leaves behind. *)
Record user_freed (pd : Z) (P : nat -> Prop) (k : kernel) (l : list nat) (k' : kernel) (l' : list nat) : Prop := {
  uf_ok : vm_ok k' l' pd;
  uf_frees : frees P k l k' l';
  uf_tab : forall d, 0 <= d < 1024 -> tab (k_mem k') pd d = tab (k_mem k) pd d;
  uf_mem : forall x, (forall p, table_page (k_mem k) pd p -> ~ in_page p x) -> (forall i, P i -> ~ in_page (page_addr i) x) ->
    k_mem k' x = k_mem k x
}.
Lemma user_freed_none pd (P : nat -> Prop) k l : vm_ok k l pd -> (forall i, ~ P i) -> user_freed pd P k l k l.
Proof. intros Ok H. split; try done. destruct Ok as [U I _ _]. by apply frees_none. Qed.
Lemma user_freed_trans pd P Q k1 l1 k2 l2 k3 l3 :
  user_freed pd P k1 l1 k2 l2 -> user_freed pd Q k2 l2 k3 l3 -> user_freed pd (fun i => P i \/ Q i) k1 l1 k3 l3.
Proof.
  intros [_ F1 T1 M1] [O F2 T2 M2]. split; [done|by eapply frees_trans|intros d Hd; by rewrite T2, T1|].
  intros x Ht Hp. rewrite M2; [apply M1; auto| |auto]. intros p Hpp. apply Ht. by eapply table_page_tab.
Qed.
Lemma user_freed_ext pd P Q k l k' l' : (forall i, P i <-> Q i) -> user_freed pd P k l k' l' -> user_freed pd Q k l k' l'.
Proof. intros E [O F T M]. split; try done; [by eapply frees_ext|]. intros x H1 H2. apply M; [done|]. intros i Hi. by apply H2, E. Qed.

Lemma user_frame_skip pf j j' : (forall a, j <= a < j' -> a < NUSER -> pf a = None) -> j <= j' -> forall i, user_frame pf j' i <-> user_frame pf j i.
Proof.
  intros H Hle i. split; intros (a & Ha & E); exists a; (split; [|done]); [lia|]. split; [|lia].
  destruct (Z.le_gt_cases j' a); [done|]. rewrite H in E by lia. done.
Qed.
Lemma user_frame_head pf j i : pf j = Some i -> 0 <= j < NUSER -> forall a, i = a \/ user_frame pf (j + 1) a <-> user_frame pf j a.
Proof.
  intros E Hj a. split.
  - intros [<-|(b & Hb & Eb)]; [exists j|exists b]; (split; [lia|done]).
  - intros (b & Hb & Eb). destruct (decide (b = j)) as [->|]; [left; congruence|]. right. exists b. split; [lia|done].
Qed.

Lemma next_aligned (T : Z -> option Z) j : 0 <= j -> is_Some (T (j / 1024)) -> (j + 1) mod 1024 = 0 \/ is_Some (T ((j + 1) / 1024)).
Proof.
  intros Hj HT. destruct (decide ((j + 1) mod 1024 = 0)) as [|Hne]; [by left|right].
  replace ((j + 1) / 1024) with (j / 1024); [done|].
  pose proof (Z.div_mod j 1024 ltac:(done)). pose proof (Z.mod_pos_bound j 1024 ltac:(done)).
  pose proof (Z.div_mod (j + 1) 1024 ltac:(done)). pose proof (Z.mod_pos_bound (j + 1) 1024 ltac:(done)). lia.
Qed.

(** The loop of [deallocuvm] from page [j] to the end of the user half. *)
Lemma dealloc_all pd pf
    (Hinj : forall a b i, 0 <= a < NUSER -> 0 <= b < NUSER -> pf a = Some i -> pf b = Some i -> a = b) :
  forall n k l j,
  rest_space k l pd pf j -> 0 <= j -> j mod 1024 = 0 \/ is_Some (tab (k_mem k) pd (j / 1024)) -> NUSER - j <= Z.of_nat n ->
  exists k' l', dealloc_loop n pd (j * PGSIZE) KERNBASE k = Done tt k' /\ user_freed pd (user_frame pf j) k l k' l'.
Proof.
  induction n as [|n IH]; intros k l j R Hj Hal Hn; pose proof (rs_ok _ _ _ _ _ R) as Ok;
    (destruct (Z.le_gt_cases NUSER j) as [Hge|Hlt];
      [exists k, l; split; [|apply user_freed_none; [done|]; intros i (j' & Hj' & _); lia];
       change NUSER with 524288 in Hge; simpl; (destruct (Z.ltb_spec (j * PGSIZE) KERNBASE) as [Hlt|_]; [unfold KERNBASE, PGSIZE in Hlt; lia|done])|]); [lia|].
  destruct (user_index j ltac:(lia)) as (Ha & Hq & Hd & Hd').
  assert (j * PGSIZE < KERNBASE) as Hlt' by (change NUSER with 524288 in Hlt; unfold KERNBASE, PGSIZE; lia).
  destruct (tab (k_mem k) pd (j / 1024)) as [t|] eqn:Et.
  - destruct (pf j) as [i|] eqn:Ep.
    + destruct (free_user_page k l pd pf j i Hinj R) as (k1 & Hrun & R1 & F1 & T1 & M1); [lia|done|].
      destruct (IH k1 (i :: l) (j + 1)) as (k' & l' & Hrun' & F'); [done|lia| |lia|].
      { apply next_aligned; [done|]. by rewrite T1, Et. }
      exists k', l'. rewrite Hrun. split; [done|]. eapply user_freed_ext; [by apply (user_frame_head pf j i Ep)|].
      eapply user_freed_trans; [|exact F']. split; [apply R1|done|done|]. intros x H1 H2. apply M1; [done|by apply H2].
    + assert (exists e, pte_at (k_mem k) pd (j * PGSIZE) = Some e) as [e Ee] by (rewrite pte_at_tab, Hd, Et; by eexists).
      destruct (IH k l (j + 1)) as (k' & l' & Hrun' & F'); [apply (rest_space_le _ _ _ _ j); [done|lia]|lia|apply next_aligned; [done|by rewrite Et]|lia|].
      exists k', l'. rewrite (dealloc_skip n k l pd _ _ t e Ok Ha Hlt'); [|by rewrite Hd|done|apply (rs_hole _ _ _ _ _ R j e); [lia|done|done]].
      replace (u32 (j * PGSIZE + PGSIZE)) with ((j + 1) * PGSIZE) by (unfold KERNBASE, PGSIZE in *; rewrite u32_small; lia). split; [done|].
      eapply user_freed_ext; [|exact F']. apply user_frame_skip; [|lia]. intros a H1 _. by replace a with j by lia.
  - destruct Hal as [Hal|[? Hal]]; [|congruence].
    destruct (IH k l (j + 1024)) as (k' & l' & Hrun' & F'); [apply (rest_space_le _ _ _ _ j); [done|lia]|lia| |lia|].
    { left. rewrite <- Hal. apply (Z_mod_plus_full j 1 1024). }
    exists k', l'. rewrite (dealloc_skip_table n k l pd (j * PGSIZE) KERNBASE Ok); [|lia|lia|by rewrite Hd].
    replace (j * PGSIZE + 1024 * PGSIZE) with ((j + 1024) * PGSIZE) by (unfold PGSIZE; lia). split; [done|].
    eapply user_freed_ext; [|exact F']. apply user_frame_skip; [|lia]. intros a H1 H2.
    apply (rest_space_hole k l pd pf a (j / 1024)); [apply (rest_space_le _ _ _ _ j); [done|lia]|lia| |done].
    pose proof (Z.div_mod j 1024 ltac:(done)). symmetry. apply (Z.div_unique _ _ _ (a - j)); lia.
Qed.
(** ** The tables *)

(** The tables of the directory entries from [d] on. *)
Definition table_frame (m : Z -> Z) (pd d : Z) (i : nat) : Prop := exists d', d <= d' < 1024 /\ tab m pd d' = Some (page_addr i).

Lemma table_frame_skip m pd d : tab m pd d = None -> forall i, table_frame m pd (d + 1) i <-> table_frame m pd d i.
Proof.
  intros E i. split; intros (d' & Hd & Ht); exists d'; (split; [|done]); [lia|]. destruct (decide (d' = d)) as [->|]; [congruence|lia].
Qed.
Lemma table_frame_head m m' pd d i :
  0 <= d < 1024 -> tab m pd d = Some (page_addr i) -> (forall d', d < d' < 1024 -> tab m' pd d' = tab m pd d') ->
  forall a, i = a \/ table_frame m' pd (d + 1) a <-> table_frame m pd d a.
Proof.
  intros Hd E Hm a. split.
  - intros [<-|(b & Hb & Eb)]; [by exists d; split; [lia|]|]. exists b. rewrite <- Hm by lia. split; [lia|done].
  - intros (b & Hb & Eb). destruct (decide (b = d)) as [->|].
    + left. apply page_addr_inj. congruence.
    + right. exists b. rewrite Hm by lia. split; [lia|done].
Qed.

Record tables_from (k : kernel) (l : list nat) (pd d : Z) : Prop := {
  tf_page : forall d' t, d <= d' < 1024 -> tab (k_mem k) pd d' = Some t -> t <> pd /\ exists i, t = page_addr i /\ live k l i;
  tf_inj : forall a b t, d <= a < 1024 -> d <= b < 1024 -> tab (k_mem k) pd a = Some t -> tab (k_mem k) pd b = Some t -> a = b
}.

Lemma tables_from_next k l k' pd d i :
  tables_from k l pd d -> 0 <= d < 1024 -> page pd -> tab (k_mem k) pd d = Some (page_addr i) -> frees (eq i) k l k' (i :: l) ->
  (forall d', d < d' < 1024 -> tab (k_mem k') pd d' = tab (k_mem k) pd d') -> tables_from k' (i :: l) pd (d + 1).
Proof.
  intros [P I] Hd Hp Et F Ht. split.
  - intros d' u Hd' Eu. rewrite Ht in Eu by lia. destruct (P d' u ltac:(lia) Eu) as (Hu & j & -> & Lj). split; [done|]. exists j. split; [done|].
    assert (j <> i) as Hne by (intros ->; assert (d = d') by (eapply I; [| |done..]; lia); lia).
    apply (live_keep k l); [done|apply (fr_runs _ _ _ _ _ F); congruence|]. rewrite elem_of_cons. intros [|H]; [done|]. by apply (lv_free _ _ _ Lj).
  - intros a b u Ha Hb. rewrite !Ht by lia. apply I; lia.
Qed.

Lemma free_tables_run pd : page pd -> forall n k l d,
  0 <= d -> d + Z.of_nat n = 1024 -> kmem_unlocked k -> kmem_inv k l -> tables_from k l pd d ->
  exists k' l', free_tables pd d n k = Done tt k' /\ frees (table_frame (k_mem k) pd d) k l k' l' /\
    forall x, (forall i, table_frame (k_mem k) pd d i -> ~ in_page (page_addr i) x) -> k_mem k' x = k_mem k x.
Proof.
  intros Hpd. induction n as [|n IH]; intros k l d Hd Hn U Inv Tf.
  { exists k, l. split; [done|]. split; [|done]. apply frees_none; [intros i (d' & Hd' & _); lia|done|done]. }
  simpl free_tables. rewrite (bind_Done _ _ _ _ _ (read32_run _ _)). pose proof (eq_refl (tab (k_mem k) pd d)) as Et. unfold tab at 1 in Et.
  cbv zeta in Et. destruct (present (ld32 (k_mem k) (pd + 4 * d))); symmetry in Et; cbn [when].
  - set (t := P2V (PTE_ADDR (ld32 (k_mem k) (pd + 4 * d)))) in *. destruct (tf_page _ _ _ _ Tf d t ltac:(lia) Et) as (Hne & i & Ei & Li).
    rewrite Ei in *. destruct (kfree_live k l i U Inv Li) as (k1 & Hrun & F1 & M1).
    assert (page (page_addr i)) as Hpi by (apply page_page_addr; apply Li).
    assert (forall d', 0 <= d' < 1024 -> tab (k_mem k1) pd d' = tab (k_mem k) pd d') as Ht1.
    { intros d' Hd'. unfold tab. by rewrite (entry_other (k_mem k) (k_mem k1) (page_addr i) pd d' Hpi Hpd Hne Hd' M1). }
    destruct (IH k1 (i :: l) (d + 1)) as (k' & l' & Hrun' & F' & M'); [lia|lia|apply F1|apply F1| |].
    { apply (tables_from_next k l); try done; [lia|]. intros; apply Ht1; lia. }
    assert (forall a, i = a \/ table_frame (k_mem k1) pd (d + 1) a <-> table_frame (k_mem k) pd d a) as Ef.
    { apply table_frame_head; [lia|done|]. intros; apply Ht1; lia. }
    exists k', l'. rewrite (bind_Done _ _ _ _ _ Hrun). split; [done|]. split.
    + eapply frees_ext; [exact Ef|]. by eapply frees_trans.
    + intros x Hx. rewrite M'; [apply M1; apply Hx, Ef; by left|]. intros j Hj. apply Hx, Ef. by right.
  - destruct (IH k l (d + 1)) as (k' & l' & Hrun' & F' & M'); [lia|lia|done|done| |].
    { destruct Tf as [P I]. split; [intros; apply (P d'); [lia|done]|intros; eapply I; [| |done..]; lia]. }
    exists k', l'. split; [exact Hrun'|]. pose proof (table_frame_skip (k_mem k) pd d Et) as Ef. split.
    + eapply frees_ext; [exact Ef|done].
    + intros x Hx. apply M'. intros j Hj. apply Hx. by apply Ef.
Qed.

(** ** The whole address space *)

(** The pages an address space holds. *)
Definition holds (k : kernel) (pd : Z) (pf : Z -> option nat) (i : nat) : Prop :=
  user_frame pf 0 i \/ table_page (k_mem k) pd (page_addr i).

Lemma user_space_freed k l pd pf k' l' : 
  user_space k l pd pf -> user_freed pd (user_frame pf 0) k l k' l' ->
  forall i, table_page (k_mem k) pd (page_addr i) -> live k' l' i.
Proof.
  intros Us F i Hi. destruct (us_tables _ _ _ _ Us _ Hi) as (j & Ej & Lj). apply page_addr_inj in Ej as <-.
  assert (~ user_frame pf 0 i) as Hn.
  { intros (a & Ha & E). apply (mf_own _ _ _ _ _ (us_page _ _ _ _ Us a i ltac:(lia) E)). by left. }
  apply (live_keep k l); [done|by apply (fr_runs _ _ _ _ _ (uf_frees _ _ _ _ _ _ F))|].
  rewrite (fr_list _ _ _ _ _ (uf_frees _ _ _ _ _ _ F)). intros [H|H]; [by apply (lv_free _ _ _ Lj)|done].
Qed.

(** [freevm] gives back the pages the address space holds. *)
Lemma freevm_run k l pd pf :
  user_space k l pd pf ->
  exists k' l', freevm pd k = Done tt k' /\ frees (holds k pd pf) k l k' l' /\
    forall x, (forall i, holds k pd pf i -> ~ in_page (page_addr i) x) -> k_mem k' x = k_mem k x.
Proof.
  intros Us. pose proof (us_ok _ _ _ _ Us) as Ok. pose proof (sp_pd _ _ (vo_space _ _ _ Ok)) as Hpd.
  destruct (us_tables _ _ _ _ Us pd ltac:(by left)) as (ip & Ep & Lp).
  destruct (dealloc_all pd pf (us_inj _ _ _ _ Us) (pages KERNBASE) k l 0) as (k1 & l1 & Hr1 & F1); [|done|by left| |].
  { destruct Us as [O P H _ _]. split; [done|done|done]. }
  { unfold pages. change (KERNBASE / PGSIZE) with NUSER. change NUSER with 524288. rewrite Z2Nat.id; lia. }
  assert (forall i, table_page (k_mem k1) pd (page_addr i) <-> table_page (k_mem k) pd (page_addr i)) as Htp.
  { intros i. split; apply table_page_tab; intros; [|symmetry]; by apply F1. }
  pose proof (user_space_freed k l pd pf k1 l1 Us F1) as Hlive. destruct F1 as [Ok1 F1 T1 M1].
  destruct (free_tables_run pd Hpd (Z.to_nat NPDENTRIES) k1 l1 0) as (k2 & l2 & Hr2 & F2 & M2); [done|done|apply Ok1|apply Ok1| |].
  { split; [|apply (sp_inj _ _ (vo_space _ _ _ Ok1))]. intros d t Hd Et. split; [by apply (sp_tab _ _ (vo_space _ _ _ Ok1) d)|].
    assert (table_page (k_mem k) pd t) as Ht by (right; exists d; rewrite <- T1; done).
    destruct (us_tables _ _ _ _ Us t Ht) as (i & -> & _). exists i. split; [done|by apply Hlive]. }
  assert (~ table_frame (k_mem k1) pd 0 ip) as Hnip.
  { intros (d & Hd & Et). rewrite <- Ep in Et. by apply (sp_tab _ _ (vo_space _ _ _ Ok1) d pd Hd Et). }
  destruct (kfree_live k2 l2 ip) as (k3 & Hr3 & F3 & M3); [apply F2|apply F2| |].
  { assert (live k1 l1 ip) as L1 by (apply Hlive; left; done). apply (live_keep k1 l1); [done|by apply F2|].
    rewrite (fr_list _ _ _ _ _ F2). intros [H|H]; [by apply (lv_free _ _ _ L1)|done]. }
  assert (forall i, (user_frame pf 0 i \/ table_frame (k_mem k1) pd 0 i) \/ ip = i <-> holds k pd pf i) as Eh.
  { intros i. unfold holds. rewrite <- Htp. split; [intros [[H|(d & Hd & H)]| ->]; [by left|right; right; by exists d|right; by left]|].
    intros [H|[H|(d & Hd & H)]]; [by left; left|right; apply page_addr_inj; congruence|left; right; by exists d]. }
  pose proof (frees_ext _ _ _ _ _ _ Eh (frees_trans _ _ _ _ _ _ _ _ (frees_trans _ _ _ _ _ _ _ _ F1 F2) F3)) as F.
  exists k3, (ip :: l2). split; [|split; [done|]].
  - unfold freevm. destruct (Z.eqb_spec pd 0) as [E0|_]; [destruct Hpd; lia|]. unfold deallocuvm. change (KERNBASE <=? 0) with false. cbv iota.
    change (PGROUNDUP 0) with (0 * PGSIZE). erewrite bind_Done; [|by rewrite (bind_Done _ _ _ _ _ Hr1)].
    rewrite (bind_Done _ _ _ _ _ Hr2), Ep. exact Hr3.
  - intros x Hx. rewrite M3, M2; [apply M1| |].
    + intros p Hp Hin. destruct (us_tables _ _ _ _ Us p Hp) as (i & -> & _). by apply (Hx i); [right|].
    + intros i Hi. apply Hx. by left.
    + intros i (d & Hd & Hi). apply Hx, Eh. left. right. by exists d.
    + apply Hx, Eh. by right.
Qed.
(** C99: the end of an address space.  [freevm] puts exactly the pages the
    address space holds on the free list, the frames of its user pages, its
    page tables and its directory, each once; the allocator's invariant is
    kept, and nothing else of the kernel changes: every byte outside these
    pages is as before. *)
Theorem freevm_frees_all k l pd pf :
  user_space k l pd pf ->
  exists k' l', freevm pd k = Done tt k' /\ kmem_inv k' l' /\ (forall i, i ∈ l' <-> i ∈ l \/ holds k pd pf i) /\
    (forall i, ~ holds k pd pf i -> runs (k_kmem k') !! i = runs (k_kmem k) !! i) /\
    (forall x, (forall i, holds k pd pf i -> ~ in_page (page_addr i) x) -> k_mem k' x = k_mem k x) /\ mem_only k k'.
Proof.
  intros Us. destruct (freevm_run k l pd pf Us) as (k' & l' & Hrun & [_ I L R Mo] & M). by exists k', l'.
Qed.
End FreeVm.

(** ** Witness *)

Lemma demo_live k l i : @kmem_inv (demo_image true) k l -> (1024 <= i <= 2000)%nat -> i ∉ l -> @live (demo_image true) k l i.
Proof.
  intros I Hi Hn. split; [|destruct (lookup_lt_is_Some_2 (runs (k_kmem k)) i) as [x Hx]|done].
  - change MAXPAGES with 57344. split; [lia|]. change (@end_ (demo_image true)) with (page_addr 400). unfold page_addr, PGSIZE. lia.
  - pose proof (ki_len _ _ I) as H. change MAXPAGES with 57344 in H. lia.
  - exists x. split; [done|]. discriminate.
Qed.

(** The address space of a process of 100 bytes, as [allocuvm] makes it. *)
Definition demo_frame (i : nat) (j : Z) : option nat := if j =? 0 then Some i else None.
Lemma demo_user_space : exists l i, @user_space (demo_image true) demo_grown l demo_pd (demo_frame i) /\ mem_only demo_vm demo_grown /\
  forall a, a ∈ l \/ holds demo_grown demo_pd (demo_frame i) a -> a ∈ [1025%nat; 1024%nat; 2000%nat].
Proof.
  unfold demo_frame.
  destruct (@alloc_loop_run (demo_image true) 1 (pages 100) demo_vm [1025%nat; 1024%nat] demo_pd 0 0 100)
    as (k' & l' & fr & Hrun & Hs & Hl & _ & Hin & Hu & Hoth);
    [apply demo_vm_ok|lia|reflexivity|reflexivity|vm_compute; lia|left; reflexivity|vm_compute; discriminate|intros; apply demo_untranslated|simpl; lia|].
  destruct fr as [|i fr]; [discriminate Hl|]. assert (demo_grown = k') as ->.
  { unfold demo_grown. change (@allocuvm (demo_image true) demo_pd 0 100 demo_vm) with (@alloc_loop (demo_image true) (pages 100) demo_pd 0 0 100 demo_vm).
    rewrite Hrun. reflexivity. }
  exists l', i. pose proof (vs_ok _ _ _ _ _ Hs) as Ok. pose proof (vo_kmem _ _ _ Ok) as I.
  assert (forall j, j ∈ [1025%nat; 1024%nat] -> (1024 <= j <= 2000)%nat) as Hr.
  { intros j [->|Hj%list_elem_of_singleton]%elem_of_cons; [lia|subst j; lia]. }
  pose proof (Hr i (Hin i ltac:(left))) as Hi. split; [|split; [exact (vs_rest _ _ _ _ _ Hs)|]]; [split; [exact Ok|..]|].
  - intros j i' Hj E. destruct (Z.eqb_spec j 0) as [->|]; [|discriminate E]. injection E as <-.
    apply user_page_mapped; [reflexivity|exact Ok|exact (Hu O i eq_refl)| |lia].
    change (@end_ (demo_image true)) with (page_addr 400). unfold page_addr, PGSIZE. lia.
  - intros j e Hj E. destruct (Z.eqb_spec j 0) as [->|Hj0]; [discriminate E|]. destruct (user_index j Hj) as (Ha & Hq & _).
    destruct (Hoth (j * PGSIZE) Ha) as [Ee|[_ Ee]]; [right; rewrite Hq; change (0 / PGSIZE) with 0; lia| |]; rewrite Ee; [|intros [= <-]; reflexivity].
    apply untranslated. apply demo_untranslated.
  - intros j j' a _ _ E E'. destruct (Z.eqb_spec j 0) as [->|]; [|discriminate E]. destruct (Z.eqb_spec j' 0) as [->|]; [done|discriminate E'].
  - intros p Hp. destruct (vs_owned _ _ _ _ _ Hs p (or_introl Hp)) as [[->|(d & _ & Hd)]|(a & Ha & ->)].
    + exists 2000%nat. split; [reflexivity|]. apply demo_live; [done|lia|]. intros Hf. by apply (vo_fresh _ _ _ Ok _ Hf).
    + rewrite demo_vm_mem in Hd. discriminate Hd.
    + exists a. split; [done|]. apply demo_live; [done|by apply Hr|]. intros Hf. by apply (vo_fresh _ _ _ Ok _ Hf).
  - intros a Ha. assert (a = 2000%nat \/ a ∈ [1025%nat; 1024%nat]) as Hc;
      [|change [1025%nat; 1024%nat; 2000%nat] with ([1025%nat; 1024%nat] ++ [2000%nat]); apply elem_of_app; destruct Hc as [->|Hc]; [right; left|by left]].
    destruct Ha as [Ha|[(j & _ & E)|Ha]].
    + right. destruct (vs_free _ _ _ _ _ Hs) as [u ->]. apply elem_of_app. by right.
    + cbv beta in E. destruct (j =? 0); [|discriminate E]. injection E as <-. right. apply Hin. left.
    + destruct (vs_owned _ _ _ _ _ Hs _ (or_introl Ha)) as [[H|(d & _ & Hd)]|(b & Hb & H)].
      * left. by apply page_addr_inj.
      * rewrite demo_vm_mem in Hd. discriminate Hd.
      * apply page_addr_inj in H as ->. by right.
Qed.

Lemma freevm_frees_all_witness : exists k' (l' : list nat), @freevm (demo_image true) demo_pd demo_grown = Done tt k' /\ 2000%nat ∈ l'.
Proof.
  destruct demo_user_space as (l & i & Us & _).
  destruct (@freevm_frees_all (demo_image true) demo_grown l demo_pd _ Us) as (k' & l' & Hrun & _ & Hl & _).
  exists k', l'. split; [exact Hrun|]. apply Hl. right. right. left. reflexivity.
Defined.
