(* ===== verification/VmCopy.v ===== *)
(** VmCopy: [setupkvm] and [copyuvm], the address space of a forked process. *)

From S2P Require Import Prelude Kernel StringLib Bytes Words Kalloc Vm VmProof VmDealloc VmFree.

Section Copy.
Context `{Im : Image} `{!ImageOk Im}.

(** ** A new directory *)

Lemma zero_space m pd : page pd -> (forall x, in_page pd x -> m x = 0) -> space m pd /\ forall j, 0 <= j < 1024 -> tab m pd j = None.
Proof.
  intros Hp Hz. assert (forall j, 0 <= j < 1024 -> tab m pd j = None) as Ht.
  { intros j Hj. unfold tab. assert (ld32 m (pd + 4 * j) = 0) as ->; [|done].
    unfold ld32. rewrite !Hz by (unfold in_page, PGSIZE; lia). done. }
  split; [|done]. split; [done|intros j t Hj|intros i j t Hi Hj]; by rewrite Ht.
Qed.
Lemma fresh_dir k i l :
  kmem_unlocked k -> kmem_inv k (i :: l) ->
  exists k1, kalloc k = Done (page_addr i) k1 /\ k_mem k1 = k_mem k /\ mem_only k k1 /\ page (page_addr i) /\
    vm_ok (upd_mem (memset (page_addr i) 0 PGSIZE) k1) l (page_addr i) /\
    forall j, 0 <= j < 1024 -> tab (memset (page_addr i) 0 PGSIZE (k_mem k)) (page_addr i) j = None.
Proof.
  intros U Inv. destruct (kmem_inv_head _ _ _ Inv) as (x & Hf & Hx & _ & Hni & _ & Hi).
  pose proof (page_page_addr i Hi) as Hp. exists (upd_kmem (popped_kmem i x) k).
  destruct (zero_space (memset (page_addr i) 0 PGSIZE (k_mem k)) (page_addr i) Hp) as [Sp Ht]; [intros; by rewrite memset_in|].
  split; [by apply kalloc_run|]. split; [done|]. split; [by exists (k_mem k), (popped_kmem i x (k_kmem k)); destruct k|]. split; [done|].
  split; [|done]. assert (kmem_inv (upd_kmem (popped_kmem i x) k) l) as Inv' by (by eapply kmem_inv_pop). split.
  - apply unlocked_upd; [|done]. unfold popped_kmem. by destruct original.
  - by destruct Inv'.
  - exact Sp.
  - intros j Hj [E|(d & Hd & E)]; [apply page_addr_inj in E; by subst|]. simpl in E. by rewrite Ht in E.
Qed.

Lemma range_tables a n : 0 < n -> (a + n - 1) / 1024 - a / 1024 <= n / 1024 + 1.
Proof.
  intros Hn. pose proof (Z.div_mod (a + n - 1) 1024 ltac:(done)). pose proof (Z.mod_pos_bound (a + n - 1) 1024 ltac:(done)).
  pose proof (Z.div_mod a 1024 ltac:(done)). pose proof (Z.mod_pos_bound a 1024 ltac:(done)).
  pose proof (Z.div_mod n 1024 ltac:(done)). pose proof (Z.mod_pos_bound n 1024 ltac:(done)). lia.
Qed.

(** A range of whole pages: [n] pages from page [a] on, to the frames from [p] on. *)
Lemma map_range k l pd a n p perm :
  vm_ok k l pd -> 0 <= a -> 0 < n -> a + n <= 2 ^ 20 -> 0 <= p -> p + n <= 2 ^ 20 -> 0 <= perm < PGSIZE ->
  (forall i, a <= i < a + n -> translate (k_mem k) pd (i * PGSIZE) = None) -> (a + n - 1) / 1024 - a / 1024 < Z.of_nat (length l) ->
  exists k' l', mappages pd (a * PGSIZE) (n * PGSIZE) (p * PGSIZE) perm k = Done 0 k' /\ vm_step pd k l k' l' /\
    Z.of_nat (length l) <= Z.of_nat (length l') + ((a + n - 1) / 1024 - a / 1024 + 1) /\
    (forall i, a <= i < a + n -> pte_at (k_mem k') pd (i * PGSIZE) = Some (Z.lor ((p + (i - a)) * PGSIZE) (Z.lor perm PTE_P))) /\
    forall i, 0 <= i < 2 ^ 20 -> ~ (a <= i < a + n) -> same_pte pd (k_mem k) (k_mem k') (i * PGSIZE).
Proof.
  intros Ok Ha Hn Han Hp Hpn Hperm Hun Hl.
  assert (a * PGSIZE / PGSIZE = a) as E1 by (by rewrite Z.div_mul).
  assert ((a * PGSIZE + n * PGSIZE - 1) / PGSIZE = a + n - 1) as E2.
  { symmetry. apply (Z.div_unique _ _ _ (PGSIZE - 1)); unfold PGSIZE; lia. }
  destruct (mappages_run k l pd (a * PGSIZE) (n * PGSIZE) (p * PGSIZE) perm) as (k' & l' & Hrun & Hs & Hlen & Hpt & Ho);
    rewrite ?E1, ?E2 in *; try done; try (unfold PGSIZE; lia); try lia.
  - by rewrite Z.mod_mul.
  - intros i Hi. apply Hun. lia.
  - exists k', l'. split; [done|]. split; [done|]. split; [lia|]. split.
    + intros i Hi. rewrite Hpt by lia. f_equal. f_equal. lia.
    + intros i Hi Hne. apply Ho; [unfold PGSIZE; lia|]. rewrite Z.div_mul by done. lia.
Qed.

(** ** The kernel's half *)

(** The pages [kmap] maps, the frames they have and what may be done there. *)
Definition kernel_page (j : Z) : Prop := KERNBASE / PGSIZE <= j < (KERNBASE + PHYSTOP) / PGSIZE \/ DEVSPACE / PGSIZE <= j < 2 ^ 20.
Definition kernel_phys (j : Z) : Z := if j <? DEVSPACE / PGSIZE then j * PGSIZE - KERNBASE else j * PGSIZE.
Definition kernel_perm (j : Z) : Z := if (KERNLINK / PGSIZE <=? j) && (j <? data_ / PGSIZE) then 0 else PTE_W.
Definition kernel_mapped (m : Z -> Z) (pd : Z) : Prop :=
  (forall j, kernel_page j -> pte_at m pd (j * PGSIZE) = Some (Z.lor (kernel_phys j) (Z.lor (kernel_perm j) PTE_P))) /\
  forall j, 0 <= j < 2 ^ 20 -> ~ kernel_page j -> translate m pd (j * PGSIZE) = None.

(** Ranges in increasing order, as a list: first page, pages, first frame, permissions. *)
Record range := Range { r_page : Z; r_len : Z; r_frame : Z; r_perm : Z }.
Fixpoint ranges_ok (lo : Z) (rs : list range) : Prop :=
  match rs with
  | [] => True
  | r :: rs => lo <= r_page r /\ 0 < r_len r /\ r_page r + r_len r <= 2 ^ 20 /\ 0 <= r_frame r /\ r_frame r + r_len r <= 2 ^ 20 /\
      0 <= r_perm r < PGSIZE /\ ranges_ok (r_page r + r_len r) rs
  end.
Definition in_range (j : Z) (r : range) : Prop := r_page r <= j < r_page r + r_len r.
Definition kmap_range (e : Z * Z * Z * Z) (r : range) : Prop :=
  match e with
  | (virt, phys_start, phys_end, perm) =>
      virt = r_page r * PGSIZE /\ phys_start = r_frame r * PGSIZE /\ u32 (phys_end - phys_start) = r_len r * PGSIZE /\ perm = r_perm r
  end.
Fixpoint cost (rs : list range) : Z := match rs with [] => 0 | r :: rs => r_len r / 1024 + 2 + cost rs end.

Lemma cost_nonneg lo rs : ranges_ok lo rs -> 0 <= cost rs.
Proof.
  revert lo. induction rs as [|r rs IH]; intros lo; simpl; [lia|]. intros (_ & Hl & _ & _ & _ & _ & H). specialize (IH _ H).
  pose proof (Z.div_pos (r_len r) 1024). lia.
Qed.
Lemma ranges_above lo rs r j : ranges_ok lo rs -> r ∈ rs -> in_range j r -> lo <= j < 2 ^ 20.
Proof.
  revert lo. induction rs as [|r' rs IH]; intros lo; simpl; [intros _ H; by apply not_elem_of_nil in H|].
  intros (H1 & H2 & H3 & _ & _ & _ & H) [->|Hr]%elem_of_cons Hj; [unfold in_range in Hj; lia|]. specialize (IH _ H Hr Hj). lia.
Qed.

Lemma map_kernel_ranges pd es rs : Forall2 kmap_range es rs -> forall k l lo,
  vm_ok k l pd -> 0 <= lo -> ranges_ok lo rs -> (forall r j, r ∈ rs -> in_range j r -> translate (k_mem k) pd (j * PGSIZE) = None) ->
  cost rs <= Z.of_nat (length l) ->
  exists k' l', map_kernel pd es k = Done pd k' /\ vm_step pd k l k' l' /\ Z.of_nat (length l) <= Z.of_nat (length l') + cost rs /\
    (forall r j, r ∈ rs -> in_range j r -> pte_at (k_mem k') pd (j * PGSIZE) = Some (Z.lor ((r_frame r + (j - r_page r)) * PGSIZE) (Z.lor (r_perm r) PTE_P))) /\
    forall j, 0 <= j < 2 ^ 20 -> (forall r, r ∈ rs -> ~ in_range j r) -> same_pte pd (k_mem k) (k_mem k') (j * PGSIZE).
Proof.
  induction 1 as [|e r es rs He _ IH]; intros k l lo Ok Hlo Hok Hun Hc.
  { exists k, l. split; [done|]. split; [by apply vm_step_refl|]. split; [simpl; lia|]. split; [intros r j Hr; by apply not_elem_of_nil in Hr|by left]. }
  simpl in Hok. destruct Hok as (H1 & H2 & H3 & H4 & H5 & H6 & Hok). pose proof (cost_nonneg _ _ Hok) as Hcn. simpl cost in *.
  pose proof (range_tables (r_page r) (r_len r) H2).
  destruct (map_range k l pd (r_page r) (r_len r) (r_frame r) (r_perm r)) as (k1 & l1 & Hr1 & Hs1 & Hl1 & P1 & O1); try done; try lia.
  { intros j Hj. apply (Hun r); [left|done]. }
  destruct (IH k1 l1 (r_page r + r_len r)) as (k2 & l2 & Hr2 & Hs2 & Hl2 & P2 & O2); try done; try lia; [apply Hs1| |].
  { intros r' j Hr' Hj. pose proof (ranges_above _ _ _ _ Hok Hr' Hj) as Hge. rewrite (same_pte_translate _ (k_mem k)); [by apply (Hun r'); [right|]|].
    apply O1; lia. }
  exists k2, l2. split; [|split; [by eapply vm_step_trans|split; [lia|split]]].
  - destruct e as [[[virt ps] pe] perm]. destruct He as (-> & -> & Eu & ->). cbn [map_kernel]. rewrite Eu, (bind_Done _ _ _ _ _ Hr1). done.
  - intros r' j Hr' Hj. apply elem_of_cons in Hr' as [->|Hr']; [|by apply P2]. eapply same_pte_Some; [|by apply P1].
    unfold in_range in Hj. apply O2; [lia|]. intros r' Hr' Hj'. pose proof (ranges_above _ _ _ _ Hok Hr' Hj'). lia.
  - intros j Hj Hout. eapply same_pte_trans; [apply O1; [done|]|apply O2; [done|]].
    + apply Hout. left.
    + intros r' Hr'. apply Hout. by right.
Qed.
(** [kmap] as ranges of pages. *)
Definition kernel_ranges : list range :=
  [ Range (KERNBASE / PGSIZE) (EXTMEM / PGSIZE) 0 PTE_W;
    Range (KERNLINK / PGSIZE) (data_ / PGSIZE - KERNLINK / PGSIZE) (EXTMEM / PGSIZE) 0;
    Range (data_ / PGSIZE) ((KERNBASE + PHYSTOP) / PGSIZE - data_ / PGSIZE) (data_ / PGSIZE - KERNBASE / PGSIZE) PTE_W;
    Range (DEVSPACE / PGSIZE) (2 ^ 20 - DEVSPACE / PGSIZE) (DEVSPACE / PGSIZE) PTE_W ].

Lemma data_page : data_ = data_ / PGSIZE * PGSIZE /\ KERNLINK / PGSIZE < data_ / PGSIZE < KERNBASE / PGSIZE + 1024.
Proof.
  destruct (data_range (ImageOk := _)) as [H1 H2]. pose proof (end_range (ImageOk := _)) as H3. pose proof (data_aligned (ImageOk := _)) as H4.
  change KERNLINK with 0x80100000 in *. change KERNBASE with 0x80000000 in *. unfold PGSIZE in *.
  change (0x80100000 / 4096) with 0x80100. change (0x80000000 / 4096) with 0x80000.
  pose proof (Z.div_mod data_ 4096 ltac:(done)). lia.
Qed.
Lemma kmap_ranges : Forall2 kmap_range kmap kernel_ranges.
Proof.
  destruct data_page as [Ed Hd]. change (KERNLINK / PGSIZE) with 0x80100 in *. change (KERNBASE / PGSIZE) with 0x80000 in *.
  assert (V2P data_ = (data_ / PGSIZE - 0x80000) * PGSIZE) as Ev.
  { unfold V2P. rewrite Ed at 1. unfold KERNBASE, PGSIZE in *. rewrite u32_small; lia. }
  unfold kmap. rewrite Ev. repeat apply List.Forall2_cons; [..|apply List.Forall2_nil]; cbn [kmap_range r_page r_frame r_len r_perm].
  - repeat split.
  - split; [reflexivity|]. split; [reflexivity|]. split; [|reflexivity]. change (V2P KERNLINK) with (0x100 * PGSIZE).
    change (KERNLINK / PGSIZE) with 0x80100. unfold PGSIZE in *. rewrite u32_small; lia.
  - split; [exact Ed|]. change (KERNBASE / PGSIZE) with 0x80000. split; [done|]. split; [|reflexivity].
    change ((KERNBASE + PHYSTOP) / PGSIZE) with 0x8e000. change PHYSTOP with (0xe000 * PGSIZE). unfold PGSIZE in *. rewrite u32_small; lia.
  - repeat split.
Qed.
Lemma kernel_ranges_ok : ranges_ok 0 kernel_ranges /\ cost kernel_ranges <= 72.
Proof.
  destruct data_page as [_ Hd]. cbn [kernel_ranges ranges_ok cost r_page r_len r_frame r_perm].
  change (KERNLINK / PGSIZE) with 0x80100 in *. change (KERNBASE / PGSIZE) with 0x80000 in *. change (EXTMEM / PGSIZE) with 0x100 in *.
  change ((KERNBASE + PHYSTOP) / PGSIZE) with 0x8e000 in *. change (DEVSPACE / PGSIZE) with 0xfe000 in *. change PTE_W with 2. change PGSIZE with 4096 in *.
  split; [lia|]. change (0x100 / 1024) with 0. change ((2 ^ 20 - 0xfe000) / 1024) with 8.
  pose proof (Z.div_lt_upper_bound (data_ / 4096 - 0x80100) 1024 1 ltac:(done) ltac:(lia)).
  pose proof (Z.div_lt_upper_bound (0x8e000 - data_ / 4096) 1024 56 ltac:(done) ltac:(lia)). lia.
Qed.

Lemma kernel_page_range j : kernel_page j <-> exists r, r ∈ kernel_ranges /\ in_range j r.
Proof.
  destruct data_page as [_ Hd]. unfold kernel_page, in_range. split.
  - intros [H|H]; [|eexists; split; [do 3 right; left|]; cbn [r_page r_len]; lia].
    destruct (decide (j < KERNLINK / PGSIZE)) as [H1|H1]; [eexists; split; [left|]; cbn [r_page r_len]; change (KERNLINK / PGSIZE) with 0x80100 in H1;
      change (KERNBASE / PGSIZE) with 0x80000 in *; change (EXTMEM / PGSIZE) with 0x100; lia|].
    destruct (decide (j < data_ / PGSIZE)) as [H2|H2]; [eexists; split; [right; left|]; cbn [r_page r_len]; lia|].
    eexists; split; [right; right; left|]; cbn [r_page r_len]; lia.
  - change ((KERNBASE + PHYSTOP) / PGSIZE) with 0x8e000 in *. change (KERNLINK / PGSIZE) with 0x80100 in *. change (KERNBASE / PGSIZE) with 0x80000 in *.
    intros (r & Hr & Hj). apply elem_of_cons in Hr as [->|Hr]; [left; cbn [r_page r_len] in Hj; revert Hj;
      change (KERNBASE / PGSIZE) with 0x80000; change (EXTMEM / PGSIZE) with 0x100; lia|].
    apply elem_of_cons in Hr as [->|Hr]; [left; cbn [r_page r_len] in Hj; revert Hj; change (KERNLINK / PGSIZE) with 0x80100; lia|].
    apply elem_of_cons in Hr as [->|Hr]; [left; cbn [r_page r_len] in Hj; revert Hj; change ((KERNBASE + PHYSTOP) / PGSIZE) with 0x8e000; lia|].
    apply list_elem_of_singleton in Hr as ->. cbn [r_page r_len] in Hj. right. lia.
Qed.
Lemma kernel_range_entry r j :
  r ∈ kernel_ranges -> in_range j r -> (r_frame r + (j - r_page r)) * PGSIZE = kernel_phys j /\ r_perm r = kernel_perm j.
Proof.
  destruct data_page as [_ Hd]. unfold in_range, kernel_phys, kernel_perm. change (KERNLINK / PGSIZE) with 0x80100 in *.
  change (KERNBASE / PGSIZE) with 0x80000 in *. change KERNBASE with (0x80000 * PGSIZE). change (DEVSPACE / PGSIZE) with 0xfe000.
  intros Hr. apply elem_of_cons in Hr as [->|Hr]; [|apply elem_of_cons in Hr as [->|Hr]; [|apply elem_of_cons in Hr as [->|Hr];
    [|apply list_elem_of_singleton in Hr as ->]]]; cbn [r_page r_len r_frame r_perm].
  - change (KERNBASE / PGSIZE) with 0x80000. change (EXTMEM / PGSIZE) with 0x100. intros Hj. split; [case_cmp; unfold PGSIZE; lia|].
    case_cmp; first [done|lia].
  - change (KERNLINK / PGSIZE) with 0x80100. change (EXTMEM / PGSIZE) with 0x100. intros Hj. split; [case_cmp; unfold PGSIZE in *; lia|].
    case_cmp; first [done|lia].
  - change (KERNBASE / PGSIZE) with 0x80000. change ((KERNBASE + PHYSTOP) / PGSIZE) with 0x8e000. intros Hj.
    split; [case_cmp; unfold PGSIZE in *; lia|]. case_cmp; first [done|lia].
  - change (DEVSPACE / PGSIZE) with 0xfe000. intros Hj. split; [case_cmp; unfold PGSIZE in *; lia|]. case_cmp; first [done|lia].
Qed.

Lemma setupkvm_run k i l :
  kmem_unlocked k -> kmem_inv k (i :: l) -> 72 <= Z.of_nat (length l) ->
  exists k1 k' l', setupkvm k = Done (page_addr i) k' /\ mem_only k k1 /\ k_mem k1 = memset (page_addr i) 0 PGSIZE (k_mem k) /\
    (forall p, owned (k_mem k1) (page_addr i) l p -> exists j, j ∈ i :: l /\ p = page_addr j) /\
    vm_ok k1 l (page_addr i) /\ vm_step (page_addr i) k1 l k' l' /\ Z.of_nat (length l) <= Z.of_nat (length l') + 72 /\
    kernel_mapped (k_mem k') (page_addr i).
Proof.
  intros U Inv Hl. destruct (fresh_dir k i l U Inv) as (k0 & Hk0 & Em & Hmo & Hp & Ok & Ht).
  destruct kernel_ranges_ok as [Hok Hc]. set (k1 := upd_mem (memset (page_addr i) 0 PGSIZE) k0) in *.
  assert (k_mem k1 = memset (page_addr i) 0 PGSIZE (k_mem k)) as Em1 by (unfold k1; simpl; by rewrite Em). rewrite <- Em1 in Ht.
  assert (forall va, 0 <= va < 2 ^ 32 -> translate (k_mem k1) (page_addr i) va = None) as Hun.
  { intros va Hva. unfold translate. destruct (PDX_eq va Hva) as [_ Hd]. by rewrite pte_at_tab, Ht. }
  destruct (map_kernel_ranges (page_addr i) kmap kernel_ranges kmap_ranges k1 l 0) as (k2 & l2 & Hrun & Hs & Hl2 & P2 & O2);
    [exact Ok|lia|exact Hok| |lia|].
  { intros r j Hr Hj. apply Hun. pose proof (ranges_above _ _ _ _ Hok Hr Hj). unfold PGSIZE. lia. }
  exists k1, k2, l2. split; [|split; [|split; [done|split; [|split; [done|split; [done|split; [lia|split]]]]]]].
  - unfold setupkvm. rewrite (bind_Done _ _ _ _ _ Hk0). destruct (Z.eqb_spec (page_addr i) 0) as [E|_]; [destruct Hp; lia|].
    rewrite bind_modify. change (DEVSPACE <? P2V PHYSTOP) with false. exact Hrun.
  - eapply mem_only_trans; [exact Hmo|]. by exists (k_mem k1), (k_kmem k0).
  - intros p [[->|(d & Hd & E)]|(j & Hj & ->)]; [exists i; by split; [left|]|by rewrite Ht in E|]. exists j. by split; [right|].
  - intros j Hj. apply kernel_page_range in Hj as (r & Hr & Hj). rewrite (P2 r j Hr Hj).
    destruct (kernel_range_entry r j Hr Hj) as [-> ->]. done.
  - intros j Hj Hn. rewrite (same_pte_translate _ (k_mem k1)); [apply Hun; unfold PGSIZE; lia|]. apply O2; [done|].
    intros r Hr Hjr. apply Hn. apply kernel_page_range. exists r. exact (conj Hr Hjr).
Qed.
(** ** Copying the user pages *)

Section Parent.
Context (k0 : kernel) (l0 : list nat) (pgdir : Z) (Ok0 : vm_ok k0 l0 pgdir).

(** Only pages that were free have changed. *)
Definition keeps (m : Z -> Z) : Prop := forall x, (forall i, i ∈ l0 -> ~ in_page (page_addr i) x) -> m x = k_mem k0 x.

Lemma keeps_page m p x : keeps m -> page p -> (forall i, i ∈ l0 -> page_addr i <> p) -> in_page p x -> m x = k_mem k0 x.
Proof.
  intros K Hp Hne Hx. apply K. intros i Hi Hin. apply (Hne i Hi). apply (page_disjoint _ _ x); try done.
  apply page_page_addr. by apply (ki_range _ _ (vo_kmem _ _ _ Ok0)).
Qed.
Lemma keeps_table m p j :
  keeps m -> table_page (k_mem k0) pgdir p -> page p -> 0 <= j < 1024 -> ld32 m (p + 4 * j) = ld32 (k_mem k0) (p + 4 * j).
Proof.
  intros K Ht Hp Hj. apply ld32_ext. intros x Hx. apply (keeps_page m p); try done; [|unfold in_page, PGSIZE; lia].
  intros i Hi E. apply (vo_fresh _ _ _ Ok0 i Hi). by rewrite E.
Qed.
Lemma keeps_tab m j : keeps m -> 0 <= j < 1024 -> tab m pgdir j = tab (k_mem k0) pgdir j.
Proof.
  intros K Hj. unfold tab. rewrite (keeps_table m pgdir j); try done; [by left|]. apply (vo_space _ _ _ Ok0).
Qed.
Lemma keeps_pte m va : keeps m -> 0 <= va < 2 ^ 32 -> pte_at m pgdir va = pte_at (k_mem k0) pgdir va.
Proof.
  intros K Hva. destruct (PDX_eq va Hva) as [_ Hd], (PTX_eq va) as [_ Hx]. rewrite !pte_at_tab, (keeps_tab m) by done.
  destruct (tab (k_mem k0) pgdir (PDX va)) as [t|] eqn:Et; [|done]. simpl. f_equal. apply keeps_table; try done.
  - right. by exists (PDX va).
  - by apply (sp_tab _ _ (vo_space _ _ _ Ok0) (PDX va)).
Qed.
Lemma keeps_ok k l : keeps (k_mem k) -> kmem_unlocked k -> kmem_inv k l -> (forall i, i ∈ l -> i ∈ l0) -> vm_ok k l pgdir.
Proof.
  intros K U I Hl. assert (forall p, table_page (k_mem k) pgdir p -> table_page (k_mem k0) pgdir p) as Ht.
  { intros p. apply table_page_tab. intros j Hj. by apply keeps_tab. }
  destruct (vo_space _ _ _ Ok0) as [S1 S2 S3]. split; [done|done|split; [done| |]|].
  - intros j t Hj. rewrite keeps_tab by done. by apply S2.
  - intros i j t Hi Hj. rewrite (keeps_tab (k_mem k) i), (keeps_tab (k_mem k) j) by done. by apply S3.
  - intros i Hi Hp. apply (vo_fresh _ _ _ Ok0 i); [by apply Hl|by apply Ht].
Qed.

(** Page [j] of the parent: the entry [e] and a frame that is not free. *)
Record parent_page (j e : Z) : Prop := {
  pp_pte : pte_at (k_mem k0) pgdir (j * PGSIZE) = Some e;
  pp_present : present e = true;
  pp_frame : page (P2V (PTE_ADDR e)) /\ forall i, i ∈ l0 -> page_addr i <> P2V (PTE_ADDR e)
}.

(** Page [j] of the child: the frame [i] of its own, with the flags and the
    bytes of the parent's. *)
Record copied (k : kernel) (l : list nat) (d j : Z) (i : nat) (e : Z) : Prop := {
  cp_pte : pte_at (k_mem k) d (j * PGSIZE) = Some (Z.lor (V2P (page_addr i)) (Z.lor (PTE_FLAGS e) PTE_P));
  cp_range : Z.of_nat i < MAXPAGES;
  cp_own : ~ owned (k_mem k) d l (page_addr i);
  cp_bytes : forall x, 0 <= x < PGSIZE -> k_mem k (page_addr i + x) = k_mem k0 (P2V (PTE_ADDR e) + x)
}.
Lemma copied_step d k l k' l' j i e :
  vm_ok k l d -> vm_step d k l k' l' -> same_pte d (k_mem k) (k_mem k') (j * PGSIZE) -> copied k l d j i e -> copied k' l' d j i e.
Proof.
  intros Ok Hs Hp [E Hi Hf Hb]. split; [by eapply same_pte_Some|done| |].
  - intros H. apply Hf. by apply (vs_owned _ _ _ _ _ Hs).
  - intros x Hx. rewrite (step_unowned d k l k' l' i) by (done || unfold in_page; lia). by apply Hb.
Qed.

(** The child's side: it owns only pages that were free. *)
Record child (k : kernel) (l : list nat) (d : Z) : Prop := {
  ch_ok : vm_ok k l d;
  ch_keeps : keeps (k_mem k);
  ch_owned : forall p, owned (k_mem k) d l p -> exists i, i ∈ l0 /\ p = page_addr i
}.
Lemma child_step d k l k' l' : child k l d -> vm_step d k l k' l' -> child k' l' d.
Proof.
  intros [O K W] Hs. split; [apply Hs| |].
  - intros x Hx. rewrite (vs_frame _ _ _ _ _ Hs); [by apply K|]. intros p Hp. destruct (W p Hp) as (i & Hi & ->). by apply Hx.
  - intros p Hp. apply W. by apply (vs_owned _ _ _ _ _ Hs).
Qed.

Lemma PTE_FLAGS_range e : 0 <= PTE_FLAGS e < PGSIZE.
Proof. unfold PTE_FLAGS. change 0xFFF with (Z.ones 12). rewrite Z.land_ones by lia. apply Z.mod_pos_bound. done. Qed.

(** The frame for the copy, filled. *)
Lemma copy_frame k i l d src :
  vm_ok k (i :: l) d -> page src -> page_addr i <> src ->
  exists k1, kalloc k = Done (page_addr i) k1 /\
    let k2 := upd_mem (memmove (page_addr i) src PGSIZE) k1 in
    vm_step d k (i :: l) k2 l /\ Z.of_nat i < MAXPAGES /\ ~ owned (k_mem k2) d l (page_addr i) /\
    (forall x, 0 <= x < PGSIZE -> k_mem k2 (page_addr i + x) = k_mem k (src + x)) /\
    forall va, 0 <= va < 2 ^ 32 -> pte_at (k_mem k2) d va = pte_at (k_mem k) d va.
Proof.
  intros Ok Hsrc Hne. destruct (kalloc_step _ _ _ _ Ok) as (k1 & Hk & Hs & Em & Hi & Hno). rewrite Em in Hno.
  pose proof (page_page_addr i Hi) as Hp. exists k1. split; [done|]. intros k2.
  assert (forall x, k_mem k2 x = if (page_addr i <=? x) && (x <? page_addr i + PGSIZE) then k_mem k (src + (x - page_addr i)) else k_mem k x) as Em2.
  { intros x. unfold k2. simpl. rewrite memmove_overlap_safe by done. by rewrite Em. }
  assert (forall a, ~ in_page (page_addr i) a -> k_mem k2 a = k_mem k a) as Hout.
  { intros a Ha. rewrite Em2. unfold in_page in Ha. case_if; [|done]. b2p. lia. }
  destruct (page_write (k_mem k) (k_mem k2) d (page_addr i)) as (Htab & Sp & Hpte); [apply Ok|done|intros H; apply Hno; by left|done|].
  split; [|split; [done|split; [|split; [|done]]]].
  - change k2 with (set_k_mem (k_mem k2) k1). apply fresh_step; try done.
    + intros p Hpp. left. by eapply table_page_tab.
    + intros a Ha _. by apply Hout.
  - intros [H|H]; apply Hno; [left; by eapply table_page_tab|by right].
  - intros x Hx. rewrite Em2. replace (page_addr i + x - page_addr i) with x by lia. case_if; [done|]. apply andb_false_iff in E. destruct E; b2p; lia.
Qed.
(** The parent's entry, found through its tables. *)
Lemma parent_walk k j e :
  keeps (k_mem k) -> parent_page j e -> 0 <= j < NUSER ->
  exists q, walkpgdir pgdir (j * PGSIZE) false k = Done q k /\ q <> 0 /\ ld32 (k_mem k) q = e.
Proof.
  intros K [Ep _ _] Hj. destruct (user_index j Hj) as (Ha & _ & Hd & Hd'). destruct (PTX_eq (j * PGSIZE)) as [_ Hx].
  rewrite <- (keeps_pte (k_mem k)) in Ep by done. rewrite pte_at_tab in Ep. destruct (tab (k_mem k) pgdir (PDX (j * PGSIZE))) as [t|] eqn:Et; [|done].
  injection Ep as Ee. exists (t + 4 * PTX (j * PGSIZE)). split; [apply walk_found; [apply (vo_space _ _ _ Ok0)|done]|]. split; [|done].
  rewrite Hd, (keeps_tab (k_mem k)) in Et by done. destruct (sp_tab _ _ (vo_space _ _ _ Ok0) _ _ Hd' Et) as [[_ Ht] _]. lia.
Qed.

(** One turn of the loop of [copyuvm]. *)
Lemma copy_turn k l d j e :
  child k l d -> parent_page j e -> 0 <= j < NUSER -> translate (k_mem k) d (j * PGSIZE) = None -> (2 <= length l)%nat ->
  exists i k' l',
    (forall n sz, j * PGSIZE < sz -> copy_loop (S n) pgdir d (j * PGSIZE) sz k = copy_loop n pgdir d ((j + 1) * PGSIZE) sz k') /\
    vm_step d k l k' l' /\ (length l <= length l' + 2)%nat /\ i ∈ l /\ i ∉ l' /\ copied k' l' d j i e /\
    forall j', 0 <= j' < 2 ^ 20 -> j' <> j -> same_pte d (k_mem k) (k_mem k') (j' * PGSIZE).
Proof.
  intros [Ok K W] Hpp Hj Hun Hl. pose proof Hpp as [Ep Hpr [Hpf Hnf]]. destruct (user_index j Hj) as (Ha & Hq & Hd & Hd'). destruct l as [|i l]; [simpl in Hl; lia|].
  destruct (copy_frame k i l d (P2V (PTE_ADDR e)) Ok Hpf) as (k1 & Hk & Hs & Hi & Hno & Hb & Hpte).
  { destruct (W (page_addr i)) as (a & Hal & E); [right; exists i; by split; [left|]|]. apply page_addr_inj in E as <-. by apply Hnf. }
  set (k2 := upd_mem (memmove (page_addr i) (P2V (PTE_ADDR e)) PGSIZE) k1) in *.
  assert (i ∉ l) as Hni by (pose proof (ki_nodup _ _ (vo_kmem _ _ _ Ok)) as N; by apply NoDup_cons in N as [? _]).
  pose proof (PTE_FLAGS_range e) as Hfl. change MAXPAGES with 57344 in Hi.
  destruct (map_range k2 l d j 1 (Z.of_nat i) (PTE_FLAGS e)) as (k3 & l3 & Hm & Hs3 & Hl3 & P3 & O3); try done; try lia.
  - apply Hs.
  - change NUSER with 524288 in Hj. lia.
  - intros a Hat. replace a with j by lia. unfold translate. by rewrite Hpte.
  - replace (j + 1 - 1) with j by lia. simpl in Hl. lia.
  - replace (j + 1 - 1) with j in Hl3 by lia. exists i, k3, l3. destruct (vs_free _ _ _ _ _ Hs3) as [u Eu].
    split; [|split; [by eapply vm_step_trans|split; [simpl; lia|split; [left|split; [subst l; set_solver|split]]]]].
    + intros n sz Hlt. simpl copy_loop. destruct (Z.ltb_spec (j * PGSIZE) sz); [|lia]. cbn [negb].
      destruct (parent_walk k j e K Hpp Hj) as (q & Hw & Hq0 & Ee). rewrite (bind_Done _ _ _ _ _ Hw). destruct (Z.eqb_spec q 0); [done|].
      rewrite (bind_Done _ _ _ _ _ (read32_run _ _)), Ee, Hpr. cbn [negb]. rewrite (bind_Done _ _ _ _ _ Hk).
      destruct (Z.eqb_spec (page_addr i) 0) as [E0|_]; [unfold page_addr, KERNBASE, PGSIZE in E0; lia|]. rewrite bind_modify. fold k2.
      rewrite page_addr_V2P by done. replace PGSIZE with (1 * PGSIZE) at 1 by lia. rewrite (bind_Done _ _ _ _ _ Hm). change (0 <? 0) with false. cbv iota.
      f_equal. change NUSER with 524288 in Hj. unfold PGSIZE in *. rewrite u32_small; lia.
    + split; [|done| |].
      * rewrite P3 by lia. f_equal. f_equal. rewrite page_addr_V2P by done. f_equal. lia.
      * intros H. apply Hno. by apply (vs_owned _ _ _ _ _ Hs3).
      * intros x Hx. rewrite (step_unowned d k2 l k3 l3 i); [|apply Hs|done|done|done|unfold in_page; lia]. rewrite Hb by done.
        apply (keeps_page (k_mem k) (P2V (PTE_ADDR e))); try done. unfold in_page. lia.
    + intros j' Hj' Hne. eapply same_pte_trans; [left; apply Hpte; unfold PGSIZE; lia|]. apply O3; [done|lia].
Qed.

Lemma copy_loop_run d (pe : Z -> Z) c : forall n k l j sz,
  child k l d -> 0 <= j -> j + Z.of_nat c <= NUSER -> (c <= n)%nat -> (j + Z.of_nat c - 1) * PGSIZE < sz \/ c = O -> sz <= (j + Z.of_nat c) * PGSIZE ->
  (forall a, j <= a < j + Z.of_nat c -> parent_page a (pe a) /\ translate (k_mem k) d (a * PGSIZE) = None) -> (2 * c <= length l)%nat ->
  exists k' l' fr, copy_loop n pgdir d (j * PGSIZE) sz k = Done d k' /\ vm_step d k l k' l' /\
    length fr = c /\ NoDup fr /\ (forall i, i ∈ fr -> i ∈ l) /\
    (forall t i, fr !! t = Some i -> copied k' l' d (j + Z.of_nat t) i (pe (j + Z.of_nat t))) /\
    forall a, 0 <= a < 2 ^ 20 -> a < j \/ j + Z.of_nat c <= a -> same_pte d (k_mem k) (k_mem k') (a * PGSIZE).
Proof.
  induction c as [|c IH]; intros n k l j sz Ch Hj Hjc Hn Hlo Hhi Hpp Hl.
  - exists k, l, []. assert (copy_loop n pgdir d (j * PGSIZE) sz k = Done d k) as ->.
    { unfold PGSIZE in *. destruct n; simpl; (destruct (Z.ltb_spec (j * 4096) sz); [lia|done]). }
    split_and!; try done; [apply vm_step_refl, Ch|apply NoDup_nil_2|intros i Hi; by apply not_elem_of_nil in Hi|]. intros. by left.
  - destruct n as [|n]; [lia|]. destruct Hlo as [Hlo|]; [|done]. destruct (Hpp j ltac:(lia)) as [Pj Uj].
    destruct (copy_turn k l d j (pe j) Ch Pj ltac:(lia) Uj ltac:(lia)) as (i & k1 & l1 & Hrun & Hs & Hlen & Hin & Hni & Hcp & Hoth).
    destruct (IH n k1 l1 (j + 1) sz) as (k2 & l2 & fr & Hrun2 & Hs2 & Hfl & Hnd & Hfi & Hfu & Hoth2);
      [by eapply child_step|lia|lia|lia| |replace (j + 1 + Z.of_nat c) with (j + Z.of_nat (S c)) by lia; lia| |lia|].
    { left. replace (j + 1 + Z.of_nat c - 1) with (j + Z.of_nat (S c) - 1) by lia. lia. }
    { intros a Ha. destruct (Hpp a ltac:(lia)) as [Pa Ua]. split; [done|]. rewrite (same_pte_translate _ (k_mem k)); [done|].
      change NUSER with 524288 in Hjc. apply Hoth; lia. }
    destruct (vs_free _ _ _ _ _ Hs) as [u Eu]. change NUSER with 524288 in Hjc.
    exists k2, l2, (i :: fr). rewrite Hrun by (unfold PGSIZE in *; lia). split; [done|]. split; [by eapply vm_step_trans|]. split; [simpl; lia|].
    split; [apply NoDup_cons; split; [intros H; by apply Hni, Hfi|done]|].
    split; [intros x [->|Hx]%elem_of_cons; [done|]; rewrite Eu; apply elem_of_app; right; by apply Hfi|]. split.
    + intros [|t] x Hx; [|replace (j + Z.of_nat (S t)) with (j + 1 + Z.of_nat t) by lia; by apply Hfu]. injection Hx as <-. rewrite Z.add_0_r.
      eapply copied_step; [apply Hs|done| |done]. apply Hoth2; lia.
    + intros a Ha Hne. eapply same_pte_trans; [apply Hoth; lia|]. apply Hoth2; [done|lia].
Qed.

End Parent.
Lemma pte_at_page m pd va : 0 <= va < 2 ^ 32 -> pte_at m pd va = pte_at m pd (va / PGSIZE * PGSIZE).
Proof.
  intros Hva. pose proof (Z.div_mod va PGSIZE ltac:(done)) as H1. pose proof (Z.mod_pos_bound va PGSIZE ltac:(done)) as H2.
  unfold PGSIZE in *. assert (0 <= va / 4096 * 4096 < 2 ^ 32) as Hva' by lia.
  destruct (PDX_eq va Hva) as [Ed _], (PTX_eq va) as [Ex _], (PDX_eq _ Hva') as [Ed' _], (PTX_eq (va / 4096 * 4096)) as [Ex' _].
  rewrite Z.div_mul in Ed', Ex' by done. unfold pte_at. by rewrite Ed, Ex, Ed', Ex'.
Qed.

(** What the processor finds on a copied page. *)
Lemma copied_translate k0 k l d i e va :
  0 <= va < 2 ^ 32 -> copied k0 k l d (va / PGSIZE) i e ->
  translate (k_mem k) d va = Some (page_addr i + va mod PGSIZE) /\
  k_mem k (page_addr i + va mod PGSIZE) = k_mem k0 (P2V (PTE_ADDR e) + va mod PGSIZE).
Proof.
  intros Hva [Ep Hi _ Hb]. pose proof (PTE_FLAGS_range e). change MAXPAGES with 57344 in Hi.
  split; [|apply Hb, Z.mod_pos_bound; done]. unfold translate. rewrite pte_at_page, Ep by done. rewrite page_addr_V2P by done.
  destruct (entry_facts (Z.of_nat i * PGSIZE) (PTE_FLAGS e)) as (_ & -> & ->); unfold PGSIZE in *; try lia; [by rewrite Z.mod_mul|].
  f_equal. f_equal. unfold P2V, page_addr, KERNBASE, PGSIZE. rewrite u32_small; lia.
Qed.

(** The entry of page [j]. *)
Definition entry_of (k : kernel) (pgdir j : Z) : Z := default 0 (pte_at (k_mem k) pgdir (j * PGSIZE)).

Lemma user_not_kernel j : 0 <= j < NUSER -> ~ kernel_page j.
Proof.
  intros Hj [H|H]; [change (KERNBASE / PGSIZE) with NUSER in H; lia|]. change (DEVSPACE / PGSIZE) with 0xfe000 in H. change NUSER with 0x80000 in Hj. lia.
Qed.
Lemma copy_pages sz : 0 <= sz < KERNBASE ->
  let c := Z.to_nat ((sz + PGSIZE - 1) / PGSIZE) in
  Z.of_nat c = (sz + PGSIZE - 1) / PGSIZE /\ Z.of_nat c <= NUSER /\ (c <= pages sz)%nat /\
  ((Z.of_nat c - 1) * PGSIZE < sz \/ c = O) /\ sz <= Z.of_nat c * PGSIZE.
Proof.
  intros Hsz c. unfold c, pages. change NUSER with 524288. unfold PGSIZE, KERNBASE in *. pose proof (Z.div_mod (sz + 4096 - 1) 4096 ltac:(done)).
  pose proof (Z.mod_pos_bound (sz + 4096 - 1) 4096 ltac:(done)). pose proof (Z.div_mod sz 4096 ltac:(done)). pose proof (Z.mod_pos_bound sz 4096 ltac:(done)). lia.
Qed.

Lemma copyuvm_run k l pgdir sz :
  let c := (sz + PGSIZE - 1) / PGSIZE in
  vm_ok k l pgdir -> 0 <= sz < KERNBASE -> (forall j, 0 <= j < c -> parent_page k l pgdir j (entry_of k pgdir j)) -> 73 + 2 * c <= Z.of_nat (length l) ->
  exists d k' l' fr, copyuvm pgdir sz k = Done d k' /\ child k l k' l' d /\ mem_only k k' /\ (forall i, i ∈ l' -> i ∈ l) /\
    NoDup fr /\ Z.of_nat (length fr) = c /\ (forall i, i ∈ fr -> i ∈ l) /\
    (forall j i, fr !! j = Some i -> copied k k' l' d (Z.of_nat j) i (entry_of k pgdir (Z.of_nat j))) /\
    (forall j, kernel_page j -> pte_at (k_mem k') d (j * PGSIZE) = Some (Z.lor (kernel_phys j) (Z.lor (kernel_perm j) PTE_P))) /\
    forall j, c <= j < 2 ^ 20 -> ~ kernel_page j -> translate (k_mem k') d (j * PGSIZE) = None.
Proof.
  intros c Ok Hsz Hpp Hl. destruct (copy_pages sz Hsz) as (Ec & Hc1 & Hc2 & Hc3 & Hc4). fold c in Ec, Hc1, Hc2, Hc3, Hc4.
  destruct l as [|i l]; [simpl in Hl; lia|]. pose proof Ok as [U Inv _ _].
  destruct (setupkvm_run k i l U Inv) as (k1 & k2 & l2 & Hr2 & Mo1 & Em1 & Ow1 & Ok1 & Hs2 & Hl2 & Km & Kn); [simpl in Hl; lia|].
  assert (child k (i :: l) k2 l2 (page_addr i)) as Ch2.
  { eapply child_step; [|exact Hs2]. split; [done| |exact Ow1]. intros x Hx. rewrite Em1. apply memset_out. apply Hx. left. }
  destruct (copy_loop_run k (i :: l) pgdir Ok (page_addr i) (entry_of k pgdir) (Z.to_nat c) (pages sz) k2 l2 0 sz)
    as (k3 & l3 & fr & Hr3 & Hs3 & Hfl & Hnd & Hfi & Hfu & Hoth); [exact Ch2|lia|lia|exact Hc2|exact Hc3|exact Hc4| |simpl in Hl; lia|].
  { intros a Ha. split; [apply Hpp; lia|]. apply Kn; [change NUSER with 524288 in Hc1; lia|]. apply user_not_kernel. lia. }
  destruct (vs_free _ _ _ _ _ Hs2) as [u2 Eu2], (vs_free _ _ _ _ _ Hs3) as [u3 Eu3].
  assert (Z.of_nat (Z.to_nat c) = c) as Ez by lia. rewrite Ez in Hoth.
  exists (page_addr i), k3, l3, fr. split; [|split; [by eapply child_step|split; [|split; [|split; [done|split; [lia|split; [|split; [exact Hfu|split]]]]]]]].
  - unfold copyuvm. rewrite (bind_Done _ _ _ _ _ Hr2). destruct (sp_pd _ _ (vo_space _ _ _ Ok1)) as [_ Hp].
    destruct (Z.eqb_spec (page_addr i) 0); [lia|]. exact Hr3.
  - eapply mem_only_trans; [exact Mo1|]. eapply mem_only_trans; [exact (vs_rest _ _ _ _ _ Hs2)|exact (vs_rest _ _ _ _ _ Hs3)].
  - intros a Ha. right. rewrite Eu2, Eu3, !elem_of_app. auto.
  - intros a Ha. right. rewrite Eu2, elem_of_app. auto.
  - intros j Hj. eapply same_pte_Some; [|by apply Km]. assert (~ (0 <= j < NUSER)) as Hnj by (intros H; by apply (user_not_kernel j)).
    change NUSER with 0x80000 in *. destruct Hj as [Hj|Hj]; [change ((KERNBASE + PHYSTOP) / PGSIZE) with 0x8e000 in Hj; change (KERNBASE / PGSIZE) with 0x80000 in Hj|
      change (DEVSPACE / PGSIZE) with 0xfe000 in Hj]; apply Hoth; lia.
  - intros j Hj Hn. rewrite (same_pte_translate _ (k_mem k2)); [apply Kn; [lia|done]|]. apply Hoth; lia.
Qed.

(** C99: fork's copy.  With free pages enough, [copyuvm] gives the child an
    address space of its own: every page of the parent below [sz] has a frame
    in the child, taken off the free list and used for nothing else, with the
    parent's bytes; the kernel's half is mapped as [kmap] says, with the text
    read-only, and nothing else is mapped.  The parent's address space is
    intact: nothing changes outside pages that were free. *)
Theorem copyuvm_copies k l pgdir sz :
  let c := (sz + PGSIZE - 1) / PGSIZE in
  vm_ok k l pgdir -> 0 <= sz < KERNBASE -> (forall j, 0 <= j < c -> exists e, parent_page k l pgdir j e) ->
  73 + 2 * c <= Z.of_nat (length l) ->
  exists d k' l' fr, copyuvm pgdir sz k = Done d k' /\ vm_ok k' l' d /\ vm_ok k' l' pgdir /\ mem_only k k' /\
    NoDup fr /\ (forall i, i ∈ fr -> i ∈ l /\ i ∉ l') /\
    (forall va, 0 <= va < c * PGSIZE -> exists a i, translate (k_mem k) pgdir va = Some a /\ fr !! Z.to_nat (va / PGSIZE) = Some i /\
       translate (k_mem k') d va = Some (page_addr i + va mod PGSIZE) /\ k_mem k' (page_addr i + va mod PGSIZE) = k_mem k a) /\
    (forall j, kernel_page j -> pte_at (k_mem k') d (j * PGSIZE) = Some (Z.lor (kernel_phys j) (Z.lor (kernel_perm j) PTE_P))) /\
    (forall va, c * PGSIZE <= va < 2 ^ 32 -> ~ kernel_page (va / PGSIZE) -> translate (k_mem k') d va = None) /\
    forall x, (forall i, i ∈ l -> ~ in_page (page_addr i) x) -> k_mem k' x = k_mem k x.
Proof.
  intros c Ok Hsz Hpp Hl.
  assert (forall j, 0 <= j < c -> parent_page k l pgdir j (entry_of k pgdir j)) as Hpe.
  { intros j Hj. destruct (Hpp j Hj) as [e He]. unfold entry_of. by rewrite (pp_pte _ _ _ _ _ He). }
  destruct (copy_pages sz Hsz) as (Ec & Hc1 & _ & _ & _). fold c in Ec, Hc1.
  assert (c * PGSIZE <= 2 ^ 31) as Hc2 by (change NUSER with 524288 in Hc1; unfold PGSIZE; lia).
  destruct (copyuvm_run k l pgdir sz Ok Hsz Hpe Hl) as (d & k' & l' & fr & Hrun & [Okd K W] & Mo & Hl' & Hnd & Hlen & Hfi & Hcp & Hker & Hno).
  exists d, k', l', fr. pose proof Okd as [U I _ _]. do 2 (split; [done|]). split; [by eapply keeps_ok|]. do 2 (split; [done|]).
  split; [|split; [|split; [done|split; [|done]]]].
  - intros i Hi. split; [by apply Hfi|]. intros Hi'. apply list_elem_of_lookup in Hi as [j Hj]. apply (cp_own _ _ _ _ _ _ _ (Hcp j i Hj)). right. by exists i.
  - intros va Hva. pose proof (Z.div_mod va PGSIZE ltac:(done)) as Hdm. pose proof (Z.mod_pos_bound va PGSIZE ltac:(done)) as Hmb.
    assert (0 <= va / PGSIZE < c) as Hj by (unfold PGSIZE in *; lia). assert (0 <= va < 2 ^ 32) as Hva' by lia.
    destruct (lookup_lt_is_Some_2 fr (Z.to_nat (va / PGSIZE))) as [i Hi]; [lia|]. pose proof (Hcp _ _ Hi) as Hcopy. rewrite Z2Nat.id in Hcopy by lia.
    destruct (copied_translate k k' l' d i _ va Hva' Hcopy) as [Ht Hb]. destruct (Hpe _ Hj) as [Ep Hpr _].
    exists (P2V (PTE_ADDR (entry_of k pgdir (va / PGSIZE))) + va mod PGSIZE), i. split; [|done]. unfold translate. by rewrite pte_at_page, Ep, Hpr.
  - intros va Hva Hn. unfold translate. assert (0 <= va < 2 ^ 32) as Hva' by (unfold PGSIZE in *; lia). rewrite pte_at_page by done.
    pose proof (Hno (va / PGSIZE)) as H. unfold translate in H. revert H. destruct (pte_at _ _ _) as [e|]; [|done]. destruct (present e); [|done].
    intros H. exfalso. discriminate H; [|done]. pose proof (Z.div_mod va PGSIZE ltac:(done)). pose proof (Z.mod_pos_bound va PGSIZE ltac:(done)).
    unfold PGSIZE in *. lia.
Qed.
End Copy.

(** ** Witness *)

(** [n] free pages from page 1024 on. *)
Fixpoint demo_free (n : nat) : kernel :=
  match n with
  | O => zero_kernel
  | S n => upd_kmem (@pushed_kmem (demo_image true) 1 (1024 + n) (Run 0 None)) (demo_free n)
  end.
Fixpoint free_pages (n : nat) : list nat := match n with O => [] | S n => (1024 + n)%nat :: free_pages n end.
Lemma free_pages_range n i : i ∈ free_pages n -> (1024 <= i < 1024 + n)%nat.
Proof.
  induction n as [|n IH]; cbn [free_pages]; [intros H; by apply not_elem_of_nil in H|]. intros [E|H]%elem_of_cons; [lia|]. specialize (IH H). lia.
Qed.
Lemma length_free_pages n : length (free_pages n) = n.
Proof. induction n as [|n IH]; simpl; [done|by rewrite IH]. Qed.

Lemma demo_free_ok n : (n <= 900)%nat ->
  @kmem_inv (demo_image true) (demo_free n) (free_pages n) /\ k_mem (demo_free n) = (fun _ => 0) /\
  k_held (demo_free n) = ∅ /\ forall i, (1024 + n <= i)%nat -> Z.of_nat i < 57344 -> runs (k_kmem (demo_free n)) !! i = Some (Run 0 None).
Proof.
  induction n as [|n IH]; intros Hn.
  - split; [|split; [reflexivity|split; [reflexivity|]]].
    + split; [|constructor|constructor|intros i Hi; by apply not_elem_of_nil in Hi|discriminate].
      cbn [demo_free zero_kernel k_kmem runs]. rewrite length_replicate. apply Z2Nat.id. change MAXPAGES with 57344. lia.
    + intros i Hi Hi2. cbn [demo_free zero_kernel k_kmem runs]. apply lookup_replicate_2. change (PHYSTOP / PGSIZE) with 57344. lia.
  - destruct (IH ltac:(lia)) as (I & Em & Eh & Hr). split; [|split; [exact Em|split; [exact Eh|]]].
    + apply (@kmem_inv_push (demo_image true) (demo_free n) (1024 + n) (Run 0 None) 1 (free_pages n)).
      * exact I.
      * apply Hr; lia.
      * intros H. apply free_pages_range in H. lia.
      * change (@end_ (demo_image true)) with (page_addr 400). unfold page_addr, PGSIZE. lia.
      * change MAXPAGES with 57344. lia.
      * discriminate.
    + intros i Hi Hi2. cbn [demo_free]. unfold pushed_kmem. cbn [last_ref original demo_image orb upd_kmem set_k_kmem k_kmem set_freelist set_runs runs].
      rewrite list_lookup_insert_ne by lia. apply Hr; lia.
Qed.
Lemma demo_free_vm n : (n <= 900)%nat -> @vm_ok (demo_image true) (demo_free n) (free_pages n) demo_pd.
Proof.
  intros Hn. destruct (demo_free_ok n Hn) as (I & Em & Eh & _).
  destruct (zero_space (fun _ => 0) demo_pd) as [Sp Ht]; [apply page_page_addr; change MAXPAGES with 57344; lia|reflexivity|].
  split; [intros _; rewrite Eh; apply not_elem_of_empty|exact I|rewrite Em; exact Sp|]. rewrite Em.
  intros i Hi [E|(j & Hj & E)]; [|rewrite Ht in E by lia; discriminate E]. apply page_addr_inj in E. apply free_pages_range in Hi. lia.
Qed.

Lemma copyuvm_copies_witness : exists k d k', @copyuvm (demo_image true) demo_pd 100 k = Done d k' /\ k_held k' = k_held k.
Proof.
  destruct (@alloc_turn (demo_image true) (demo_free 100) (free_pages 100) demo_pd 0) as (i & k & l & _ & Hs & Hlen & _ & Hni & Hu & _);
    [apply demo_free_vm; lia|lia|reflexivity| |rewrite length_free_pages; lia|].
  { unfold translate. destruct (demo_free_ok 100 ltac:(lia)) as (_ & -> & _). reflexivity. }
  rewrite length_free_pages in Hlen. pose proof (vs_ok _ _ _ _ _ Hs) as Ok. destruct Hu as [Hp Hi Ho _]. change MAXPAGES with 57344 in Hi.
  destruct (entry_facts (V2P (page_addr i)) (Z.lor PTE_W PTE_U)) as (_ & Hpr & Ead);
    [rewrite page_addr_V2P by exact Hi; unfold PGSIZE; apply Z.mod_mul; lia|rewrite page_addr_V2P by exact Hi; unfold PGSIZE; lia|change (Z.lor PTE_W PTE_U) with 6; lia|].
  destruct (@copyuvm_copies (demo_image true) (demo_image_ok true) k l demo_pd 100) as (d & k' & l' & fr & Hrun & _ & _ & Mo & _).
  - exact Ok.
  - change KERNBASE with 2147483648. lia.
  - intros j Hj. change ((100 + PGSIZE - 1) / PGSIZE) with 1 in Hj. replace j with 0 by lia. eexists. split; [exact Hp|exact Hpr|].
    rewrite Ead. replace (P2V (V2P (page_addr i))) with (page_addr i).
    + split; [apply page_page_addr; exact Hi|]. intros a Ha E. apply page_addr_inj in E. subst a. exact (Hni Ha).
    + rewrite page_addr_V2P by exact Hi. unfold P2V, page_addr, KERNBASE, PGSIZE. rewrite u32_small; lia.
  - change ((100 + PGSIZE - 1) / PGSIZE) with 1. lia.
  - exists k, d, k'. split; [exact Hrun|]. destruct Mo as (m & km & ->). reflexivity.
Defined.
