(* ===== verification/File.v ===== *)
(** File: file.c, the table of open files, and [pipealloc] of pipe.c.

    A pointer to an open file is its slot in [ftable.file].  [fileread]
    returns the bytes it stores at [addr] with its result; [filewrite] reads
    the caller's buffer through a function from the offset to the byte. *)

From S2P Require Import Prelude Kernel StringLib Bytes Kalloc ProcCore Pipe Bio FsLayout Log Fs.

Section File.
Context `{Im : Image} `{D : DiskDriver} (fuel : nat) `{DS : Devsw}.

Definition filealloc : M kernel (option nat) :=
  acquire L_ftable ;;;
  let! ft := gets k_ftable in
  match find_idx (fun f => f_ref f =? 0) ft with
  | Some f =>
      modify (upd_file f (set_f_ref 1)) ;;;
      release L_ftable ;;;
      ret (Some f)
  | None =>
      release L_ftable ;;;
      ret None
  end.

Definition filedup (f : nat) : M kernel nat :=
  acquire L_ftable ;;;
  let! x := read_file f in
  if f_ref x <? 1 then panic "filedup" else
  modify (upd_file f (fun x => set_f_ref (i32 (f_ref x + 1)) x)) ;;;
  release L_ftable ;;;
  ret f.

(** [f->ip] where the code uses it without a check *)
Definition file_ip (x : file) : M kernel nat :=
  match f_ip x with
  | Some ip => ret ip
  | None => fault "f->ip"
  end.

Definition fileclose (f : nat) : M kernel unit :=
  acquire L_ftable ;;;
  let! x := read_file f in
  if f_ref x <? 1 then panic "fileclose" else
  modify (upd_file f (fun x => set_f_ref (i32 (f_ref x - 1)) x)) ;;;
  let! ff := read_file f in
  if 0 <? f_ref ff then release L_ftable else
  modify (upd_file f (fun x => set_f_type FD_NONE (set_f_ref 0 x))) ;;;
  release L_ftable ;;;
  match f_type ff with
  | FD_PIPE => pipeclose (f_pipe ff) (f_writable ff)
  | FD_INODE =>
      begin_op fuel ;;;
      let! ip := file_ip ff in
      iput fuel ip ;;;
      end_op fuel
  | FD_NONE => ret tt
  end.

(** The result and the structure stored at [st]. *)
Definition filestat (f : nat) : M kernel (Z * option stat) :=
  let! x := read_file f in
  match f_type x with
  | FD_INODE =>
      ilock fuel (f_ip x) ;;;
      let! ip := file_ip x in
      let! st := stati ip in
      iunlock (f_ip x) ;;;
      ret (0, Some st)
  | _ => ret (-1, None)
  end.

Definition fileread (f : nat) (n : Z) : M kernel (Z * list Z) :=
  let! x := read_file f in
  if f_readable x =? 0 then ret (-1, []) else
  match f_type x with
  | FD_PIPE => piperead fuel (f_pipe x) n
  | FD_INODE =>
      ilock fuel (f_ip x) ;;;
      let! ip := file_ip x in
      let! y := read_file f in
      let! r := readi fuel ip (f_off y) (u32 n) in
      when (0 <? r.1) (modify (upd_file f (fun x => set_f_off (u32 (f_off x + r.1)) x))) ;;;
      iunlock (f_ip x) ;;;
      ret r
  | FD_NONE => panic "fileread"
  end.

(** [((LOGSIZE-1-1-2) / 2) * 512] *)
Definition filewrite_max : Z := (LOGSIZE - 1 - 1 - 2) / 2 * 512.

(** The loop of [filewrite]: the final value of [i].  Every turn but the last
    one writes [filewrite_max] bytes. *)
Fixpoint filewrite_loop (m f : nat) (addr : Z -> Z) (i n : Z) : M kernel Z :=
  if negb (i <? n) then ret i else
  match m with
  | O => exhausted
  | S m =>
      let n1 := Z.min (n - i) filewrite_max in
      begin_op fuel ;;;
      let! x := read_file f in
      ilock fuel (f_ip x) ;;;
      let! ip := file_ip x in
      let! y := read_file f in
      let! r := writei fuel ip (from addr i) (f_off y) n1 in
      when (0 <? r) (modify (upd_file f (fun x => set_f_off (u32 (f_off x + r)) x))) ;;;
      iunlock (f_ip x) ;;;
      end_op fuel ;;;
      if r <? 0 then ret i else
      if negb (r =? n1) then panic "short filewrite" else
      filewrite_loop m f addr (i + r) n
  end.

Definition filewrite (f : nat) (addr : Z -> Z) (n : Z) : M kernel Z :=
  let! x := read_file f in
  if f_writable x =? 0 then ret (-1) else
  match f_type x with
  | FD_PIPE => pipewrite fuel (f_pipe x) addr n
  | FD_INODE =>
      let! i := filewrite_loop (Z.to_nat (n / filewrite_max + 1)) f addr 0 n in
      ret (if i =? n then n else -1)
  | FD_NONE => panic "filewrite"
  end.

(** ** [pipealloc] *)

(** The label [bad]. *)
Definition pipealloc_bad (p : Z) (f0 f1 : option nat) : M kernel (option (nat * nat)) :=
  when (negb (p =? 0)) (kfree p) ;;;
  match f0 with Some f => fileclose f | None => ret tt end ;;;
  match f1 with Some f => fileclose f | None => ret tt end ;;;
  ret None.

(** The two files, or [None] when the result is -1.  The lock takes the first
    52 bytes of [struct pipe]; [data] keeps what the page held. *)
Definition pipealloc : M kernel (option (nat * nat)) :=
  let! f0 := filealloc in
  match f0 with
  | None => pipealloc_bad 0 None None
  | Some r =>
      let! f1 := filealloc in
      match f1 with
      | None => pipealloc_bad 0 (Some r) None
      | Some w =>
          let! p := kalloc in
          if p =? 0 then pipealloc_bad 0 (Some r) (Some w) else
          modify (fun k => set_k_pipes (<[p := Pipe (load (k_mem k) (p + 52) 512) 0 0 1 1]> (k_pipes k)) k) ;;;
          modify (upd_file r (fun x =>
            set_f_pipe p (set_f_writable 0 (set_f_readable 1 (set_f_type FD_PIPE x))))) ;;;
          modify (upd_file w (fun x =>
            set_f_pipe p (set_f_writable 1 (set_f_readable 0 (set_f_type FD_PIPE x))))) ;;;
          ret (Some (r, w))
      end
  end.

End File.
