(* ===== verification/Proc.v ===== *)
(** Proc: the life cycle of processes in proc.c (sleep, wakeup, sched, yield
    and kill are in ProcCore.v; the schedulers are in Scheduler.v).

    The preprocessor symbol [lottery] is defined by the Makefile's SPEC_FLAGS
    and selects the code WITHOUT tickets; both variants are modelled. *)

From S2P Require Import Prelude Kernel StringLib Bytes Kalloc ProcCore Pipe Bio FsLayout Log Fs Dir File Vm.

Class Build := { lottery : bool }.

(** ** Tickets *)

(** [proc] here is the function's argument; a nice value out of range is
    reset. *)
Definition getTicketAmount (proc : option nat) : M kernel Z :=
  match proc with
  | None => ret 3
  | Some i =>
      let! p := read_proc i in
      let nice := p_nice p in
      if 139 <? nice then modify (upd_proc i (set_p_nice 120)) ;;; ret 3
      else if nice =? 139 then ret 1
      else if 129 <? nice then ret 2
      else if 119 <? nice then ret 3
      else if 109 <? nice then ret 4
      else if 100 <? nice then ret 5
      else if nice =? 100 then ret 6
      else modify (upd_proc i (set_p_nice 120)) ;;; ret 3
  end.

Definition add_tickets (n : Z) : M kernel unit :=
  modify (upd_sched (fun sc => set_totalTickets (i32 (totalTickets sc + n)) sc)).

(** The amount is taken from the global [proc], the current process. *)
Definition updateNice (nice : Z) (p : nat) : M kernel Z :=
  modify (upd_proc p (set_p_nice (i32 (120 + nice)))) ;;;
  let! cur := gets (fun k => curproc (k_sched k)) in
  let! amount := getTicketAmount cur in
  if amount <? 0 then ret (-1) else
  let! x := read_proc p in
  add_tickets (- p_tickets x) ;;;
  modify (upd_proc p (set_p_tickets amount)) ;;;
  add_tickets amount ;;;
  ret 0.

Section Proc.
Context `{Im : Image} `{Bd : Build} `{D : DiskDriver} (fuel : nat) `{DS : Devsw}.

(** ** Allocation *)

(** [sizeof(struct trapframe)] and [sizeof(struct context)] *)
Definition TF_SIZE : Z := 76.
Definition CONTEXT_SIZE : Z := 20.

(** The label [found] of [allocproc]. The trap frame is left as the page of
    the stack has it; both callers overwrite it. *)
Definition allocproc_found (p : nat) : M kernel (option nat) :=
  modify (upd_proc p (set_p_state EMBRYO)) ;;;
  modify (fun k => upd_proc p (set_p_pid (nextpid (k_sched k))) k) ;;;
  modify (upd_sched (fun sc => set_nextpid (i32 (nextpid sc + 1)) sc)) ;;;
  release L_ptable ;;;
  let! kstack := kalloc in
  modify (upd_proc p (set_p_kstack kstack)) ;;;
  if kstack =? 0 then modify (upd_proc p (set_p_state UNUSED)) ;;; ret None else
  write32 (kstack + KSTACKSIZE - TF_SIZE - 4) trapret_addr ;;;
  modify (upd_proc p (set_p_context (set_cx_eip forkret_addr zero_context))) ;;;
  when (negb lottery)
    (modify (upd_proc p (set_p_nice 120)) ;;;
     let! cur := gets (fun k => curproc (k_sched k)) in
     let! t := getTicketAmount cur in
     modify (upd_proc p (set_p_tickets t)) ;;;
     add_tickets t) ;;;
  ret (Some p).

Definition allocproc : M kernel (option nat) :=
  acquire L_ptable ;;;
  let! ps := gets (fun k => procs (k_sched k)) in
  match find_idx (fun p => bool_decide (p_state p = UNUSED)) ps with
  | None => release L_ptable ;;; ret None
  | Some p => allocproc_found p
  end.

(** [(SEG_UCODE << 3) | DPL_USER], [(SEG_UDATA << 3) | DPL_USER], [FL_IF] *)
Definition USER_CS : Z := Z.lor (Z.shiftl 4 3) 3.
Definition USER_DS : Z := Z.lor (Z.shiftl 5 3) 3.
Definition FL_IF : Z := 0x200.

(** [initcode] is the embedded binary; ["initcode"] and ["/"] are the strings
    of the source. *)
Definition initcode_name : list Z := [105; 110; 105; 116; 99; 111; 100; 101].
Definition user_tf : trapframe :=
  set_tf_cs USER_CS (set_tf_ds USER_DS (set_tf_es USER_DS (set_tf_ss USER_DS
    (set_tf_eflags FL_IF (set_tf_esp PGSIZE (set_tf_eip 0 zero_tf)))))).

Definition userinit (initcode : list Z) : M kernel unit :=
  let! op := allocproc in
  modify (upd_sched (set_initproc op)) ;;;
  match op with
  | None => fault "userinit: p"
  | Some p =>
      let! pgdir := setupkvm in
      modify (upd_proc p (set_p_pgdir pgdir)) ;;;
      if pgdir =? 0 then panic "userinit: out of memory?" else
      inituvm pgdir initcode (Z.of_nat (length initcode)) ;;;
      modify (upd_proc p (fun x => set_p_tf user_tf (set_p_sz PGSIZE x))) ;;;
      modify (upd_proc p (fun x =>
        set_p_name (list_inserts 0 (safestrcpy (of_list initcode_name) 16) (p_name x)) x)) ;;;
      let! cwd := namei fuel [SLASH] in
      modify (upd_proc p (fun x => set_p_state RUNNABLE (set_p_cwd cwd x)))
  end.

Definition growproc (n : Z) : M kernel Z :=
  let! i := myproc in
  let! p := read_proc i in
  let! sz :=
    (if 0 <? n then allocuvm (p_pgdir p) (p_sz p) (u32 (p_sz p + n))
     else if n <? 0 then deallocuvm (p_pgdir p) (p_sz p) (u32 (p_sz p + n))
     else ret (p_sz p)) in
  if negb (n =? 0) && (sz =? 0) then ret (-1) else
  modify (upd_proc i (set_p_sz sz)) ;;;
  switchuvm i ;;;
  ret 0.

(** ** [fork] *)

(** The loop over the open files, [n] descriptors from [i] on. *)
Fixpoint dup_files (cur np i n : nat) : M kernel unit :=
  match n with
  | O => ret tt
  | S n =>
      let! p := read_proc cur in
      match p_ofile p !! i with
      | Some (Some f) =>
          let! f := filedup f in
          modify (upd_proc np (fun x => set_p_ofile (<[i := Some f]> (p_ofile x)) x))
      | _ => ret tt
      end ;;;
      dup_files cur np (S i) n
  end.

(** [original] selects [copyuvm]; otherwise fork is copy-on-write. *)
Definition fork : M kernel Z :=
  let! onp := allocproc in
  match onp with
  | None => ret (-1)
  | Some np =>
      let! cur := myproc in
      let! p := read_proc cur in
      let! pgdir := (if original then copyuvm (p_pgdir p) (p_sz p) else cowuvm (p_pgdir p) (p_sz p)) in
      modify (upd_proc np (set_p_pgdir pgdir)) ;;;
      if pgdir =? 0 then
        let! x := read_proc np in
        kfree (p_kstack x) ;;;
        modify (upd_proc np (fun x => set_p_state UNUSED (set_p_kstack 0 x))) ;;;
        ret (-1)
      else
        modify (upd_proc np (fun x =>
          set_p_tf (set_tf_eax 0 (p_tf p)) (set_p_parent (Some cur) (set_p_sz (p_sz p) x)))) ;;;
        dup_files cur np 0 NOFILE ;;;
        match p_cwd p with
        | None => fault "proc->cwd"
        | Some c =>
            let! c := idup c in
            modify (upd_proc np (set_p_cwd (Some c)))
        end ;;;
        modify (upd_proc np (fun x =>
          set_p_name (list_inserts 0 (safestrcpy (of_list (p_name p)) 16) (p_name x)) x)) ;;;
        let! x := read_proc np in
        acquire L_ptable ;;;
        modify (upd_proc np (set_p_state RUNNABLE)) ;;;
        release L_ptable ;;;
        ret (p_pid x)
  end.

(** ** [exit] and [wait] *)

Fixpoint close_files (cur fd n : nat) : M kernel unit :=
  match n with
  | O => ret tt
  | S n =>
      let! p := read_proc cur in
      match p_ofile p !! fd with
      | Some (Some f) =>
          fileclose fuel f ;;;
          modify (upd_proc cur (fun x => set_p_ofile (<[fd := None]> (p_ofile x)) x))
      | _ => ret tt
      end ;;;
      close_files cur (S fd) n
  end.

(** [wakeup1] of a pointer to a process, which may be null: no modelled
    channel is null, and a sleeper always has a channel. *)
Definition wakeup_proc (p : option nat) : M kernel unit :=
  match p with
  | Some i => wakeup1 (C_proc i)
  | None =>
      modify (upd_sched (fun sc => set_procs (map (fun p =>
        if bool_decide (p_state p = SLEEPING) && bool_decide (p_chan p = None)
        then set_p_state RUNNABLE p else p) (procs sc)) sc))
  end.

(** [n] slots from [i] on: abandoned children go to init. *)
Fixpoint reparent (cur i n : nat) : M kernel unit :=
  match n with
  | O => ret tt
  | S n =>
      let! p := read_proc i in
      when (bool_decide (p_parent p = Some cur))
        (let! ini := gets (fun k => initproc (k_sched k)) in
         modify (upd_proc i (set_p_parent ini)) ;;;
         when (bool_decide (p_state p = ZOMBIE)) (wakeup_proc ini)) ;;;
      reparent cur (S i) n
  end.

(** Does not return: [sched] gives up the CPU for good. *)
Definition exit : M kernel unit :=
  let! cur := myproc in
  let! ini := gets (fun k => initproc (k_sched k)) in
  if bool_decide (ini = Some cur) then panic "init exiting" else
  close_files cur 0 NOFILE ;;;
  begin_op fuel ;;;
  let! p := read_proc cur in
  match p_cwd p with
  | None => fault "proc->cwd"
  | Some c => iput fuel c
  end ;;;
  end_op fuel ;;;
  modify (upd_proc cur (set_p_cwd None)) ;;;
  acquire L_ptable ;;;
  let! p := read_proc cur in
  wakeup_proc (p_parent p) ;;;
  reparent cur 0 NPROC ;;;
  modify (upd_proc cur (set_p_state ZOMBIE)) ;;;
  when (negb lottery) (let! p := read_proc cur in add_tickets (- p_tickets p)) ;;;
  sched ;;;
  panic "zombie exit".

(** The body of [wait] for the zombie in slot [i]. *)
Definition reap (i : nat) : M kernel Z :=
  let! p := read_proc i in
  kfree (p_kstack p) ;;;
  modify (upd_proc i (set_p_kstack 0)) ;;;
  freevm (p_pgdir p) ;;;
  modify (upd_proc i (fun x =>
    set_p_killed 0 (set_p_name (<[O := 0]> (p_name x)) (set_p_parent None
      (set_p_pid 0 (set_p_state UNUSED x)))))) ;;;
  release L_ptable ;;;
  ret (p_pid p).

Definition child_of (cur : nat) (p : proc) : bool := bool_decide (p_parent p = Some cur).

(** [for(;;)] of [wait]. *)
Fixpoint wait_loop (f : nat) : M kernel Z :=
  match f with
  | O => exhausted
  | S f =>
      let! cur := myproc in
      let! ps := gets (fun k => procs (k_sched k)) in
      match find_idx (fun p => child_of cur p && bool_decide (p_state p = ZOMBIE)) ps with
      | Some i => reap i
      | None =>
          let! p := read_proc cur in
          if negb (existsb (child_of cur) ps) || negb (p_killed p =? 0) then
            release L_ptable ;;; ret (-1)
          else
            sleep (C_proc cur) (Some L_ptable) ;;;
            wait_loop f
      end
  end.
Definition wait : M kernel Z :=
  acquire L_ptable ;;;
  wait_loop fuel.

(** [first] is the function's static variable; the result is its new value. *)
Definition forkret (first : Z) : M kernel Z :=
  release L_ptable ;;;
  if negb (first =? 0) then
    iinit fuel ROOTDEV ;;;
    initlog fuel ROOTDEV ;;;
    ret 0
  else ret 0.

End Proc.
