(* ===== verification/ProcWait.v ===== *)
(** ProcWait: [wait] of proc.c.  A zombie child is reaped, and everything it
    still held goes back to the allocator; without one the parent sleeps on
    itself, the channel [exit] of a child wakes. *)

From S2P Require Import Prelude Kernel StringLib Bytes Kalloc ProcCore Vm VmProof VmDealloc VmFree Proc.

Section Wait.
Context `{Im : Image} `{Bd : Build}.

(** ** An address space seen from elsewhere in the kernel *)

Lemma user_space_same k k' l pd pf :
  user_space k l pd pf -> k_mem k' = k_mem k -> k_kmem k' = k_kmem k -> kmem_unlocked k' -> user_space k' l pd pf.
Proof.
  intros [[U [I1 I2 I3 I4 I5] S F] P H J T] Em Ek U'. split; rewrite ?Em; try done.
  - split; rewrite ?Em; try done. split; rewrite ?Ek; done.
  - intros j i Hj E. destruct (P j i Hj E) as [M R X O]. split; rewrite ?Em, ?Ek; done.
  - intros p Hp. destruct (T p Hp) as (i & Ei & [R X L]). exists i. split; [done|]. split; rewrite ?Ek; done.
Qed.

(** Giving back a page the address space does not hold. *)
Lemma user_space_kfree k l pd pf i :
  user_space k l pd pf -> live k l i -> ~ holds k pd pf i ->
  exists k', kfree (page_addr i) k = Done tt k' /\ frees (eq i) k l k' (i :: l) /\ user_space k' (i :: l) pd pf /\
    (forall a, ~ in_page (page_addr i) a -> k_mem k' a = k_mem k a) /\ (forall a, holds k' pd pf a <-> holds k pd pf a).
Proof.
  intros Us [[[Hi0 Hi] He] (x & Hx & Href) Hni] Hh. pose proof (us_ok _ _ _ _ Us) as Ok.
  destruct (kfree_frame k l pd i x Ok Hi He Hx Href) as (k' & Hrun & Ok' & M & P & T & R & Mo).
  { intros [Ht|(j & Hj & E)]; [apply Hh; by right|]. apply page_addr_inj in E as <-. done. }
  assert (forall p, table_page (k_mem k') pd p -> table_page (k_mem k) pd p) as Tp by (intros p; by apply table_page_tab).
  exists k'. split; [done|]. split; [|split; [|split; [done|]]].
  - destruct Ok' as [U I _ _]. split; try done; [|intros j Hne; apply R; congruence]. intros j. rewrite elem_of_cons. intuition.
  - destruct Us as [_ Up Uh Uj Ut]. split; [done| | |done|].
    + intros j a Hj E. apply (mapped_frame_keep k l); [by apply Up| | |done|].
      * intros ->. apply Hh. left. exists j. by split; [lia|].
      * apply P. by apply user_index.
      * apply R. intros ->. apply Hh. left. exists j. by split; [lia|].
    + intros j e Hj E. rewrite P by (by apply user_index). by apply Uh.
    + intros p Hp. destruct (Ut p (Tp p Hp)) as (a & -> & La). exists a. split; [done|].
      assert (a <> i) by (intros ->; apply Hh; right; by apply Tp).
      apply (live_keep k l); [done|by apply R|]. rewrite elem_of_cons. intros [|Hf]; [done|]. by apply (lv_free _ _ _ La).
  - intros a. unfold holds. split; (intros [H|H]; [by left|right]); [by apply Tp|]. revert H. apply table_page_tab. intros; symmetry; by apply T.
Qed.

(** ** A zombie *)

(** The slot [wait] leaves behind. *)
Definition cleared (x : proc) : proc :=
  set_p_killed 0 (set_p_name (<[O := 0]> (p_name x)) (set_p_parent None (set_p_pid 0 (set_p_state UNUSED x)))).
Definition reaped (p : proc) : proc := cleared (set_p_kstack 0 p).

(** A process that has exited, in slot [i]: a kernel stack and an address
    space of its own, and the pages they are made of. *)
Record corpse (k : kernel) (l : list nat) (i : nat) (p : proc) (st : nat) (pf : Z -> option nat) : Prop := {
  co_slot : procs (k_sched k) !! i = Some p;
  co_stack : p_kstack p = page_addr st;
  co_live : live k l st;
  co_space : user_space k l (p_pgdir p) pf;
  co_apart : ~ holds k (p_pgdir p) pf st
}.
(** The pages it still holds. *)
Definition corpse_page (k : kernel) (p : proc) (st : nat) (pf : Z -> option nat) (a : nat) : Prop := a = st \/ holds k (p_pgdir p) pf a.

Record reaping (k : kernel) (l : list nat) (i : nat) (p : proc) (st : nat) (pf : Z -> option nat) (k' : kernel) : Prop := {
  re_kmem : exists l', kmem_inv k' l' /\ forall a, a ∈ l' <-> a ∈ l \/ corpse_page k p st pf a;
  re_mem : forall x, (forall a, corpse_page k p st pf a -> ~ in_page (page_addr a) x) -> k_mem k' x = k_mem k x;
  re_rest : mem_only (upd_proc i reaped k) k'
}.

Lemma upd_proc_twice i f g h k : (forall p, g (f p) = h p) -> upd_proc i g (upd_proc i f k) = upd_proc i h k.
Proof.
  intros E. unfold upd_proc, upd_sched, set_k_sched, set_procs. cbn. f_equal. f_equal. apply list_eq. intros j.
  destruct (decide (i = j)) as [->|]; [|by rewrite !list_lookup_alter_ne]. rewrite !list_lookup_alter_eq.
  destruct (procs (k_sched k) !! j); simpl; by rewrite ?E.
Qed.
Lemma live_held k l i h : live k l i -> live (set_k_held h k) l i.
Proof. intros [R X F]. by split. Qed.

Lemma reap_run k l i p st pf :
  corpse k l i p st pf -> kmem_unlocked k -> L_ptable ∉ k_held k ->
  exists k', reap i (set_k_held ({[L_ptable]} ∪ k_held k) k) = Done (p_pid p) k' /\ reaping k l i p st pf k'.
Proof.
  intros [Hp Hst Hl Hs Ha] U Hh. set (k0 := set_k_held ({[L_ptable]} ∪ k_held k) k).
  assert (kmem_unlocked k0) as U0. { intros Hu Hin. apply (U Hu). revert Hin. simpl. set_solver. }
  assert (user_space k0 l (p_pgdir p) pf) as Us0 by (by apply (user_space_same k)).
  destruct (user_space_kfree k0 l (p_pgdir p) pf st Us0 (live_held _ _ _ _ Hl) Ha) as (k1 & Hr1 & F1 & Us1 & M1 & H1).
  set (k2 := upd_proc i (set_p_kstack 0) k1).
  assert (user_space k2 (st :: l) (p_pgdir p) pf) as Us2 by (apply (user_space_same k1); try done; apply F1).
  assert (forall a, holds k2 (p_pgdir p) pf a <-> holds k (p_pgdir p) pf a) as Hho by exact H1.
  destruct (freevm_run k2 (st :: l) (p_pgdir p) pf Us2) as (k3 & l3 & Hr3 & [_ I3 L3 _ Mo3] & M3).
  destruct (fr_rest _ _ _ _ _ F1) as (m1 & km1 & E1). destruct Mo3 as (m3 & km3 & E3).
  assert (k_held k3 = {[L_ptable]} ∪ k_held k) as Hk3 by (rewrite E3; unfold k2; rewrite E1; reflexivity).
  exists (set_k_held (k_held k) (upd_proc i cleared k3)).
  split; [|split].
  - unfold reap. rewrite (bind_Done _ _ _ p k0); [|unfold read_proc; simpl; by rewrite Hp]. rewrite Hst, (bind_Done _ _ _ _ _ Hr1), bind_modify. fold k2.
    rewrite (bind_Done _ _ _ _ _ Hr3), bind_modify. rewrite bind_release.
    + unfold ret. f_equal. cbn [k_held upd_proc upd_sched set_k_sched]. by rewrite Hk3, held_release_acquire.
    + cbn [k_held upd_proc upd_sched set_k_sched]. rewrite Hk3. apply elem_of_union_l, elem_of_singleton_2, eq_refl.
  - exists l3. split; [by destruct I3|]. intros a. rewrite L3, Hho, elem_of_cons. unfold corpse_page. tauto.
  - intros x Hx. change (k_mem k3 x = k_mem k x). rewrite M3; [|intros a Haa; apply Hx; right; by apply Hho].
    change (k_mem k1 x = k_mem k0 x). apply M1, Hx. by left.
  - exists m3, km3. rewrite E3. unfold k2. rewrite E1. rewrite <- (upd_proc_twice i (set_p_kstack 0) cleared reaped) by reflexivity. reflexivity.
Qed.
(** ** [wait] *)

Definition zombie_child (cur : nat) (p : proc) : bool := child_of cur p && bool_decide (p_state p = ZOMBIE).

Lemma read_proc_run k i p : procs (k_sched k) !! i = Some p -> read_proc i k = Done p k.
Proof. intros H. unfold read_proc. by rewrite H. Qed.
Lemma myproc_run k i : curproc (k_sched k) = Some i -> myproc k = Done i k.
Proof. intros H. unfold myproc. by rewrite H. Qed.

(** C99: [wait].  Called with no lock held, it takes the first child that is a
    zombie: it returns the child's pid, puts exactly the pages the child still
    held, its kernel stack and its address space, on the free list, each
    once, clears the slot, and changes nothing else.  Without a zombie it
    returns -1 and changes nothing when the caller has no child or was
    killed; otherwise the caller sleeps on its own slot, and when it is
    resumed it starts over. *)
Theorem wait_correct fuel k l cur c :
  k_held k = ∅ -> curproc (k_sched k) = Some cur -> procs (k_sched k) !! cur = Some c ->
  (forall i p st pf, corpse k l i p st pf -> find_idx (zombie_child cur) (procs (k_sched k)) = Some i ->
     exists k', wait (S fuel) k = Done (p_pid p) k' /\ reaping k l i p st pf k') /\
  (Forall (fun q => zombie_child cur q = false) (procs (k_sched k)) ->
     if negb (existsb (child_of cur) (procs (k_sched k))) || negb (p_killed c =? 0) then wait (S fuel) k = Done (-1) k
     else exists rest, wait (S fuel) k = Switched (asleep cur (C_proc cur) k) rest /\
       forall k1, resumed cur k1 -> rest k1 = wait fuel (set_k_held ∅ (upd_proc cur (set_p_chan None) k1))).
Proof.
  intros Hh Hc Hp. assert (L_ptable ∉ k_held k) as Hn by (rewrite Hh; apply not_elem_of_empty).
  set (k0 := set_k_held ({[L_ptable]} ∪ k_held k) k).
  assert (wait (S fuel) k = wait_loop (S fuel) k0) as -> by (unfold wait; by rewrite bind_acquire). cbn [wait_loop].
  rewrite (bind_Done _ _ _ _ _ (myproc_run k0 cur Hc)), bind_gets. change (procs (k_sched k0)) with (procs (k_sched k)).
  change (fun p => child_of cur p && _) with (zombie_child cur). split.
  - intros i p st pf Hco ->. apply (reap_run k l i p st pf Hco); [|done]. intros _. rewrite Hh. apply not_elem_of_empty.
  - intros Hz. apply find_idx_None in Hz as ->. rewrite (bind_Done _ _ _ _ _ (read_proc_run k0 cur c Hp)).
    destruct (negb _ || _).
    + rewrite bind_release by (apply elem_of_union_l, elem_of_singleton_2, eq_refl). unfold k0. cbn [k_held set_k_held].
      rewrite held_release_acquire by done. unfold ret. f_equal. by destruct k.
    + eexists. split.
      * unfold bind. rewrite (sleep_run cur (C_proc cur) L_ptable k0 Hc ltac:(by exists c)); [reflexivity|]. unfold k0. rewrite Hh. set_solver.
      * intros k1 Hr. cbv beta. rewrite (sleep_rest_run cur L_ptable k1 Hr). unfold wait. rewrite bind_acquire by apply not_elem_of_empty.
        cbn. f_equal.
Qed.
End Wait.

(** ** Witness *)

(** A running process in slot 0 whose child in slot 1 has exited. *)
Definition demo_zombie : proc :=
  set_p_pid 7 (set_p_state ZOMBIE (set_p_parent (Some 0%nat) (set_p_pgdir demo_pd (set_p_kstack (page_addr 1500) zero_proc)))).
Definition demo_family (g : kernel) : kernel := upd_proc 1 (fun _ => demo_zombie) (upd_sched (set_curproc (Some 0%nat)) g).

Lemma demo_corpse g l i :
  @user_space (demo_image true) g l demo_pd (demo_frame i) -> mem_only demo_vm g ->
  (forall a, a ∈ l \/ holds g demo_pd (demo_frame i) a -> a ∈ [1025%nat; 1024%nat; 2000%nat]) ->
  @corpse (demo_image true) (demo_family g) l 1 demo_zombie 1500 (demo_frame i) /\
  k_held (demo_family g) = ∅ /\ procs (k_sched (demo_family g)) = <[1%nat := demo_zombie]> (procs (k_sched zero_kernel)).
Proof.
  intros Us (m & km & E) Hin.
  assert (procs (k_sched (demo_family g)) = <[1%nat := demo_zombie]> (procs (k_sched zero_kernel))) as Ep by (unfold demo_family; rewrite E; reflexivity).
  assert (k_held (demo_family g) = ∅) as Eh by (unfold demo_family; rewrite E; reflexivity).
  assert (1500%nat ∉ [1025%nat; 1024%nat; 2000%nat]) as Hn by (rewrite !elem_of_cons; intros [H|[H|[H|H]]]; [lia|lia|lia|exact (not_elem_of_nil _ H)]).
  assert (@user_space (demo_image true) (demo_family g) l demo_pd (demo_frame i)) as Us'.
  { apply (user_space_same g); [exact Us|reflexivity|reflexivity|]. intros _. rewrite Eh. apply not_elem_of_empty. }
  split; [|exact (conj Eh Ep)]. split.
  - rewrite Ep. reflexivity.
  - reflexivity.
  - apply demo_live; [exact (vo_kmem _ _ _ (us_ok _ _ _ _ Us'))|lia|]. intros H. apply Hn, Hin. by left.
  - exact Us'.
  - intros H. apply Hn, Hin. right. exact H.
Qed.

Lemma wait_correct_witness : exists g k', @wait (demo_image true) 1 (demo_family g) = Done 7 k' /\ curproc (k_sched k') = Some 0%nat.
Proof.
  destruct demo_user_space as (l & i & Us & Mo & Hin). generalize demo_grown Us Mo Hin. clear Us Mo Hin. intros g Us Mo Hin. exists g.
  destruct (demo_corpse g l i Us Mo Hin) as (Hco & Hh & Hp).
  destruct (@wait_correct (demo_image true) 0 (demo_family g) l 0 zero_proc) as [H _].
  - exact Hh.
  - reflexivity.
  - rewrite Hp. reflexivity.
  - destruct (H 1%nat demo_zombie 1500%nat (demo_frame i) Hco) as (k' & Hrun & Hre).
    + rewrite Hp. vm_compute. reflexivity.
    + exists k'. split; [exact Hrun|]. destruct (re_rest _ _ _ _ _ _ _ Hre) as (m & km & ->). reflexivity.
Defined.
