(* ===== verification/Scheduler.v ===== *)
(** Scheduler: the schedulers of proc.c, the pseudo random numbers of the
    lottery, and the (unused) ticket table.

    A scheduler's [swtch] runs the chosen process until it calls [sched];
    what happens in between is the rely relation of the run.  The loops
    [for(;;)] are cut at a number of rounds. *)

From S2P Require Import Prelude Kernel Kalloc ProcCore Pipe Bio FsLayout Log Fs Dir File Vm Proc.

(** ** [prng]: Blum Blum Shub modulo [M] *)

Definition M_ : Z := 16873.

Definition prng_next (x : Z) : Z := u32 (x * x) mod M_.
Definition prng (upper : Z) : M kernel Z :=
  if upper =? 0 then ret 0 else
  modify (upd_sched (fun sc => set_random_number (prng_next (random_number sc)) sc)) ;;;
  gets (fun k => random_number (k_sched k) mod upper).

(** ** Round robin *)

(** Switch to process [p] and back. *)
Definition run_proc (p : nat) : M kernel unit :=
  modify (upd_sched (set_curproc (Some p))) ;;;
  switchuvm p ;;;
  modify (upd_proc p (set_p_state RUNNING)) ;;;
  swtch ;;;
  modify (upd_sched (set_curproc None)).

(** The [for] loop over the table, [n] slots from [p] on. *)
Fixpoint rr_pass (p n : nat) : M kernel unit :=
  match n with
  | O => ret tt
  | S n =>
      let! x := read_proc p in
      when (bool_decide (p_state x = RUNNABLE)) (run_proc p) ;;;
      rr_pass (S p) n
  end.
Definition rr_round : M kernel unit :=
  acquire L_ptable ;;;
  rr_pass 0 NPROC ;;;
  release L_ptable.

(** [scheduler] with [lottery] defined, [rounds] times around. *)
Fixpoint scheduler (rounds : nat) : M kernel unit :=
  match rounds with
  | O => ret tt
  | S r => rr_round ;;; scheduler r
  end.

(** Round robin until [isLottery] is set. *)
Fixpoint scheduler_rr (rounds : nat) : M kernel unit :=
  match rounds with
  | O => exhausted
  | S r =>
      rr_round ;;;
      let! l := gets (fun k => isLottery (k_sched k)) in
      if negb (l =? 0) then ret tt else scheduler_rr r
  end.

(** ** Lottery *)

(** The loop that looks for the winner, [n] slots from [p] on. *)
Fixpoint lottery_pick (p n : nat) (runningTotal random : Z) : M kernel (option nat) :=
  match n with
  | O => ret None
  | S n =>
      let! x := read_proc p in
      if negb (bool_decide (p_state x = RUNNABLE)) then lottery_pick (S p) n runningTotal random else
      let! t := getTicketAmount (Some p) in
      let runningTotal := i32 (runningTotal + t) in
      if random <? u32 runningTotal then ret (Some p)
      else lottery_pick (S p) n runningTotal random
  end.

Definition lottery_round : M kernel unit :=
  acquire L_ptable ;;;
  let! t := gets (fun k => totalTickets (k_sched k)) in
  let! random := prng (u32 t) in
  let! w := lottery_pick 0 NPROC 0 random in
  match w with
  | Some p => run_proc p
  | None => ret tt
  end ;;;
  release L_ptable.

Fixpoint scheduler_lottery (rounds : nat) : M kernel unit :=
  match rounds with
  | O => exhausted
  | S r =>
      lottery_round ;;;
      let! l := gets (fun k => isLottery (k_sched k)) in
      if l =? 0 then ret tt else scheduler_lottery r
  end.

(** [scheduler] without [lottery]: the two policies in turn. *)
Fixpoint scheduler_dual (rounds turns : nat) : M kernel unit :=
  match turns with
  | O => ret tt
  | S t =>
      let! l := gets (fun k => isLottery (k_sched k)) in
      (if negb (l =? 0) then scheduler_lottery rounds else scheduler_rr rounds) ;;;
      scheduler_dual rounds t
  end.

(** ** The ticket table *)

Inductive ticketstate := AVAILABLE | BOUGHT.
Record TicketHolder := Holder {
  th_totalTickets : Z;
  th_runningTotal : Z;
  th_status : ticketstate;
  th_proc : option nat
}.
Definition set_th_runningTotal (v : Z) (h : TicketHolder) : TicketHolder :=
  Holder (th_totalTickets h) v (th_status h) (th_proc h).
Record tickettable := Tickettable {
  tt_totalTickets : Z;
  tt_totalTicketHolders : Z;
  tt_holders : list TicketHolder
}.

(** An index outside the array is an invalid access. *)
Definition holder_at (t : tickettable) (i : Z) : option TicketHolder :=
  if i <? 0 then None else tt_holders t !! Z.to_nat i.

(** The recursion keeps [mid] in the lower half, so it may not shrink: fuel. *)
Fixpoint binarySearch (f : nat) (t : tickettable) (random start end_ : Z) : option (option Z) :=
  match f with
  | O => None
  | S f =>
      if end_ <? start then Some None else
      let mid := i32 (start + end_) ÷ 2 in
      match holder_at t mid with
      | None => None
      | Some h =>
          let ticketStart := u32 (th_runningTotal h - th_totalTickets h) in
          let ticketEnd := u32 (th_runningTotal h) in
          if (random <=? ticketEnd) && (ticketStart <=? random) then Some (Some mid)
          else if ticketEnd <? random then binarySearch f t random (mid + 1) end_
          else if random <? ticketStart then binarySearch f t random start mid
          else Some None
      end
  end.
