(* ===== verification/SchedProof.v ===== *)
(** SchedProof: the lottery scheduler of proc.c.  A round draws a number and
    runs the process that holds it: the runnable processes hold consecutive
    intervals of numbers, each as long as its tickets. *)

From S2P Require Import Prelude Kernel ProcCore Vm Proc Scheduler.

(** ** Tickets *)

(** The tickets of a nice value. *)
Definition nice_tickets (nice : Z) : Z :=
  if 139 <? nice then 3 else if nice =? 139 then 1 else if 129 <? nice then 2 else if 119 <? nice then 3
  else if 109 <? nice then 4 else if 100 <? nice then 5 else if nice =? 100 then 6 else 3.
(** A nice value out of range is reset. *)
Definition reset_nice (p : proc) : proc := if (139 <? p_nice p) || (p_nice p <? 100) then set_p_nice 120 p else p.

Lemma nice_tickets_range n : 1 <= nice_tickets n <= 6.
Proof. unfold nice_tickets. repeat case_if; lia. Qed.
Lemma upd_proc_same i f k p : procs (k_sched k) !! i = Some p -> f p = p -> upd_proc i f k = k.
Proof.
  intros Hp Hf. unfold upd_proc, upd_sched. destruct k as [h sc]. simpl in *. destruct sc. simpl in *. unfold set_k_sched, set_procs. simpl. f_equal. f_equal.
  apply list_eq. intros j. destruct (decide (i = j)) as [<-|]; [by rewrite list_lookup_alter_eq, Hp; simpl; rewrite Hf|by rewrite list_lookup_alter_ne].
Qed.

Lemma getTicketAmount_run i p k : procs (k_sched k) !! i = Some p ->
  getTicketAmount (Some i) k = Done (nice_tickets (p_nice p)) (upd_proc i reset_nice k).
Proof.
  intros Hp. unfold getTicketAmount. unfold bind at 1, read_proc. rewrite Hp. simpl obind. unfold nice_tickets.
  assert (forall f, f p = set_p_nice 120 p -> upd_proc i (set_p_nice 120) k = upd_proc i f k) as Hs.
  { intros f Hf. unfold upd_proc, upd_sched. f_equal. unfold set_procs. f_equal. apply list_eq. intros j.
    destruct (decide (i = j)) as [<-|]; [by rewrite !list_lookup_alter_eq, Hp; simpl; rewrite Hf|by rewrite !list_lookup_alter_ne]. }
  destruct (decide (139 < p_nice p \/ p_nice p < 100)) as [Hr|Hr].
  - assert (reset_nice p = set_p_nice 120 p) as E.
    { unfold reset_nice. destruct (Z.ltb_spec 139 (p_nice p)), (Z.ltb_spec (p_nice p) 100); try done; lia. }
    case_cmp; rewrite ?bind_modify; unfold ret; try (by rewrite (Hs reset_nice)); lia.
  - assert (upd_proc i reset_nice k = k) as ->.
    { eapply upd_proc_same; [done|]. unfold reset_nice. destruct (Z.ltb_spec 139 (p_nice p)), (Z.ltb_spec (p_nice p) 100); try done; lia. }
    case_cmp; try done; lia.
Qed.

(** ** The draw *)

(** The tickets a process has in the draw: none unless it is runnable. *)
Definition share (p : proc) : Z := if bool_decide (p_state p = RUNNABLE) then nice_tickets (p_nice p) else 0.
(** The tickets of the first [i] slots: slot [i] holds the numbers from
    [upto ps i] on and below [upto ps (S i)]. *)
Definition upto (ps : list proc) (i : nat) : Z := foldr (fun p n => share p + n) 0 (take i ps).

Lemma foldr_sum_app a b : foldr (fun p n => share p + n) 0 (a ++ b) = foldr (fun p n => share p + n) 0 a + foldr (fun p n => share p + n) 0 b.
Proof. induction a as [|x a IH]; [done|]. simpl. rewrite IH. lia. Qed.
Lemma share_range p : 0 <= share p <= 6.
Proof. unfold share. pose proof (nice_tickets_range (p_nice p)). case_bool_decide; lia. Qed.
Lemma upto_S ps i p : ps !! i = Some p -> upto ps (S i) = upto ps i + share p.
Proof. intros H. unfold upto. rewrite (take_S_r _ _ _ H), foldr_sum_app. simpl. lia. Qed.
Lemma upto_range ps i : 0 <= upto ps i <= 6 * Z.of_nat i.
Proof.
  unfold upto. revert i. induction ps as [|p ps IH]; intros i; [rewrite take_nil; simpl; lia|].
  destruct i as [|i]; [simpl; lia|]. simpl. specialize (IH i). pose proof (share_range p). lia.
Qed.
Lemma upto_mono ps i j : (i <= j)%nat -> upto ps i <= upto ps j.
Proof.
  intros H. unfold upto. replace (take j ps) with (take i ps ++ take (j - i) (drop i ps)).
  - rewrite foldr_sum_app. assert (forall l, 0 <= foldr (fun p n => share p + n) 0 l) as Hl.
    { induction l as [|x l IH]; simpl; [lia|]. pose proof (share_range x). lia. }
    specialize (Hl (take (j - i) (drop i ps))). lia.
  - rewrite take_take_drop. f_equal. lia.
Qed.

(** Only nice values out of range changed. *)
Definition reset_some (k k' : kernel) : Prop :=
  exists ps, k' = upd_sched (set_procs ps) k /\ Forall2 (fun p p' => p' = p \/ p' = reset_nice p) (procs (k_sched k)) ps.

Lemma reset_some_refl k : reset_some k k.
Proof.
  exists (procs (k_sched k)). split; [destruct k as [? sc]; by destruct sc|]. apply Forall_Forall2_diag, Forall_true. auto.
Qed.
Lemma reset_idemp p : reset_nice (reset_nice p) = reset_nice p.
Proof. unfold reset_nice at 2 3. destruct ((139 <? p_nice p) || (p_nice p <? 100)) eqn:E; [done|]. unfold reset_nice. by rewrite E. Qed.
Lemma reset_some_step k i k' : reset_some (upd_proc i reset_nice k) k' -> reset_some k k'.
Proof.
  intros (ps & -> & H). exists ps. split; [done|]. apply Forall2_same_length_lookup. rewrite Forall2_same_length_lookup in H.
  destruct H as [H1 H2]. simpl in *. rewrite length_alter in H1. split; [done|]. intros j x y Hx Hy.
  destruct (decide (i = j)) as [<-|Hne].
  - destruct (H2 i (reset_nice x) y) as [-> | ->]; [by rewrite list_lookup_alter_eq, Hx|done|by right|]. right. apply reset_idemp.
  - apply (H2 j x y); [by rewrite list_lookup_alter_ne|done].
Qed.

Lemma lottery_pick_run ps random n : forall p k, (p + n = length ps)%nat -> Z.of_nat (length ps) < 2 ^ 20 ->
  drop p (procs (k_sched k)) = drop p ps -> length (procs (k_sched k)) = length ps -> 0 <= random -> upto ps p <= random ->
  exists w k', lottery_pick p n (upto ps p) random k = Done w k' /\ reset_some k k' /\
    match w with Some i => upto ps i <= random < upto ps (S i) | None => upto ps (length ps) <= random end.
Proof.
  induction n as [|n IH]; intros p k Hn Hmax Hd Hl Hr Hu; cbn [lottery_pick].
  { exists None, k. split; [done|]. split; [apply reset_some_refl|]. by replace (length ps) with p by lia. }
  destruct (lookup_lt_is_Some_2 ps p ltac:(lia)) as [x Hx].
  assert (procs (k_sched k) !! p = Some x) as Hk by (rewrite <- (Nat.add_0_r p), <- lookup_drop, Hd, lookup_drop, Nat.add_0_r; done).
  assert (forall f, drop (S p) (alter f p (procs (k_sched k))) = drop (S p) ps) as Hd'.
  { intros f. rewrite <- (Nat.add_1_r p), <- !drop_drop, <- Hd, !drop_drop. apply list_eq. intros j. rewrite !lookup_drop. apply list_lookup_alter_ne. lia. }
  pose proof (upto_S ps p x Hx) as Es. pose proof (upto_range ps (S p)) as Hb. pose proof (upto_range ps p).
  unfold bind at 1, read_proc. rewrite Hk. simpl obind. unfold share in Es. case_bool_decide as Erun; cbn [negb].
  - rewrite (bind_Done _ _ _ _ _ (getTicketAmount_run p x k Hk)). cbv zeta. rewrite <- Es, i32_small, u32_small by lia.
    destruct (Z.ltb_spec random (upto ps (S p))) as [Hlt|Hge].
    + exists (Some p), (upd_proc p reset_nice k). split; [done|]. split; [|lia]. eapply reset_some_step, reset_some_refl.
    + destruct (IH (S p) (upd_proc p reset_nice k)) as (w & k' & Hrun & Hs & Hw); [lia|done|apply Hd'|simpl; by rewrite length_alter|done|done|].
      exists w, k'. split; [done|]. split; [by eapply reset_some_step|done].
  - rewrite Z.add_0_r in Es. rewrite <- Es. apply IH; [lia|done| |done|done|by rewrite Es].
    rewrite <- (Nat.add_1_r p), <- !drop_drop, Hd. done.
Qed.

(** ** A round *)

(** The number drawn. *)
Definition drawn (k : kernel) : Z :=
  let t := u32 (totalTickets (k_sched k)) in
  if t =? 0 then 0 else prng_next (random_number (k_sched k)) mod t.

Lemma upto_in ps i : upto ps i < upto ps (S i) -> exists p, ps !! i = Some p /\ p_state p = RUNNABLE.
Proof.
  intros H. destruct (ps !! i) as [p|] eqn:E.
  - exists p. split; [done|]. rewrite (upto_S _ _ _ E) in H. unfold share in H. case_bool_decide; [done|lia].
  - unfold upto in H. rewrite !take_ge in H by (apply lookup_ge_None in E; lia). lia.
Qed.
Lemma upto_unique ps i j r : upto ps i <= r < upto ps (S i) -> upto ps j <= r < upto ps (S j) -> j = i.
Proof.
  intros Hi Hj. destruct (lt_eq_lt_dec i j) as [[H|H]|H]; [|done|].
  - pose proof (upto_mono ps (S i) j ltac:(lia)). lia.
  - pose proof (upto_mono ps (S j) i ltac:(lia)). lia.
Qed.
Lemma reset_nice_same p p' : p' = p \/ p' = reset_nice p -> p_state p' = p_state p /\ p_pgdir p' = p_pgdir p.
Proof. intros [-> | ->]; [done|]. unfold reset_nice. by destruct ((139 <? p_nice p) || (p_nice p <? 100)). Qed.

Lemma prng_draw k : exists k1, prng (u32 (totalTickets (k_sched k))) k = Done (drawn k) k1 /\ procs (k_sched k1) = procs (k_sched k) /\ k_held k1 = k_held k.
Proof.
  unfold prng, drawn. destruct (u32 (totalTickets (k_sched k)) =? 0); [by exists k|]. rewrite bind_modify. by eexists.
Qed.
Lemma drawn_nonneg k : 0 <= drawn k.
Proof.
  unfold drawn. destruct (Z.eqb_spec (u32 (totalTickets (k_sched k))) 0); [lia|].
  pose proof (u32_range (totalTickets (k_sched k))). apply Z.mod_pos_bound. lia.
Qed.

Lemma run_proc_switches i k p : procs (k_sched k) !! i = Some p -> p_pgdir p <> 0 ->
  exists rest, run_proc i k = Switched (upd_proc i (set_p_state RUNNING) (upd_sched (set_curproc (Some i)) k)) rest.
Proof.
  intros Hp Hg. unfold run_proc. rewrite bind_modify.
  assert (switchuvm i (upd_sched (set_curproc (Some i)) k) = Done tt (upd_sched (set_curproc (Some i)) k)) as Hs.
  { unfold switchuvm, bind, myproc, read_proc. simpl. rewrite Hp. simpl. by destruct (Z.eqb_spec (p_pgdir p) 0). }
  rewrite (bind_Done _ _ _ _ _ Hs), bind_modify. by eexists.
Qed.

(** C28: the lottery.  A round draws a number below the total of the tickets
    sold.  The CPU goes to the process in whose interval of numbers it falls:
    process [i] runs exactly for the numbers from [upto ps i] on and below
    [upto ps (S i)], as many as it has tickets.  The round ends without
    running anyone exactly when the number is beyond the tickets of the
    runnable processes. *)
Theorem lottery_round_draws k :
  let ps := procs (k_sched k) in
  L_ptable ∉ k_held k -> length ps = NPROC -> Forall (fun p => p_state p = RUNNABLE -> p_pgdir p <> 0) ps ->
  (exists i s rest, upto ps i <= drawn k < upto ps (S i) /\ lottery_round k = Switched s rest /\
     curproc (k_sched s) = Some i /\ (exists p, procs (k_sched s) !! i = Some p /\ p_state p = RUNNING) /\
     (forall j, j <> i -> p_state <$> procs (k_sched s) !! j = p_state <$> ps !! j) /\
     forall j, upto ps j <= drawn k < upto ps (S j) -> j = i) \/
  (upto ps NPROC <= drawn k /\ exists k', lottery_round k = Done tt k' /\ map p_state (procs (k_sched k')) = map p_state ps).
Proof.
  intros ps Hl Hlen Hpg. unfold lottery_round. rewrite bind_acquire by done. rewrite bind_gets.
  set (k0 := set_k_held ({[L_ptable]} ∪ k_held k) k).
  change (totalTickets (k_sched k0)) with (totalTickets (k_sched k)).
  destruct (prng_draw k0) as (k1 & Hrun1 & P1 & H1). change (drawn k0) with (drawn k) in Hrun1.
  change (totalTickets (k_sched k0)) with (totalTickets (k_sched k)) in Hrun1. rewrite (bind_Done _ _ _ _ _ Hrun1).
  change (procs (k_sched k0)) with ps in P1. pose proof (drawn_nonneg k) as Hnn.
  destruct (lottery_pick_run ps (drawn k) NPROC 0 k1) as (w & k2 & Hrun2 & (ps2 & E2 & F2) & Hw);
    [by rewrite Hlen|rewrite Hlen; unfold NPROC; lia|by rewrite P1|by rewrite P1|done|done|].
  change (upto ps 0) with 0 in Hrun2. rewrite (bind_Done _ _ _ _ _ Hrun2). rewrite P1 in F2.
  assert (procs (k_sched k2) = ps2) as P2 by (by rewrite E2).
  destruct w as [i|].
  - left. destruct (upto_in ps i ltac:(lia)) as (p & Hp & Hst). rewrite Forall_lookup in Hpg. specialize (Hpg i p Hp Hst).
    destruct (Forall2_lookup_l _ _ _ _ _ F2 Hp) as (p2 & Hp2 & Hr). apply reset_nice_same in Hr as [Er Eg].
    destruct (run_proc_switches i k2 p2) as [rest Hrun3]; [by rewrite P2|by rewrite Eg|].
    exists i. eexists. eexists. split; [done|]. split; [unfold bind at 1; rewrite Hrun3; simpl; reflexivity|]. split; [done|]. split; [|split].
    + rewrite lookup_upd_proc. simpl. rewrite P2, Hp2. by eexists.
    + intros j Hne. rewrite lookup_upd_proc_ne by done. simpl. rewrite P2. destruct (ps !! j) as [x|] eqn:Hx.
      * destruct (Forall2_lookup_l _ _ _ _ _ F2 Hx) as (x2 & Hx2 & Hr2). rewrite Hx2. simpl. f_equal. by apply reset_nice_same in Hr2 as [-> _].
      * rewrite (lookup_ge_None_2 ps2); [done|]. rewrite <- (Forall2_length _ _ _ F2). by apply lookup_ge_None.
    + intros j Hj. by eapply upto_unique.
  - right. split; [by rewrite <- Hlen|]. rewrite bind_ret.
    assert (k_held k2 = {[L_ptable]} ∪ k_held k) as H2 by (rewrite E2; simpl; by rewrite H1).
    rewrite release_held by (rewrite H2; by apply elem_of_union_l, elem_of_singleton). eexists. split; [done|]. simpl. rewrite P2.
    clear -F2. induction F2 as [|x y l1 l2 Hxy _ IH]; [done|]. simpl. apply reset_nice_same in Hxy as [-> _]. by rewrite IH.
Qed.

(** ** Witnesses *)

(** Process 3 is runnable, with 3 of the 8 tickets sold. *)
Definition demo_lottery : kernel :=
  upd_sched (fun sc => set_random_number 5 (set_totalTickets 8 sc))
    (upd_proc 3 (fun p => set_p_state RUNNABLE (set_p_pgdir 1 (set_p_nice 120 p))) zero_kernel).

Lemma lottery_round_draws_witness :
  drawn demo_lottery = 1 /\ exists s rest, lottery_round demo_lottery = Switched s rest /\ curproc (k_sched s) = Some 3%nat.
Proof.
  split; [vm_compute; reflexivity|]. destruct (lottery_round_draws demo_lottery) as [(i & s & rest & Hi & Hrun & Hc & _ & _ & Hu)|[H _]].
  - apply not_elem_of_empty.
  - reflexivity.
  - assert (forallb (fun p => bool_decide (p_state p <> RUNNABLE) || negb (p_pgdir p =? 0)) (procs (k_sched demo_lottery)) = true) as H
      by (vm_compute; reflexivity).
    rewrite forallb_forall in H. apply Forall_forall. intros p Hp Hs. apply list_elem_of_In, H in Hp.
    destruct (Z.eqb_spec (p_pgdir p) 0) as [_|Hne]; [|exact Hne]. rewrite (bool_decide_eq_false_2 (p_state p <> RUNNABLE)) in Hp by tauto. discriminate Hp.
  - exists s, rest. split; [exact Hrun|]. rewrite Hc. f_equal. symmetry. apply (Hu 3%nat). vm_compute. split; [discriminate|reflexivity].
  - vm_compute in H. destruct (H eq_refl).
Defined.
