(* ===== verification/Syscall.v ===== *)
(** Syscall: the argument fetching of syscall.c, and the kernel's direct
    accesses to the memory of the current process.

    The kernel runs on the page table of the process, so that it reads and
    writes user addresses through the processor's translation; an address
    that is not mapped is a page fault in the kernel.  The strings the calls
    take are returned as the bytes before the NUL. *)

From S2P Require Import Prelude Kernel StringLib Bytes Kalloc ProcCore Vm.

(** ** User memory *)

Definition cur_proc : M kernel proc :=
  let! i := myproc in
  read_proc i.

(** The byte at user address [va]. *)
Definition user_byte (va : Z) : M kernel Z :=
  let! p := cur_proc in
  fun k => match translate (k_mem k) (p_pgdir p) va with
           | Some a => Done (k_mem k a) k
           | None => Faulted "page fault" k
           end.
Fixpoint load_user (va : Z) (n : nat) : M kernel (list Z) :=
  match n with
  | O => ret []
  | S n =>
      let! b := user_byte va in
      let! l := load_user (u32 (va + 1)) n in
      ret (b :: l)
  end.
Definition set_user_byte (va b : Z) : M kernel unit :=
  let! p := cur_proc in
  fun k => match translate (k_mem k) (p_pgdir p) va with
           | Some a => Done tt (upd_mem (upd a b) k)
           | None => Faulted "page fault" k
           end.
Fixpoint store_user (va : Z) (l : list Z) : M kernel unit :=
  match l with
  | [] => ret tt
  | b :: l => set_user_byte va b ;;; store_user (u32 (va + 1)) l
  end.

(** ** Arguments; [None] is the result -1 *)

Definition fetchint (addr : Z) : M kernel (option Z) :=
  let! p := cur_proc in
  if (p_sz p <=? addr) || (p_sz p <? u32 (addr + 4)) then ret None else
  let! w := load_user addr 4 in
  ret (Some (i32 (get32 w 0))).

(** The loop of [fetchstr]: at most [n] bytes up to the end of the process. *)
Fixpoint fetch_bytes (s : Z) (n : nat) : M kernel (option (list Z)) :=
  match n with
  | O => ret None
  | S n =>
      let! b := user_byte s in
      if b =? 0 then ret (Some []) else
      let! r := fetch_bytes (s + 1) n in
      ret (cons b <$> r)
  end.
Definition fetchstr (addr : Z) : M kernel (option (list Z)) :=
  let! p := cur_proc in
  if p_sz p <=? addr then ret None else
  fetch_bytes addr (Z.to_nat (p_sz p - addr)).

Definition argint (n : Z) : M kernel (option Z) :=
  let! p := cur_proc in
  fetchint (u32 (tf_esp (p_tf p) + 4 + 4 * n)).

(** The address, as an unsigned word. *)
Definition argptr (n size : Z) : M kernel (option Z) :=
  let! oi := argint n in
  match oi with
  | None => ret None
  | Some i =>
      let! p := cur_proc in
      if (p_sz p <=? u32 i) || (p_sz p <? u32 (u32 i + size)) then ret None
      else ret (Some (u32 i))
  end.

Definition argstr (n : Z) : M kernel (option (list Z)) :=
  let! oa := argint n in
  match oa with
  | None => ret None
  | Some addr => fetchstr (u32 addr)
  end.
