(* ===== verification/SyscallProof.v ===== *)
(** SyscallProof: the arguments of a system call are taken from the memory of
    the process and from nowhere else. *)

From S2P Require Import Prelude Kernel StringLib Bytes Kalloc ProcCore Vm Syscall.

(** The memory of the process [p] as it sees it. *)
Definition user_mem (k : kernel) (p : proc) (va : Z) : Z :=
  match translate (k_mem k) (p_pgdir p) va with
  | Some a => k_mem k a
  | None => 0
  end.

(** [p] is the current process and all its memory is mapped. *)
Record running (k : kernel) (p : proc) : Prop := {
  run_cur : exists i, curproc (k_sched k) = Some i /\ procs (k_sched k) !! i = Some p;
  run_size : 0 <= p_sz p <= KERNBASE;
  run_mapped : forall va, 0 <= va < p_sz p -> is_Some (translate (k_mem k) (p_pgdir p) va)
}.

Section Args.
Context (k : kernel) (p : proc) (Hrun : running k p).

Lemma cur_proc_run : cur_proc k = Done p k.
Proof.
  destruct (run_cur _ _ Hrun) as (i & Hc & Hp). unfold cur_proc, bind, myproc. rewrite Hc. cbn [obind]. unfold read_proc. by rewrite Hp.
Qed.
Lemma user_byte_run va : 0 <= va < p_sz p -> user_byte va k = Done (user_mem k p va) k.
Proof.
  intros Hva. unfold user_byte. rewrite (bind_Done _ _ _ _ _ cur_proc_run). unfold user_mem.
  destruct (run_mapped _ _ Hrun va Hva) as [a ->]. done.
Qed.
Lemma load_user_run va n :
  0 <= va -> va + Z.of_nat n <= p_sz p -> load_user va n k = Done (load (user_mem k p) va n) k.
Proof.
  pose proof (run_size _ _ Hrun) as Hs. change KERNBASE with 2147483648 in Hs.
  revert va. induction n as [|n IH]; intros va H0 H1; [done|]. cbn [load_user].
  rewrite (bind_Done _ _ _ _ _ (user_byte_run va ltac:(lia))), u32_small by lia.
  rewrite (bind_Done _ _ _ _ _ (IH (va + 1) ltac:(lia) ltac:(lia))).
  unfold ret, load. cbn [seq map]. rewrite <- seq_shift, map_map. f_equal. rewrite Z.add_0_r. f_equal.
  apply map_ext. intros i. f_equal. lia.
Qed.

(** The bytes from [s] to the first NUL before [s + n]. *)
Fixpoint cstring (m : Z -> Z) (s : Z) (n : nat) : option (list Z) :=
  match n with
  | O => None
  | S n => if m s =? 0 then Some [] else cons (m s) <$> cstring m (s + 1) n
  end.
Lemma fetch_bytes_run s n :
  0 <= s -> s + Z.of_nat n <= p_sz p -> fetch_bytes s n k = Done (cstring (user_mem k p) s n) k.
Proof.
  revert s. induction n as [|n IH]; intros s H0 H1; [done|]. cbn [fetch_bytes cstring].
  rewrite (bind_Done _ _ _ _ _ (user_byte_run s ltac:(lia))). case_if; [done|].
  by rewrite (bind_Done _ _ _ _ _ (IH (s + 1) ltac:(lia) ltac:(lia))).
Qed.
End Args.

Lemma cstring_Some m s n l :
  cstring m s n = Some l ->
  Z.of_nat (length l) < Z.of_nat n /\ m (s + Z.of_nat (length l)) = 0 /\ l = load m s (length l) /\ Forall (fun b => b <> 0) l.
Proof.
  revert s l. induction n as [|n IH]; intros s l; [done|]. cbn [cstring]. destruct (Z.eqb_spec (m s) 0) as [E|E].
  - intros [= <-]. simpl. rewrite Z.add_0_r. split; [lia|]. split; [done|]. split; [done|constructor].
  - destruct (cstring m (s + 1) n) as [l'|] eqn:Ec; [|done]. intros [= <-].
    destruct (IH _ _ Ec) as (H1 & H2 & H3 & H4). cbn [length]. split; [lia|].
    split; [by replace (s + Z.of_nat (S (length l'))) with (s + 1 + Z.of_nat (length l')) by lia|]. split; [|by constructor].
    unfold load. cbn [seq map]. rewrite Z.add_0_r. f_equal. rewrite H3 at 1. unfold load. rewrite <- seq_shift, map_map.
    apply map_ext. intros i. f_equal. lia.
Qed.
Lemma cstring_None m s n i : cstring m s n = None -> s <= i < s + Z.of_nat n -> m i <> 0.
Proof.
  revert s. induction n as [|n IH]; intros s; [lia|]. cbn [cstring]. destruct (Z.eqb_spec (m s) 0) as [E|E]; [done|].
  intros Hc Hi. destruct (decide (i = s)) as [->|Hne]; [done|]. apply (IH (s + 1)); [|lia].
  by destruct (cstring m (s + 1) n).
Qed.

(** The word at [addr], if the process has all of it. *)
Definition user_word (k : kernel) (p : proc) (addr : Z) : option Z :=
  if addr + 4 <=? p_sz p then Some (i32 (get32 (load (user_mem k p) addr 4) 0)) else None.
(** The n-th argument of the system call, on the stack above the return
    address. *)
Definition arg_word (k : kernel) (p : proc) (n : Z) : option Z := user_word k p (u32 (tf_esp (p_tf p) + 4 + 4 * n)).

Lemma fetchint_run k p addr : running k p -> 0 <= addr < 2 ^ 32 -> fetchint addr k = Done (user_word k p addr) k.
Proof.
  intros Hrun Ha. pose proof (run_size _ _ Hrun) as Hs. change KERNBASE with 2147483648 in Hs.
  unfold fetchint, user_word. rewrite (bind_Done _ _ _ _ _ (cur_proc_run k p Hrun)).
  destruct (Z.leb_spec (p_sz p) addr); cbn [orb]; [case_cmp; [lia|done]|]. rewrite u32_small by lia.
  destruct (Z.ltb_spec (p_sz p) (addr + 4)); [case_cmp; [lia|done]|].
  rewrite (bind_Done _ _ _ _ _ (load_user_run k p Hrun addr 4 ltac:(lia) ltac:(lia))). case_cmp; [done|lia].
Qed.
Lemma argint_run k p n : running k p -> argint n k = Done (arg_word k p n) k.
Proof.
  intros Hrun. unfold argint. rewrite (bind_Done _ _ _ _ _ (cur_proc_run k p Hrun)). apply fetchint_run; [done|apply u32_range].
Qed.
Lemma fetchstr_run k p addr :
  running k p -> 0 <= addr -> fetchstr addr k = Done (cstring (user_mem k p) addr (Z.to_nat (p_sz p - addr))) k.
Proof.
  intros Hrun Ha. unfold fetchstr. rewrite (bind_Done _ _ _ _ _ (cur_proc_run k p Hrun)).
  destruct (Z.leb_spec (p_sz p) addr); [by replace (Z.to_nat (p_sz p - addr)) with O by lia|].
  apply fetch_bytes_run; [done|lia|lia].
Qed.

(** C30: a system call takes its arguments from the memory of the process that
    makes it, without a fault and without a change.  [argint] succeeds exactly
    when the word on the stack is inside the process; [argptr] returns exactly
    the addresses whose whole range is inside; [argstr] returns the bytes up
    to the first NUL and fails exactly when there is none before the end of
    the process. *)
Theorem args_within_process k p n :
  running k p ->
  argint n k = Done (arg_word k p n) k /\
  (forall size, 0 <= size < 2 ^ 31 ->
     argptr n size k = Done (a ← arg_word k p n; if (u32 a <? p_sz p) && (u32 a + size <=? p_sz p) then Some (u32 a) else None) k) /\
  match arg_word k p n with
  | None => argstr n k = Done None k
  | Some a => exists o, argstr n k = Done o k /\
      match o with
      | Some l => let e := u32 a + Z.of_nat (length l) in
                  e < p_sz p /\ user_mem k p e = 0 /\ l = load (user_mem k p) (u32 a) (length l) /\ Forall (fun b => b <> 0) l
      | None => forall va, u32 a <= va < p_sz p -> user_mem k p va <> 0
      end
  end.
Proof.
  intros Hrun. pose proof (argint_run k p n Hrun) as Ha. split; [done|]. split.
  - intros size Hsz. unfold argptr. rewrite (bind_Done _ _ _ _ _ Ha). destruct (arg_word k p n) as [a|]; [|done]. cbn [mbind option_bind].
    rewrite (bind_Done _ _ _ _ _ (cur_proc_run k p Hrun)). pose proof (run_size _ _ Hrun) as Hs. change KERNBASE with 2147483648 in Hs.
    pose proof (u32_range a). destruct (Z.leb_spec (p_sz p) (u32 a)); cbn [orb]; [case_cmp; first [done|lia]|].
    rewrite (u32_small (u32 a + size)) by lia. case_cmp; first [done|lia].
  - unfold argstr. pose proof (bind_Done _ (fun oa => match oa with Some addr => fetchstr (u32 addr) | None => ret None end) _ _ _ Ha) as Hb.
    destruct (arg_word k p n) as [a|]; [|exact Hb]. pose proof (u32_range a) as Hr. exists (cstring (user_mem k p) (u32 a) (Z.to_nat (p_sz p - u32 a))).
    split; [rewrite <- fetchstr_run by (done || lia); exact Hb|].
    destruct (cstring _ _ _) as [l|] eqn:Ec.
    + apply cstring_Some in Ec as (H1 & H2). split; [lia|exact H2].
    + intros va Hva. apply (cstring_None _ _ _ _ Ec). lia.
Qed.

Definition demo_args : kernel :=
  let p := set_p_pgdir 0x80001000 (set_p_sz 16 zero_proc) in
  set_k_mem (store 0x80001000 (word_bytes 0x2007) (store 0x80002000 (word_bytes 0x3007)
      (store 0x80003004 (word_bytes 8 ++ [97; 98; 0]) (fun _ => 1))))
    (upd_sched (set_curproc (Some 0%nat)) (upd_proc 0 (fun _ => p) zero_kernel)).
Lemma args_within_process_witness :
  let p := set_p_pgdir 0x80001000 (set_p_sz 16 zero_proc) in
  argint 0 demo_args = Done (Some 8) demo_args /\ argptr 0 8 demo_args = Done (Some 8) demo_args /\
  argptr 0 9 demo_args = Done None demo_args.
Proof.
  intros p. destruct (args_within_process demo_args p 0) as (H1 & H2 & _).
  - split; [by exists 0%nat|simpl; change KERNBASE with 2147483648; lia|]. intros va Hva. change (p_sz p) with 16 in Hva.
    assert (va = 0 \/ va = 1 \/ va = 2 \/ va = 3 \/ va = 4 \/ va = 5 \/ va = 6 \/ va = 7 \/ va = 8 \/ va = 9 \/ va = 10 \/ va = 11 \/
            va = 12 \/ va = 13 \/ va = 14 \/ va = 15) as Hc by lia.
    destruct Hc as [->|[->|[->|[->|[->|[->|[->|[->|[->|[->|[->|[->|[->|[->|[->| ->]]]]]]]]]]]]]]]; vm_compute; by eexists.
  - split; [exact H1|]. split; [exact (H2 8 ltac:(lia))|exact (H2 9 ltac:(lia))].
Defined.
