(* ===== verification/Exec.v ===== *)
(** Exec: exec.c, and [loaduvm] of vm.c.

    The path and the arguments are the strings [sys_exec] fetched, as the
    bytes before their NUL. *)

From S2P Require Import Prelude Kernel StringLib Bytes Kalloc ProcCore Bio FsLayout Log Fs Dir Vm.

(** ** elf.h: sizes and the fields exec uses *)

Definition ELF_MAGIC : Z := 0x464C457F.
Definition ELF_PROG_LOAD : Z := 1.
Definition ELFHDR_SIZE : Z := 52.
Definition PROGHDR_SIZE : Z := 32.
Record elfhdr := Elfhdr { e_magic : Z; e_entry : Z; e_phoff : Z; e_phnum : Z }.
Record proghdr := Proghdr { ph_type : Z; ph_off : Z; ph_vaddr : Z; ph_filesz : Z; ph_memsz : Z }.
Definition decode_elf (d : list Z) : elfhdr := Elfhdr (get32 d 0) (get32 d 24) (get32 d 28) (get16 d 44).
Definition decode_ph (d : list Z) : proghdr :=
  Proghdr (get32 d 0) (get32 d 4) (get32 d 8) (get32 d 16) (get32 d 20).

Section Exec.
Context `{Im : Image} `{D : DiskDriver} (fuel : nat) `{DS : Devsw}.

(** The loop of [loaduvm]; a page a turn. *)
Fixpoint loaduvm_loop (m : nat) (pgdir addr : Z) (ip : nat) (offset i sz : Z) : M kernel Z :=
  if negb (i <? sz) then ret 0 else
  match m with
  | O => exhausted
  | S m =>
      let! pte := walkpgdir pgdir (u32 (addr + i)) false in
      if pte =? 0 then panic "loaduvm: address should exist" else
      let! e := read32 pte in
      let n := if sz - i <? PGSIZE then sz - i else PGSIZE in
      let! r := readi fuel ip (u32 (offset + i)) n in
      modify (upd_mem (store (P2V (PTE_ADDR e)) r.2)) ;;;
      if negb (u32 r.1 =? n) then ret (-1) else
      loaduvm_loop m pgdir addr ip offset (i + PGSIZE) sz
  end.
Definition loaduvm (pgdir addr : Z) (ip : nat) (offset sz : Z) : M kernel Z :=
  if negb (addr mod PGSIZE =? 0) then panic "loaduvm: addr must be page aligned" else
  loaduvm_loop (pages sz) pgdir addr ip offset 0 sz.

(** The label [bad]: [pgdir] is 0 and [ip] is [None] when there is nothing to
    undo. *)
Definition exec_bad (pgdir : Z) (ip : option nat) : M kernel Z :=
  when (negb (pgdir =? 0)) (freevm pgdir) ;;;
  match ip with
  | Some ip => iunlockput fuel ip ;;; end_op fuel
  | None => ret tt
  end ;;;
  ret (-1).

(** The loop over the program headers, [n] of them at [off]; the new size, or
    [None] for [goto bad]. *)
Fixpoint load_segments (n : nat) (pgdir : Z) (ip : nat) (off sz : Z) : M kernel (option Z) :=
  match n with
  | O => ret (Some sz)
  | S n =>
      let! r := readi fuel ip (u32 off) PROGHDR_SIZE in
      if negb (u32 r.1 =? PROGHDR_SIZE) then ret None else
      let ph := decode_ph r.2 in
      let off := i32 (off + PROGHDR_SIZE) in
      if negb (ph_type ph =? ELF_PROG_LOAD) then load_segments n pgdir ip off sz else
      if ph_memsz ph <? ph_filesz ph then ret None else
      let! sz := allocuvm pgdir sz (u32 (ph_vaddr ph + ph_memsz ph)) in
      if sz =? 0 then ret None else
      let! l := loaduvm pgdir (ph_vaddr ph) ip (ph_off ph) (ph_filesz ph) in
      if l <? 0 then ret None else
      load_segments n pgdir ip off sz
  end.

(** The loop over the arguments: the stack pointer and the addresses of the
    strings. *)
Fixpoint push_args (pgdir : Z) (argv : list (list Z)) (argc sp : Z) : M kernel (option (Z * list Z)) :=
  match argv with
  | [] => ret (Some (sp, []))
  | s :: argv =>
      if MAXARG <=? argc then ret None else
      let sp := Z.ldiff (u32 (sp - (Z.of_nat (length s) + 1))) 3 in
      let! r := copyout pgdir sp (s ++ [0]) in
      if r <? 0 then ret None else
      let! rest := push_args pgdir argv (argc + 1) sp in
      ret (match rest with Some (sp', l) => Some (sp', sp :: l) | None => None end)
  end.

(** What follows the last slash of the path. *)
Fixpoint last_elem (path last : list Z) : list Z :=
  match path with
  | [] => last
  | c :: rest => last_elem rest (if c =? SLASH then rest else last)
  end.

(** From the stack on: [sz] is the size of the loaded program. *)
Definition exec_image (path : list Z) (argv : list (list Z)) (entry pgdir sz : Z) : M kernel Z :=
  let! sz := allocuvm pgdir (PGROUNDUP sz) (u32 (PGROUNDUP sz + 2 * PGSIZE)) in
  if sz =? 0 then exec_bad pgdir None else
  clearpteu pgdir (u32 (sz - 2 * PGSIZE)) ;;;
  let! r := push_args pgdir argv 0 sz in
  match r with
  | None => exec_bad pgdir None
  | Some (sp, addrs) =>
      let argc := Z.of_nat (length argv) in
      let ustack := [0xffffffff; argc; u32 (sp - (argc + 1) * 4)] ++ addrs ++ [0] in
      let sp := u32 (sp - (3 + argc + 1) * 4) in
      let! r := copyout pgdir sp (concat (map word_bytes ustack)) in
      if r <? 0 then exec_bad pgdir None else
      let! i := myproc in
      let! p := read_proc i in
      modify (upd_proc i (fun x =>
        set_p_name (list_inserts 0 (safestrcpy (of_list (last_elem path path)) 16) (p_name x)) x)) ;;;
      modify (upd_proc i (fun x =>
        set_p_tf (set_tf_esp sp (set_tf_eip entry (p_tf x))) (set_p_sz sz (set_p_pgdir pgdir x)))) ;;;
      switchuvm i ;;;
      freevm (p_pgdir p) ;;;
      ret 0
  end.

(** [readi(...) < sizeof(elf)] compares as unsigned. *)
Definition exec (path : list Z) (argv : list (list Z)) : M kernel Z :=
  begin_op fuel ;;;
  let! oip := namei fuel path in
  match oip with
  | None => end_op fuel ;;; ret (-1)
  | Some ip =>
      ilock fuel (Some ip) ;;;
      let! r := readi fuel ip 0 ELFHDR_SIZE in
      if u32 r.1 <? ELFHDR_SIZE then exec_bad 0 (Some ip) else
      let elf := decode_elf r.2 in
      if negb (e_magic elf =? ELF_MAGIC) then exec_bad 0 (Some ip) else
      let! pgdir := setupkvm in
      if pgdir =? 0 then exec_bad 0 (Some ip) else
      let! osz := load_segments (Z.to_nat (e_phnum elf)) pgdir ip (i32 (e_phoff elf)) 0 in
      match osz with
      | None => exec_bad pgdir (Some ip)
      | Some sz =>
          iunlockput fuel ip ;;;
          end_op fuel ;;;
          exec_image path argv (e_entry elf) pgdir sz
      end
  end.

End Exec.
