(* ===== verification/Sysproc.v ===== *)
(** Sysproc: sysproc.c, the system calls on processes. *)

From S2P Require Import Prelude Kernel StringLib Bytes Kalloc ProcCore Pipe Bio FsLayout Log Fs Dir File Vm Proc Syscall.

Section Sysproc.
Context `{Im : Image} `{Bd : Build} `{D : DiskDriver} (fuel : nat) `{DS : Devsw}.

Definition sys_fork : M kernel Z := fork.
Definition sys_exit : M kernel Z := exit fuel ;;; ret 0.
Definition sys_wait : M kernel Z := wait fuel.

Definition sys_kill : M kernel Z :=
  let! a := argint 0 in
  match a with
  | None => ret (-1)
  | Some pid => kill pid
  end.

Definition sys_yield : M kernel Z := yield ;;; ret 0.

Definition sys_getpid : M kernel Z :=
  let! p := cur_proc in
  ret (p_pid p).

Definition sys_sbrk : M kernel Z :=
  let! a := argint 0 in
  match a with
  | None => ret (-1)
  | Some n =>
      let! p := cur_proc in
      let! r := growproc n in
      if r <? 0 then ret (-1) else ret (i32 (p_sz p))
  end.

(** [while(ticks - ticks0 < n)]: unsigned, since [ticks] is. *)
Fixpoint sleep_ticks (f : nat) (ticks0 n : Z) : M kernel Z :=
  match f with
  | O => exhausted
  | S f =>
      let! ticks := gets k_ticks in
      if u32 (ticks - ticks0) <? u32 n then
        let! p := cur_proc in
        if negb (p_killed p =? 0) then release L_ticks ;;; ret (-1) else
        sleep C_ticks (Some L_ticks) ;;;
        sleep_ticks f ticks0 n
      else release L_ticks ;;; ret 0
  end.
Definition sys_sleep : M kernel Z :=
  let! a := argint 0 in
  match a with
  | None => ret (-1)
  | Some n =>
      acquire L_ticks ;;;
      let! ticks0 := gets k_ticks in
      sleep_ticks fuel ticks0 n
  end.

Definition sys_uptime : M kernel Z :=
  acquire L_ticks ;;;
  let! xticks := gets k_ticks in
  release L_ticks ;;;
  ret (i32 xticks).

End Sysproc.
