(* ===== verification/Sysfile.v ===== *)
(** Sysfile: sysfile.c, the system calls on files.

    A string argument is the list of its bytes; [read] and [pipe] store their
    results at the user address after the operation, [write] reads the
    buffer, which the process alone can change, before it. *)

From S2P Require Import Prelude Kernel StringLib Bytes Kalloc ProcCore Pipe Bio FsLayout Log Fs Dir File Vm Proc Scheduler Syscall Exec.

(** fcntl.h *)
Definition O_RDONLY : Z := 0x000.
Definition O_WRONLY : Z := 0x001.
Definition O_RDWR : Z := 0x002.
Definition O_CREATE : Z := 0x200.

(** The lines of [wolfie_img]; each ends with a newline. *)
Definition wolfie_lines : list string := [
  "                     .........................              ";
  "                     ...........................            ";
  "                   ..........,.,,,,,,,..............        ";
  "                   .......~8ZO+,,,:I$$?:,,,...........      ";
  "                   .......DD8ZZZ7$$$$$~+$=,,,..........     ";
  "                  ......,,8DDDDD8$888D88Z7$,,,,.........    ";
  "                  ......,,8DDDNNDDDDDDDDDD88OI,,........    ";
  "               ........,,,=DNNNNMMONMNDDDD88888OZ?......    ";
  "              ........,,,:?NI??IN8$$MMMMNM8OOOZZ?,......    ";
  "             ........,,:O7ZDDDII8D$$NMMMN.OZO8I,,.......    ";
  "             .......,?$ZOOO$$8DNM$NDDDD8O?7.$,,,,.......    ";
  "             ......,ZZ$ZOZOOZZOODNDDDDD88O?=$8,,,,......    ";
  "            .......NOZZZONN88D88?DDDDND??Z8ZDZ$:,,......    ";
  "            .......8MNND88DN88D?+7NZ$DNNDD=I8?:~,,......    ";
  "            .......,,8DDDDDDDD$D?IZI+=?DND~:8=~=,,......    ";
  "            .......,,,,,8N8DD7?NMIII?+~~,,,,.I7?I.......    ";
  "          ........,,,,,:::NNO7?MMN7II+??I~..~Z7I=.......    ";
  "         .........,,,ZOOO8DMZ$I7MN8DDNMM?~=:++OO,.......    ";
  "      ..........,,:ZZZZZZOOO88I?MM.ZDOMN,Z$~:,,,,.......    ";
  "    ...........,,$$Z$ZZZZZZOO8$??+.,.,:.=Z$7$:,,,.......    ";
  "    ........,,,$$ZZZ$ZZZZZZZOO8$I?+=====:77II77,,,......    ";
  "   .......,,,$Z$$$ZO8ZZZZZZZZOOOO$77I=~:,III??II,,.......   ";
  "  .......,,?$$$$$$ZOOOZZZZZZZOOOZ$$7$Z$$7II????7=,,........ ";
  " .......,7$$$$$$$$$$OOOOZZZZZZZ$$77:.~$77II?++?$?+,,.......  ";
  " ......,OMDZ$$$$$$$ZO8OOOZZZZZ$$$7777$IIIIII+7?$I?+,,......  ";
  " ......,,8DNN$$$$$ZZDO8OOZZZZI::7?.$$+?I7III?$I77+++=,.......";
  " .....,,+DNDDNO$$$ZDDD88OOZOI,.:$Z7$$=~.7$,I7IZ77??I?,,......";
  " .....,,ODNDDDDM$$8DD88OOO8ZO$$$ZI$I:77II7$=I88Z$IIIZ,,......";
  " .....,+DDDD8DD8N::DDD8O8DOOO$$Z$I7..7III????88OZ7N8Z,,......";
  " .....,ZDO88OD8O:::?DD888OOOO$$Z$7?7.I7II??I::88ND88OI,,.....";
  " .....,$D888888=::::D8DDO8OOO$ZZ$I??.IIII?7~:::8DDD8OZ~,.....";
  " .....,=8DD8Z87,,,,,8DD888OOZ$ZZ$II=.II7?I+,,,,,8D88OZ?,.....";
  " .....,,8NDD87,,,,,,ID888OOOZ$ZZZI7...?7I?=,,,,,OOZ8Z7,......";
  " .....,,ND8DDO,,,,,,,88888OOZZZOZ77..=I?II~,,,,,:ZZOO7,,.....";
  " ......,8D8DOOI,,,,,,88888OOZZOOZ7?I??I7?I,,,,,,,O8$O7,......";
  " ......,IDD8DD8:,,,,,88OOOOOZZOOZ$I??I?III,,,,,,,ZDD$I,......";
  " ......,,D8888DD?,,,,OOOOOOOZZOOZ$7???I?I?,,,,,,,+ND7?,......";
  " .......,O8ODDODZ,,,,:OOOOZZZZOOZ$7IIII???,,,,,,,,DZ?=.......";
  "  ......,,OO8OOO$I,,,:O$7O8O8888OOZ$O77Z7I$,,,,,II?I~........";
  "  ........,?O88OZ?,,,=O7IZZ$$Z7O7ZO7ZIIII7I~,,,$7:~:.........";
  "    ............,,,,,~8IOZZ$Z$7$7Z7I7Z$?7II?,,,,...........  ";
  "    ..............,,,,8IOOZ$Z7$777777II$7?I?,,,............  ";
  "    ...............,,,ZIOOZ$Z7$777II77II77II~,,..........    ";
  "      .............,,,77OOZZ$$$7777I$I77III??,,.........     ";
  "            .......,,:IOOOZZZ$$7777IZ$7IIIII?,,......        ";
  "             ......,,=?OOOZZZ$77777O$$$77III?,......         ";
  "             ......,Z878OOZZZ$$$77I8Z$$$777II,,.....         ";
  "             ......,878OOOOZZ$$$$7IDOZ$$7777,,......         ";
  "             ......,,+O8OOOOZZ$$77O8OZ$$7777,,......         ";
  "             .....,,,7OO8OOOZZ$$Z7D88Z$$$77?,,......         ";
  "            ......,,+88O88OOZZ$$$ND88OOZ$777,.......         ";
  "            ......,,+8O8Z8OO$OZ7$D8888OZ$$7,,......          ";
  "            ......,+?OO88OOOZZO7IDN8OZ$$77,,.......          ";
  "            ......,,8OZO8$87O$IINMMMN88$7~,,,.....           ";
  "            ......,,DO8NN8ZOZ:::ZNNDOODI~,,,......           ";
  "            ......,:8OZOZ8$==:::,DO88O?$Z,,,......           ";
  "            .....,,~DNO88Z++I,,,::NDNDD88,,,,.........       ";
  "            ......,,OOOZ$+ZN?:,,,~DD8OI??,,,,,........       ";
  "            .....,,88O8OZ$O=,,,,,ZDD8O$??,,,,,,.........     ";
  "            .....,,8888ZZOI:,,,,,ODD88OZZ,.I.I,.........     ";
  "          .......,,OD=ZZ$7I,,,,,,8D8OOZ$$$7+I... ........    ";
  "          ......,,,8~=OZ$I7:,,,,,8D88OZZ$$:..,. .,.......    ";
  "          ......,,OZOI..7II~,,,,,DD88OOZZZ,,...  ........    ";
  "          ......,~O=,.$.7=7$,,,,.,NN8888OI...............    ";
  "          ......==,,.,.$:..$,,,...,,,,ON8~,.....8~.......    ";
  "         ......,?+~,.,.....I,,........,,,,,,,,.,........     ";
  "         .......I+~:,,..  .~,...........................     ";
  "          ......I?+~:,,...............................       ";
  "          .......M?+~:,,:8,.........................         ";
  "          .......,,.,,,,,..........  .............           ";
  "          .......................                            ";
  "            ....................                             ";
  "             .................  "
].

Definition string_bytes (s : string) : list Z :=
  map (fun c => Z.of_nat (Ascii.nat_of_ascii c)) (String.list_ascii_of_string s).
Definition wolfie_img : list Z := concat (map (fun s => string_bytes s ++ [10]) wolfie_lines).

(** The strings ["."] and [".."] *)
Definition DOT : list Z := [46].
Definition DOTDOT : list Z := [46; 46].

(** [sizeof(struct stat)] *)
Definition STAT_SIZE : Z := 20.

Section Sysfile.
Context `{Im : Image} `{Bd : Build} `{D : DiskDriver} (fuel : nat) `{DS : Devsw}.

(** The fields of [struct stat] at user address [p]; the padding after the two
    [short] fields is left alone. *)
Definition store_stat (p : Z) (st : stat) : M kernel unit :=
  store_user p (half_bytes (st_type st)) ;;;
  store_user (u32 (p + 4))
    (word_bytes (st_dev st) ++ word_bytes (st_ino st) ++ half_bytes (st_nlink st)) ;;;
  store_user (u32 (p + 16)) (word_bytes (st_size st)).

(** The descriptor and the file; [None] is the result -1. *)
Definition argfd (n : Z) : M kernel (option (Z * nat)) :=
  let! a := argint n in
  match a with
  | None => ret None
  | Some fd =>
      if (fd <? 0) || (Z.of_nat NOFILE <=? fd) then ret None else
      let! p := cur_proc in
      match p_ofile p !! Z.to_nat fd with
      | Some (Some f) => ret (Some (fd, f))
      | _ => ret None
      end
  end.

(** The descriptor or -1. *)
Definition fdalloc (f : nat) : M kernel Z :=
  let! i := myproc in
  let! p := read_proc i in
  match find_idx (fun o : option nat => bool_decide (o = None)) (p_ofile p) with
  | Some fd =>
      modify (upd_proc i (fun x => set_p_ofile (<[fd := Some f]> (p_ofile x)) x)) ;;;
      ret (Z.of_nat fd)
  | None => ret (-1)
  end.

(** [proc->ofile[fd] = 0] *)
Definition clear_fd (fd : Z) : M kernel unit :=
  let! i := myproc in
  modify (upd_proc i (fun x => set_p_ofile (<[Z.to_nat fd := None]> (p_ofile x)) x)).

Definition sys_dup : M kernel Z :=
  let! a := argfd 0 in
  match a with
  | None => ret (-1)
  | Some (_, f) =>
      let! fd := fdalloc f in
      if fd <? 0 then ret (-1) else
      let! _f := filedup f in
      ret fd
  end.

(** The three arguments of [read] and [write]. *)
Definition arg_rw : M kernel (option (nat * Z * Z)) :=
  let! a := argfd 0 in
  match a with
  | None => ret None
  | Some (_, f) =>
      let! on := argint 2 in
      match on with
      | None => ret None
      | Some n =>
          let! op := argptr 1 n in
          match op with
          | None => ret None
          | Some p => ret (Some (f, p, n))
          end
      end
  end.

Definition sys_read : M kernel Z :=
  let! a := arg_rw in
  match a with
  | None => ret (-1)
  | Some (f, p, n) =>
      let! r := fileread fuel f n in
      store_user p r.2 ;;;
      ret r.1
  end.

Definition sys_write : M kernel Z :=
  let! a := arg_rw in
  match a with
  | None => ret (-1)
  | Some (f, p, n) =>
      let! l := load_user p (Z.to_nat n) in
      filewrite fuel f (of_list l) n
  end.

Definition sys_close : M kernel Z :=
  let! a := argfd 0 in
  match a with
  | None => ret (-1)
  | Some (fd, f) =>
      clear_fd fd ;;;
      fileclose fuel f ;;;
      ret 0
  end.

Definition sys_fstat : M kernel Z :=
  let! a := argfd 0 in
  match a with
  | None => ret (-1)
  | Some (_, f) =>
      let! op := argptr 1 STAT_SIZE in
      match op with
      | None => ret (-1)
      | Some p =>
          let! r := filestat fuel f in
          match r.2 with
          | Some st => store_stat p st
          | None => ret tt
          end ;;;
          ret r.1
      end
  end.

(** ** Links *)

(** [ip->nlink += d; iupdate(ip)] *)
Definition add_nlink (ip : nat) (d : Z) : M kernel unit :=
  modify (upd_inode ip (fun x => set_i_nlink (i16 (i_nlink x + d)) x)) ;;;
  iupdate fuel ip.

(** The label [bad] of [sys_link]. *)
Definition link_bad (ip : nat) : M kernel Z :=
  ilock fuel (Some ip) ;;;
  add_nlink ip (-1) ;;;
  iunlockput fuel ip ;;;
  end_op fuel ;;;
  ret (-1).

Definition link (old new : list Z) : M kernel Z :=
  begin_op fuel ;;;
  let! oip := namei fuel old in
  match oip with
  | None => end_op fuel ;;; ret (-1)
  | Some ip =>
      ilock fuel (Some ip) ;;;
      let! x := read_inode ip in
      if i_type x =? T_DIR then iunlockput fuel ip ;;; end_op fuel ;;; ret (-1) else
      add_nlink ip 1 ;;;
      iunlock (Some ip) ;;;
      let! r := nameiparent fuel new empty_name in
      match r with
      | (None, _) => link_bad ip
      | (Some dp, name) =>
          ilock fuel (Some dp) ;;;
          let! x := read_inode ip in
          let! y := read_inode dp in
          let! l := (if negb (i_dev y =? i_dev x) then ret (-1) else dirlink fuel dp name (i_inum x)) in
          if l <? 0 then iunlockput fuel dp ;;; link_bad ip else
          iunlockput fuel dp ;;;
          iput fuel ip ;;;
          end_op fuel ;;;
          ret 0
      end
  end.
Definition sys_link : M kernel Z :=
  let! o := argstr 0 in
  match o with
  | None => ret (-1)
  | Some old =>
      let! n := argstr 1 in
      match n with
      | None => ret (-1)
      | Some new => link old new
      end
  end.

(** The loop of [isdirempty] from [off] on. *)
Fixpoint isdirempty_loop (f dp : nat) (off : Z) : M kernel bool :=
  let! x := read_inode dp in
  if negb (u32 off <? i_size x) then ret true else
  match f with
  | O => exhausted
  | S f =>
      let! r := readi fuel dp (u32 off) DIRENT_SIZE in
      if negb (u32 r.1 =? DIRENT_SIZE) then panic "isdirempty: readi" else
      if negb (de_inum r.2 =? 0) then ret false
      else isdirempty_loop f dp (i32 (off + DIRENT_SIZE))
  end.
Definition isdirempty (dp : nat) : M kernel bool :=
  let! x := read_inode dp in
  isdirempty_loop (entries (i_size x)) dp (2 * DIRENT_SIZE).

(** The label [bad] of [sys_unlink]. *)
Definition unlink_bad (dp : nat) : M kernel Z :=
  iunlockput fuel dp ;;;
  end_op fuel ;;;
  ret (-1).

Definition unlink (path : list Z) : M kernel Z :=
  begin_op fuel ;;;
  let! r := nameiparent fuel path empty_name in
  match r with
  | (None, _) => end_op fuel ;;; ret (-1)
  | (Some dp, name) =>
      ilock fuel (Some dp) ;;;
      if (namecmp name DOT =? 0) || (namecmp name DOTDOT =? 0) then unlink_bad dp else
      let! e := dirlookup fuel dp name in
      match e with
      | None => unlink_bad dp
      | Some (ip, off) =>
          ilock fuel (Some ip) ;;;
          let! x := read_inode ip in
          if i_nlink x <? 1 then panic "unlink: nlink < 1" else
          let! full := (if i_type x =? T_DIR then let! b := isdirempty ip in ret (negb b) else ret false) in
          if (full : bool) then iunlockput fuel ip ;;; unlink_bad dp else
          let! n := writei fuel dp (of_list (replicate (Z.to_nat DIRENT_SIZE) 0)) off DIRENT_SIZE in
          if negb (u32 n =? DIRENT_SIZE) then panic "unlink: writei" else
          when (i_type x =? T_DIR) (add_nlink dp (-1)) ;;;
          iunlockput fuel dp ;;;
          add_nlink ip (-1) ;;;
          iunlockput fuel ip ;;;
          end_op fuel ;;;
          ret 0
      end
  end.
Definition sys_unlink : M kernel Z :=
  let! o := argstr 0 in
  match o with
  | None => ret (-1)
  | Some path => unlink path
  end.

(** ** Creation *)

Definition create (path : list Z) (type major minor : Z) : M kernel (option nat) :=
  let! r := nameiparent fuel path empty_name in
  match r with
  | (None, _) => ret None
  | (Some dp, name) =>
      ilock fuel (Some dp) ;;;
      let! e := dirlookup fuel dp name in
      match e with
      | Some (ip, _) =>
          iunlockput fuel dp ;;;
          ilock fuel (Some ip) ;;;
          let! x := read_inode ip in
          if (type =? T_FILE) && (i_type x =? T_FILE) then ret (Some ip) else
          iunlockput fuel ip ;;;
          ret None
      | None =>
          let! y := read_inode dp in
          let! ip := ialloc fuel (i_dev y) type in
          ilock fuel (Some ip) ;;;
          modify (upd_inode ip (fun x => set_i_nlink 1 (set_i_minor minor (set_i_major major x)))) ;;;
          iupdate fuel ip ;;;
          let! x := read_inode ip in
          when (type =? T_DIR)
            (add_nlink dp 1 ;;;
             let! r := dirlink fuel ip DOT (i_inum x) in
             if r <? 0 then panic "create dots" else
             let! r := dirlink fuel ip DOTDOT (i_inum y) in
             if r <? 0 then panic "create dots" else ret tt) ;;;
          let! r := dirlink fuel dp name (i_inum x) in
          if r <? 0 then panic "create: dirlink" else
          iunlockput fuel dp ;;;
          ret (Some ip)
      end
  end.

(** The inode of [sys_open], locked, or [None]. *)
Definition open_inode (path : list Z) (omode : Z) : M kernel (option nat) :=
  if negb (Z.land omode O_CREATE =? 0) then create path T_FILE 0 0 else
  let! oip := namei fuel path in
  match oip with
  | None => ret None
  | Some ip =>
      ilock fuel (Some ip) ;;;
      let! x := read_inode ip in
      if (i_type x =? T_DIR) && negb (omode =? O_RDONLY) then
        iunlockput fuel ip ;;; ret None
      else ret (Some ip)
  end.

Definition b2z (b : bool) : Z := if b then 1 else 0.

Definition open (path : list Z) (omode : Z) : M kernel Z :=
  begin_op fuel ;;;
  let! oip := open_inode path omode in
  match oip with
  | None => end_op fuel ;;; ret (-1)
  | Some ip =>
      let! ofile := filealloc in
      let! fd := match ofile with Some f => fdalloc f | None => ret (-1) end in
      match ofile with
      | Some f =>
          if fd <? 0 then
            fileclose fuel f ;;; iunlockput fuel ip ;;; end_op fuel ;;; ret (-1)
          else
            iunlock (Some ip) ;;;
            end_op fuel ;;;
            modify (upd_file f (fun x =>
              set_f_writable (b2z (negb (Z.land omode O_WRONLY =? 0) || negb (Z.land omode O_RDWR =? 0)))
                (set_f_readable (b2z (Z.land omode O_WRONLY =? 0))
                  (set_f_off 0 (set_f_ip (Some ip) (set_f_type FD_INODE x)))))) ;;;
            ret fd
      | None => iunlockput fuel ip ;;; end_op fuel ;;; ret (-1)
      end
  end.
Definition sys_open : M kernel Z :=
  let! o := argstr 0 in
  match o with
  | None => ret (-1)
  | Some path =>
      let! m := argint 1 in
      match m with
      | None => ret (-1)
      | Some omode => open path omode
      end
  end.

(** The common tail of [sys_mkdir] and [sys_mknod]. *)
Definition created (oip : option nat) : M kernel Z :=
  match oip with
  | None => end_op fuel ;;; ret (-1)
  | Some ip => iunlockput fuel ip ;;; end_op fuel ;;; ret 0
  end.

Definition sys_mkdir : M kernel Z :=
  begin_op fuel ;;;
  let! o := argstr 0 in
  let! oip := match o with None => ret None | Some path => create path T_DIR 0 0 end in
  created oip.

(** [major] and [minor] are passed as [short]. *)
Definition sys_mknod : M kernel Z :=
  begin_op fuel ;;;
  let! o := argstr 0 in
  let! oip :=
    match o with
    | None => ret None
    | Some path =>
        let! ma := argint 1 in
        match ma with
        | None => ret None
        | Some major =>
            let! mi := argint 2 in
            match mi with
            | None => ret None
            | Some minor => create path T_DEV (i16 major) (i16 minor)
            end
        end
    end in
  created oip.

Definition sys_chdir : M kernel Z :=
  begin_op fuel ;;;
  let! o := argstr 0 in
  let! oip := match o with None => ret None | Some path => namei fuel path end in
  match oip with
  | None => end_op fuel ;;; ret (-1)
  | Some ip =>
      ilock fuel (Some ip) ;;;
      let! x := read_inode ip in
      if negb (i_type x =? T_DIR) then iunlockput fuel ip ;;; end_op fuel ;;; ret (-1) else
      iunlock (Some ip) ;;;
      let! i := myproc in
      let! p := read_proc i in
      match p_cwd p with
      | None => fault "proc->cwd"
      | Some c => iput fuel c
      end ;;;
      end_op fuel ;;;
      modify (upd_proc i (set_p_cwd (Some ip))) ;;;
      ret 0
  end.

(** The loop of [sys_exec], [n] entries of [argv] left. *)
Fixpoint fetch_argv (uargv i : Z) (n : nat) : M kernel (option (list (list Z))) :=
  match n with
  | O => ret None
  | S n =>
      let! o := fetchint (u32 (uargv + 4 * i)) in
      match o with
      | None => ret None
      | Some uarg =>
          if uarg =? 0 then ret (Some []) else
          let! s := fetchstr (u32 uarg) in
          match s with
          | None => ret None
          | Some s =>
              let! r := fetch_argv uargv (i + 1) n in
              ret (cons s <$> r)
          end
      end
  end.
Definition sys_exec : M kernel Z :=
  let! o := argstr 0 in
  match o with
  | None => ret (-1)
  | Some path =>
      let! u := argint 1 in
      match u with
      | None => ret (-1)
      | Some uargv =>
          let! r := fetch_argv (u32 uargv) 0 (Z.to_nat MAXARG) in
          match r with
          | None => ret (-1)
          | Some argv => exec fuel path argv
          end
      end
  end.

Definition sys_pipe : M kernel Z :=
  let! a := argptr 0 8 in
  match a with
  | None => ret (-1)
  | Some fd =>
      let! r := pipealloc fuel in
      match r with
      | None => ret (-1)
      | Some (rf, wf) =>
          let! fd0 := fdalloc rf in
          let! fd1 := (if fd0 <? 0 then ret (-1) else fdalloc wf) in
          if fd1 <? 0 then
            when (0 <=? fd0) (clear_fd fd0) ;;;
            fileclose fuel rf ;;;
            fileclose fuel wf ;;;
            ret (-1)
          else
            store_user fd (word_bytes fd0) ;;;
            store_user (u32 (fd + 4)) (word_bytes fd1) ;;;
            ret 0
      end
  end.

(** ** The calls this kernel adds *)

(** The result is [strlen] of the buffer after the copy. *)
Definition sys_wolfie : M kernel Z :=
  let! s := argint 1 in
  match s with
  | None => ret (-1)
  | Some size =>
      let! b := argptr 0 size in
      match b with
      | None => ret (-1)
      | Some buf =>
          if (buf =? 0) || (size <=? 0) || (size <? Z.of_nat (length wolfie_img) + 1) then ret (-1) else
          store_user buf (strncpy (of_list wolfie_img) (Z.to_nat size)) ;;;
          let! s := fetch_bytes buf (Z.to_nat size) in
          ret (Z.of_nat (length (default [] s)))
      end
  end.

Definition sys_nice : M kernel Z :=
  let! a := argint 0 in
  match a with
  | None => ret (-1)
  | Some value =>
      if (value <? -20) || (19 <? value) then ret (-1) else
      let! i := myproc in
      let! r := (if lottery then ret 0 else updateNice value i) in
      if negb (r =? 0) then ret (-1) else
      let! p := read_proc i in
      ret (p_nice p)
  end.

(** [ticketdump] only prints. *)
Definition sys_printProcess : M kernel Z := ret 0.
Definition sys_prng : M kernel Z := prng 20.
Definition sys_switchScheduler : M kernel Z :=
  modify (upd_sched (fun sc => set_isLottery (if negb (isLottery sc =? 0) then 0 else 1) sc)) ;;;
  ret 0.
Definition sys_printStats : M kernel Z := printFSStats fuel ;;; ret 0.

End Sysfile.
