(* ===== verification/Trap.v ===== *)
(** Trap: trap.c, and the dispatch of system calls of syscall.c.

    The device interrupt handlers and the number of the CPU are parameters;
    [cr2] is the faulting address the processor reports.  Acknowledging the
    interrupt controller has no effect on the state. *)

From S2P Require Import Prelude Kernel StringLib Bytes Kalloc ProcCore Pipe Bio FsLayout Log Fs Dir File Vm Proc Scheduler Syscall Exec Sysproc Sysfile.

(** traps.h *)
Definition T_PGFLT : Z := 14.
Definition T_SYSCALL : Z := 64.
Definition T_IRQ0 : Z := 32.
Definition IRQ_TIMER : Z := 0.
Definition IRQ_KBD : Z := 1.
Definition IRQ_COM1 : Z := 4.
Definition IRQ_IDE : Z := 14.
Definition IRQ_SPURIOUS : Z := 31.
Definition FEC_WR : Z := 0x2.
Definition DPL_USER : Z := 3.

Class Interrupts := {
  cpu_id : Z;
  ideintr : M kernel unit;
  kbdintr : M kernel unit;
  uartintr : M kernel unit
}.

Section Trap.
Context `{Im : Image} `{Bd : Build} `{D : DiskDriver} (fuel : nat) `{DS : Devsw} `{In : Interrupts}.

(** ** [syscall] *)

(** The table [syscalls], by the numbers of syscall.h. *)
Definition syscalls (num : Z) : option (M kernel Z) :=
  match num with
  | 1 => Some sys_fork
  | 2 => Some (sys_exit fuel)
  | 3 => Some (sys_wait fuel)
  | 4 => Some (sys_pipe fuel)
  | 5 => Some (sys_read fuel)
  | 6 => Some sys_kill
  | 7 => Some (sys_exec fuel)
  | 8 => Some (sys_fstat fuel)
  | 9 => Some (sys_chdir fuel)
  | 10 => Some sys_dup
  | 11 => Some sys_getpid
  | 12 => Some sys_sbrk
  | 13 => Some (sys_sleep fuel)
  | 14 => Some sys_uptime
  | 15 => Some (sys_open fuel)
  | 16 => Some (sys_write fuel)
  | 17 => Some (sys_mknod fuel)
  | 18 => Some (sys_unlink fuel)
  | 19 => Some (sys_link fuel)
  | 20 => Some (sys_mkdir fuel)
  | 21 => Some (sys_close fuel)
  | 22 => Some sys_wolfie
  | 23 => Some sys_nice
  | 24 => Some sys_printProcess
  | 25 => Some sys_prng
  | 26 => Some sys_switchScheduler
  | 27 => Some sys_yield
  | 28 => Some (sys_printStats fuel)
  | _ => None
  end.

Definition set_eax (i : nat) (r : Z) : M kernel unit :=
  modify (upd_proc i (fun x => set_p_tf (set_tf_eax (u32 r) (p_tf x)) x)).

Definition syscall : M kernel unit :=
  let! i := myproc in
  let! p := read_proc i in
  match syscalls (i32 (tf_eax (p_tf p))) with
  | Some f =>
      let! r := f in
      set_eax i r
  | None => set_eax i (-1)
  end.

(** ** The copy-on-write page fault *)

Definition pgflthandler (cr2 : Z) : M kernel Z :=
  let page := PGROUNDDOWN cr2 in
  let! p := cur_proc in
  let! vpage := uva2ka (p_pgdir p) cr2 in
  let! pte := walkpgdir (p_pgdir p) page false in
  if pte =? 0 then panic "Error fetching PTE from CR2 Register!" else
  let! e := read32 pte in
  let pa := PTE_ADDR e in
  let flags := PTE_FLAGS e in
  if Z.land e PTE_COW =? 0 then panic "User page not Copy on Write" else
  let! ref_count := getRefCount vpage in
  (if 1 <? ref_count then
     let! mem := kalloc in
     modify (upd_mem (memset mem 0 PGSIZE)) ;;;
     modify (upd_mem (memmove mem (P2V pa) PGSIZE)) ;;;
     let! e := read32 pte in
     write32 pte (Z.ldiff e PTE_P) ;;;
     let! r := mappages (p_pgdir p) page PGSIZE (V2P mem) (Z.lor PTE_W flags) in
     if negb (r =? 0) then panic "Error mapping pages" else
     decRefCount vpage
   else if ref_count =? 1 then
     write32 pte (Z.ldiff e PTE_P) ;;;
     let flags := Z.lor (Z.ldiff flags (Z.lor PTE_COW PTE_P)) PTE_W in
     let! r := mappages (p_pgdir p) page PGSIZE pa flags in
     if negb (r =? 0) then panic "Error mapping pages" else ret tt
   else ret tt) ;;;
  ret 0.

(** ** [trap] *)

(** The timer interrupt; only CPU 0 counts the ticks. *)
Definition timer_tick : M kernel unit :=
  when (cpu_id =? 0)
    (acquire L_ticks ;;;
     modify (fun k => set_k_ticks (u32 (k_ticks k + 1)) k) ;;;
     wakeup C_ticks ;;;
     release L_ticks).

(** The default case of the switch. *)
Definition unexpected_trap (tf : trapframe) : M kernel unit :=
  let! cur := gets (fun k => curproc (k_sched k)) in
  match cur with
  | None => panic "trap"
  | Some i =>
      if Z.land (tf_cs tf) 3 =? 0 then panic "trap"
      else modify (upd_proc i (set_p_killed 1))
  end.

Definition trap_switch (tf : trapframe) (cr2 : Z) : M kernel unit :=
  let n := tf_trapno tf in
  if n =? T_IRQ0 + IRQ_TIMER then timer_tick
  else if n =? T_IRQ0 + IRQ_IDE then ideintr
  else if n =? T_IRQ0 + IRQ_IDE + 1 then ret tt
  else if n =? T_IRQ0 + IRQ_KBD then kbdintr
  else if n =? T_IRQ0 + IRQ_COM1 then uartintr
  else if (n =? T_IRQ0 + 7) || (n =? T_IRQ0 + IRQ_SPURIOUS) then ret tt
  else if negb original && (n =? T_PGFLT) then
    if negb (Z.land (tf_err tf) FEC_WR =? 0) then let! _r := pgflthandler cr2 in ret tt
    else
      let! p := cur_proc in
      let! _a := uva2ka (p_pgdir p) cr2 in
      ret tt
  else unexpected_trap tf.

(** A killed process that would return to user space exits. *)
Definition die_if_killed (tf : trapframe) : M kernel unit :=
  let! cur := gets (fun k => curproc (k_sched k)) in
  match cur with
  | None => ret tt
  | Some i =>
      let! p := read_proc i in
      when (negb (p_killed p =? 0) && (Z.land (tf_cs tf) 3 =? DPL_USER)) (exit fuel)
  end.

Definition trap (tf : trapframe) (cr2 : Z) : M kernel unit :=
  if tf_trapno tf =? T_SYSCALL then
    let! i := myproc in
    let! p := read_proc i in
    when (negb (p_killed p =? 0)) (exit fuel) ;;;
    modify (upd_proc i (set_p_tf tf)) ;;;
    syscall ;;;
    let! p := read_proc i in
    when (negb (p_killed p =? 0)) (exit fuel)
  else
    trap_switch tf cr2 ;;;
    die_if_killed tf ;;;
    let! cur := gets (fun k => curproc (k_sched k)) in
    match cur with
    | None => ret tt
    | Some i =>
        let! p := read_proc i in
        when (bool_decide (p_state p = RUNNING) && (tf_trapno tf =? T_IRQ0 + IRQ_TIMER)) yield
    end ;;;
    die_if_killed tf.

End Trap.
