(* ===== verification/KernelTypes.v ===== *)
(** KernelTypes: a type system for the kernel.

    A kernel is well formed when every table has its declared size and every
    pointer into a table is a slot of it.  [typed m P] says that from any well
    formed kernel [m] only ever reads slots that exist, hands well formed
    kernels to the scheduler, whatever well formed kernels it gets back, and
    returns a value of type [P] in a well formed kernel.  The judgement is
    syntax directed; [ty] derives it for a function from the types of the
    functions it calls, which the hint database [ktypes] collects. *)

From S2P Require Import Prelude Kernel StringLib ProcCore Bio.

(** ** Well-formed kernels *)

Definition idx (n i : nat) : Prop := (i < n)%nat.
Definition oidx (n : nat) (o : option nat) : Prop := match o with Some i => idx n i | None => True end.

Definition NBUFS : nat := S NBUF.

Record proc_ok (p : proc) : Prop := {
  po_files : length (p_ofile p) = NOFILE /\ Forall (oidx NFILE) (p_ofile p);
  po_parent : oidx NPROC (p_parent p);
  po_cwd : oidx NINODE (p_cwd p);
  po_name : length (p_name p) = 16%nat
}.
Record buf_ok (b : buf) : Prop := {
  bo_prev : idx NBUFS (b_prev b);
  bo_next : idx NBUFS (b_next b);
  bo_data : length (b_data b) = 512%nat
}.
Definition inode_ok (ip : inode) : Prop := length (i_addrs ip) = 13%nat.
Definition file_ok (f : file) : Prop := oidx NINODE (f_ip f).
Definition pipe_shape (p : pipe) : Prop := length (pi_data p) = 512%nat.

Record wf (k : kernel) : Prop := {
  w_procs : length (procs (k_sched k)) = NPROC /\ Forall proc_ok (procs (k_sched k));
  w_cur : oidx NPROC (curproc (k_sched k));
  w_init : oidx NPROC (initproc (k_sched k));
  w_bufs : length (k_bufs k) = NBUFS /\ Forall buf_ok (k_bufs k);
  w_icache : length (k_icache k) = NINODE /\ Forall inode_ok (k_icache k);
  w_ftable : length (k_ftable k) = NFILE /\ Forall file_ok (k_ftable k);
  w_disk : forall n, length (k_disk k n) = 512%nat;
  w_boot : forall n, length (boot_disk (k_ide k) n) = 512%nat;
  w_busy : match ide_busy (k_ide k) with Some (Ide_write _ _ d) => length d = 512%nat | _ => True end;
  w_queue : Forall (idx NBUFS) (idequeue (k_ide k));
  w_log : length (l_block (k_log k)) = Z.to_nat LOGSIZE;
  w_pipes : map_Forall (fun _ => pipe_shape) (k_pipes k);
  w_cons : length (in_buf (k_cons k)) = 128%nat
}.

(** ** The judgement *)

(** The faults of an index that is not a slot. *)
Definition out_of_table (m : string) : bool :=
  bool_decide (m ∈ ["no such proc"; "no such buf"; "no such inode"; "no such file"]).

Fixpoint otyped {A} (o : outcome kernel A) (P : A -> Prop) : Prop :=
  match o with
  | Done a k => wf k /\ P a
  | Panicked _ _ | Exhausted => True
  | Faulted m _ => out_of_table m = false
  | Switched k f => wf k /\ forall k', wf k' -> otyped (f k') P
  end.
Definition typed {A} (m : M kernel A) (P : A -> Prop) : Prop := forall k, wf k -> otyped (m k) P.

Definition any {A} (_ : A) : Prop := True.

Lemma otyped_obind {A B} (o : outcome kernel A) (f : A -> M kernel B) P Q :
  otyped o P -> (forall a, P a -> typed (f a) Q) -> otyped (obind o f) Q.
Proof.
  intros Ho Hf. induction o as [a k|m k|m k|k g IH|]; simpl in *; auto.
  - destruct Ho as [Hk Ha]. by apply (Hf a Ha).
  - destruct Ho as [Hk Hg]. split; auto.
Qed.
Lemma typed_bind {A B} (m : M kernel A) (f : A -> M kernel B) P Q :
  typed m P -> (forall a, P a -> typed (f a) Q) -> typed (bind m f) Q.
Proof. intros Hm Hf k Hk. eapply otyped_obind; [by apply Hm|done]. Qed.
Lemma otyped_mono {A} (o : outcome kernel A) (P Q : A -> Prop) :
  (forall a, P a -> Q a) -> otyped o P -> otyped o Q.
Proof. intros H. induction o as [a k|m k|m k|k g IH|]; simpl; naive_solver. Qed.
Lemma typed_mono {A} (m : M kernel A) (P Q : A -> Prop) :
  typed m P -> (forall a, P a -> Q a) -> typed m Q.
Proof. intros Hm H k Hk. eapply otyped_mono; [done|by apply Hm]. Qed.
Lemma typed_ret {A} (a : A) (P : A -> Prop) : P a -> typed (ret a) P.
Proof. by intros H k Hk. Qed.
Lemma typed_panic {A} msg (P : A -> Prop) : typed (panic msg) P.
Proof. by intros k Hk. Qed.
Lemma typed_fault {A} msg (P : A -> Prop) : out_of_table msg = false -> typed (fault msg) P.
Proof. by intros H k Hk. Qed.
Lemma typed_exhausted {A} (P : A -> Prop) : typed exhausted P.
Proof. by intros k Hk. Qed.
Lemma typed_gets {A} (g : kernel -> A) (P : A -> Prop) : (forall k, wf k -> P (g k)) -> typed (gets g) P.
Proof. intros H k Hk. split; [done|by apply H]. Qed.
Lemma typed_gets_any {A} (g : kernel -> A) : typed (gets g) any.
Proof. by apply typed_gets. Qed.
Lemma typed_modify (g : kernel -> kernel) : (forall k, wf k -> wf (g k)) -> typed (modify g) any.
Proof. intros H k Hk. split; [by apply H|done]. Qed.
Lemma typed_swtch : typed swtch any.
Proof. intros k Hk. split; [done|]. intros k' Hk'. by split. Qed.
Lemma typed_when b (m : M kernel unit) : typed m any -> typed (when b m) any.
Proof. destruct b; [done|]. intros _. by apply typed_ret. Qed.

(** ** The tables *)

Lemma forall_alter {A} (P : A -> Prop) (f : A -> A) i l : Forall P l -> (forall x, P x -> P (f x)) -> Forall P (alter f i l).
Proof. intros HF Hf. apply Forall_alter; [done|]. intros x _ Hx. auto. Qed.

Lemma wf_upd_sched f k :
  (length (procs (f (k_sched k))) = NPROC /\ Forall proc_ok (procs (f (k_sched k)))) ->
  oidx NPROC (curproc (f (k_sched k))) -> oidx NPROC (initproc (f (k_sched k))) -> wf k -> wf (upd_sched f k).
Proof. by intros H1 H2 H3 []. Qed.
Lemma wf_upd_proc i f k : (forall p, proc_ok p -> proc_ok (f p)) -> wf k -> wf (upd_proc i f k).
Proof.
  intros Hf Hk. destruct Hk as [[HL HF] ? ?]. apply wf_upd_sched; try done. simpl. rewrite length_alter.
  split; [done|]. by apply forall_alter.
Qed.
Lemma wf_upd_buf i f k : (forall b, buf_ok b -> buf_ok (f b)) -> wf k -> wf (upd_buf i f k).
Proof. intros Hf []. split; try done. simpl. rewrite length_alter. split; [naive_solver|]. apply forall_alter; naive_solver. Qed.
Lemma wf_upd_inode i f k : (forall b, inode_ok b -> inode_ok (f b)) -> wf k -> wf (upd_inode i f k).
Proof. intros Hf []. split; try done. simpl. rewrite length_alter. split; [naive_solver|]. apply forall_alter; naive_solver. Qed.
Lemma wf_upd_file i f k : (forall b, file_ok b -> file_ok (f b)) -> wf k -> wf (upd_file i f k).
Proof. intros Hf []. split; try done. simpl. rewrite length_alter. split; [naive_solver|]. apply forall_alter; naive_solver. Qed.
Lemma wf_upd_pipe a f k : (forall p, pipe_shape p -> pipe_shape (f p)) -> wf k -> wf (upd_pipe a f k).
Proof.
  intros Hf Hk. destruct Hk as [? ? ? ? ? ? ? ? ? ? ? Hp ?]. split; try done. intros b p. simpl.
  destruct (decide (a = b)) as [<-|Hne]; [|rewrite lookup_alter_ne by done; apply Hp].
  rewrite lookup_alter_eq. destruct (k_pipes k !! a) eqn:E; [|done]. intros [= <-]. apply Hf. by eapply Hp.
Qed.
Lemma wf_upd_kmem f k : wf k -> wf (upd_kmem f k).
Proof. by intros []. Qed.
Lemma wf_set_held h k : wf k -> wf (set_k_held h k).
Proof. by intros []. Qed.
Lemma wf_set_mem m k : wf k -> wf (set_k_mem m k).
Proof. by intros []. Qed.
Lemma wf_set_sb sb k : wf k -> wf (set_k_sb sb k).
Proof. by intros []. Qed.
Lemma wf_set_ticks t k : wf k -> wf (set_k_ticks t k).
Proof. by intros []. Qed.
Lemma wf_upd_log f k :
  (forall l, length (l_block l) = Z.to_nat LOGSIZE -> length (l_block (f l)) = Z.to_nat LOGSIZE) -> wf k -> wf (upd_log f k).
Proof. intros Hf []. split; try done. by apply Hf. Qed.
Lemma wf_upd_cons f k :
  (forall c, length (in_buf c) = 128%nat -> length (in_buf (f c)) = 128%nat) -> wf k -> wf (upd_cons f k).
Proof. intros Hf []. split; try done. by apply Hf. Qed.

Create HintDb ktypes discriminated.
#[export] Hint Constants Opaque : ktypes.
#[export] Hint Resolve wf_upd_kmem wf_set_held wf_set_mem wf_set_sb wf_set_ticks : ktypes.

Lemma proc_cwd p c : proc_ok p -> p_cwd p = Some c -> idx NINODE c.
Proof. intros [] E. by rewrite E in po_cwd0. Qed.
Lemma proc_file p fd f : proc_ok p -> p_ofile p !! fd = Some (Some f) -> idx NFILE f.
Proof. intros [[_ HF] _ _ _] E. apply (Forall_lookup_1 _ _ _ _ HF E). Qed.
Lemma proc_parent p i : proc_ok p -> p_parent p = Some i -> idx NPROC i.
Proof. intros [] E. by rewrite E in po_parent0. Qed.
Lemma file_inode f ip : file_ok f -> f_ip f = Some ip -> idx NINODE ip.
Proof. unfold file_ok. intros H E. by rewrite E in H. Qed.
Lemma oidx_Some n i : idx n i -> oidx n (Some i).
Proof. done. Qed.
Lemma oidx_None n : oidx n None.
Proof. done. Qed.
#[export] Hint Resolve proc_cwd proc_file proc_parent file_inode oidx_Some oidx_None bo_prev bo_next bo_data
  po_parent po_cwd po_name : ktypes.

Lemma files_insert l i o : Forall (oidx NFILE) l -> oidx NFILE o -> Forall (oidx NFILE) (<[i := o]> l).
Proof. apply Forall_insert. Qed.
#[export] Hint Resolve files_insert : ktypes.

(** Accesses to the tables: the slot exists. *)
Lemma typed_myproc : typed myproc (idx NPROC).
Proof. intros k Hk. unfold myproc. pose proof (w_cur _ Hk) as Hc. destruct (curproc (k_sched k)); [by split|done]. Qed.
Lemma typed_read_proc i : idx NPROC i -> typed (read_proc i) proc_ok.
Proof.
  intros Hi k Hk. unfold read_proc. destruct (w_procs _ Hk) as [HL HF].
  destruct (lookup_lt_is_Some_2 (procs (k_sched k)) i) as [p E]; [by rewrite HL|]. rewrite E.
  split; [done|]. apply (Forall_lookup_1 _ _ _ _ HF E).
Qed.
Lemma typed_read_buf i : idx NBUFS i -> typed (read_buf i) buf_ok.
Proof.
  intros Hi k Hk. unfold read_buf. destruct (w_bufs _ Hk) as [HL HF].
  destruct (lookup_lt_is_Some_2 (k_bufs k) i) as [p E]; [by rewrite HL|]. rewrite E.
  split; [done|]. apply (Forall_lookup_1 _ _ _ _ HF E).
Qed.
Lemma typed_read_inode i : idx NINODE i -> typed (read_inode i) inode_ok.
Proof.
  intros Hi k Hk. unfold read_inode. destruct (w_icache _ Hk) as [HL HF].
  destruct (lookup_lt_is_Some_2 (k_icache k) i) as [p E]; [by rewrite HL|]. rewrite E.
  split; [done|]. apply (Forall_lookup_1 _ _ _ _ HF E).
Qed.
Lemma typed_read_file i : idx NFILE i -> typed (read_file i) file_ok.
Proof.
  intros Hi k Hk. unfold read_file. destruct (w_ftable _ Hk) as [HL HF].
  destruct (lookup_lt_is_Some_2 (k_ftable k) i) as [p E]; [by rewrite HL|]. rewrite E.
  split; [done|]. apply (Forall_lookup_1 _ _ _ _ HF E).
Qed.
Lemma typed_read_pipe a : typed (read_pipe a) pipe_shape.
Proof.
  intros k Hk. unfold read_pipe. destruct (k_pipes k !! a) as [p|] eqn:E; [|done].
  split; [done|]. by apply (w_pipes _ Hk a).
Qed.
(** Reading the globals that hold slots. *)
Lemma typed_curproc : typed (gets (fun k => curproc (k_sched k))) (oidx NPROC).
Proof. apply typed_gets. apply w_cur. Qed.
Lemma typed_initproc : typed (gets (fun k => initproc (k_sched k))) (oidx NPROC).
Proof. apply typed_gets. apply w_init. Qed.
Lemma typed_procs : typed (gets (fun k => procs (k_sched k))) (fun l => length l = NPROC /\ Forall proc_ok l).
Proof. apply typed_gets. apply w_procs. Qed.
Lemma typed_icache : typed (gets k_icache) (fun l => length l = NINODE).
Proof. apply typed_gets. apply w_icache. Qed.
Lemma typed_ftable : typed (gets k_ftable) (fun l => length l = NFILE).
Proof. apply typed_gets. apply w_ftable. Qed.
Lemma find_idx_bound {A} (p : A -> bool) l i n : length l = n -> find_idx p l = Some i -> idx n i.
Proof. intros <- H. apply find_idx_lookup in H as (x & Hx & _). by eapply lookup_lt_Some. Qed.
Lemma find_proc_bound (p : proc -> bool) l i :
  length l = NPROC /\ Forall proc_ok l -> find_idx p l = Some i -> idx NPROC i.
Proof. intros [H _]. by apply find_idx_bound. Qed.

#[export] Hint Resolve typed_myproc typed_read_proc typed_read_buf typed_read_inode typed_read_file typed_read_pipe
  typed_curproc typed_initproc typed_procs typed_icache typed_ftable typed_swtch : ktypes.
#[export] Hint Resolve find_idx_bound find_proc_bound : ktypes.
#[export] Hint Extern 5 (typed (gets _) _) => apply typed_gets_any : ktypes.
#[export] Hint Extern 1 (any _) => exact I : ktypes.
#[export] Hint Extern 1 (idx _ ?i) => match goal with H : oidx _ (Some i) |- _ => exact H end : ktypes.

(** ** The tactic *)

(** Operations that keep the size of an array. *)
Create HintDb klen.
#[export] Hint Rewrite @length_insert @length_inserts @length_alter : klen.

(** State updates: the constructor of the new state decides. *)
Ltac ty_field :=
  intros; first
  [ match goal with H : proc_ok _ |- proc_ok _ => destruct H as [[??]???]; split; simpl; auto with ktypes end
  | match goal with H : buf_ok _ |- buf_ok _ => destruct H; split; simpl; auto with ktypes end
  | match goal with |- inode_ok _ => unfold inode_ok in *; simpl in *; auto end
  | match goal with |- file_ok _ => unfold file_ok in *; simpl in *; auto end
  | match goal with |- pipe_shape _ => unfold pipe_shape in *; simpl in *; auto end
  | match goal with |- length _ = _ => simpl in *; auto end ];
  autorewrite with klen; eauto with ktypes.
Ltac ty_state :=
  intros; first
  [ apply wf_upd_proc; [solve [ty_field]|assumption]
  | apply wf_upd_buf; [solve [ty_field]|assumption]
  | apply wf_upd_inode; [solve [ty_field]|assumption]
  | apply wf_upd_file; [solve [ty_field]|assumption]
  | apply wf_upd_pipe; [solve [ty_field]|assumption]
  | apply wf_upd_log; [solve [ty_field]|assumption]
  | apply wf_upd_cons; [solve [ty_field]|assumption]
  | solve [eauto 5 with ktypes] ].

Ltac ty_lemma := first [ solve [eauto 5 with ktypes] | eapply typed_mono; [solve [eauto 5 with ktypes]|solve [intros; eauto 5 with ktypes]] ].

Ltac ty :=
  cbv zeta beta;
  lazymatch goal with
  | |- typed (bind _ _) _ => eapply typed_bind; [ty_sub|let H := fresh "H" in intros ? H; cbv beta in H; ty]
  | |- typed (ret _) _ => apply typed_ret; try solve [eauto 5 with ktypes]
  | |- typed (panic _) _ => apply typed_panic
  | |- typed exhausted _ => apply typed_exhausted
  | |- typed (fault _) _ => apply typed_fault; reflexivity
  | |- typed (when _ _) _ => first [apply typed_when; ty | eapply typed_mono; [apply typed_when; ty|solve [intros; eauto with ktypes]]]
  | |- typed (modify _) _ => first [ solve [eauto 5 with ktypes]
      | apply typed_modify; ty_state | eapply typed_mono; [apply typed_modify; ty_state|solve [intros; eauto with ktypes]]]
  | |- typed (if ?b then _ else _) _ => let E := fresh "E" in destruct b eqn:E; ty
  | |- typed (match ?x with _ => _ end) _ => let E := fresh "E" in destruct x eqn:E; ty
  | |- typed _ _ => ty_lemma
  end
(** The first half of a [bind]: the type of a function that has one, and no
    claim about the result otherwise. *)
with ty_sub :=
  first
  [ solve [eauto 5 with ktypes]
  | match goal with
    | |- typed (if ?b then _ else _) ?P => instantiate (1 := any); destruct b; ty
    end
  | instantiate (1 := any); ty ].
