(* ===== verification/TypesFs.v ===== *)
(** TypesFs: the types of the functions below the system calls: processes'
    waiting and waking, the buffer cache, the log, the file system. *)

From S2P Require Import Prelude Kernel StringLib Bytes ProcCore Bio FsLayout Log Fs Dir FsWrite FsAlloc KernelTypes.

Lemma clear_bit_length bi d : length (clear_bit bi d) = length d.
Proof. apply length_insert. Qed.
Lemma fresh_dinode_length o t d : length (fresh_dinode o t d) = length d.
Proof. unfold fresh_dinode. by rewrite put16_length, length_inserts. Qed.
Lemma set_stats_length u p d : length (set_stats u p d) = length d.
Proof. unfold set_stats. by rewrite !put32_length. Qed.
#[export] Hint Rewrite put32_length put16_length set_bit_length clear_bit_length fresh_dinode_length
  store_dinode_length set_stats_length : klen.

(** ** Locks, sleep and wakeup *)

Lemma typed_holding lk : typed (holding lk) any.
Proof. unfold holding. ty. Qed.
Lemma typed_acquire lk : typed (acquire lk) any.
Proof. unfold acquire, holding. ty. Qed.
Lemma typed_release lk : typed (release lk) any.
Proof. unfold release, holding. ty. Qed.
#[export] Hint Resolve typed_holding typed_acquire typed_release : ktypes.

Lemma typed_sched : typed sched any.
Proof. unfold sched. ty. Qed.
Lemma typed_set_state i st : typed (set_state i st) any.
Proof. unfold set_state. ty. Qed.
#[export] Hint Resolve typed_sched typed_set_state : ktypes.
Lemma typed_yield : typed yield any.
Proof. unfold yield. ty. Qed.
Lemma typed_sleep ch lk : typed (sleep ch lk) any.
Proof. unfold sleep. ty. Qed.
Lemma typed_map_procs f :
  (forall p, proc_ok p -> proc_ok (f p)) -> typed (modify (upd_sched (fun sc => set_procs (map f (procs sc)) sc))) any.
Proof.
  intros Hf. apply typed_modify. intros k Hk. destruct Hk as [[HL HF] ? ?]. apply wf_upd_sched; try done. simpl.
  rewrite length_map. split; [done|]. rewrite Forall_map. eapply Forall_impl; [exact HF|]. apply Hf.
Qed.
Lemma typed_wakeup1 ch : typed (wakeup1 ch) any.
Proof. apply typed_map_procs. intros p Hp. unfold wake_one. case_if; [ty_field|done]. Qed.
#[export] Hint Resolve typed_yield typed_sleep typed_map_procs typed_wakeup1 : ktypes.
Lemma typed_wakeup ch : typed (wakeup ch) any.
Proof. unfold wakeup. ty. Qed.
Lemma typed_kill pid : typed (kill pid) any.
Proof. unfold kill. ty. Qed.
#[export] Hint Resolve typed_wakeup typed_kill : ktypes.

(** ** The buffer cache

    The driver is typed when it gets and keeps well formed kernels. *)
Class DriverTyped (D : DiskDriver) : Prop := { typed_iderw b : idx NBUFS b -> typed (iderw b) any }.
#[export] Hint Resolve typed_iderw : ktypes.

Lemma idx_head : idx NBUFS HEAD.
Proof. unfold idx, NBUFS, HEAD. lia. Qed.
#[export] Hint Resolve idx_head : ktypes.

(** The drivers' functions of [devsw] are typed. *)
Class DevswTyped (DS : Devsw) : Prop := {
  typed_dev_read m f ip n : dev_read m = Some f -> idx NINODE ip -> typed (f ip n) any;
  typed_dev_write m f ip src n : dev_write m = Some f -> idx NINODE ip -> typed (f ip src n) any
}.
#[export] Hint Resolve typed_dev_read typed_dev_write : ktypes.

Section Fs.
Context `{D : DiskDriver} `{!DriverTyped D} (fuel : nat).

Lemma typed_scan_next f test cur : idx NBUFS cur -> typed (scan_next f test cur) (oidx NBUFS).
Proof. revert cur. induction f as [|f IH]; intros cur Hc; cbn [scan_next]; ty. Qed.
Lemma typed_scan_prev f test cur : idx NBUFS cur -> typed (scan_prev f test cur) (oidx NBUFS).
Proof. revert cur. induction f as [|f IH]; intros cur Hc; cbn [scan_prev]; ty. Qed.
Hint Resolve typed_scan_next typed_scan_prev : ktypes.
Lemma typed_bget_loop f dev bn : typed (bget_loop f dev bn) (idx NBUFS).
Proof. induction f as [|f IH]; cbn [bget_loop]; ty. Qed.
Hint Resolve typed_bget_loop : ktypes.
Lemma typed_bget f dev bn : typed (bget f dev bn) (idx NBUFS).
Proof. unfold bget. ty. Qed.
Hint Resolve typed_bget : ktypes.
Lemma typed_bread f dev bn : typed (bread f dev bn) (idx NBUFS).
Proof. unfold bread. ty. Qed.
Lemma typed_bwrite b : idx NBUFS b -> typed (bwrite b) any.
Proof. intros. unfold bwrite. ty. Qed.
Lemma typed_brelse b : idx NBUFS b -> typed (brelse b) any.
Proof. intros. unfold brelse. ty. Qed.
Hint Resolve typed_bread typed_bwrite typed_brelse : ktypes.

(** ** The log *)

Lemma typed_lh_block i : typed (lh_block i) any.
Proof. intros k Hk. unfold lh_block. destruct (l_block (k_log k) !! Z.to_nat i); [by split|reflexivity]. Qed.
Hint Resolve typed_lh_block : ktypes.
Lemma typed_set_lh_block i v : typed (set_lh_block i v) any.
Proof. unfold set_lh_block. ty. Qed.
Hint Resolve typed_set_lh_block : ktypes.
Lemma typed_install_one tail : typed (install_one fuel tail) any.
Proof. unfold install_one. ty. Qed.
Hint Resolve typed_install_one : ktypes.
Lemma typed_install_loop tail n : typed (install_loop fuel tail n) any.
Proof. revert tail. induction n as [|n IH]; intros tail; cbn [install_loop]; ty. Qed.
Hint Resolve typed_install_loop : ktypes.
Lemma typed_install_trans : typed (install_trans fuel) any.
Proof. unfold install_trans. ty. Qed.
Lemma typed_read_head_loop d i n : typed (read_head_loop d i n) any.
Proof. revert i. induction n as [|n IH]; intros i; cbn [read_head_loop]; ty. Qed.
Hint Resolve typed_install_trans typed_read_head_loop : ktypes.
Lemma typed_read_head : typed (read_head fuel) any.
Proof. unfold read_head. ty. Qed.
Lemma typed_write_head_loop b i n : idx NBUFS b -> typed (write_head_loop b i n) any.
Proof. intros Hb. revert i. induction n as [|n IH]; intros i; cbn [write_head_loop]; ty. Qed.
Hint Resolve typed_read_head typed_write_head_loop : ktypes.
Lemma typed_write_head : typed (write_head fuel) any.
Proof. unfold write_head. ty. Qed.
Hint Resolve typed_write_head : ktypes.
Lemma typed_recover : typed (recover_from_log fuel) any.
Proof. unfold recover_from_log. ty. Qed.
Lemma typed_readsb dev : typed (readsb fuel dev) any.
Proof. unfold readsb. ty. Qed.
Hint Resolve typed_recover typed_readsb : ktypes.
Lemma typed_initlog dev : typed (initlog fuel dev) any.
Proof. unfold initlog. ty. Qed.
Lemma typed_begin_op_loop f : typed (begin_op_loop f) any.
Proof. induction f as [|f IH]; cbn [begin_op_loop]; ty. Qed.
Hint Resolve typed_begin_op_loop : ktypes.
Lemma typed_begin_op : typed (begin_op fuel) any.
Proof. unfold begin_op. ty. Qed.
Lemma typed_write_log_one tail : typed (write_log_one fuel tail) any.
Proof. unfold write_log_one. ty. Qed.
Hint Resolve typed_write_log_one : ktypes.
Lemma typed_write_log_loop tail n : typed (write_log_loop fuel tail n) any.
Proof. revert tail. induction n as [|n IH]; intros tail; cbn [write_log_loop]; ty. Qed.
Hint Resolve typed_write_log_loop : ktypes.
Lemma typed_write_log : typed (write_log fuel) any.
Proof. unfold write_log. ty. Qed.
Hint Resolve typed_write_log : ktypes.
Lemma typed_commit : typed (commit fuel) any.
Proof. unfold commit. ty. Qed.
Hint Resolve typed_commit : ktypes.
Lemma typed_end_op : typed (end_op fuel) any.
Proof. unfold end_op. ty. Qed.
Lemma typed_log_write b : idx NBUFS b -> typed (log_write b) any.
Proof. intros. unfold log_write. ty. Qed.
Hint Resolve typed_initlog typed_begin_op typed_end_op typed_log_write : ktypes.

(** ** Blocks and inodes *)

Lemma typed_set_data b f : (forall d, length (f d) = length d) -> typed (set_data b f) any.
Proof. intros Hf. unfold set_data. apply typed_modify. intros k Hk. apply wf_upd_buf; [|done]. intros x [? ? Hx]. split; [done..|]. simpl. by rewrite Hf. Qed.
Hint Extern 1 (typed (set_data _ _) _) =>
  apply typed_set_data; intros; cbv zeta; autorewrite with klen; reflexivity : ktypes.
Lemma typed_cwd_inum : typed cwd_inum any.
Proof. unfold cwd_inum. ty. Qed.
Lemma typed_bzero dev b : typed (bzero fuel dev b) any.
Proof. unfold bzero. ty. Qed.
Hint Resolve typed_cwd_inum typed_bzero : ktypes.
Lemma typed_balloc_groups f dev b head : typed (balloc_groups fuel f dev b head) any.
Proof. revert b head. induction f as [|f IH]; intros; cbn [balloc_groups]; ty. Qed.
Hint Resolve typed_balloc_groups : ktypes.
Lemma typed_balloc dev : typed (balloc fuel dev) any.
Proof. unfold balloc. ty. Qed.
Lemma typed_bfree dev b : typed (bfree fuel dev b) any.
Proof. unfold bfree. ty. Qed.
Hint Resolve typed_balloc typed_bfree : ktypes.

Lemma typed_clear_groups i n : typed (clear_groups fuel i n) any.
Proof. revert i. induction n as [|n IH]; intros; cbn [clear_groups]; ty. Qed.
Lemma typed_print_groups i n : typed (print_groups fuel i n) any.
Proof. revert i. induction n as [|n IH]; intros; cbn [print_groups]; ty. Qed.
Lemma typed_count_inodes i n t : typed (count_inodes fuel i n t) any.
Proof. revert i t. induction n as [|n IH]; intros; cbn [count_inodes]; ty. Qed.
Hint Resolve typed_clear_groups typed_print_groups typed_count_inodes : ktypes.
Lemma typed_fill_groups i j n : typed (fill_groups fuel i j n) any.
Proof. revert i j. induction n as [|n IH]; intros; cbn [fill_groups]; ty. Qed.
Hint Resolve typed_fill_groups : ktypes.
Lemma typed_printFSStats : typed (printFSStats fuel) any.
Proof. unfold printFSStats. ty. Qed.
Lemma typed_clearFSStats : typed (clearFSStats fuel) any.
Proof. unfold clearFSStats. ty. Qed.
Lemma typed_fillFSStats : typed (fillFSStats fuel) any.
Proof. unfold fillFSStats. ty. Qed.
Hint Resolve typed_printFSStats typed_clearFSStats typed_fillFSStats : ktypes.
Lemma typed_iinit dev : typed (iinit fuel dev) any.
Proof. unfold iinit. ty. Qed.

Lemma typed_iget dev inum : typed (iget dev inum) (idx NINODE).
Proof. unfold iget. ty. Qed.
Lemma typed_idup ip : idx NINODE ip -> typed (idup ip) (idx NINODE).
Proof. intros. unfold idup. ty. Qed.
Hint Resolve typed_iinit typed_iget typed_idup : ktypes.
Lemma typed_ilock_wait f ip : idx NINODE ip -> typed (ilock_wait f ip) any.
Proof. intros Hi. induction f as [|f IH]; cbn [ilock_wait]; ty. Qed.
Hint Resolve typed_ilock_wait : ktypes.
Lemma load_dinode_inode_ok o d x : inode_ok (load_dinode o d x).
Proof. unfold inode_ok, load_dinode. simpl. done. Qed.
Hint Resolve load_dinode_inode_ok : ktypes.
Lemma typed_load_dinode ip o d : typed (modify (upd_inode ip (load_dinode o d))) any.
Proof. apply typed_modify. intros k Hk. apply wf_upd_inode; [|done]. intros. apply load_dinode_inode_ok. Qed.
Hint Resolve typed_load_dinode : ktypes.
Lemma typed_ilock o : oidx NINODE o -> typed (ilock fuel o) any.
Proof. intros Ho. unfold ilock. destruct o as [ip|]; ty. Qed.
Lemma typed_iunlock o : oidx NINODE o -> typed (iunlock o) any.
Proof. intros Ho. unfold iunlock. destruct o as [ip|]; ty. Qed.
Lemma typed_iupdate ip : idx NINODE ip -> typed (iupdate fuel ip) any.
Proof. intros. unfold iupdate. ty. Qed.
Hint Resolve typed_ilock typed_iunlock typed_iupdate : ktypes.
Lemma typed_least_used dev bg least lub n : typed (least_used fuel dev bg least lub n) any.
Proof. revert bg least lub. induction n as [|n IH]; intros; cbn [least_used]; ty. Qed.
Lemma typed_take_inode dev inum type bg bp : idx NBUFS bp -> typed (take_inode fuel dev inum type bg bp) (idx NINODE).
Proof. intros. unfold take_inode. ty. Qed.
Hint Resolve typed_least_used typed_take_inode : ktypes.
Lemma typed_ialloc_scan dev type bgof inum n : typed (ialloc_scan fuel dev type bgof inum n) (oidx NINODE).
Proof. revert inum. induction n as [|n IH]; intros; cbn [ialloc_scan]; ty. Qed.
Hint Resolve typed_ialloc_scan : ktypes.
Lemma typed_ialloc dev type : typed (ialloc fuel dev type) (idx NINODE).
Proof. unfold ialloc. ty. Qed.
Hint Resolve typed_ialloc : ktypes.

(** ** Contents *)

Lemma typed_bmap_addr ip i : idx NINODE ip -> typed (bmap_addr fuel ip i) any.
Proof. intros. unfold bmap_addr. ty. Qed.
Hint Resolve typed_bmap_addr : ktypes.
Lemma typed_bmap ip bn : idx NINODE ip -> typed (bmap fuel ip bn) any.
Proof. intros. unfold bmap. ty. Qed.
Lemma typed_trunc_direct ip i n : idx NINODE ip -> typed (trunc_direct fuel ip i n) any.
Proof. intros Hi. revert i. induction n as [|n IH]; intros; cbn [trunc_direct]; ty. Qed.
Lemma typed_trunc_indirect ip bp j n : idx NINODE ip -> idx NBUFS bp -> typed (trunc_indirect fuel ip bp j n) any.
Proof. intros Hi Hb. revert j. induction n as [|n IH]; intros; cbn [trunc_indirect]; ty. Qed.
Hint Resolve typed_bmap typed_trunc_direct typed_trunc_indirect : ktypes.
Lemma typed_itrunc ip : idx NINODE ip -> typed (itrunc fuel ip) any.
Proof. intros. unfold itrunc. ty. Qed.
Hint Resolve typed_itrunc : ktypes.
Lemma typed_iput ip : idx NINODE ip -> typed (iput fuel ip) any.
Proof. intros. unfold iput. ty. Qed.
Hint Resolve typed_iput : ktypes.
Lemma typed_iunlockput ip : idx NINODE ip -> typed (iunlockput fuel ip) any.
Proof. intros. unfold iunlockput. ty. Qed.
Lemma typed_stati ip : idx NINODE ip -> typed (stati ip) any.
Proof. intros. unfold stati. ty. Qed.
Lemma typed_readi_loop f ip off tot n : idx NINODE ip -> typed (readi_loop fuel f ip off tot n) any.
Proof. intros Hi. revert off tot. induction f as [|f IH]; intros; cbn [readi_loop]; ty. Qed.
Lemma typed_writei_loop f ip src off tot n : idx NINODE ip -> typed (writei_loop fuel f ip src off tot n) any.
Proof. intros Hi. revert off tot. induction f as [|f IH]; intros; cbn [writei_loop]; ty. Qed.
Hint Resolve typed_iunlockput typed_stati typed_readi_loop typed_writei_loop : ktypes.

Context `{DS : Devsw} `{!DevswTyped DS}.

Lemma typed_readi ip off n : idx NINODE ip -> typed (readi fuel ip off n) any.
Proof. intros. unfold readi. ty. Qed.
Lemma typed_writei ip src off n : idx NINODE ip -> typed (writei fuel ip src off n) any.
Proof. intros. unfold writei. ty. Qed.
Hint Resolve typed_readi typed_writei : ktypes.

(** ** Directories and paths *)

(** The inode of an entry found, with its offset. *)
Definition entry (o : option (nat * Z)) : Prop := match o with Some (ip, _) => idx NINODE ip | None => True end.
Lemma entry_Some ip off : idx NINODE ip -> entry (Some (ip, off)).
Proof. done. Qed.
Lemma entry_None : entry None.
Proof. done. Qed.
Hint Resolve entry_Some entry_None : ktypes.
Hint Extern 1 (idx _ ?i) => match goal with H : entry (Some (i, _)) |- _ => exact H end : ktypes.
Lemma typed_dirlookup_loop f dp name off : idx NINODE dp -> typed (dirlookup_loop fuel f dp name off) entry.
Proof. intros Hd. revert off. induction f as [|f IH]; intros; cbn [dirlookup_loop]; ty. Qed.
Hint Resolve typed_dirlookup_loop : ktypes.
Lemma typed_dirlookup dp name : idx NINODE dp -> typed (dirlookup fuel dp name) entry.
Proof. intros. unfold dirlookup. ty. Qed.
Lemma typed_free_dirent f dp off : idx NINODE dp -> typed (free_dirent fuel f dp off) any.
Proof. intros Hd. revert off. induction f as [|f IH]; intros; cbn [free_dirent]; ty. Qed.
Hint Resolve typed_dirlookup typed_free_dirent : ktypes.
Lemma typed_dirlink dp name inum : idx NINODE dp -> typed (dirlink fuel dp name inum) any.
Proof. intros. unfold dirlink. ty. Qed.
(** The result of [namex]: an inode, and the name. *)
Definition found (r : option nat * list Z) : Prop := oidx NINODE r.1.
Lemma found_pair o (name : list Z) : oidx NINODE o -> found (o, name).
Proof. done. Qed.
Lemma found_fst r : found r -> oidx NINODE r.1.
Proof. done. Qed.
Hint Resolve typed_dirlink found_pair found_fst : ktypes.
Hint Extern 1 (idx _ ?i) => match goal with H : found (Some i, _) |- _ => exact H end : ktypes.
Lemma typed_namex_loop f ip path parent name : idx NINODE ip -> typed (namex_loop fuel f ip path parent name) found.
Proof.
  revert ip path name. induction f as [|f IH]; intros ip path name Hi; cbn [namex_loop];
    (destruct (skipelem path name) as [[path' name']|]; [|ty]); ty.
Qed.
Hint Resolve typed_namex_loop : ktypes.
Definition start_inode (path : list Z) : M kernel nat :=
  if bool_decide (head path = Some SLASH) then iget ROOTDEV ROOTINO
  else
    let! i := myproc in
    let! p := read_proc i in
    match p_cwd p with
    | None => fault "proc->cwd"
    | Some cwd => idup cwd
    end.
Lemma typed_start_inode path : typed (start_inode path) (idx NINODE).
Proof. unfold start_inode. ty. Qed.
Hint Resolve typed_start_inode : ktypes.
Lemma typed_namex path parent name : typed (namex fuel path parent name) found.
Proof.
  change (typed (let! ip := start_inode path in namex_loop fuel (S (length path)) ip path parent name) found). ty.
Qed.
Hint Resolve typed_namex : ktypes.
Lemma typed_namei path : typed (namei fuel path) (oidx NINODE).
Proof. unfold namei. ty. Qed.
Lemma typed_nameiparent path name : typed (nameiparent fuel path name) found.
Proof. unfold nameiparent. ty. Qed.

End Fs.

#[export] Hint Resolve typed_scan_next typed_scan_prev typed_bget_loop typed_bget typed_bread typed_bwrite typed_brelse
  typed_lh_block typed_set_lh_block typed_install_one typed_install_loop typed_install_trans
  typed_read_head_loop typed_read_head typed_write_head_loop typed_write_head typed_recover
  typed_readsb typed_begin_op_loop typed_write_log_one typed_write_log_loop typed_write_log
  typed_commit typed_initlog typed_begin_op typed_end_op typed_log_write typed_cwd_inum typed_bzero
  typed_balloc_groups typed_balloc typed_bfree typed_clear_groups typed_print_groups
  typed_count_inodes typed_fill_groups typed_printFSStats typed_clearFSStats typed_fillFSStats
  typed_iinit typed_iget typed_idup typed_ilock_wait load_dinode_inode_ok typed_load_dinode
  typed_ilock typed_iunlock typed_iupdate typed_least_used typed_take_inode typed_ialloc_scan
  typed_ialloc typed_bmap_addr typed_bmap typed_trunc_direct typed_trunc_indirect typed_itrunc
  typed_iput typed_iunlockput typed_stati typed_readi_loop typed_writei_loop typed_readi typed_writei
  entry_Some entry_None typed_dirlookup_loop typed_dirlookup typed_free_dirent typed_dirlink
  found_pair found_fst typed_namex_loop typed_start_inode typed_namex typed_namei
  typed_nameiparent : ktypes.
#[export] Hint Extern 1 (typed (set_data _ _) _) =>
  apply typed_set_data; intros; cbv zeta; autorewrite with klen; reflexivity : ktypes.
#[export] Hint Extern 1 (idx _ ?i) => match goal with H : entry (Some (i, _)) |- _ => exact H end : ktypes.
#[export] Hint Extern 1 (idx _ ?i) => match goal with H : found (Some i, _) |- _ => exact H end : ktypes.
