(* ===== verification/TypesProc.v ===== *)
(** TypesProc: the types of memory management, pipes, open files, processes
    and schedulers. *)

From S2P Require Import Prelude Kernel StringLib Bytes Kalloc ProcCore Pipe Bio FsLayout Log Fs Dir File Vm Proc Scheduler KernelTypes TypesFs.

(** ** Memory *)

Section Mem.
Context `{Im : Image}.

Lemma typed_lock_kmem : typed lock_kmem any.
Proof. unfold lock_kmem. ty. Qed.
Lemma typed_unlock_kmem : typed unlock_kmem any.
Proof. unfold unlock_kmem. ty. Qed.
Lemma typed_read_run i : typed (read_run i) any.
Proof. intros k Hk. unfold read_run. destruct (runs (k_kmem k) !! i); [by split|reflexivity]. Qed.
Lemma typed_upd_run i f : typed (upd_run i f) any.
Proof. unfold upd_run. ty. Qed.
Hint Resolve typed_lock_kmem typed_unlock_kmem typed_read_run typed_upd_run : ktypes.
Lemma typed__kfree v s : typed (_kfree v s) any.
Proof. unfold _kfree. ty. Qed.
Hint Resolve typed__kfree : ktypes.
Lemma typed_kfree v : typed (kfree v) any.
Proof. unfold kfree. ty. Qed.
Lemma typed_kalloc : typed kalloc any.
Proof. unfold kalloc. ty. Qed.
Lemma typed_getRefCount v : typed (getRefCount v) any.
Proof. unfold getRefCount. ty. Qed.
Lemma typed_incRefCount v : typed (incRefCount v) any.
Proof. unfold incRefCount. ty. Qed.
Lemma typed_decRefCount v : typed (decRefCount v) any.
Proof. unfold decRefCount. ty. Qed.
Hint Resolve typed_kfree typed_kalloc typed_getRefCount typed_incRefCount typed_decRefCount : ktypes.

Lemma typed_upd_mem f : typed (modify (upd_mem f)) any.
Proof. apply typed_modify. intros k Hk. by apply wf_set_mem. Qed.
Lemma typed_read32 a : typed (read32 a) any.
Proof. unfold read32. ty. Qed.
Hint Resolve typed_upd_mem typed_read32 : ktypes.
Lemma typed_write32 a v : typed (write32 a v) any.
Proof. unfold write32. ty. Qed.
Hint Resolve typed_write32 : ktypes.
Lemma typed_walkpgdir pgdir va alloc : typed (walkpgdir pgdir va alloc) any.
Proof. unfold walkpgdir. ty. Qed.
Hint Resolve typed_walkpgdir : ktypes.
Lemma typed_mappages_loop n pgdir a last pa perm : typed (mappages_loop n pgdir a last pa perm) any.
Proof. revert a pa. induction n as [|n IH]; intros; cbn [mappages_loop]; ty. Qed.
Hint Resolve typed_mappages_loop : ktypes.
Lemma typed_mappages pgdir va size pa perm : typed (mappages pgdir va size pa perm) any.
Proof. unfold mappages. ty. Qed.
Hint Resolve typed_mappages : ktypes.
Lemma typed_map_kernel pgdir l : typed (map_kernel pgdir l) any.
Proof. induction l as [|[[[v s] e] p] l IH]; cbn [map_kernel]; ty. Qed.
Hint Resolve typed_map_kernel : ktypes.
Lemma typed_setupkvm : typed setupkvm any.
Proof. unfold setupkvm. ty. Qed.
Lemma typed_switchuvm p : idx NPROC p -> typed (switchuvm p) any.
Proof. intros. unfold switchuvm. ty. Qed.
Lemma typed_inituvm pgdir init sz : typed (inituvm pgdir init sz) any.
Proof. unfold inituvm. ty. Qed.
Lemma typed_dealloc_loop n pgdir a oldsz : typed (dealloc_loop n pgdir a oldsz) any.
Proof. revert a. induction n as [|n IH]; intros; cbn [dealloc_loop]; ty. Qed.
Hint Resolve typed_setupkvm typed_switchuvm typed_inituvm typed_dealloc_loop : ktypes.
Lemma typed_deallocuvm pgdir oldsz newsz : typed (deallocuvm pgdir oldsz newsz) any.
Proof. unfold deallocuvm. ty. Qed.
Hint Resolve typed_deallocuvm : ktypes.
Lemma typed_alloc_loop n pgdir a oldsz newsz : typed (alloc_loop n pgdir a oldsz newsz) any.
Proof. revert a. induction n as [|n IH]; intros; cbn [alloc_loop]; ty. Qed.
Hint Resolve typed_alloc_loop : ktypes.
Lemma typed_allocuvm pgdir oldsz newsz : typed (allocuvm pgdir oldsz newsz) any.
Proof. unfold allocuvm. ty. Qed.
Lemma typed_free_tables pgdir i n : typed (free_tables pgdir i n) any.
Proof. revert i. induction n as [|n IH]; intros; cbn [free_tables]; ty. Qed.
Hint Resolve typed_allocuvm typed_free_tables : ktypes.
Lemma typed_freevm pgdir : typed (freevm pgdir) any.
Proof. unfold freevm. ty. Qed.
Lemma typed_clearpteu pgdir uva : typed (clearpteu pgdir uva) any.
Proof. unfold clearpteu. ty. Qed.
Hint Resolve typed_freevm typed_clearpteu : ktypes.
Lemma typed_copy_loop n pgdir d i sz : typed (copy_loop n pgdir d i sz) any.
Proof. revert i. induction n as [|n IH]; intros; cbn [copy_loop]; ty. Qed.
Lemma typed_cow_loop n pgdir d i sz : typed (cow_loop n pgdir d i sz) any.
Proof. revert d i. induction n as [|n IH]; intros; cbn [cow_loop]; ty. Qed.
Hint Resolve typed_copy_loop typed_cow_loop : ktypes.
Lemma typed_copyuvm pgdir sz : typed (copyuvm pgdir sz) any.
Proof. unfold copyuvm. ty. Qed.
Lemma typed_cowuvm pgdir sz : typed (cowuvm pgdir sz) any.
Proof. unfold cowuvm. ty. Qed.
Lemma typed_uva2ka pgdir va : typed (uva2ka pgdir va) any.
Proof. unfold uva2ka. ty. Qed.
Hint Resolve typed_copyuvm typed_cowuvm typed_uva2ka : ktypes.
Lemma typed_copyout_loop n pgdir va p : typed (copyout_loop n pgdir va p) any.
Proof. revert va p. induction n as [|n IH]; intros; cbn [copyout_loop]; ty. Qed.
Hint Resolve typed_copyout_loop : ktypes.
Lemma typed_copyout pgdir va p : typed (copyout pgdir va p) any.
Proof. unfold copyout. ty. Qed.

(** ** Pipes *)

Lemma wf_del_pipe p k : wf k -> wf (set_k_pipes (delete p (k_pipes k)) k).
Proof. intros Hk. destruct Hk. split; try done. by apply map_Forall_delete. Qed.
Hint Resolve typed_copyout wf_del_pipe : ktypes.
Lemma typed_pipeclose p w : typed (pipeclose p w) any.
Proof. unfold pipeclose. ty. Qed.
Lemma typed_proc_killed : typed proc_killed any.
Proof. unfold proc_killed. ty. Qed.
Hint Resolve typed_pipeclose typed_proc_killed : ktypes.
Lemma typed_pipewrite_full f p : typed (pipewrite_full f p) any.
Proof. induction f as [|f IH]; intros; cbn [pipewrite_full]; ty. Qed.
Lemma typed_piperead_empty f p : typed (piperead_empty f p) any.
Proof. induction f as [|f IH]; intros; cbn [piperead_empty]; ty. Qed.
Hint Resolve typed_pipewrite_full typed_piperead_empty : ktypes.
Lemma typed_pipewrite_loop f p addr i m : typed (pipewrite_loop f p addr i m) any.
Proof. revert i. induction m as [|m IH]; intros; cbn [pipewrite_loop]; ty. Qed.
Lemma typed_piperead_copy p m : typed (piperead_copy p m) any.
Proof. induction m as [|m IH]; intros; cbn [piperead_copy]; ty. Qed.
Hint Resolve typed_pipewrite_loop typed_piperead_copy : ktypes.
Lemma typed_pipewrite f p addr n : typed (pipewrite f p addr n) any.
Proof. unfold pipewrite. ty. Qed.
Lemma typed_piperead f p n : typed (piperead f p n) any.
Proof. unfold piperead. ty. Qed.

End Mem.

#[export] Hint Resolve typed_lock_kmem typed_unlock_kmem typed_read_run typed_upd_run typed__kfree typed_kfree typed_kalloc
  typed_getRefCount typed_incRefCount typed_decRefCount typed_upd_mem typed_read32 typed_write32
  typed_walkpgdir typed_mappages_loop typed_mappages typed_map_kernel typed_setupkvm typed_switchuvm
  typed_inituvm typed_dealloc_loop typed_deallocuvm typed_alloc_loop typed_allocuvm typed_free_tables
  typed_freevm typed_clearpteu typed_copy_loop typed_cow_loop typed_copyuvm typed_cowuvm typed_uva2ka
  typed_copyout_loop typed_copyout wf_del_pipe typed_pipeclose typed_proc_killed typed_pipewrite_full
  typed_piperead_empty typed_pipewrite_loop typed_piperead_copy typed_pipewrite typed_piperead : ktypes.

(** ** Open files *)

Section Proc.
Context `{Im : Image} `{Bd : Build} `{D : DiskDriver} `{!DriverTyped D} (fuel : nat) `{DS : Devsw} `{!DevswTyped DS}.

Lemma typed_filealloc : typed filealloc (oidx NFILE).
Proof. unfold filealloc. ty. Qed.
Lemma typed_filedup f : idx NFILE f -> typed (filedup f) (idx NFILE).
Proof. intros. unfold filedup. ty. Qed.
Lemma typed_file_ip x : file_ok x -> typed (file_ip x) (idx NINODE).
Proof. intros. unfold file_ip. ty. Qed.
Lemma file_ip_oidx x : file_ok x -> oidx NINODE (f_ip x).
Proof. done. Qed.
Hint Resolve typed_filealloc typed_filedup typed_file_ip file_ip_oidx : ktypes.
Lemma typed_fileclose f : idx NFILE f -> typed (fileclose fuel f) any.
Proof. intros. unfold fileclose. ty. Qed.
Lemma typed_filestat f : idx NFILE f -> typed (filestat fuel f) any.
Proof. intros. unfold filestat. ty. Qed.
Lemma typed_fileread f n : idx NFILE f -> typed (fileread fuel f n) any.
Proof. intros. unfold fileread. ty. Qed.
Lemma typed_filewrite_loop m f addr i n : idx NFILE f -> typed (filewrite_loop fuel m f addr i n) any.
Proof. intros Hf. revert i. induction m as [|m IH]; intros; cbn [filewrite_loop]; ty. Qed.
Hint Resolve typed_fileclose typed_filestat typed_fileread typed_filewrite_loop : ktypes.
Lemma typed_filewrite f addr n : idx NFILE f -> typed (filewrite fuel f addr n) any.
Proof. intros. unfold filewrite. ty. Qed.
(** The two ends of a pipe. *)
Definition ends (o : option (nat * nat)) : Prop :=
  match o with Some (r, w) => idx NFILE r /\ idx NFILE w | None => True end.
Lemma ends_Some r w : idx NFILE r -> idx NFILE w -> ends (Some (r, w)).
Proof. done. Qed.
Lemma ends_None : ends None.
Proof. done. Qed.
Hint Resolve typed_filewrite ends_Some ends_None : ktypes.
Lemma typed_pipealloc_bad p f0 f1 : oidx NFILE f0 -> oidx NFILE f1 -> typed (pipealloc_bad fuel p f0 f1) ends.
Proof. intros. unfold pipealloc_bad. ty. Qed.
Lemma wf_add_pipe a p k : pipe_shape p -> wf k -> wf (set_k_pipes (<[a := p]> (k_pipes k)) k).
Proof. intros Hp Hk. destruct Hk. split; try done. by apply map_Forall_insert_2. Qed.
Lemma typed_add_pipe p :
  typed (modify (fun k => set_k_pipes (<[p := Pipe (load (k_mem k) (p + 52) 512) 0 0 1 1]> (k_pipes k)) k)) any.
Proof. apply typed_modify. intros k Hk. apply wf_add_pipe; [|done]. apply length_map. Qed.
Hint Resolve typed_pipealloc_bad typed_add_pipe : ktypes.
Lemma typed_pipealloc : typed (pipealloc fuel) ends.
Proof. unfold pipealloc. ty. Qed.
Hint Resolve typed_pipealloc : ktypes.

(** ** Processes *)

Lemma typed_upd_sched f :
  (forall sc, procs (f sc) = procs sc) -> (forall sc, oidx NPROC (curproc sc) -> oidx NPROC (curproc (f sc))) ->
  (forall sc, oidx NPROC (initproc sc) -> oidx NPROC (initproc (f sc))) -> typed (modify (upd_sched f)) any.
Proof.
  intros H1 H2 H3. apply typed_modify. intros k Hk. apply wf_upd_sched; [rewrite H1; apply w_procs|apply H2, w_cur|apply H3, w_init|]; done.
Qed.
Hint Extern 2 (typed (modify (upd_sched _)) _) => apply typed_upd_sched; simpl; by eauto with ktypes : ktypes.
Lemma typed_getTicketAmount o : oidx NPROC o -> typed (getTicketAmount o) any.
Proof. intros. unfold getTicketAmount. ty. Qed.
Lemma typed_add_tickets n : typed (add_tickets n) any.
Proof. unfold add_tickets. ty. Qed.
Hint Resolve typed_getTicketAmount typed_add_tickets : ktypes.
Lemma typed_updateNice nice p : idx NPROC p -> typed (updateNice nice p) any.
Proof. intros. unfold updateNice. ty. Qed.
Lemma typed_allocproc_found p : idx NPROC p -> typed (allocproc_found p) (oidx NPROC).
Proof. intros. unfold allocproc_found. ty. Qed.
Hint Resolve typed_updateNice typed_allocproc_found : ktypes.
Lemma typed_allocproc : typed allocproc (oidx NPROC).
Proof. unfold allocproc. ty. Qed.
Hint Resolve typed_allocproc : ktypes.
Lemma typed_userinit l : typed (userinit fuel l) any.
Proof. unfold userinit. ty. Qed.
Lemma typed_growproc n : typed (growproc n) any.
Proof. unfold growproc. ty. Qed.
Lemma typed_dup_files cur np i n : idx NPROC cur -> idx NPROC np -> typed (dup_files cur np i n) any.
Proof. intros Hc Hn. revert i. induction n as [|n IH]; intros; cbn [dup_files]; ty. Qed.
Hint Resolve typed_userinit typed_growproc typed_dup_files : ktypes.
Lemma typed_fork : typed fork any.
Proof. unfold fork. ty. Qed.
Lemma typed_close_files cur fd n : idx NPROC cur -> typed (close_files fuel cur fd n) any.
Proof. intros Hc. revert fd. induction n as [|n IH]; intros; cbn [close_files]; ty. Qed.
Lemma typed_wakeup_proc p : oidx NPROC p -> typed (wakeup_proc p) any.
Proof.
  intros. unfold wakeup_proc. destruct p; [ty|]. apply typed_map_procs. intros x Hx. case_if; [ty_field|done].
Qed.
Hint Resolve typed_fork typed_close_files typed_wakeup_proc : ktypes.
Lemma typed_reparent cur i n : (i + n <= NPROC)%nat -> typed (reparent cur i n) any.
Proof.
  revert i. induction n as [|n IH]; intros i Hi; cbn [reparent]; [ty|].
  assert (idx NPROC i) by (unfold idx; lia). assert (typed (reparent cur (S i) n) any) by (apply IH; lia). ty.
Qed.
Lemma typed_reparent_all cur : typed (reparent cur 0 NPROC) any.
Proof. by apply typed_reparent. Qed.
Hint Resolve typed_reparent_all : ktypes.
Lemma typed_exit : typed (exit fuel) any.
Proof. unfold exit. ty. Qed.
Lemma typed_reap i : idx NPROC i -> typed (reap i) any.
Proof. intros. unfold reap. ty. Qed.
Hint Resolve typed_exit typed_reap : ktypes.
Lemma typed_wait_loop f : typed (wait_loop f) any.
Proof. induction f as [|f IH]; intros; cbn [wait_loop]; ty. Qed.
Hint Resolve typed_wait_loop : ktypes.
Lemma typed_wait : typed (wait fuel) any.
Proof. unfold wait. ty. Qed.
Lemma typed_forkret n : typed (forkret fuel n) any.
Proof. unfold forkret. ty. Qed.

(** ** Schedulers *)

Lemma typed_prng n : typed (prng n) any.
Proof. unfold prng. ty. Qed.
Lemma typed_run_proc p : idx NPROC p -> typed (run_proc p) any.
Proof. intros. unfold run_proc. ty. Qed.
Hint Resolve typed_prng typed_run_proc : ktypes.
Lemma typed_rr_pass p n : (p + n <= NPROC)%nat -> typed (rr_pass p n) any.
Proof.
  revert p. induction n as [|n IH]; intros i Hi; cbn [rr_pass]; [ty|].
  assert (idx NPROC i) by (unfold idx; lia). assert (typed (rr_pass (S i) n) any) by (apply IH; lia). ty.
Qed.
Lemma typed_rr_all : typed (rr_pass 0 NPROC) any.
Proof. by apply typed_rr_pass. Qed.
Hint Resolve typed_rr_all : ktypes.
Lemma typed_rr_round : typed rr_round any.
Proof. unfold rr_round. ty. Qed.
Lemma typed_lottery_pick p n t r : (p + n <= NPROC)%nat -> typed (lottery_pick p n t r) (oidx NPROC).
Proof.
  revert p t. induction n as [|n IH]; intros i t Hi; cbn [lottery_pick]; [ty|].
  assert (idx NPROC i) by (unfold idx; lia).
  assert (forall t, typed (lottery_pick (S i) n t r) (oidx NPROC)) by (intros; apply IH; lia). ty.
Qed.
Lemma typed_lottery_all r : typed (lottery_pick 0 NPROC 0 r) (oidx NPROC).
Proof. by apply typed_lottery_pick. Qed.
Hint Resolve typed_rr_round typed_lottery_all : ktypes.
Lemma typed_lottery_round : typed lottery_round any.
Proof. unfold lottery_round. ty. Qed.
Hint Resolve typed_lottery_round : ktypes.
Lemma typed_scheduler n : typed (scheduler n) any.
Proof. induction n as [|n IH]; cbn [scheduler]; ty. Qed.
Lemma typed_scheduler_rr n : typed (scheduler_rr n) any.
Proof. induction n as [|n IH]; cbn [scheduler_rr]; ty. Qed.
Lemma typed_scheduler_lottery n : typed (scheduler_lottery n) any.
Proof. induction n as [|n IH]; cbn [scheduler_lottery]; ty. Qed.
Hint Resolve typed_scheduler_rr typed_scheduler_lottery : ktypes.
Lemma typed_scheduler_dual n m : typed (scheduler_dual n m) any.
Proof. induction m as [|m IH]; cbn [scheduler_dual]; ty. Qed.

End Proc.

#[export] Hint Resolve typed_filealloc typed_filedup typed_file_ip file_ip_oidx typed_fileclose typed_filestat
  typed_fileread typed_filewrite_loop typed_filewrite ends_Some ends_None typed_pipealloc_bad
  typed_add_pipe typed_pipealloc typed_getTicketAmount typed_add_tickets typed_updateNice
  typed_allocproc_found typed_allocproc typed_userinit typed_growproc typed_dup_files typed_fork
  typed_close_files typed_wakeup_proc typed_reparent_all typed_exit typed_reap typed_wait_loop
  typed_prng typed_run_proc typed_rr_all typed_rr_round typed_lottery_all typed_lottery_round
  typed_scheduler_rr typed_scheduler_lottery typed_upd_sched typed_reparent typed_wait typed_forkret
  typed_rr_pass typed_lottery_pick typed_scheduler typed_scheduler_dual : ktypes.
#[export] Hint Extern 2 (typed (modify (upd_sched _)) _) => apply typed_upd_sched; simpl; by eauto with ktypes : ktypes.
