(* ===== verification/TypesTrap.v ===== *)
(** TypesTrap: the types of the system calls and of the trap handler, and the
    kernel's type safety. *)

From S2P Require Import Prelude Kernel StringLib Bytes Kalloc ProcCore Pipe Bio FsLayout IdeDisk Log Fs Dir File Vm Proc Scheduler Syscall Exec Sysproc Sysfile Console Kbd Trap KernelTypes TypesFs TypesProc.

Section Syscalls.
Context `{Im : Image} `{Bd : Build} `{D : DiskDriver} `{!DriverTyped D} (fuel : nat) `{DS : Devsw} `{!DevswTyped DS}.

(** ** Arguments *)

Lemma typed_cur_proc : typed cur_proc proc_ok.
Proof. unfold cur_proc. ty. Qed.
Hint Resolve typed_cur_proc : ktypes.
Lemma typed_user_byte va : typed (user_byte va) any.
Proof.
  unfold user_byte. eapply typed_bind; [ty_sub|]. intros p Hp k Hk. destruct (translate _ _ _); [by split|reflexivity].
Qed.
Lemma typed_set_user_byte va b : typed (set_user_byte va b) any.
Proof.
  unfold set_user_byte. eapply typed_bind; [ty_sub|]. intros p Hp k Hk.
  destruct (translate _ _ _); [split; [by apply wf_set_mem|done]|reflexivity].
Qed.
Hint Resolve typed_user_byte typed_set_user_byte : ktypes.
Lemma typed_load_user va n : typed (load_user va n) any.
Proof. revert va. induction n as [|n IH]; intros; cbn [load_user]; ty. Qed.
Lemma typed_store_user va l : typed (store_user va l) any.
Proof. revert va. induction l as [|b l IH]; intros; cbn [store_user]; ty. Qed.
Lemma typed_fetch_bytes s n : typed (fetch_bytes s n) any.
Proof. revert s. induction n as [|n IH]; intros; cbn [fetch_bytes]; ty. Qed.
Hint Resolve typed_load_user typed_store_user typed_fetch_bytes : ktypes.
Lemma typed_fetchint a : typed (fetchint a) any.
Proof. unfold fetchint. ty. Qed.
Lemma typed_fetchstr a : typed (fetchstr a) any.
Proof. unfold fetchstr. ty. Qed.
Hint Resolve typed_fetchint typed_fetchstr : ktypes.
Lemma typed_argint n : typed (argint n) any.
Proof. unfold argint. ty. Qed.
Hint Resolve typed_argint : ktypes.
Lemma typed_argptr n s : typed (argptr n s) any.
Proof. unfold argptr. ty. Qed.
Lemma typed_argstr n : typed (argstr n) any.
Proof. unfold argstr. ty. Qed.
Hint Resolve typed_argptr typed_argstr : ktypes.

(** ** [exec] *)

Lemma typed_loaduvm_loop m pgdir addr ip offset i sz :
  idx NINODE ip -> typed (loaduvm_loop fuel m pgdir addr ip offset i sz) any.
Proof. intros Hi. revert i. induction m as [|m IH]; intros; cbn [loaduvm_loop]; ty. Qed.
Hint Resolve typed_loaduvm_loop : ktypes.
Lemma typed_loaduvm pgdir addr ip offset sz : idx NINODE ip -> typed (loaduvm fuel pgdir addr ip offset sz) any.
Proof. intros. unfold loaduvm. ty. Qed.
Lemma typed_exec_bad pgdir o : oidx NINODE o -> typed (exec_bad fuel pgdir o) any.
Proof. intros. unfold exec_bad. ty. Qed.
Hint Resolve typed_loaduvm typed_exec_bad : ktypes.
Lemma typed_load_segments n pgdir ip off sz : idx NINODE ip -> typed (load_segments fuel n pgdir ip off sz) any.
Proof. intros Hi. revert off sz. induction n as [|n IH]; intros; cbn [load_segments]; ty. Qed.
Lemma typed_push_args pgdir argv argc sp : typed (push_args pgdir argv argc sp) any.
Proof. revert argc sp. induction argv as [|s argv IH]; intros; cbn [push_args]; ty. Qed.
Hint Resolve typed_load_segments typed_push_args : ktypes.
Lemma typed_exec_image path argv entry pgdir sz : typed (exec_image fuel path argv entry pgdir sz) any.
Proof. unfold exec_image. ty. Qed.
Hint Resolve typed_exec_image : ktypes.
Lemma typed_exec path argv : typed (exec fuel path argv) any.
Proof. unfold exec. ty. Qed.
Hint Resolve typed_exec : ktypes.

(** ** System calls on processes *)

Lemma typed_sleep_ticks f t n : typed (sleep_ticks f t n) any.
Proof. induction f as [|f IH]; intros; cbn [sleep_ticks]; ty. Qed.
Hint Resolve typed_sleep_ticks : ktypes.
Lemma typed_sys_fork : typed sys_fork any.
Proof. unfold sys_fork. ty. Qed.
Lemma typed_sys_exit : typed (sys_exit fuel) any.
Proof. unfold sys_exit. ty. Qed.
Lemma typed_sys_wait : typed (sys_wait fuel) any.
Proof. unfold sys_wait. ty. Qed.
Lemma typed_sys_kill : typed sys_kill any.
Proof. unfold sys_kill. ty. Qed.
Lemma typed_sys_yield : typed sys_yield any.
Proof. unfold sys_yield. ty. Qed.
Lemma typed_sys_getpid : typed sys_getpid any.
Proof. unfold sys_getpid. ty. Qed.
Lemma typed_sys_sbrk : typed sys_sbrk any.
Proof. unfold sys_sbrk. ty. Qed.
Lemma typed_sys_sleep : typed (sys_sleep fuel) any.
Proof. unfold sys_sleep. ty. Qed.
Lemma typed_sys_uptime : typed sys_uptime any.
Proof. unfold sys_uptime. ty. Qed.

(** ** System calls on files *)

Lemma typed_store_stat p st : typed (store_stat p st) any.
Proof. unfold store_stat. ty. Qed.
Hint Resolve typed_store_stat : ktypes.
Definition fdarg (o : option (Z * nat)) : Prop := match o with Some (_, f) => idx NFILE f | None => True end.
Lemma fdarg_Some fd f : idx NFILE f -> fdarg (Some (fd, f)).
Proof. done. Qed.
Lemma fdarg_None : fdarg None.
Proof. done. Qed.
Hint Resolve fdarg_Some fdarg_None : ktypes.
Hint Extern 1 (idx _ ?i) => match goal with H : fdarg (Some (_, i)) |- _ => exact H end : ktypes.
Lemma typed_argfd n : typed (argfd n) fdarg.
Proof. unfold argfd. ty. Qed.
Lemma typed_fdalloc f : idx NFILE f -> typed (fdalloc f) any.
Proof. intros. unfold fdalloc. ty. Qed.
Lemma typed_clear_fd fd : typed (clear_fd fd) any.
Proof. unfold clear_fd. ty. Qed.
Hint Resolve typed_argfd typed_fdalloc typed_clear_fd : ktypes.
Lemma typed_sys_dup : typed sys_dup any.
Proof. unfold sys_dup. ty. Qed.
Definition rwarg (o : option (nat * Z * Z)) : Prop := match o with Some (f, _, _) => idx NFILE f | None => True end.
Lemma rwarg_Some f p n : idx NFILE f -> rwarg (Some (f, p, n)).
Proof. done. Qed.
Lemma rwarg_None : rwarg None.
Proof. done. Qed.
Hint Resolve rwarg_Some rwarg_None : ktypes.
Hint Extern 1 (idx _ ?i) => match goal with H : rwarg (Some (i, _, _)) |- _ => exact H end : ktypes.
Lemma typed_arg_rw : typed arg_rw rwarg.
Proof. unfold arg_rw. ty. Qed.
Hint Resolve typed_arg_rw : ktypes.
Lemma typed_sys_read : typed (sys_read fuel) any.
Proof. unfold sys_read. ty. Qed.
Lemma typed_sys_write : typed (sys_write fuel) any.
Proof. unfold sys_write. ty. Qed.
Lemma typed_sys_close : typed (sys_close fuel) any.
Proof. unfold sys_close. ty. Qed.
Lemma typed_sys_fstat : typed (sys_fstat fuel) any.
Proof. unfold sys_fstat. ty. Qed.
Lemma typed_add_nlink ip d : idx NINODE ip -> typed (add_nlink fuel ip d) any.
Proof. intros. unfold add_nlink. ty. Qed.
Hint Resolve typed_add_nlink : ktypes.
Lemma typed_link_bad ip : idx NINODE ip -> typed (link_bad fuel ip) any.
Proof. intros. unfold link_bad. ty. Qed.
Hint Resolve typed_link_bad : ktypes.
Lemma typed_link old new : typed (link fuel old new) any.
Proof. unfold link. ty. Qed.
Hint Resolve typed_link : ktypes.
Lemma typed_sys_link : typed (sys_link fuel) any.
Proof. unfold sys_link. ty. Qed.
Lemma typed_isdirempty_loop f dp off : idx NINODE dp -> typed (isdirempty_loop fuel f dp off) any.
Proof. intros Hd. revert off. induction f as [|f IH]; intros; cbn [isdirempty_loop]; ty. Qed.
Hint Resolve typed_isdirempty_loop : ktypes.
Lemma typed_isdirempty dp : idx NINODE dp -> typed (isdirempty fuel dp) any.
Proof. intros. unfold isdirempty. ty. Qed.
Lemma typed_unlink_bad dp : idx NINODE dp -> typed (unlink_bad fuel dp) any.
Proof. intros. unfold unlink_bad. ty. Qed.
Hint Resolve typed_isdirempty typed_unlink_bad : ktypes.
Lemma typed_unlink path : typed (unlink fuel path) any.
Proof. unfold unlink. ty. Qed.
Hint Resolve typed_unlink : ktypes.
Lemma typed_sys_unlink : typed (sys_unlink fuel) any.
Proof. unfold sys_unlink. ty. Qed.
Lemma typed_create path type major minor : typed (create fuel path type major minor) (oidx NINODE).
Proof. unfold create. ty. Qed.
Hint Resolve typed_create : ktypes.
Lemma typed_open_inode path omode : typed (open_inode fuel path omode) (oidx NINODE).
Proof. unfold open_inode. ty. Qed.
Hint Resolve typed_open_inode : ktypes.
Lemma typed_open path omode : typed (open fuel path omode) any.
Proof. unfold open. ty. Qed.
Hint Resolve typed_open : ktypes.
Lemma typed_sys_open : typed (sys_open fuel) any.
Proof. unfold sys_open. ty. Qed.
Lemma typed_created o : oidx NINODE o -> typed (created fuel o) any.
Proof. intros. unfold created. ty. Qed.
Hint Resolve typed_created : ktypes.
Lemma typed_sys_mkdir : typed (sys_mkdir fuel) any.
Proof.
  unfold sys_mkdir. eapply typed_bind; [ty_sub|intros _ _]. eapply typed_bind; [ty_sub|intros o _].
  eapply (typed_bind _ _ (oidx NINODE)); [ty|intros oip Hip; ty].
Qed.
Lemma typed_sys_mknod : typed (sys_mknod fuel) any.
Proof.
  unfold sys_mknod. eapply typed_bind; [ty_sub|intros _ _]. eapply typed_bind; [ty_sub|intros o _].
  eapply (typed_bind _ _ (oidx NINODE)); [ty|intros oip Hip; ty].
Qed.
Lemma typed_sys_chdir : typed (sys_chdir fuel) any.
Proof.
  unfold sys_chdir. eapply typed_bind; [ty_sub|intros _ _]. eapply typed_bind; [ty_sub|intros o _].
  eapply (typed_bind _ _ (oidx NINODE)); [ty|intros oip Hip; ty].
Qed.
Lemma typed_fetch_argv u i n : typed (fetch_argv u i n) any.
Proof. revert i. induction n as [|n IH]; intros; cbn [fetch_argv]; ty. Qed.
Hint Resolve typed_fetch_argv : ktypes.
Lemma typed_sys_exec : typed (sys_exec fuel) any.
Proof. unfold sys_exec. ty. Qed.
Lemma ends_l r w : ends (Some (r, w)) -> idx NFILE r.
Proof. by intros []. Qed.
Lemma ends_r r w : ends (Some (r, w)) -> idx NFILE w.
Proof. by intros []. Qed.
Hint Extern 1 (idx _ ?i) => match goal with
  | H : ends (Some (i, _)) |- _ => exact (ends_l _ _ H)
  | H : ends (Some (_, i)) |- _ => exact (ends_r _ _ H)
  end : ktypes.
Lemma typed_sys_pipe : typed (sys_pipe fuel) any.
Proof. unfold sys_pipe. ty. Qed.
Lemma typed_sys_wolfie : typed sys_wolfie any.
Proof. unfold sys_wolfie. ty. Qed.
Lemma typed_sys_nice : typed sys_nice any.
Proof. unfold sys_nice. ty. Qed.
Lemma typed_sys_printProcess : typed sys_printProcess any.
Proof. unfold sys_printProcess. ty. Qed.
Lemma typed_sys_prng : typed sys_prng any.
Proof. unfold sys_prng. ty. Qed.
Lemma typed_sys_switchScheduler : typed sys_switchScheduler any.
Proof. unfold sys_switchScheduler. ty. Qed.
Lemma typed_sys_printStats : typed (sys_printStats fuel) any.
Proof. unfold sys_printStats. ty. Qed.
End Syscalls.

#[export] Hint Resolve typed_cur_proc typed_user_byte typed_set_user_byte typed_load_user typed_store_user
  typed_fetch_bytes typed_fetchint typed_fetchstr typed_argint typed_argptr typed_argstr
  typed_loaduvm_loop typed_loaduvm typed_exec_bad typed_load_segments typed_push_args typed_exec_image
  typed_exec typed_sleep_ticks typed_store_stat fdarg_Some fdarg_None typed_argfd typed_fdalloc
  typed_clear_fd rwarg_Some rwarg_None typed_arg_rw typed_add_nlink typed_link_bad typed_link
  typed_isdirempty_loop typed_isdirempty typed_unlink_bad typed_unlink typed_create typed_open_inode
  typed_open typed_created typed_fetch_argv typed_sys_fork typed_sys_exit typed_sys_wait
  typed_sys_kill typed_sys_yield typed_sys_getpid typed_sys_sbrk typed_sys_sleep typed_sys_uptime
  typed_sys_dup typed_sys_read typed_sys_write typed_sys_close typed_sys_fstat typed_sys_link
  typed_sys_unlink typed_sys_open typed_sys_mkdir typed_sys_mknod typed_sys_chdir typed_sys_exec
  typed_sys_pipe typed_sys_wolfie typed_sys_nice typed_sys_printProcess typed_sys_prng
  typed_sys_switchScheduler typed_sys_printStats : ktypes.

(** ** Traps

    The interrupt handlers of the devices are typed. *)
Class InterruptsTyped (In : Interrupts) : Prop := {
  typed_ideintr : typed Trap.ideintr any;
  typed_kbdintr : typed Trap.kbdintr any;
  typed_uartintr : typed Trap.uartintr any
}.
#[export] Hint Resolve typed_ideintr typed_kbdintr typed_uartintr : ktypes.

Section Traps.
Context `{Im : Image} `{Bd : Build} `{D : DiskDriver} `{!DriverTyped D} (fuel : nat).
Context `{DS : Devsw} `{!DevswTyped DS} `{In : Interrupts} `{!InterruptsTyped In}.

Lemma typed_syscalls n f : syscalls fuel n = Some f -> typed f any.
Proof.
  unfold syscalls. intros E. repeat (case_match; try done; simplify_eq); eauto 3 with ktypes.
Qed.
Lemma typed_set_eax i r : typed (set_eax i r) any.
Proof. unfold set_eax. ty. Qed.
Hint Resolve typed_syscalls typed_set_eax : ktypes.
Lemma typed_syscall : typed (syscall fuel) any.
Proof. unfold syscall. ty. Qed.
Lemma typed_pgflthandler cr2 : typed (pgflthandler cr2) any.
Proof. unfold pgflthandler. ty. Qed.
Lemma typed_timer_tick : typed timer_tick any.
Proof. unfold timer_tick. ty. Qed.
Lemma typed_unexpected_trap tf : typed (unexpected_trap tf) any.
Proof. unfold unexpected_trap. ty. Qed.
Hint Resolve typed_syscall typed_pgflthandler typed_timer_tick typed_unexpected_trap : ktypes.
Lemma typed_trap_switch tf cr2 : typed (trap_switch tf cr2) any.
Proof. unfold trap_switch. ty. Qed.
Lemma typed_die_if_killed tf : typed (die_if_killed fuel tf) any.
Proof. unfold die_if_killed. ty. Qed.
Hint Resolve typed_trap_switch typed_die_if_killed : ktypes.
Lemma typed_trap tf cr2 : typed (trap fuel tf cr2) any.
Proof. unfold trap. ty. Qed.
End Traps.
