(* ===== verification/TypesDev.v ===== *)
(** TypesDev: the drivers are typed, and the kernel put together from them is
    type safe. *)

From S2P Require Import Prelude Kernel StringLib Bytes Kalloc ProcCore Pipe Bio FsLayout IdeDisk Log Fs Dir File Vm Proc Scheduler Syscall Exec Sysproc Sysfile Console Kbd Uart Trap KernelTypes TypesFs TypesProc TypesTrap.

(** ** The disk in memory *)

Lemma wf_disk_write b d w k :
  length d = 512%nat -> wf k -> wf (set_k_writes w (set_k_disk (fun n => if n =? b then d else k_disk k n) k)).
Proof. intros Hd []. split; try done. intros n. simpl. by case_if. Qed.
Lemma wf_buf_load b d k : length d = 512%nat -> wf k -> wf (upd_buf b (set_b_data d) k).
Proof. intros Hd. apply wf_upd_buf. intros x []. by split. Qed.

#[export] Instance memide_typed disksize : DriverTyped (Memide.driver disksize).
Proof.
  split. intros b Hb. unfold iderw, Memide.driver, Memide.iderw. eapply typed_bind; [ty_sub|intros x Hx].
  repeat (case_if; [ty|]). eapply typed_bind; [instantiate (1 := any)|intros _ _; ty]. case_if.
  - eapply typed_bind; [ty|intros _ _]. apply typed_modify. intros k Hk. apply wf_disk_write; [apply Hx|done].
  - apply typed_modify. intros k Hk. apply wf_buf_load; [apply w_disk|]; done.
Qed.

(** ** The IDE disk *)

Lemma wf_upd_ide f k :
  (forall n, length (boot_disk (f (k_ide k)) n) = 512%nat) ->
  match ide_busy (f (k_ide k)) with Some (Ide_write _ _ d) => length d = 512%nat | _ => True end ->
  Forall (idx NBUFS) (idequeue (f (k_ide k))) -> wf k -> wf (upd_ide f k).
Proof. by intros H1 H2 H3 []. Qed.

Section IdeTypes.
Context (err : ide_cmd -> bool).

Lemma typed_idestart o : oidx NBUFS o -> typed (idestart o) any.
Proof.
  intros Ho. unfold idestart. destruct o as [b|]; [|ty]. eapply typed_bind; [ty_sub|intros x Hx].
  case_if; [ty|]. cbv zeta. case_if; [ty|]. apply typed_modify. intros k Hk.
  apply wf_upd_ide; [apply w_boot|simpl; case_if; [apply Hx|]|apply w_queue|]; done.
Qed.
Lemma typed_insl b : typed (insl b) any.
Proof.
  unfold insl. apply typed_modify. intros k Hk. destruct (ide_busy (k_ide k)) as [[d s|d s x]|]; [|done..].
  apply wf_buf_load; [|done]. unfold disk_at. case_if; [apply w_boot|apply w_disk]; done.
Qed.
Lemma typed_ide_queue : typed (gets (fun k => idequeue (k_ide k))) (Forall (idx NBUFS)).
Proof. apply typed_gets. apply w_queue. Qed.
Lemma typed_set_queue q : Forall (idx NBUFS) q -> typed (modify (upd_ide (set_idequeue q))) any.
Proof. intros Hq. apply typed_modify. intros k Hk. apply wf_upd_ide; [apply w_boot|apply w_busy|..]; done. Qed.
Lemma typed_not_busy : typed (modify (upd_ide (set_ide_busy None))) any.
Proof. apply typed_modify. intros k Hk. apply wf_upd_ide; [apply w_boot|done|apply w_queue|]; done. Qed.
Lemma typed_idewait_err : typed (idewait_err err) any.
Proof. unfold idewait_err. ty. Qed.
Hint Resolve typed_idestart typed_insl typed_ide_queue typed_set_queue typed_not_busy typed_idewait_err : ktypes.
Lemma queue_head b q : Forall (idx NBUFS) (b :: q) -> idx NBUFS b.
Proof. by inversion 1. Qed.
Lemma queue_tail b q : Forall (idx NBUFS) (b :: q) -> Forall (idx NBUFS) q.
Proof. by inversion 1. Qed.
Lemma typed_ide_intr : typed (IdeDisk.ideintr err) any.
Proof.
  unfold IdeDisk.ideintr. eapply typed_bind; [ty_sub|intros _ _]. eapply typed_bind; [ty_sub|intros q Hq].
  destruct q as [|b q]; [ty|]. pose proof (queue_head _ _ Hq). pose proof (queue_tail _ _ Hq) as Hq'.
  destruct q as [|b' q]; [ty|]. pose proof (queue_head _ _ Hq'). ty.
Qed.
Lemma typed_iderw_wait f b : idx NBUFS b -> typed (iderw_wait f b) any.
Proof. intros Hb. induction f as [|f IH]; cbn [iderw_wait]; ty. Qed.
Hint Resolve typed_iderw_wait : ktypes.
Lemma typed_enqueue b : idx NBUFS b -> typed (modify (upd_ide (fun d => set_idequeue (idequeue d ++ [b]) d))) any.
Proof.
  intros Hb. apply typed_modify. intros k Hk. apply wf_upd_ide; [apply w_boot|apply w_busy|..]; try done.
  simpl. apply Forall_app. split; [by apply w_queue|]. by apply Forall_singleton.
Qed.
Hint Resolve typed_enqueue : ktypes.
#[export] Instance ide_typed fuel : DriverTyped (driver fuel).
Proof. split. intros b Hb. unfold Bio.iderw, driver, IdeDisk.iderw. ty. Qed.
End IdeTypes.

(** ** The console *)

Section ConsoleTypes.
Context (uart : bool).

Lemma uartputc_buf c s : in_buf (uartputc uart c s) = in_buf s.
Proof. unfold uartputc. by case_if. Qed.
Lemma typed_cgaputc c : typed (cgaputc c) any.
Proof. unfold cgaputc. ty. Qed.
Hint Resolve typed_cgaputc : ktypes.
Lemma typed_consputc c : typed (consputc uart c) any.
Proof.
  unfold consputc. eapply typed_bind; [ty_sub|intros p _]. case_if; [ty|]. eapply typed_bind; [|intros; ty].
  apply typed_modify. intros k Hk. apply wf_upd_cons; [|done]. intros s Hs. case_if; by rewrite !uartputc_buf.
Qed.
Hint Resolve typed_consputc : ktypes.
Lemma typed_consputs l : typed (consputs uart l) any.
Proof. induction l as [|c l IH]; cbn [consputs]; ty. Qed.
Lemma typed_kill_line n : typed (kill_line uart n) any.
Proof. induction n as [|n IH]; cbn [kill_line]; ty. Qed.
Lemma typed_put_char c : typed (modify (upd_cons (put_char c))) any.
Proof. apply typed_modify. intros k Hk. apply wf_upd_cons; [|done]. intros s Hs. simpl. by rewrite length_insert. Qed.
Hint Resolve typed_consputs typed_kill_line typed_put_char : ktypes.
Lemma typed_key c : typed (key uart c) any.
Proof. unfold key. ty. Qed.
Hint Resolve typed_key : ktypes.
Lemma typed_keys l : typed (keys uart l) any.
Proof. induction l as [|c l IH]; cbn [keys]; ty. Qed.
Hint Resolve typed_keys : ktypes.
Lemma typed_consoleintr l : typed (consoleintr uart l) any.
Proof. unfold consoleintr. ty. Qed.

Context `{D : DiskDriver} `{!DriverTyped D} (fuel : nat).
Lemma typed_consoleread_wait f : typed (consoleread_wait f) any.
Proof. induction f as [|f IH]; cbn [consoleread_wait]; ty. Qed.
Hint Resolve typed_consoleread_wait : ktypes.
Lemma typed_consoleread_loop n t : typed (consoleread_loop fuel n t) any.
Proof. induction n as [|n IH]; cbn [consoleread_loop]; ty. Qed.
Hint Resolve typed_consoleread_loop : ktypes.
Lemma typed_consoleread ip n : idx NINODE ip -> typed (consoleread fuel ip n) any.
Proof. intros. unfold consoleread. ty. Qed.
Lemma typed_consolewrite ip buf n : idx NINODE ip -> typed (consolewrite uart fuel ip buf n) any.
Proof. intros. unfold consolewrite. ty. Qed.
#[export] Instance console_typed : DevswTyped (console_devsw uart fuel).
Proof.
  split; simpl; intros m f ip; case_if; [|done| |done]; intros; simplify_eq; [by apply typed_consoleread|by apply typed_consolewrite].
Qed.
End ConsoleTypes.

(** ** The whole kernel *)

(** The handlers of a machine whose controllers hold [kbytes] and [ubytes]. *)
Definition machine (cpu : Z) (err : ide_cmd -> bool) (uart : bool) (kbytes : list Z) (shift : Z) (ubytes : list Z) :
    Interrupts := {|
  cpu_id := cpu;
  Trap.ideintr := IdeDisk.ideintr err;
  Trap.kbdintr := Kbd.kbdintr uart kbytes shift ;;; ret tt;
  Trap.uartintr := Uart.uartintr uart ubytes
|}.
#[export] Instance machine_typed cpu err uart kbytes shift ubytes : InterruptsTyped (machine cpu err uart kbytes shift ubytes).
Proof.
  split; simpl; [apply typed_ide_intr| |apply typed_consoleintr].
  unfold Kbd.kbdintr. eapply (typed_bind _ _ any); [|intros; ty].
  eapply (typed_bind _ _ any); [apply typed_consoleintr|intros; ty].
Qed.

(** The state before [main] runs is well formed. *)
Lemma zero_kernel_wf : wf zero_kernel.
Proof.
  assert (forall A (P : A -> Prop) n x, P x -> length (replicate n x) = n /\ Forall P (replicate n x)) as HR.
  { intros A P n x Hx. split; [apply length_replicate|by apply Forall_replicate]. }
  split; try done; [apply (HR _ proc_ok NPROC zero_proc)|apply (HR _ buf_ok NBUFS zero_buf)|
    apply (HR _ inode_ok NINODE zero_inode)|apply (HR _ file_ok NFILE zero_file)]; try done.
  - split; try done. apply (HR _ (oidx NFILE) NOFILE None). done.
  - split; [unfold idx, NBUFS; simpl; lia|unfold idx, NBUFS; simpl; lia|done].
Qed.


Definition demo_getpid : trapframe := set_tf_trapno T_SYSCALL (set_tf_eax 11 zero_tf).
Definition demo_one : kernel :=
  upd_sched (set_curproc (Some 0%nat)) (upd_proc 0 (fun p => set_p_state RUNNING (set_p_pid 1 p)) zero_kernel).
