(* ===== verification/Segments.v ===== *)
(** Segments: the segment and gate descriptors of mmu.h, and the functions
    that fill the tables: [seginit] and [switchuvm] of vm.c, [tvinit] and
    [idtinit] of trap.c.

    A structure of bit fields is packed from the least significant bit of two
    32-bit words, as the compiler does on the x86.  [desc_*] and [gate_*] are
    what the processor reads from the words. *)

From S2P Require Import Prelude Kernel.

(** ** mmu.h *)

Definition SEG_KCODE : Z := 1.
Definition SEG_KDATA : Z := 2.
Definition SEG_KCPU : Z := 3.
Definition SEG_UCODE : Z := 4.
Definition SEG_UDATA : Z := 5.
Definition SEG_TSS : Z := 6.
Definition NSEGS : nat := 7.
Definition DPL_USER : Z := 0x3.
Definition STA_X : Z := 0x8.
Definition STA_W : Z := 0x2.
Definition STA_R : Z := 0x2.
Definition STS_T32A : Z := 0x9.
Definition STS_IG32 : Z := 0xE.
Definition STS_TG32 : Z := 0xF.
Definition FL_IF : Z := 0x00000200.
Definition T_SYSCALL : nat := 64.

Record segdesc := Segdesc {
  lim_15_0 : Z; base_15_0 : Z;
  base_23_16 : Z; sd_type : Z; sd_s : Z; sd_dpl : Z; sd_p : Z; lim_19_16 : Z; avl : Z; sd_rsv1 : Z; db : Z; g : Z; base_31_24 : Z
}.
Definition null_segdesc : segdesc := Segdesc 0 0 0 0 0 0 0 0 0 0 0 0 0.

Definition SEG (type base lim dpl : Z) : segdesc :=
  Segdesc (Z.land (Z.shiftr lim 12) 0xffff) (Z.land (u32 base) 0xffff)
    (Z.land (Z.shiftr (u32 base) 16) 0xff) type 1 dpl 1 (Z.shiftr (u32 lim) 28) 0 0 1 1 (Z.shiftr (u32 base) 24).
Definition SEG16 (type base lim dpl : Z) : segdesc :=
  Segdesc (Z.land lim 0xffff) (Z.land (u32 base) 0xffff)
    (Z.land (Z.shiftr (u32 base) 16) 0xff) type 1 dpl 1 (Z.land (Z.shiftr (u32 lim) 16) 0xf) 0 0 1 0 (Z.shiftr (u32 base) 24).
Definition set_sd_s (v : Z) (d : segdesc) : segdesc :=
  Segdesc (lim_15_0 d) (base_15_0 d) (base_23_16 d) (sd_type d) v (sd_dpl d) (sd_p d) (lim_19_16 d) (avl d) (sd_rsv1 d) (db d) (g d) (base_31_24 d).

Record gatedesc := Gatedesc {
  off_15_0 : Z; gd_cs : Z;
  args : Z; gd_rsv1 : Z; gd_type : Z; gd_s : Z; gd_dpl : Z; gd_p : Z; off_31_16 : Z
}.
Definition null_gatedesc : gatedesc := Gatedesc 0 0 0 0 0 0 0 0 0.
Definition SETGATE (istrap : bool) (sel off d : Z) : gatedesc :=
  Gatedesc (Z.land (u32 off) 0xffff) sel 0 0 (if istrap then STS_TG32 else STS_IG32) 0 d 1 (Z.shiftr (u32 off) 16).

(** ** The words in memory, and what the processor reads in them *)

(** The fields of a word with their widths, least significant first. *)
Fixpoint pack (l : list (Z * Z)) : Z := match l with [] => 0 | (n, v) :: l => v + 2 ^ n * pack l end.
Definition seg_words (d : segdesc) : Z * Z :=
  (pack [(16, lim_15_0 d); (16, base_15_0 d)],
   pack [(8, base_23_16 d); (4, sd_type d); (1, sd_s d); (2, sd_dpl d); (1, sd_p d); (4, lim_19_16 d); (1, avl d); (1, sd_rsv1 d);
         (1, db d); (1, g d); (8, base_31_24 d)]).
Definition gate_words (d : gatedesc) : Z * Z :=
  (pack [(16, off_15_0 d); (16, gd_cs d)],
   pack [(5, args d); (3, gd_rsv1 d); (4, gd_type d); (1, gd_s d); (2, gd_dpl d); (1, gd_p d); (16, off_31_16 d)]).

Definition field (w i n : Z) : Z := w / 2 ^ i mod 2 ^ n.
Definition desc_base (w : Z * Z) : Z := field w.1 16 16 + 2 ^ 16 * field w.2 0 8 + 2 ^ 24 * field w.2 24 8.
(** The last byte of the segment; the limit counts pages when the
    granularity bit is set. *)
Definition desc_limit (w : Z * Z) : Z :=
  let lim := field w.1 0 16 + 2 ^ 16 * field w.2 16 4 in
  if field w.2 23 1 =? 1 then 4096 * lim + 4095 else lim.
Definition desc_type (w : Z * Z) : Z := field w.2 8 4.
Definition desc_dpl (w : Z * Z) : Z := field w.2 13 2.
Definition desc_present (w : Z * Z) : bool := field w.2 15 1 =? 1.
Definition gate_offset (w : Z * Z) : Z := field w.1 0 16 + 2 ^ 16 * field w.2 16 16.
Definition gate_selector (w : Z * Z) : Z := field w.1 16 16.
Definition gate_type (w : Z * Z) : Z := field w.2 8 4.
Definition gate_dpl (w : Z * Z) : Z := field w.2 13 2.
Definition gate_present (w : Z * Z) : bool := field w.2 15 1 =? 1.

(** ** The tables of a CPU *)

(** The part of [struct cpu] the processor uses, and its registers: [gs],
    the task register, the page directory register and the table registers
    as base and number of bytes. *)
Record segs := Segs {
  gdt : list segdesc;
  ts_ss0 : Z;
  ts_esp0 : Z;
  gdtr : Z * Z;
  idtr : Z * Z;
  gs_sel : Z;
  tr : Z;
  cr3 : Z
}.
Definition zero_segs : segs := Segs (replicate NSEGS null_segdesc) 0 0 (0, 0) (0, 0) 0 0 0.

Section Cpu.
(** [cpu_] is the address of the [struct cpu] of this CPU; [ofs_*] are the
    offsets of its fields the compiler chose. *)
Context (cpu_ ofs_gdt ofs_ts ofs_cpu : Z).

(** [lgdt] and [lidt] (x86.h) load the register with the limit and the base,
    which they pass as three 16-bit words. *)
Definition table_reg (p size : Z) : Z * Z := (u16 (u32 p) + 2 ^ 16 * u16 (Z.shiftr (u32 p) 16), u16 (size - 1)).

Definition seginit (s : segs) : segs :=
  let gdt1 := <[Z.to_nat SEG_KCODE := SEG (Z.lor STA_X STA_R) 0 0xffffffff 0]> (gdt s) in
  let gdt2 := <[Z.to_nat SEG_KDATA := SEG STA_W 0 0xffffffff 0]> gdt1 in
  let gdt3 := <[Z.to_nat SEG_UCODE := SEG (Z.lor STA_X STA_R) 0 0xffffffff DPL_USER]> gdt2 in
  let gdt4 := <[Z.to_nat SEG_UDATA := SEG STA_W 0 0xffffffff DPL_USER]> gdt3 in
  let gdt5 := <[Z.to_nat SEG_KCPU := SEG STA_W (cpu_ + ofs_cpu) 8 0]> gdt4 in
  Segs gdt5 (ts_ss0 s) (ts_esp0 s) (table_reg (cpu_ + ofs_gdt) (8 * Z.of_nat NSEGS)) (idtr s) (Z.shiftl SEG_KCPU 3) (tr s) (cr3 s).

Definition sizeof_taskstate : Z := 104.

(** [kstack] is [proc->kstack] and [pgdir] is [p->pgdir]; [None] is the panic. *)
Definition switchuvm (kstack pgdir : Z) (s : segs) : option segs :=
  let d := set_sd_s 0 (SEG16 STS_T32A (cpu_ + ofs_ts) (sizeof_taskstate - 1) 0) in
  if pgdir =? 0 then None else
  Some (Segs (<[Z.to_nat SEG_TSS := d]> (gdt s)) (Z.shiftl SEG_KDATA 3) (u32 (kstack + KSTACKSIZE)) (gdtr s) (idtr s) (gs_sel s)
    (Z.shiftl SEG_TSS 3) (V2P pgdir)).

Definition switchkvm (kpgdir : Z) (s : segs) : segs :=
  Segs (gdt s) (ts_ss0 s) (ts_esp0 s) (gdtr s) (idtr s) (gs_sel s) (tr s) (V2P kpgdir).

(** ** Interrupt descriptors *)

Context (vectors : nat -> Z) (idt_ : Z).

Fixpoint tvinit_loop (i n : nat) (idt : list gatedesc) : list gatedesc :=
  match n with
  | O => idt
  | S n => tvinit_loop (S i) n (<[i := SETGATE false (Z.shiftl SEG_KCODE 3) (vectors i) 0]> idt)
  end.
Definition tvinit (idt : list gatedesc) : list gatedesc :=
  <[T_SYSCALL := SETGATE true (Z.shiftl SEG_KCODE 3) (vectors T_SYSCALL) DPL_USER]> (tvinit_loop 0 256 idt).
Definition idtinit (s : segs) : segs :=
  Segs (gdt s) (ts_ss0 s) (ts_esp0 s) (gdtr s) (table_reg idt_ (8 * 256)) (gs_sel s) (tr s) (cr3 s).
End Cpu.

(** ** Proofs *)

(** A field of a word is what was packed there. *)
Lemma field_head n v l : 0 <= n -> 0 <= v < 2 ^ n -> field (pack ((n, v) :: l)) 0 n = v.
Proof.
  intros Hn Hv. unfold field. cbn [pack]. rewrite Z.pow_0_r, Z.div_1_r, Z.mul_comm, Z_mod_plus_full. by apply Z.mod_small.
Qed.
Lemma field_skip n v l i k : 0 <= n <= i -> 0 <= v < 2 ^ n -> field (pack ((n, v) :: l)) i k = field (pack l) (i - n) k.
Proof.
  intros Hn Hv. unfold field. cbn [pack]. replace (2 ^ i) with (2 ^ n * 2 ^ (i - n)) by (rewrite <- Z.pow_add_r by lia; f_equal; lia).
  rewrite <- Z.div_div by lia. f_equal. f_equal. rewrite Z.mul_comm, Z.div_add by lia. rewrite Z.div_small by done. lia.
Qed.
Ltac unpack := repeat (rewrite field_skip by lia; cbn [Z.sub Z.opp Z.add Z.pos_sub Pos.pred_double]); rewrite field_head by lia.

Lemma low16 a : Z.land a 0xffff = a mod 2 ^ 16.
Proof. exact (Z.land_ones a 16 ltac:(lia)). Qed.
Lemma low8 a : Z.land a 0xff = a mod 2 ^ 8.
Proof. exact (Z.land_ones a 8 ltac:(lia)). Qed.

Lemma split_base b : 0 <= b < 2 ^ 32 ->
  let lo := Z.land b 0xffff in let mid := Z.land (Z.shiftr b 16) 0xff in let hi := Z.shiftr b 24 in
  0 <= lo < 2 ^ 16 /\ 0 <= mid < 2 ^ 8 /\ 0 <= hi < 2 ^ 8 /\ lo + 2 ^ 16 * mid + 2 ^ 24 * hi = b.
Proof.
  intros Hb. cbv zeta. rewrite low16, low8, !Z.shiftr_div_pow2 by lia. change (2 ^ 24) with (2 ^ 16 * 2 ^ 8). rewrite <- Z.div_div by lia.
  pose proof (Z.div_mod b (2 ^ 16) ltac:(lia)). pose proof (Z.mod_pos_bound b (2 ^ 16) ltac:(lia)).
  pose proof (Z.div_mod (b / 2 ^ 16) (2 ^ 8) ltac:(lia)). pose proof (Z.mod_pos_bound (b / 2 ^ 16) (2 ^ 8) ltac:(lia)).
  set (q := b / 2 ^ 16) in *. set (r := b mod 2 ^ 16) in *. set (q2 := q / 2 ^ 8) in *. set (r2 := q mod 2 ^ 8) in *. lia.
Qed.

(** ** What the processor makes of the descriptors *)

Lemma SEG_spec type base lim dpl :
  0 <= type < 16 -> 0 <= base < 2 ^ 32 -> 0 <= lim < 2 ^ 32 -> 0 <= dpl < 4 ->
  let w := seg_words (SEG type base lim dpl) in
  desc_base w = base /\ desc_limit w = lim / 4096 * 4096 + 4095 /\ desc_type w = type /\ desc_dpl w = dpl /\ desc_present w = true.
Proof.
  intros Ht Hb Hl Hd w. destruct (split_base base Hb) as (H1 & H2 & H3 & Eb).
  assert (0 <= Z.land (Z.shiftr lim 12) 0xffff < 2 ^ 16 /\ 0 <= Z.shiftr lim 28 < 2 ^ 4 /\
    Z.land (Z.shiftr lim 12) 0xffff + 2 ^ 16 * Z.shiftr lim 28 = lim / 4096) as (L1 & L2 & El).
  { rewrite low16, !Z.shiftr_div_pow2 by lia. change (2 ^ 28) with (2 ^ 12 * 2 ^ 16). rewrite <- Z.div_div by lia. change 4096 with (2 ^ 12).
    pose proof (Z.div_mod (lim / 2 ^ 12) (2 ^ 16) ltac:(lia)). pose proof (Z.mod_pos_bound (lim / 2 ^ 12) (2 ^ 16) ltac:(lia)).
    pose proof (Z.div_lt_upper_bound lim (2 ^ 12) (2 ^ 20) ltac:(lia) ltac:(lia)). pose proof (Z.div_pos lim (2 ^ 12) ltac:(lia) ltac:(lia)).
    set (q := lim / 2 ^ 12) in *. set (q2 := q / 2 ^ 16) in *. set (r2 := q mod 2 ^ 16) in *. lia. }
  unfold w, seg_words, SEG, desc_base, desc_limit, desc_type, desc_dpl, desc_present. rewrite !u32_small by done.
  cbn [fst snd lim_15_0 base_15_0 base_23_16 sd_type sd_s sd_dpl sd_p lim_19_16 avl sd_rsv1 db g base_31_24].
  set (lo := Z.land base 0xffff) in *. set (mid := Z.land (Z.shiftr base 16) 0xff) in *. set (hi := Z.shiftr base 24) in *.
  set (l0 := Z.land (Z.shiftr lim 12) 0xffff) in *. set (l1 := Z.shiftr lim 28) in *.
  split; [unpack; unpack; unpack; exact Eb|]. split; [unpack; change (1 =? 1) with true; cbv iota; unpack; unpack; lia|].
  split; [by unpack|]. split; [by unpack|]. by unpack.
Qed.

Lemma SETGATE_spec istrap sel off d :
  0 <= sel < 2 ^ 16 -> 0 <= off < 2 ^ 32 -> 0 <= d < 4 ->
  let w := gate_words (SETGATE istrap sel off d) in
  gate_offset w = off /\ gate_selector w = sel /\ gate_type w = (if istrap then STS_TG32 else STS_IG32) /\ gate_dpl w = d /\ gate_present w = true.
Proof.
  intros Hs Ho Hd w.
  assert (0 <= Z.land off 0xffff < 2 ^ 16 /\ 0 <= Z.shiftr off 16 < 2 ^ 16 /\ Z.land off 0xffff + 2 ^ 16 * Z.shiftr off 16 = off) as (H1 & H2 & Eo).
  { rewrite low16, Z.shiftr_div_pow2 by lia. pose proof (Z.div_mod off (2 ^ 16) ltac:(lia)). pose proof (Z.mod_pos_bound off (2 ^ 16) ltac:(lia)).
    set (q := off / 2 ^ 16) in *. set (r := off mod 2 ^ 16) in *. lia. }
  assert (0 <= (if istrap then STS_TG32 else STS_IG32) < 2 ^ 4) as Hty by (destruct istrap; unfold STS_TG32, STS_IG32; lia).
  unfold w, gate_words, SETGATE, gate_offset, gate_selector, gate_type, gate_dpl, gate_present. rewrite !u32_small by done.
  cbn [fst snd off_15_0 gd_cs args gd_rsv1 gd_type gd_s gd_dpl gd_p off_31_16].
  set (lo := Z.land off 0xffff) in *. set (hi := Z.shiftr off 16) in *. set (ty := if istrap then STS_TG32 else STS_IG32) in *.
  split; [unpack; unpack; exact Eo|]. split; [by unpack|]. split; [by unpack|]. split; [by unpack|]. by unpack.
Qed.

(** [tvinit] sets every gate. *)
Definition gate_of (vectors : nat -> Z) (i : nat) : gatedesc :=
  SETGATE (bool_decide (i = T_SYSCALL)) (Z.shiftl SEG_KCODE 3) (vectors i) (if bool_decide (i = T_SYSCALL) then DPL_USER else 0).
Lemma tvinit_loop_spec vectors n : forall i idt j, (i + n <= length idt)%nat ->
  tvinit_loop vectors i n idt !! j =
  if bool_decide (i <= j < i + n)%nat then Some (SETGATE false (Z.shiftl SEG_KCODE 3) (vectors j) 0) else idt !! j.
Proof.
  induction n as [|n IH]; intros i idt j Hlen; cbn [tvinit_loop]; [rewrite bool_decide_eq_false_2 by lia; done|].
  rewrite IH by (rewrite length_insert; lia). destruct (decide (j = i)) as [->|Hne].
  - rewrite bool_decide_eq_false_2, bool_decide_eq_true_2 by lia. apply list_lookup_insert_eq. lia.
  - rewrite list_lookup_insert_ne by done. repeat case_bool_decide; first [done|lia].
Qed.
Lemma tvinit_gates vectors idt i : length idt = 256%nat -> (i < 256)%nat -> tvinit vectors idt !! i = Some (gate_of vectors i).
Proof.
  intros Hlen Hi. unfold tvinit, gate_of. destruct (decide (i = T_SYSCALL)) as [->|Hne].
  - rewrite !bool_decide_eq_true_2 by done. apply list_lookup_insert_eq. apply lookup_lt_is_Some. rewrite tvinit_loop_spec by lia.
    rewrite bool_decide_eq_true_2 by (unfold T_SYSCALL; lia). by eexists.
  - rewrite !bool_decide_eq_false_2 by done. rewrite list_lookup_insert_ne by congruence. rewrite tvinit_loop_spec by lia.
    by rewrite bool_decide_eq_true_2 by lia.
Qed.

(** [seginit] and [switchuvm] give the processor the kernel's code segment
    and the stack of the process. *)
Lemma seginit_kcode cpu_ og oc s :
  length (gdt s) = NSEGS -> gdt (seginit cpu_ og oc s) !! 1%nat = Some (SEG (Z.lor STA_X STA_R) 0 0xffffffff 0).
Proof.
  intros Hlen. unfold seginit. cbn [gdt]. rewrite !list_lookup_insert_ne by (vm_compute; lia). apply list_lookup_insert_eq. rewrite Hlen. unfold NSEGS. vm_compute. lia.
Qed.
