(* ===== verification/Asm.v ===== *)
(** Asm: the assembly of the kernel's edges, vectors.pl, trapasm.S, swtch.S
    and usys.S, on the registers and the memory of the processor.

    A register file is a function from registers to values; [rf] and [am] are
    the registers and the memory, byte by byte.  [interrupt] and [iret] are
    what the processor does on an interrupt, an exception or an [int]
    instruction, and on the return from it. *)

From S2P Require Import Prelude Kernel StringLib Bytes Words Segments.

Inductive reg := EAX | ECX | EDX | EBX | ESP | EBP | ESI | EDI | EIP | EFLAGS | CS | DS | ES | FS | GS | SS.
#[export] Instance reg_eq_dec : EqDecision reg.
Proof. solve_decision. Defined.

Record mach := Mach { rf : reg -> Z; am : Z -> Z }.
Definition set_reg (r : reg) (v : Z) (m : mach) : mach := Mach (fun r' => if decide (r' = r) then v else rf m r') (am m).

(** ** Instructions *)

Definition pushl (v : Z) (m : mach) : mach :=
  let sp := u32 (rf m ESP - 4) in
  Mach (rf (set_reg ESP sp m)) (wr sp v (am m)).
Definition pop (f : Z -> Z) (r : reg) (m : mach) : mach := set_reg r (f (ld32 (am m) (rf m ESP))) (set_reg ESP (u32 (rf m ESP + 4)) m).
Definition popl : reg -> mach -> mach := pop (fun v => v).
(** A segment register takes the low 16 bits. *)
Definition popw : reg -> mach -> mach := pop u16.
Definition addl_esp (n : Z) (m : mach) : mach := set_reg ESP (u32 (rf m ESP + n)) m.
Definition pushal (m : mach) : mach :=
  let sp := rf m ESP in
  pushl (rf m EDI) (pushl (rf m ESI) (pushl (rf m EBP) (pushl sp (pushl (rf m EBX) (pushl (rf m EDX) (pushl (rf m ECX) (pushl (rf m EAX) m))))))).
(** The saved [esp] is skipped. *)
Definition popal (m : mach) : mach :=
  popl EAX (popl ECX (popl EDX (popl EBX (addl_esp 4 (popl EBP (popl ESI (popl EDI m))))))).
Definition ret (m : mach) : mach := popl EIP m.

(** ** The processor *)

(** [TF], [NT], [RF] and [VM] of mmu.h, which every gate clears. *)
Definition FL_gate : Z := 0x34100.

(** Vector [n] through its gate; [soft] for an [int] instruction, which needs
    the privilege the gate asks for; [err] is the error code some exceptions
    push.  [None] is a general protection fault instead. *)
Definition interrupt (st : segs) (idt : list gatedesc) (n : nat) (soft : bool) (err : option Z) (m : mach) : option mach :=
  match idt !! n with
  | None => None
  | Some gd =>
      let w := gate_words gd in
      let cpl := rf m CS mod 4 in
      if negb (gate_present w) || (soft && (gate_dpl w <? cpl)) then None else
      match gdt st !! Z.to_nat (gate_selector w / 8) with
      | None => None
      | Some sd =>
          let inner := desc_dpl (seg_words sd) <? cpl in
          let m1 := if inner then pushl (rf m ESP) (pushl (rf m SS) (set_reg SS (ts_ss0 st) (set_reg ESP (ts_esp0 st) m))) else m in
          let m2 := pushl (rf m EIP) (pushl (rf m CS) (pushl (rf m EFLAGS) m1)) in
          let m3 := match err with Some e => pushl e m2 | None => m2 end in
          let fl := Z.ldiff (rf m EFLAGS) (if gate_type w =? STS_IG32 then Z.lor FL_gate FL_IF else FL_gate) in
          Some (set_reg EFLAGS fl (set_reg CS (gate_selector w) (set_reg EIP (gate_offset w) m3)))
      end
  end.
Definition iret (m : mach) : mach :=
  let cpl := rf m CS mod 4 in
  let m1 := popl EFLAGS (popw CS (popl EIP m)) in
  if cpl <? rf m1 CS mod 4 then
    let sp := ld32 (am m1) (rf m1 ESP) in
    set_reg ESP sp (popw SS (set_reg ESP (u32 (rf m1 ESP + 4)) m1))
  else m1.

(** ** vectors.pl and trapasm.S *)

(** The exceptions for which the processor pushes an error code; for the
    others the entry point pushes a zero in its place. *)
Definition errcode (n : nat) : bool := bool_decide (n = 8 \/ (10 <= n <= 14) \/ n = 17)%nat.
Definition vector (n : nat) (m : mach) : mach :=
  pushl (Z.of_nat n) (if negb (errcode n) then pushl 0 m else m).

(** Up to the call of [trap], which finds its argument on the stack. *)
Definition alltraps (m : mach) : mach :=
  let m1 := pushal (pushl (rf m GS) (pushl (rf m FS) (pushl (rf m ES) (pushl (rf m DS) m)))) in
  let m2 := set_reg ES (Z.shiftl SEG_KDATA 3) (set_reg DS (Z.shiftl SEG_KDATA 3) m1) in
  let m3 := set_reg GS (Z.shiftl SEG_KCPU 3) (set_reg FS (Z.shiftl SEG_KCPU 3) m2) in
  pushl (rf m3 ESP) m3.
(** After the call; the argument is off the stack again. *)
Definition trapret (m : mach) : mach :=
  iret (addl_esp 0x8 (popw DS (popw ES (popw FS (popw GS (popal m)))))).

(** ** swtch.S *)

Definition swtch (m : mach) : mach :=
  let m1 := set_reg EDX (ld32 (am m) (u32 (rf m ESP + 8))) (set_reg EAX (ld32 (am m) (u32 (rf m ESP + 4))) m) in
  let m2 := pushl (rf m1 EDI) (pushl (rf m1 ESI) (pushl (rf m1 EBX) (pushl (rf m1 EBP) m1))) in
  let m3 := Mach (rf m2) (wr (rf m2 EAX) (rf m2 ESP) (am m2)) in
  let m4 := set_reg ESP (rf m3 EDX) m3 in
  ret (popl EBP (popl EBX (popl ESI (popl EDI m4)))).

(** ** usys.S *)

(** The stub of a system call up to its [int]; [num] is the call's number.
    What is left of it afterwards is [ret]. *)
Definition usys (num : Z) (m : mach) : mach := set_reg EAX num m.

(** ** The frame on the stack *)

Definition read_tf (m : Z -> Z) (p : Z) : trapframe :=
  let w i := ld32 m (p + 4 * i) in
  Trapframe (w 0) (w 1) (w 2) (w 3) (w 4) (w 5) (w 6) (w 7) (u16 (w 8)) (u16 (w 9)) (u16 (w 10)) (u16 (w 11))
    (w 12) (w 13) (w 14) (u16 (w 15)) (w 16) (w 17) (u16 (w 18)).
Definition sizeof_trapframe : Z := 76.

(** ** Proofs *)

Lemma rf_set_eq r v m : rf (set_reg r v m) r = v.
Proof. simpl. by rewrite decide_True. Qed.
Lemma rf_set_ne r r' v m : r' <> r -> rf (set_reg r v m) r' = rf m r'.
Proof. intros H. simpl. by rewrite decide_False. Qed.
Lemma rf_push_ne r v m : r <> ESP -> rf (pushl v m) r = rf m r.
Proof. intros H. unfold pushl. cbn [rf]. by apply rf_set_ne. Qed.
#[export] Hint Rewrite rf_set_eq : asm.
#[export] Hint Rewrite rf_set_ne rf_push_ne using discriminate : asm.

(** The words pushed since the stack pointer was at [top], first one first;
    the memory elsewhere is that of [m0]. *)
Record stacked (m0 : mach) (top : Z) (vs : list Z) (m : mach) : Prop := {
  st_esp : rf m ESP = top - 4 * Z.of_nat (length vs);
  st_word : forall j v, vs !! j = Some v -> ld32 (am m) (top - 4 * (Z.of_nat j + 1)) = u32 v;
  st_frame : forall x, x < top - 4 * Z.of_nat (length vs) \/ top <= x -> am m x = am m0 x
}.
Lemma stacked_start m m0 top : rf m ESP = top -> am m = am m0 -> stacked m0 top [] m.
Proof. intros H E. split; [simpl; lia|done|by rewrite E]. Qed.
Lemma stacked_push m0 top vs v m :
  stacked m0 top vs m -> 4 * (Z.of_nat (length vs) + 1) <= top < 2 ^ 32 -> stacked m0 top (vs ++ [v]) (pushl v m).
Proof.
  intros [He Hw Hf] Ht. assert (u32 (rf m ESP - 4) = top - 4 * (Z.of_nat (length vs) + 1)) as Esp by (rewrite He, u32_small; lia).
  split; unfold pushl; cbn [rf am]; rewrite Esp.
  - rewrite rf_set_eq, length_app. simpl. lia.
  - intros j w Hj. apply lookup_app_Some in Hj as [Hj|[Hj Hv]].
    + pose proof (lookup_lt_Some _ _ _ Hj). rewrite ld32_wr_far by lia. by apply Hw.
    + apply list_lookup_singleton_Some in Hv as [Hv <-]. replace j with (length vs) by lia. apply ld32_wr.
  - rewrite length_app. simpl. intros x Hx. rewrite wr_out by lia. apply Hf. lia.
Qed.
Lemma stacked_set m0 top vs r v m : r <> ESP -> stacked m0 top vs m -> stacked m0 top vs (set_reg r v m).
Proof. intros Hr [He Hw Hf]. split; [by rewrite rf_set_ne|done|done]. Qed.

(** Popping registers in order. *)
Definition pops (f : Z -> Z) (rs : list reg) (m : mach) : mach := fold_left (fun m r => pop f r m) rs m.
Lemma pops_spec f rs : forall m p,
  NoDup rs -> ESP ∉ rs -> rf m ESP = p -> 0 <= p -> p + 4 * Z.of_nat (length rs) < 2 ^ 32 ->
  rf (pops f rs m) ESP = p + 4 * Z.of_nat (length rs) /\ am (pops f rs m) = am m /\
  (forall j r, rs !! j = Some r -> rf (pops f rs m) r = f (ld32 (am m) (p + 4 * Z.of_nat j))) /\
  (forall r, r ∉ rs -> r <> ESP -> rf (pops f rs m) r = rf m r).
Proof.
  induction rs as [|r rs IH]; intros m p Hnd Hesp He Hp Hlen.
  - simpl. split; [lia|]. split; [done|]. split; [done|]. done.
  - apply NoDup_cons in Hnd as [Hr Hnd]. apply not_elem_of_cons in Hesp as [Hre Hesp]. simpl length in *.
    assert (rf (pop f r m) ESP = p + 4) as He1. { unfold pop. rewrite rf_set_ne, rf_set_eq, He, u32_small; [done|lia|done]. }
    destruct (IH (pop f r m) (p + 4)) as (E1 & E2 & E3 & E4); try done; try lia. change (pops f (r :: rs) m) with (pops f rs (pop f r m)).
    split; [lia|]. split; [by rewrite E2|]. split.
    + intros [|j] r' Hj; [injection Hj as <-|].
      * rewrite E4 by done. unfold pop. rewrite rf_set_eq, He, Z.add_0_r. done.
      * rewrite (E3 j r' Hj). f_equal. change (am (pop f r m)) with (am m). f_equal. lia.
    + intros r' Hr' Hne. apply not_elem_of_cons in Hr' as [H1 H2]. rewrite E4 by done. unfold pop. by rewrite !rf_set_ne.
Qed.

(** ** The return to the user *)

(** The field of the frame a register is restored from. *)
Definition tf_reg (tf : trapframe) (r : reg) : Z :=
  match r with
  | EAX => tf_eax tf | ECX => tf_ecx tf | EDX => tf_edx tf | EBX => tf_ebx tf | ESP => tf_esp tf | EBP => tf_ebp tf
  | ESI => tf_esi tf | EDI => tf_edi tf | EIP => tf_eip tf | EFLAGS => tf_eflags tf | CS => tf_cs tf | DS => tf_ds tf
  | ES => tf_es tf | FS => tf_fs tf | GS => tf_gs tf | SS => tf_ss tf
  end.

Lemma addl_esp_spec n m p : rf m ESP = p -> 0 <= p + n < 2 ^ 32 ->
  rf (addl_esp n m) ESP = p + n /\ am (addl_esp n m) = am m /\ forall r, r <> ESP -> rf (addl_esp n m) r = rf m r.
Proof. intros He Hn. unfold addl_esp. rewrite rf_set_eq, He, u32_small by done. split; [done|]. split; [done|]. intros r Hr. by apply rf_set_ne. Qed.

(** Facts about lists of registers, by computation. *)
Ltac regs := apply (bool_decide_unpack _); vm_compute; exact I.

Ltac same_word :=
  lazymatch goal with
  | |- u16 (ld32 ?m ?a) = u16 (ld32 ?m ?b) => replace a with b by lia; reflexivity
  | |- ld32 ?m ?a = ld32 ?m ?b => replace a with b by lia; reflexivity
  end.

Lemma trapret_pops_eq m :
  addl_esp 8 (popw DS (popw ES (popw FS (popw GS (popal m))))) =
  addl_esp 8 (pops u16 [GS; FS; ES; DS] (pops (fun v => v) [EBX; EDX; ECX; EAX] (addl_esp 4 (pops (fun v => v) [EDI; ESI; EBP] m)))).
Proof. unfold popal, popl, popw, pops. cbn [fold_left]. reflexivity. Qed.

(** [popal] and the segment registers. *)
Lemma trapret_pops m p :
  rf m ESP = p -> 0 <= p -> p + 76 < 2 ^ 32 ->
  let m' := addl_esp 8 (popw DS (popw ES (popw FS (popw GS (popal m))))) in
  rf m' ESP = p + 56 /\ am m' = am m /\ rf m' CS = rf m CS /\
  forall r, r ∈ [EAX; ECX; EDX; EBX; EBP; ESI; EDI; DS; ES; FS; GS] -> rf m' r = tf_reg (read_tf (am m) p) r.
Proof.
  intros He Hp Hb. cbv zeta. rewrite trapret_pops_eq.
  destruct (pops_spec (fun v => v) [EDI; ESI; EBP] m p) as (A1 & A2 & A3 & A4); [regs|regs|done|done|simpl; lia|].
  generalize dependent (pops (fun v => v) [EDI; ESI; EBP] m). intros m1 A1 A2 A3 A4.
  destruct (addl_esp_spec 4 _ _ A1) as (B1 & B2 & B3); [simpl; lia|].
  destruct (pops_spec (fun v => v) [EBX; EDX; ECX; EAX] (addl_esp 4 m1) (p + 16)) as (C1 & C2 & C3 & C4); [regs|regs|rewrite B1; simpl; lia|lia|simpl; lia|].
  generalize dependent (pops (fun v => v) [EBX; EDX; ECX; EAX] (addl_esp 4 m1)). intros m2 C1 C2 C3 C4.
  destruct (pops_spec u16 [GS; FS; ES; DS] m2 (p + 32)) as (D1 & D2 & D3 & D4); [regs|regs|rewrite C1; simpl; lia|lia|simpl; lia|].
  generalize dependent (pops u16 [GS; FS; ES; DS] m2). intros m3 D1 D2 D3 D4.
  destruct (addl_esp_spec 8 m3 (p + 48)) as (E1 & E2 & E3); [rewrite D1; simpl; lia|lia|].
  rewrite B2, A2 in *. rewrite C2 in *.
  split; [rewrite E1; lia|]. split; [by rewrite E2, D2|]. split.
  - rewrite E3, D4, C4, B3, A4; [done|regs..].
  - intros r Hr. rewrite E3 by (intros ->; revert Hr; regs).
    repeat (apply elem_of_cons in Hr as [->|Hr]); [..|by apply not_elem_of_nil in Hr]; unfold read_tf, tf_reg; cbn -[ld32 Z.add u16].
    + rewrite D4, (C3 3%nat) by (done || regs). same_word.
    + rewrite D4, (C3 2%nat) by (done || regs). same_word.
    + rewrite D4, (C3 1%nat) by (done || regs). same_word.
    + rewrite D4, (C3 0%nat) by (done || regs). same_word.
    + rewrite D4, C4, B3, (A3 2%nat) by (done || regs). same_word.
    + rewrite D4, C4, B3, (A3 1%nat) by (done || regs). same_word.
    + rewrite D4, C4, B3, (A3 0%nat) by (done || regs). same_word.
    + rewrite (D3 3%nat) by done. same_word.
    + rewrite (D3 2%nat) by done. same_word.
    + rewrite (D3 1%nat) by done. same_word.
    + rewrite (D3 0%nat) by done. same_word.
Qed.

Lemma trapret_run m p :
  rf m ESP = p -> 0 <= p -> p + 76 < 2 ^ 32 -> rf m CS mod 4 = 0 -> tf_cs (read_tf (am m) p) mod 4 = 3 ->
  am (trapret m) = am m /\ forall r, rf (trapret m) r = tf_reg (read_tf (am m) p) r.
Proof.
  intros He Hp Hb Hcs Htf. destruct (trapret_pops m p He Hp Hb) as (A1 & A2 & A3 & A4). unfold trapret.
  set (m0 := addl_esp 8 (popw DS (popw ES (popw FS (popw GS (popal m)))))) in *. unfold iret. rewrite A3, Hcs.
  assert (u32 (rf m0 ESP + 4) = p + 60) as S1 by (rewrite A1, u32_small; lia).
  set (m1 := popl EIP m0). assert (rf m1 ESP = p + 60) as R1 by (unfold m1, popl, pop; rewrite rf_set_ne, rf_set_eq by done; exact S1).
  set (m2 := popw CS m1). assert (rf m2 ESP = p + 64) as R2 by (unfold m2, popw, pop; rewrite rf_set_ne, rf_set_eq, R1, u32_small by (done || lia); lia).
  set (m3 := popl EFLAGS m2). assert (rf m3 ESP = p + 68) as R3 by (unfold m3, popl, pop; rewrite rf_set_ne, rf_set_eq, R2, u32_small by (done || lia); lia).
  assert (am m3 = am m) as Am by (rewrite <- A2; reflexivity).
  assert (rf m3 EIP = tf_eip (read_tf (am m) p)) as V1.
  { unfold m3, popl, pop, m2, popw, pop. rewrite !rf_set_ne by done. unfold m1, popl, pop. rewrite rf_set_eq, A1, A2. cbn -[ld32 Z.add]. same_word. }
  assert (rf m3 CS = tf_cs (read_tf (am m) p)) as V2.
  { unfold m3, popl, pop. rewrite !rf_set_ne by done. unfold m2, popw, pop. rewrite rf_set_eq, R1. change (am m1) with (am m0). rewrite A2.
    cbn -[ld32 Z.add u16]. same_word. }
  assert (rf m3 EFLAGS = tf_eflags (read_tf (am m) p)) as V3.
  { unfold m3, popl, pop. rewrite rf_set_eq, R2. change (am m2) with (am m0). rewrite A2. cbn -[ld32 Z.add]. same_word. }
  assert (forall r, r <> EIP -> r <> CS -> r <> EFLAGS -> r <> ESP -> rf m3 r = rf m0 r) as V4.
  { intros r H1 H2 H3 H4. unfold m3, popl, pop, m2, popw, pop, m1, popl, pop. by rewrite !rf_set_ne. }
  rewrite V2, Htf. change (0 <? 3) with true. cbv iota. rewrite Am, R3.
  set (m4 := set_reg ESP (u32 (p + 68 + 4)) m3). assert (rf m4 ESP = p + 72) as R4 by (unfold m4; rewrite rf_set_eq, u32_small by lia; lia).
  split; [exact Am|]. intros r.
  destruct (decide (r = ESP)) as [->|Hne]; [rewrite rf_set_eq; cbn -[ld32 Z.add]; same_word|]. rewrite rf_set_ne by done.
  destruct (decide (r = SS)) as [->|Hss].
  { unfold popw, pop. rewrite rf_set_eq, R4. change (am m4) with (am m3). rewrite Am. cbn -[ld32 Z.add u16]. same_word. }
  unfold popw, pop. rewrite !rf_set_ne by done. unfold m4. rewrite rf_set_ne by done.
  destruct (decide (r = EIP)) as [->|H1]; [exact V1|]. destruct (decide (r = CS)) as [->|H2]; [exact V2|]. destruct (decide (r = EFLAGS)) as [->|H3]; [exact V3|].
  rewrite V4 by done. apply A4. destruct r; first [done|regs].
Qed.
