(* ===== verification/TrapEntry.v ===== *)
(** TrapEntry: the way from a user program into [trap] and back: the gates of
    [tvinit], the stack of [switchuvm], the entry points of vectors.pl, and
    alltraps and trapret of trapasm.S. *)

From S2P Require Import Prelude Kernel StringLib Bytes Words Segments Asm.

(** ** The tables a CPU has while a process runs *)

Section Entry.
Context (vectors : nat -> Z) (Hvec : forall n, 0 <= vectors n < 2 ^ 32).
Context (st : segs) (idt : list gatedesc) (top : Z).

(** What [seginit], [switchuvm] and [tvinit] establish. *)
Record ready : Prop := {
  rd_code : gdt st !! 1%nat = Some (SEG (Z.lor STA_X STA_R) 0 0xffffffff 0);
  rd_stack : ts_ss0 st = Z.shiftl SEG_KDATA 3 /\ ts_esp0 st = top;
  rd_gates : forall n, (n < 256)%nat -> idt !! n = Some (gate_of vectors n)
}.

(** A machine in a user program. *)
Record user_mach (m : mach) : Prop := {
  um_cs : rf m CS mod 4 = 3;
  um_range : forall r, 0 <= rf m r < 2 ^ 32;
  um_segs : forall r, r ∈ [CS; DS; ES; FS; GS; SS] -> 0 <= rf m r < 2 ^ 16
}.

Lemma gate_facts n :
  let w := gate_words (gate_of vectors n) in
  gate_offset w = vectors n /\ gate_selector w = 8 /\ gate_present w = true /\
  gate_type w = (if bool_decide (n = T_SYSCALL) then STS_TG32 else STS_IG32) /\ gate_dpl w = (if bool_decide (n = T_SYSCALL) then 3 else 0).
Proof.
  destruct (SETGATE_spec (bool_decide (n = T_SYSCALL)) (Z.shiftl SEG_KCODE 3) (vectors n) (if bool_decide (n = T_SYSCALL) then DPL_USER else 0))
    as (H1 & H2 & H3 & H4 & H5); [change (Z.shiftl SEG_KCODE 3) with 8; lia|apply Hvec|unfold DPL_USER; case_bool_decide; lia|].
  cbv zeta. unfold gate_of. rewrite H1, H2, H3, H4, H5. repeat split; case_bool_decide; reflexivity.
Qed.

(** A user program may raise only the system call by itself. *)
Lemma int_refused m n : ready -> user_mach m -> (n < 256)%nat -> n <> T_SYSCALL -> interrupt st idt n true None m = None.
Proof.
  intros R U Hn Hne. unfold interrupt. rewrite (rd_gates R n Hn). destruct (gate_facts n) as (_ & _ & _ & _ & E). cbv zeta in *.
  rewrite E, (um_cs _ U), bool_decide_eq_false_2 by done. by rewrite orb_true_r.
Qed.

(** The words the processor pushes. *)
Definition hw_words (m : mach) (err : option Z) : list Z :=
  [rf m SS; rf m ESP; rf m EFLAGS; rf m CS; rf m EIP] ++ match err with Some e => [e] | None => [] end.

Lemma interrupt_run m n soft err :
  ready -> user_mach m -> (n < 256)%nat -> (soft = true -> n = T_SYSCALL) -> 80 <= top < 2 ^ 32 ->
  exists m1, interrupt st idt n soft err m = Some m1 /\ stacked m top (hw_words m err) m1 /\
    rf m1 EIP = vectors n /\ rf m1 CS = 8 /\
    rf m1 EFLAGS = Z.ldiff (rf m EFLAGS) (if bool_decide (n = T_SYSCALL) then FL_gate else Z.lor FL_gate FL_IF) /\
    forall r, r ∈ [EAX; ECX; EDX; EBX; EBP; ESI; EDI; DS; ES; FS; GS] -> rf m1 r = rf m r.
Proof.
  intros R U Hn Hsoft Htop. destruct (gate_facts n) as (E1 & E2 & E3 & E4 & E5). cbv zeta in *. destruct (rd_stack R) as [Ess Eesp].
  destruct (SEG_spec (Z.lor STA_X STA_R) 0 0xffffffff 0) as (_ & _ & _ & Ed & _); [vm_compute; intuition congruence|lia|lia|lia|]. cbv zeta in Ed.
  unfold interrupt. rewrite (rd_gates R n Hn). cbv zeta. rewrite E1, E2, E3, E4, E5. change (Z.to_nat (8 / 8)) with 1%nat. rewrite (rd_code R), Ed, (um_cs _ U), Eesp.
  assert (soft && ((if bool_decide (n = T_SYSCALL) then 3 else 0) <? 3) = false) as ->.
  { destruct soft; [|done]. rewrite bool_decide_eq_true_2 by auto. done. }
  change (0 <? 3) with true. cbn [negb orb]. cbv iota. eexists. split; [reflexivity|].
  assert (stacked m top [] (set_reg SS (ts_ss0 st) (set_reg ESP top m))) as S0.
  { apply stacked_start; [rewrite rf_set_ne by done; apply rf_set_eq|done]. }
  assert (forall r, r ∈ [EAX; ECX; EDX; EBX; EBP; ESI; EDI; DS; ES; FS; GS] -> r <> EIP /\ r <> CS /\ r <> EFLAGS /\ r <> ESP /\ r <> SS) as Hr.
  { intros r Hr. repeat (apply elem_of_cons in Hr as [->|Hr]); [done..|by apply not_elem_of_nil in Hr]. }
  split; [|split; [by rewrite rf_set_ne, rf_set_ne, rf_set_eq by done|split; [by rewrite rf_set_ne, rf_set_eq by done|split]]].
  - do 3 (apply stacked_set; [done|]).
    pose proof (stacked_push _ _ _ (rf m EIP) _ (stacked_push _ _ _ (rf m CS) _ (stacked_push _ _ _ (rf m EFLAGS) _
      (stacked_push _ _ _ (rf m ESP) _ (stacked_push _ _ _ (rf m SS) _ S0 ltac:(simpl; lia)) ltac:(simpl; lia)) ltac:(simpl; lia)) ltac:(simpl; lia)) ltac:(simpl; lia)) as S5.
    unfold hw_words. destruct err as [e|]; [|exact S5]. apply (stacked_push _ _ _ e _ S5). simpl. lia.
  - rewrite rf_set_eq. f_equal. case_bool_decide; reflexivity.
  - intros r H. destruct (Hr r H) as (H1 & H2 & H3 & H4 & H5). rewrite !rf_set_ne by done. destruct err; by rewrite !rf_push_ne, !rf_set_ne by done.
Qed.

(** vectors.pl and alltraps complete the frame. *)
Definition frame_words (m : mach) (n : nat) (err : option Z) : list Z :=
  [rf m SS; rf m ESP; rf m EFLAGS; rf m CS; rf m EIP; default 0 err; Z.of_nat n; rf m DS; rf m ES; rf m FS; rf m GS;
   rf m EAX; rf m ECX; rf m EDX; rf m EBX; top - 44; rf m EBP; rf m ESI; rf m EDI; top - 76].

Lemma alltraps_run m n err m1 :
  stacked m top (hw_words m err) m1 -> (is_Some err <-> errcode n = true) -> 80 <= top < 2 ^ 32 ->
  (forall r, r ∈ [EAX; ECX; EDX; EBX; EBP; ESI; EDI; DS; ES; FS; GS] -> rf m1 r = rf m r) ->
  stacked m top (frame_words m n err) (alltraps (vector n m1)).
Proof.
  intros S He Htop Hr.
  assert (stacked m top ([rf m SS; rf m ESP; rf m EFLAGS; rf m CS; rf m EIP; default 0 err; Z.of_nat n]) (vector n m1)) as S1.
  { unfold vector, hw_words in *. destruct err as [e|]; cbn [app default] in *.
    - destruct (errcode n) eqn:E; [|destruct He as [He _]; discriminate He; by eexists]. apply (stacked_push _ _ _ (Z.of_nat n) _ S). simpl. lia.
    - destruct (errcode n) eqn:E; [destruct He as [_ He]; destruct (He eq_refl); done|]. cbn [negb].
      apply (stacked_push _ _ _ (Z.of_nat n) _ (stacked_push _ _ _ 0 _ S ltac:(simpl; lia))). simpl. lia. }
  assert (forall r, r ∈ [EAX; ECX; EDX; EBX; EBP; ESI; EDI; DS; ES; FS; GS] -> rf (vector n m1) r = rf m r) as Hv.
  { intros r H. assert (r <> ESP) by (intros ->; revert H; regs). unfold vector. destruct (negb (errcode n)); rewrite !rf_push_ne by done; by apply Hr. }
  revert S1 Hv. generalize (vector n m1). clear m1 S Hr. intros m1 S Hv. unfold alltraps. cbv zeta.
  rewrite (Hv GS), (Hv FS), (Hv ES), (Hv DS) by regs.
  pose proof (stacked_push _ _ _ (rf m GS) _ (stacked_push _ _ _ (rf m FS) _ (stacked_push _ _ _ (rf m ES) _
    (stacked_push _ _ _ (rf m DS) _ S ltac:(simpl; lia)) ltac:(simpl; lia)) ltac:(simpl; lia)) ltac:(simpl; lia)) as S4.
  assert (forall r, r ∈ [EAX; ECX; EDX; EBX; EBP; ESI; EDI] -> rf (pushl (rf m GS) (pushl (rf m FS) (pushl (rf m ES) (pushl (rf m DS) m1)))) r = rf m r) as H4.
  { intros r H. assert (r <> ESP) by (intros ->; revert H; regs). rewrite !rf_push_ne by done. apply Hv.
    repeat (apply elem_of_cons in H as [->|H]); [regs..|by apply not_elem_of_nil in H]. }
  revert S4 H4. generalize (pushl (rf m GS) (pushl (rf m FS) (pushl (rf m ES) (pushl (rf m DS) m1)))). clear m1 S Hv. intros m1 S Hv. cbn [app] in S.
  assert (rf m1 ESP = top - 44) as E11 by exact (st_esp _ _ _ _ S).
  unfold pushal. cbv zeta. rewrite (Hv EAX), (Hv ECX), (Hv EDX), (Hv EBX), (Hv EBP), (Hv ESI), (Hv EDI), E11 by regs.
  pose proof (stacked_push _ _ _ (rf m EDI) _ (stacked_push _ _ _ (rf m ESI) _ (stacked_push _ _ _ (rf m EBP) _ (stacked_push _ _ _ (top - 44) _
    (stacked_push _ _ _ (rf m EBX) _ (stacked_push _ _ _ (rf m EDX) _ (stacked_push _ _ _ (rf m ECX) _ (stacked_push _ _ _ (rf m EAX) _ S
      ltac:(simpl; lia)) ltac:(simpl; lia)) ltac:(simpl; lia)) ltac:(simpl; lia)) ltac:(simpl; lia)) ltac:(simpl; lia)) ltac:(simpl; lia)) ltac:(simpl; lia)) as S8.
  cbn [app] in S8. apply (stacked_set _ _ _ DS (Z.shiftl SEG_KDATA 3)), (stacked_set _ _ _ ES (Z.shiftl SEG_KDATA 3)),
    (stacked_set _ _ _ FS (Z.shiftl SEG_KCPU 3)), (stacked_set _ _ _ GS (Z.shiftl SEG_KCPU 3)) in S8; [|done..].
  pose proof (st_esp _ _ _ _ S8) as Esp. rewrite Esp. apply (stacked_push _ _ _ (top - 76) _ S8). simpl. lia.
Qed.
(** The frame as [trap] reads it. *)
Definition user_frame (m : mach) (n : nat) (err : option Z) : trapframe :=
  Trapframe (rf m EDI) (rf m ESI) (rf m EBP) (top - 44) (rf m EBX) (rf m EDX) (rf m ECX) (rf m EAX) (rf m GS) (rf m FS) (rf m ES) (rf m DS)
    (Z.of_nat n) (default 0 err) (rf m EIP) (rf m CS) (rf m EFLAGS) (rf m ESP) (rf m SS).

Lemma frame_read m n err m2 :
  user_mach m -> (n < 256)%nat -> (forall e, err = Some e -> 0 <= e < 2 ^ 32) -> 80 <= top < 2 ^ 32 -> stacked m top (frame_words m n err) m2 ->
  read_tf (am m2) (top - 76) = user_frame m n err.
Proof.
  intros [_ R G] Hn He Htop S.
  assert (forall j v, frame_words m n err !! j = Some v -> 0 <= v < 2 ^ 32 -> ld32 (am m2) (top - 76 + 4 * (18 - Z.of_nat j)) = v) as W.
  { intros j v Hj Hv. rewrite <- (u32_small v Hv), <- (st_word _ _ _ _ S j v Hj). f_equal. lia. }
  assert (forall j r, r ∈ [CS; DS; ES; FS; GS; SS] -> frame_words m n err !! j = Some (rf m r) -> u16 (ld32 (am m2) (top - 76 + 4 * (18 - Z.of_nat j))) = rf m r) as W16.
  { intros j r Hr Hj. rewrite (W j (rf m r) Hj (R r)). unfold u16. apply Z.mod_small. by apply G. }
  assert (0 <= default 0 err < 2 ^ 32) as He' by (destruct err as [e|]; simpl; [by apply He|lia]).
  unfold read_tf, user_frame. cbv zeta. f_equal.
  exact (W 18%nat (rf m EDI) eq_refl (R EDI)). exact (W 17%nat (rf m ESI) eq_refl (R ESI)). exact (W 16%nat (rf m EBP) eq_refl (R EBP)).
  exact (W 15%nat (top - 44) eq_refl ltac:(lia)). exact (W 14%nat (rf m EBX) eq_refl (R EBX)). exact (W 13%nat (rf m EDX) eq_refl (R EDX)).
  exact (W 12%nat (rf m ECX) eq_refl (R ECX)). exact (W 11%nat (rf m EAX) eq_refl (R EAX)). exact (W16 10%nat GS ltac:(regs) eq_refl).
  exact (W16 9%nat FS ltac:(regs) eq_refl). exact (W16 8%nat ES ltac:(regs) eq_refl). exact (W16 7%nat DS ltac:(regs) eq_refl).
  exact (W 6%nat (Z.of_nat n) eq_refl ltac:(lia)). exact (W 5%nat (default 0 err) eq_refl He'). exact (W 4%nat (rf m EIP) eq_refl (R EIP)).
  exact (W16 3%nat CS ltac:(regs) eq_refl). exact (W 2%nat (rf m EFLAGS) eq_refl (R EFLAGS)). exact (W 1%nat (rf m ESP) eq_refl (R ESP)).
  exact (W16 0%nat SS ltac:(regs) eq_refl).
Qed.
End Entry.

Lemma clears a g f : Z.land (Z.ldiff a (Z.lor g f)) f = 0.
Proof.
  apply Z.bits_inj'. intros i _. rewrite Z.land_spec, Z.ldiff_spec, Z.lor_spec, Z.bits_0. by destruct (Z.testbit a i), (Z.testbit g i), (Z.testbit f i).
Qed.
Lemma tf_reg_user top m n err v r : tf_reg (set_tf_eax v (user_frame top m n err)) r = if decide (r = EAX) then v else rf m r.
Proof. by destruct r. Qed.

(** C99: into the kernel and back.  With the tables [seginit], [switchuvm] and
    [tvinit] set up, a user program can raise no vector but the system call
    by itself.  An interrupt, an exception or the system call enters the
    kernel at its entry point with the kernel's code segment, interrupts off
    but for the system call, on the kernel stack of the process; [trap] is
    given exactly the user's registers, the vector and the error code, in the
    [struct trapframe] at the place [allocproc] reserves, and memory outside
    the top of that stack is untouched.  When [trap] has changed no more than
    the saved [eax], [trapret] resumes the program with every register as it
    was and that value in [eax]. *)
Theorem trap_entry_exit cpu_ ofs_gdt ofs_ts ofs_cpu vectors s0 idt0 kstack pgdir st m :
  let idt := tvinit vectors idt0 in let top := kstack + KSTACKSIZE in let tf := top - sizeof_trapframe in
  (forall n, 0 <= vectors n < 2 ^ 32) -> length (gdt s0) = NSEGS -> length idt0 = 256%nat ->
  switchuvm cpu_ ofs_ts kstack pgdir (seginit cpu_ ofs_gdt ofs_cpu s0) = Some st -> 0 <= kstack -> top < 2 ^ 32 -> user_mach m ->
  (forall n, (n < 256)%nat -> n <> T_SYSCALL -> interrupt st idt n true None m = None) /\
  forall n soft err, (n < 256)%nat -> (soft = true -> n = T_SYSCALL) -> (is_Some err <-> errcode n = true) -> (forall e, err = Some e -> 0 <= e < 2 ^ 32) ->
  exists m1, interrupt st idt n soft err m = Some m1 /\ rf m1 EIP = vectors n /\ rf m1 CS = Z.shiftl SEG_KCODE 3 /\
    (n <> T_SYSCALL -> Z.land (rf m1 EFLAGS) FL_IF = 0) /\
    let m2 := alltraps (vector n m1) in
    ld32 (am m2) (rf m2 ESP) = tf /\ read_tf (am m2) tf = user_frame top m n err /\
    (forall x, x < tf - 4 \/ top <= x -> am m2 x = am m x) /\
    forall m3 v, rf m3 ESP = tf -> rf m3 CS = Z.shiftl SEG_KCODE 3 -> read_tf (am m3) tf = set_tf_eax v (user_frame top m n err) ->
      forall r, rf (trapret m3) r = if decide (r = EAX) then v else rf m r.
Proof.
  intros idt top tf Hvec Hg Hi Hsw Hk Htop U. unfold sizeof_trapframe in tf. change KSTACKSIZE with 4096 in top.
  assert (ready vectors st idt top) as R.
  { unfold switchuvm in Hsw. destruct (pgdir =? 0); [done|]. injection Hsw as <-. split; cbn [gdt ts_ss0 ts_esp0].
    - rewrite list_lookup_insert_ne by done. exact (seginit_kcode cpu_ ofs_gdt ofs_cpu s0 Hg).
    - split; [done|]. apply u32_small. fold top. lia.
    - intros n Hn. by apply tvinit_gates. }
  split; [intros n Hn Hne; by apply (int_refused vectors Hvec st idt top)|].
  intros n soft err Hn Hsoft Herr He.
  destruct (interrupt_run vectors Hvec st idt top m n soft err R U Hn Hsoft ltac:(lia)) as (m1 & Hint & S & Eip & Ecs & Efl & Hr).
  exists m1. split; [done|]. split; [done|]. split; [done|]. split.
  { intros Hne. rewrite Efl, bool_decide_eq_false_2 by done. apply clears. }
  pose proof (alltraps_run top m n err m1 S Herr ltac:(lia) Hr) as S2. set (m2 := alltraps (vector n m1)) in *. cbv zeta.
  pose proof (frame_read top m n err m2 U Hn He ltac:(lia) S2) as Hf. split; [|split; [exact Hf|split]].
  - rewrite (st_esp _ _ _ _ S2). rewrite <- (u32_small tf) by lia. apply (st_word _ _ _ _ S2 19%nat tf). reflexivity.
  - intros x Hx. apply (st_frame _ _ _ _ S2). change (Z.of_nat (length (frame_words top m n err))) with 20. lia.
  - intros m3 v Hesp Hcs Htf r. destruct (trapret_run m3 tf) as [_ ->]; [done|lia|lia|by rewrite Hcs| |].
    + rewrite Htf. apply (um_cs _ U).
    + rewrite Htf. apply tf_reg_user.
Qed.

(** ** Context switch *)

(** The five words of a [struct context]: the registers [swtch] saves, and
    the return address. *)
Definition context_at (m : Z -> Z) (p : Z) : list Z := map (fun i => ld32 m (p + 4 * i)) [0; 1; 2; 3; 4].

(** A call of [swtch(old, new)]: the stack, the pointer to save to and the
    context to load do not overlap. *)
Record calls_swtch (m : mach) (sp old new : Z) : Prop := {
  cs_regs : forall r, 0 <= rf m r < 2 ^ 32;
  cs_sp : rf m ESP = sp /\ 16 <= sp /\ sp + 12 < 2 ^ 32;
  cs_ret : 0 <= ld32 (am m) sp < 2 ^ 32;
  cs_args : ld32 (am m) (sp + 4) = old /\ ld32 (am m) (sp + 8) = new;
  cs_new : 0 <= new /\ new + 20 < 2 ^ 32;
  cs_apart : (old + 4 <= sp - 16 \/ sp + 4 <= old) /\ (old + 4 <= new \/ new + 20 <= old) /\ (sp <= new \/ new + 20 <= sp - 16)
}.

Lemma swtch_run m sp old new :
  calls_swtch m sp old new ->
  ld32 (am (swtch m)) old = sp - 16 /\
  context_at (am (swtch m)) (sp - 16) = [rf m EDI; rf m ESI; rf m EBX; rf m EBP; ld32 (am m) sp] /\
  [rf (swtch m) EDI; rf (swtch m) ESI; rf (swtch m) EBX; rf (swtch m) EBP; rf (swtch m) EIP] = context_at (am m) new /\
  rf (swtch m) ESP = new + 20.
Proof.
  intros [R (He & Hsp & Hsp2) Hra [Ho Hn] [Hn0 Hn1] (D1 & D2 & D3)]. unfold swtch. cbv zeta. rewrite He, !u32_small, Ho, Hn by lia.
  set (m1 := set_reg EDX new (set_reg EAX old m)).
  assert (rf m1 EDI = rf m EDI /\ rf m1 ESI = rf m ESI /\ rf m1 EBX = rf m EBX /\ rf m1 EBP = rf m EBP) as (-> & -> & -> & ->) by (unfold m1; by rewrite !rf_set_ne).
  assert (stacked m sp [] m1) as S0 by (by apply stacked_start).
  pose proof (stacked_push _ _ _ (rf m EDI) _ (stacked_push _ _ _ (rf m ESI) _ (stacked_push _ _ _ (rf m EBX) _ (stacked_push _ _ _ (rf m EBP) _ S0
    ltac:(simpl; lia)) ltac:(simpl; lia)) ltac:(simpl; lia)) ltac:(simpl; lia)) as S. cbn [app] in S.
  assert (forall r, r <> ESP -> rf (pushl (rf m EDI) (pushl (rf m ESI) (pushl (rf m EBX) (pushl (rf m EBP) m1)))) r = rf m1 r) as Hr.
  { intros r Hr. by rewrite !rf_push_ne. }
  revert S Hr. generalize (pushl (rf m EDI) (pushl (rf m ESI) (pushl (rf m EBX) (pushl (rf m EBP) m1)))). intros m2 S Hr.
  assert (rf m2 ESP = sp - 16) as Esp by exact (st_esp _ _ _ _ S).
  assert (rf m2 EAX = old /\ rf m2 EDX = new) as [Ea Ed] by (split; rewrite Hr by done; unfold m1; by rewrite ?rf_set_ne, rf_set_eq by done).
  cbn [rf am]. rewrite Esp, Ea, Ed. set (m4 := set_reg ESP new (Mach (rf m2) (wr old (sp - 16) (am m2)))).
  assert (forall x, old + 4 <= x \/ x + 4 <= old -> x + 4 <= sp - 16 \/ sp <= x -> ld32 (am m4) x = ld32 (am m) x) as Hmem.
  { intros x H1 H2. change (am m4) with (wr old (sp - 16) (am m2)). rewrite ld32_wr_far by lia. apply ld32_ext. intros y Hy.
    apply (st_frame _ _ _ _ S). simpl. lia. }
  assert (forall j v, [rf m EBP; rf m EBX; rf m ESI; rf m EDI] !! j = Some v -> 0 <= v < 2 ^ 32 -> (j < 4)%nat ->
    ld32 (am m4) (sp - 4 * (Z.of_nat j + 1)) = v) as Hw.
  { intros j v Hj Hv Hj4. change (am m4) with (wr old (sp - 16) (am m2)). rewrite ld32_wr_far by lia. rewrite (st_word _ _ _ _ S j v Hj). by apply u32_small. }
  change (ret (popl EBP (popl EBX (popl ESI (popl EDI m4))))) with (pops (fun v => v) [EDI; ESI; EBX; EBP; EIP] m4).
  destruct (pops_spec (fun v => v) [EDI; ESI; EBX; EBP; EIP] m4 new) as (P1 & P2 & P3 & _); [regs|regs|apply rf_set_eq|done|simpl; lia|].
  generalize dependent (pops (fun v => v) [EDI; ESI; EBX; EBP; EIP] m4). intros m5 P1 P2 P3. rewrite P2. split; [|split; [|split]].
  - change (am m4) with (wr old (sp - 16) (am m2)). rewrite ld32_wr. apply u32_small. lia.
  - unfold context_at. cbn [map]. f_equal; [rewrite <- (Hw 3%nat _ eq_refl (R EDI) ltac:(lia)); same_word|].
    f_equal; [rewrite <- (Hw 2%nat _ eq_refl (R ESI) ltac:(lia)); same_word|]. f_equal; [rewrite <- (Hw 1%nat _ eq_refl (R EBX) ltac:(lia)); same_word|].
    f_equal; [rewrite <- (Hw 0%nat _ eq_refl (R EBP) ltac:(lia)); same_word|]. f_equal. replace (sp - 16 + 4 * 4) with sp by lia. apply Hmem; lia.
  - unfold context_at. cbn [map]. rewrite (P3 0%nat), (P3 1%nat), (P3 2%nat), (P3 3%nat), (P3 4%nat) by done. rewrite !Hmem by lia. reflexivity.
  - rewrite P1. simpl. lia.
Qed.

(** C99: [swtch] saves and restores.  A process that calls [swtch(old, new)]
    leaves in [*old] the address of a [struct context] on its stack with its
    callee-saved registers and its return address, and the processor goes on
    with the registers, the return address and the stack of [new].  Whoever
    later calls [swtch] with that context, its words unchanged, resumes the
    process right after its call, with its registers and its stack. *)
Theorem swtch_roundtrip m sp old new m' sp' old' :
  calls_swtch m sp old new -> calls_swtch m' sp' old' (ld32 (am (swtch m)) old) ->
  context_at (am m') (sp - 16) = context_at (am (swtch m)) (sp - 16) ->
  [rf (swtch m) EDI; rf (swtch m) ESI; rf (swtch m) EBX; rf (swtch m) EBP; rf (swtch m) EIP; rf (swtch m) ESP] =
    context_at (am m) new ++ [new + 20] /\
  [rf (swtch m') EDI; rf (swtch m') ESI; rf (swtch m') EBX; rf (swtch m') EBP; rf (swtch m') EIP; rf (swtch m') ESP] =
    [rf m EDI; rf m ESI; rf m EBX; rf m EBP; ld32 (am m) sp; sp + 4].
Proof.
  intros C C' E. destruct (swtch_run m sp old new C) as (A1 & A2 & A3 & A4). rewrite A1 in C'.
  destruct (swtch_run m' sp' old' (sp - 16) C') as (_ & _ & B3 & B4). rewrite E, A2 in B3.
  assert (forall a b c d e f : Z, [a; b; c; d; e; f] = [a; b; c; d; e] ++ [f]) as Ha by reflexivity.
  rewrite !Ha, A3, A4, B3, B4. split; [reflexivity|]. do 2 f_equal. lia.
Qed.

(** ** Witnesses *)

Definition demo_user : mach :=
  Mach (fun r => match r with CS => 0x23 | SS | DS | ES => 0x2b | ESP => 0x2ff0 | EIP => 0x15 | EAX => 22 | EFLAGS => 0x202 | _ => 0 end) (fun _ => 0).
Definition demo_vectors (n : nat) : Z := 0x80106000 + 16 * (Z.of_nat n mod 256).

Lemma demo_user_mach : user_mach demo_user.
Proof.
  split; [reflexivity| |].
  - intros r. destruct r; cbn; lia.
  - intros r Hr. repeat (apply elem_of_cons in Hr as [->|Hr]); [cbn; lia..|by apply not_elem_of_nil in Hr].
Qed.

(** A system call of the program returns with its result, and the program
    cannot raise the page fault vector itself. *)
Lemma trap_entry_exit_witness : exists st m1 m2 tf,
  interrupt st (tvinit demo_vectors (replicate 256 null_gatedesc)) 64 true None demo_user = Some m1 /\
  interrupt st (tvinit demo_vectors (replicate 256 null_gatedesc)) 14 true None demo_user = None /\
  m2 = alltraps (vector 64 m1) /\ read_tf (am m2) tf = user_frame 0x8dfff000 demo_user 64 None.
Proof.
  destruct (trap_entry_exit 0x80112780 60 4 180 demo_vectors zero_segs (replicate 256 null_gatedesc) 0x8dffe000 0x8dffd000
    (Segs (<[6%nat := set_sd_s 0 (SEG16 STS_T32A (0x80112780 + 4) (sizeof_taskstate - 1) 0)]> (gdt (seginit 0x80112780 60 180 zero_segs)))
      16 0x8dfff000 (gdtr (seginit 0x80112780 60 180 zero_segs)) (0, 0) 24 48 (V2P 0x8dffd000)) demo_user) as [H1 H2].
  - intros n. unfold demo_vectors. pose proof (Z.mod_pos_bound (Z.of_nat n) 256 ltac:(lia)). lia.
  - reflexivity.
  - reflexivity.
  - reflexivity.
  - lia.
  - vm_compute. reflexivity.
  - exact demo_user_mach.
  - destruct (H2 64%nat true None) as (m1 & Hi & _ & _ & _ & _ & Hf & _).
    + lia.
    + reflexivity.
    + split; [intros [x Hx]; discriminate Hx|intros Hx; discriminate Hx].
    + intros e He. discriminate He.
    + eexists _, m1, _, _. split; [exact Hi|]. split; [apply H1; [lia|discriminate]|]. split; [reflexivity|exact Hf].
Defined.

(** Two stacks: the first calls [swtch] at 0x1000, the second at 0x2000. *)
Definition demo_switch : mach :=
  Mach (fun r => match r with ESP => 0x1000 | EBX => 5 | EDI => 7 | _ => 0 end) (wr 0x1000 0x80104000 (wr 0x1004 0x3000 (wr 0x1008 0x2010 (fun _ => 0)))).
Definition demo_back : mach :=
  Mach (fun r => match r with ESP => 0x2000 | _ => 0 end) (wr 0x2004 0x3010 (wr 0x2008 0xff0 (am (swtch demo_switch)))).
Lemma swtch_roundtrip_witness : rf (swtch demo_back) EBX = 5 /\ rf (swtch demo_back) EDI = 7 /\ rf (swtch demo_back) EIP = 0x80104000.
Proof.
  destruct (swtch_roundtrip demo_switch 0x1000 0x3000 0x2010 demo_back 0x2000 0x3010) as [_ H].
  - split; [intros r; destruct r; cbn; lia|repeat split; vm_compute; congruence..|vm_compute; intuition congruence].
  - replace (ld32 (am (swtch demo_switch)) 0x3000) with 0xff0 by (vm_compute; reflexivity).
    split; [intros r; destruct r; cbn; lia|repeat split; vm_compute; congruence..|vm_compute; intuition congruence].
  - vm_compute. reflexivity.
  - split; [exact (f_equal (fun l => nth 2 l 0) H)|]. split; [exact (f_equal (fun l => nth 0 l 0) H)|].
    etransitivity; [exact (f_equal (fun l => nth 4 l 0) H)|vm_compute; reflexivity].
Defined.
