(* ===== verification/Irq.v ===== *)
(** Irq: the interrupt controllers and the timer, picirq.c, ioapic.c and
    timer.c.

    The state has the mask variable of picirq.c, the bytes written to I/O
    ports in their order, and the registers of the I/O APIC, which are reached
    through an index register and a data register. *)

From S2P Require Import Prelude.

Record irqs := Irqs {
  irqmask : Z;
  outs : list (Z * Z);
  io_reg : Z;
  io_regs : Z -> Z
}.
Definition outb (port v : Z) (s : irqs) : irqs :=
  Irqs (irqmask s) (outs s ++ [(port, u8 v)]) (io_reg s) (io_regs s).
Definition set_irqmask (v : Z) (s : irqs) : irqs := Irqs v (outs s) (io_reg s) (io_regs s).
(** [ioapic->reg = v] and [ioapic->data = v] *)
Definition set_io_reg (v : Z) (s : irqs) : irqs := Irqs (irqmask s) (outs s) v (io_regs s).
Definition set_io_data (v : Z) (s : irqs) : irqs :=
  Irqs (irqmask s) (outs s) (io_reg s) (fun r => if r =? io_reg s then u32 v else io_regs s r).

Definition T_IRQ0 : Z := 32.
Definition IRQ_TIMER : Z := 0.

(** ** picirq.c *)

Definition IO_PIC1 : Z := 0x20.
Definition IO_PIC2 : Z := 0xA0.
Definition IRQ_SLAVE : Z := 2.

Definition irqmask0 : Z := Z.land 0xFFFF (Z.lnot (Z.shiftl 1 IRQ_SLAVE)).

Definition picsetmask (mask : Z) (s : irqs) : irqs :=
  outb (IO_PIC2 + 1) (Z.shiftr mask 8) (outb (IO_PIC1 + 1) mask (set_irqmask mask s)).
Definition picenable (irq : Z) (s : irqs) : irqs :=
  picsetmask (u16 (Z.land (irqmask s) (Z.lnot (Z.shiftl 1 irq)))) s.

(** The commands of [picinit], port and byte *)
Definition pic_commands : list (Z * Z) :=
  [ (IO_PIC1 + 1, 0xFF); (IO_PIC2 + 1, 0xFF);
    (IO_PIC1, 0x11); (IO_PIC1 + 1, T_IRQ0); (IO_PIC1 + 1, Z.shiftl 1 IRQ_SLAVE); (IO_PIC1 + 1, 0x3);
    (IO_PIC2, 0x11); (IO_PIC2 + 1, T_IRQ0 + 8); (IO_PIC2 + 1, IRQ_SLAVE); (IO_PIC2 + 1, 0x3);
    (IO_PIC1, 0x68); (IO_PIC1, 0x0a);
    (IO_PIC2, 0x68); (IO_PIC2, 0x0a) ].
Definition picinit (s : irqs) : irqs :=
  let s := foldl (fun s c => outb c.1 c.2 s) s pic_commands in
  if negb (irqmask s =? 0xFFFF) then picsetmask (irqmask s) s else s.

(** ** timer.c *)

Definition IO_TIMER1 : Z := 0x040.
Definition TIMER_FREQ : Z := 1193182.
Definition TIMER_DIV (x : Z) : Z := (TIMER_FREQ + x / 2) / x.
Definition TIMER_MODE : Z := IO_TIMER1 + 3.
Definition TIMER_SEL0 : Z := 0x00.
Definition TIMER_RATEGEN : Z := 0x04.
Definition TIMER_16BIT : Z := 0x30.

Definition timerinit (s : irqs) : irqs :=
  picenable IRQ_TIMER
    (outb IO_TIMER1 (TIMER_DIV 100 / 256)
      (outb IO_TIMER1 (TIMER_DIV 100 mod 256)
        (outb TIMER_MODE (Z.lor (Z.lor TIMER_SEL0 TIMER_RATEGEN) TIMER_16BIT) s))).

(** ** ioapic.c *)

Definition REG_ID : Z := 0x00.
Definition REG_VER : Z := 0x01.
Definition REG_TABLE : Z := 0x10.
Definition INT_DISABLED : Z := 0x00010000.

Definition ioapicread (reg : Z) (s : irqs) : Z * irqs :=
  let s := set_io_reg reg s in (io_regs s (io_reg s), s).
Definition ioapicwrite (reg data : Z) (s : irqs) : irqs := set_io_data data (set_io_reg reg s).

Section Ioapic.
Context (ismp : bool).

(** [for(i = 0; i <= maxintr; i++)] *)
Fixpoint ioapic_clear (i : Z) (n : nat) (s : irqs) : irqs :=
  match n with
  | O => s
  | S n =>
      ioapic_clear (i + 1) n
        (ioapicwrite (REG_TABLE + 2 * i + 1) 0
          (ioapicwrite (REG_TABLE + 2 * i) (Z.lor INT_DISABLED (T_IRQ0 + i)) s))
  end.

(** The identifier read second is only compared for a message. *)
Definition ioapicinit (s : irqs) : irqs :=
  if negb ismp then s else
  let r := ioapicread REG_VER s in
  let maxintr := Z.land (Z.shiftr r.1 16) 0xFF in
  ioapic_clear 0 (Z.to_nat (maxintr + 1)) (ioapicread REG_ID r.2).2.

Definition ioapicenable (irq cpunum : Z) (s : irqs) : irqs :=
  if negb ismp then s else
  ioapicwrite (REG_TABLE + 2 * irq + 1) (Z.shiftl cpunum 24) (ioapicwrite (REG_TABLE + 2 * irq) (T_IRQ0 + irq) s).
End Ioapic.

(** ** Which interrupts get through *)

(** The byte a port was last given. *)
Definition last_out (port : Z) (l : list (Z * Z)) : Z :=
  foldl (fun v c => if c.1 =? port then c.2 else v) 0 l.
(** The masks of the two controllers as one. *)
Definition pic_mask (l : list (Z * Z)) : Z := last_out (IO_PIC1 + 1) l + 256 * last_out (IO_PIC2 + 1) l.

(** A driver asks for its interrupt, to be served by a processor. *)
Definition enable_irq (ismp : bool) (s : irqs) (r : Z * Z) : irqs := ioapicenable ismp r.1 r.2 (picenable r.1 s).

Lemma last_out_snoc p l c : last_out p (l ++ [c]) = if c.1 =? p then c.2 else last_out p l.
Proof. unfold last_out. by rewrite foldl_app. Qed.

(** What the ports were told is the mask variable. *)
Definition pic_ok (s : irqs) : Prop := 0 <= irqmask s < 2 ^ 16 /\ pic_mask (outs s) = irqmask s.

Lemma picsetmask_ok mask s : 0 <= mask < 2 ^ 16 -> pic_ok (picsetmask mask s) /\ irqmask (picsetmask mask s) = mask.
Proof.
  intros H. split; [|done]. split; [done|]. unfold pic_mask, picsetmask. cbn [outs outb set_irqmask irqmask].
  rewrite !last_out_snoc. cbn [fst snd]. change (IO_PIC2 + 1 =? IO_PIC1 + 1) with false. rewrite !Z.eqb_refl.
  unfold u8. rewrite Z.shiftr_div_pow2 by lia. rewrite (Z.mod_small (mask / 2 ^ 8)).
  - pose proof (Z.div_mod mask (2 ^ 8) ltac:(lia)). lia.
  - split; [apply Z.div_pos; lia|apply Z.div_lt_upper_bound; lia].
Qed.
Lemma picenable_ok irq s :
  pic_ok s -> 0 <= irq < 16 ->
  pic_ok (picenable irq s) /\
  forall i, 0 <= i < 16 -> Z.testbit (irqmask (picenable irq s)) i = Z.testbit (irqmask s) i && negb (i =? irq).
Proof.
  intros [Hm _] Hi. unfold picenable. assert (0 <= u16 (Z.land (irqmask s) (Z.lnot (Z.shiftl 1 irq))) < 2 ^ 16) as H by apply Z.mod_pos_bound, eq_refl.
  destruct (picsetmask_ok _ s H) as [Hok E]. split; [exact Hok|]. intros i Hi'. rewrite E. unfold u16.
  rewrite Z.mod_pow2_bits_low, Z.land_spec, Z.lnot_spec, Z.shiftl_spec by lia. f_equal. f_equal.
  destruct (Z.eqb_spec i irq) as [->|Hne]; [by rewrite Z.sub_diag|].
  destruct (Z.ltb_spec i irq); [by rewrite Z.testbit_neg_r by lia|].
  replace 1 with (2 ^ 0) by done. rewrite Z.pow2_bits_false by lia. done.
Qed.

(** The two registers of an interrupt in the redirection table *)
Definition io_entry (s : irqs) (i : Z) : Z * Z := (io_regs s (REG_TABLE + 2 * i), io_regs s (REG_TABLE + 2 * i + 1)).

Lemma ioapicwrite_regs reg v s r : io_regs (ioapicwrite reg v s) r = if r =? reg then u32 v else io_regs s r.
Proof. done. Qed.
Lemma disabled_or x : 0 <= x < 2 ^ 16 -> Z.lor INT_DISABLED x = INT_DISABLED + x.
Proof.
  intros H. assert (Z.land INT_DISABLED x = 0) as E.
  { apply Z.bits_inj_0. intros n. rewrite Z.land_spec. change INT_DISABLED with (2 ^ 16). rewrite Z.pow2_bits_eqb by lia.
    destruct (Z.eqb_spec 16 n) as [<-|]; [|done]. rewrite <- (Z.mod_small x (2 ^ 16)) by done. by rewrite Z.mod_pow2_bits_high by lia. }
  by rewrite <- Z.lxor_lor, Z.add_nocarry_lxor.
Qed.
Lemma ioapic_clear_entry i n s j :
  0 <= i -> i + Z.of_nat n <= 256 -> 0 <= j ->
  io_entry (ioapic_clear i n s) j =
    if (i <=? j) && (j <? i + Z.of_nat n) then (INT_DISABLED + (T_IRQ0 + j), 0) else io_entry s j.
Proof.
  revert i s. induction n as [|n IH]; intros i s Hi Hn Hj; cbn [ioapic_clear]; [case_cmp; first [done|lia]|].
  rewrite IH by lia. destruct (Z.eqb_spec i j) as [<-|Hne].
  - rewrite (proj2 (Z.leb_gt (i + 1) i)), Z.leb_refl, (proj2 (Z.ltb_lt i (i + Z.of_nat (S n)))) by lia. cbn [andb]. unfold io_entry.
    rewrite !ioapicwrite_regs, !Z.eqb_refl, !(proj2 (Z.eqb_neq _ _)) by lia. f_equal.
    rewrite disabled_or by (unfold T_IRQ0; lia). apply u32_small. unfold INT_DISABLED, T_IRQ0. lia.
  - unfold io_entry. rewrite !ioapicwrite_regs, !(proj2 (Z.eqb_neq _ _)) by lia. case_cmp; first [done|lia].
Qed.
Lemma ioapicenable_entry irq cpu s j :
  io_entry (ioapicenable true irq cpu s) j = if j =? irq then (u32 (T_IRQ0 + irq), u32 (Z.shiftl cpu 24)) else io_entry s j.
Proof.
  unfold io_entry, ioapicenable. cbn [negb]. rewrite !ioapicwrite_regs. case_cmp; first [done|lia].
Qed.
Lemma ioapicenable_outs ismp irq cpu s :
  outs (ioapicenable ismp irq cpu s) = outs s /\ irqmask (ioapicenable ismp irq cpu s) = irqmask s.
Proof. by destruct ismp. Qed.
Lemma ioapic_clear_outs i n s : outs (ioapic_clear i n s) = outs s /\ irqmask (ioapic_clear i n s) = irqmask s.
Proof. revert i s. induction n as [|n IH]; intros i s; [done|]. cbn [ioapic_clear]. by destruct (IH (i + 1) (ioapicwrite (REG_TABLE + 2 * i + 1) 0 (ioapicwrite (REG_TABLE + 2 * i) (Z.lor INT_DISABLED (T_IRQ0 + i)) s))) as [-> ->]. Qed.
Lemma ioapicinit_outs ismp s : outs (ioapicinit ismp s) = outs s /\ irqmask (ioapicinit ismp s) = irqmask s.
Proof. destruct ismp; [|done]. unfold ioapicinit. cbn [negb]. cbv zeta. by rewrite !(proj1 (ioapic_clear_outs _ _ _)), !(proj2 (ioapic_clear_outs _ _ _)). Qed.
Lemma picenable_regs irq s : io_regs (picenable irq s) = io_regs s.
Proof. done. Qed.
Lemma picinit_regs s : io_regs (picinit s) = io_regs s.
Proof. unfold picinit. by case_if. Qed.

(** The number of the last interrupt, as the version register has it, and the
    processor an interrupt was last asked for. *)
Definition maxintr (s : irqs) : Z := Z.land (Z.shiftr (io_regs s REG_VER) 16) 0xFF.
Definition route (l : list (Z * Z)) (i : Z) : option Z :=
  foldl (fun o r => if r.1 =? i then Some r.2 else o) None l.

Lemma pic_routing ismp s l :
  irqmask s = irqmask0 -> Forall (fun r => 0 <= r.1 < 16) l ->
  let s' := foldl (enable_irq ismp) (ioapicinit ismp (picinit s)) l in
  pic_ok s' /\
  forall i, 0 <= i < 16 -> Z.testbit (irqmask s') i = negb ((i =? IRQ_SLAVE) || existsb (fun r => r.1 =? i) l).
Proof.
  intros Hm Hl. cbv zeta. induction l as [|[irq cpu] l IH] using rev_ind.
  - simpl foldl. unfold pic_ok. destruct (ioapicinit_outs ismp (picinit s)) as [-> ->].
    set (s1 := foldl (fun s c => outb c.1 c.2 s) s pic_commands).
    assert (picinit s = picsetmask irqmask0 s1) as ->.
    { unfold picinit. fold s1. replace (irqmask s1) with irqmask0 by (symmetry; exact Hm). done. }
    destruct (picsetmask_ok irqmask0 s1) as [Hok ->]; [vm_compute; by split|].
    split; [exact Hok|]. intros i Hi. rewrite orb_false_r. unfold irqmask0.
    rewrite Z.land_spec, Z.lnot_spec by lia. change 0xFFFF with (Z.ones 16). rewrite Z.ones_spec_low by lia.
    change (Z.shiftl 1 IRQ_SLAVE) with (2 ^ 2). rewrite Z.pow2_bits_eqb by lia. by rewrite Z.eqb_sym.
  - apply Forall_app in Hl as [Hl Hr]. apply Forall_cons in Hr as [Hr _]. destruct (IH Hl) as [Hok Hbits].
    rewrite foldl_app. cbn [foldl]. set (s1 := foldl (enable_irq ismp) _ l) in *. unfold enable_irq, pic_ok. cbn [fst snd] in *.
    destruct (ioapicenable_outs ismp irq cpu (picenable irq s1)) as [-> ->].
    destruct (picenable_ok irq s1 Hok Hr) as [Hok' Hb']. split; [exact Hok'|]. intros i Hi. rewrite Hb', Hbits, existsb_app by done.
    simpl. rewrite orb_false_r, (Z.eqb_sym irq). by destruct (i =? IRQ_SLAVE), (existsb _ l), (i =? irq).
Qed.

Lemma maxintr_range s : 0 <= maxintr s < 256.
Proof. unfold maxintr. change 0xFF with (Z.ones 8). rewrite Z.land_ones by lia. apply Z.mod_pos_bound. lia. Qed.
Lemma ioapicinit_entry s i :
  0 <= i <= maxintr s -> io_entry (ioapicinit true (picinit s)) i = (INT_DISABLED + (T_IRQ0 + i), 0).
Proof.
  intros Hi. assert (maxintr (picinit s) = maxintr s) as E by (unfold maxintr; by rewrite picinit_regs).
  revert E. generalize (picinit s). intros s1 E. pose proof (maxintr_range s) as Hmax.
  unfold ioapicinit. cbn [negb ioapicread fst snd io_regs io_reg set_io_reg]. fold (maxintr s1).
  rewrite E, ioapic_clear_entry by lia. case_cmp; first [done|lia].
Qed.
Lemma io_routing s l i :
  Forall (fun r => 0 <= r.1 < 16) l -> 0 <= i <= maxintr s ->
  io_entry (foldl (enable_irq true) (ioapicinit true (picinit s)) l) i =
    match route l i with
    | Some cpu => (T_IRQ0 + i, u32 (Z.shiftl cpu 24))
    | None => (INT_DISABLED + (T_IRQ0 + i), 0)
    end.
Proof.
  intros Hl Hi. induction l as [|[irq cpu] l IH] using rev_ind; [by apply ioapicinit_entry|].
  apply Forall_app in Hl as [Hl Hr]. apply Forall_cons in Hr as [Hr _]. unfold route. rewrite !foldl_app. cbn [foldl fst snd] in *.
  set (s1 := foldl (enable_irq true) _ l) in *. unfold enable_irq. cbn [fst snd]. rewrite ioapicenable_entry, (Z.eqb_sym irq).
  destruct (Z.eqb_spec i irq) as [->|Hne]; [by rewrite u32_small by (unfold T_IRQ0; lia)|].
  unfold io_entry. rewrite picenable_regs. by apply IH.
Qed.

(** C33: after the two controllers are initialised and the drivers have asked
    for their interrupts, the 8259As pass exactly those and the line of the
    slave; on a multiprocessor the I/O APIC sends each of them, with its own
    vector, to the processor it was last asked for, and all others are
    disabled. *)
Theorem irq_routing (ismp : bool) (s : irqs) (l : list (Z * Z)) :
  irqmask s = irqmask0 -> Forall (fun r => 0 <= r.1 < 16) l ->
  let s' := foldl (enable_irq ismp) (ioapicinit ismp (picinit s)) l in
  (forall i, 0 <= i < 16 ->
     Z.testbit (pic_mask (outs s')) i = negb ((i =? IRQ_SLAVE) || existsb (fun r => r.1 =? i) l)) /\
  (ismp = true -> forall i, 0 <= i <= maxintr s ->
     io_entry s' i = match route l i with
                     | Some cpu => (T_IRQ0 + i, u32 (Z.shiftl cpu 24))
                     | None => (INT_DISABLED + (T_IRQ0 + i), 0)
                     end).
Proof.
  intros Hm Hl. cbv zeta. destruct (pic_routing ismp s l Hm Hl) as [[_ Hp] Hb]. split.
  - intros i Hi. rewrite Hp. by apply Hb.
  - intros -> i Hi. by apply io_routing.
Qed.

Lemma irq_routing_witness :
  let s := Irqs irqmask0 [] 0 (fun _ => Z.shiftl 23 16) in
  let s' := foldl (enable_irq true) (ioapicinit true (picinit s)) [(1, 0); (4, 0); (14, 1)] in
  Z.testbit (pic_mask (outs s')) 14 = false /\ Z.testbit (pic_mask (outs s')) 3 = true /\
  io_entry s' 14 = (46, Z.shiftl 1 24) /\ io_entry s' 5 = (INT_DISABLED + 37, 0).
Proof.
  intros s s'. destruct (irq_routing true s [(1, 0); (4, 0); (14, 1)]) as [Hp Hi]; [reflexivity|repeat constructor; simpl; lia|].
  split; [apply (Hp 14); lia|]. split; [apply (Hp 3); lia|].
  split; [apply (Hi eq_refl 14); vm_compute; split; discriminate|apply (Hi eq_refl 5); vm_compute; split; discriminate].
Defined.

(** The timer is set to fire 100 times a second: the divisor is the nearest
    to a hundredth of its frequency, and fits its 16 bits. *)
Lemma timerinit_rate s :
  outs (timerinit s) = outs s ++ [(TIMER_MODE, 0x34); (IO_TIMER1, TIMER_DIV 100 mod 256); (IO_TIMER1, TIMER_DIV 100 / 256)] ++
    skipn (length (outs s) + 3) (outs (timerinit s)) /\
  2 * Z.abs (100 * TIMER_DIV 100 - TIMER_FREQ) <= 100 /\ 0 <= TIMER_DIV 100 < 2 ^ 16.
Proof.
  split; [|vm_compute; repeat split; discriminate]. unfold timerinit, picenable, picsetmask. cbn [outs outb set_irqmask].
  rewrite <- !app_assoc. cbn [app]. f_equal. rewrite skipn_app, skipn_all2 by lia.
  replace (length (outs s) + 3 - length (outs s))%nat with 3%nat by lia. done.
Qed.
