(* ===== verification/Mp.v ===== *)
(** Mp: mp.c, the search of the MP tables of the BIOS and what the kernel
    learns from them.

    The physical memory is a function from addresses to bytes; the tables are
    read where they lie.  A write beyond [cpus] is a fault.  Messages are left
    out. *)

From S2P Require Import Prelude StringLib Words.

Definition NCPU : Z := 8.

Record mpstate := Mpstate {
  ismp : Z;
  ncpu : Z;
  lapic : Z;
  ioapicid : Z;
  bcpu : Z;                (** the index [bcpu - cpus] *)
  cpu_id : list Z;         (** [cpus[i].id] *)
  mp_outs : list (Z * Z)
}.
Definition set_ismp (v : Z) (s : mpstate) := Mpstate v (ncpu s) (lapic s) (ioapicid s) (bcpu s) (cpu_id s) (mp_outs s).
Definition set_ncpu (v : Z) (s : mpstate) := Mpstate (ismp s) v (lapic s) (ioapicid s) (bcpu s) (cpu_id s) (mp_outs s).
Definition set_lapic (v : Z) (s : mpstate) := Mpstate (ismp s) (ncpu s) v (ioapicid s) (bcpu s) (cpu_id s) (mp_outs s).
Definition set_ioapicid (v : Z) (s : mpstate) := Mpstate (ismp s) (ncpu s) (lapic s) v (bcpu s) (cpu_id s) (mp_outs s).
Definition set_bcpu (v : Z) (s : mpstate) := Mpstate (ismp s) (ncpu s) (lapic s) (ioapicid s) v (cpu_id s) (mp_outs s).
Definition set_cpu_id (v : list Z) (s : mpstate) := Mpstate (ismp s) (ncpu s) (lapic s) (ioapicid s) (bcpu s) v (mp_outs s).
Definition mp_outb (port v : Z) (s : mpstate) :=
  Mpstate (ismp s) (ncpu s) (lapic s) (ioapicid s) (bcpu s) (cpu_id s) (mp_outs s ++ [(port, u8 v)]).

Definition mpbcpu : M mpstate Z := gets bcpu.

(** Sizes of the structures of mp.h, and the offsets of the fields read *)
Definition sizeof_mp : Z := 16.
Definition sizeof_mpconf : Z := 44.
Definition sizeof_mpproc : Z := 20.
Definition sizeof_mpioapic : Z := 8.
Definition MPPROC : Z := 0x00.
Definition MPBUS : Z := 0x01.
Definition MPIOAPIC : Z := 0x02.
Definition MPIOINTR : Z := 0x03.
Definition MPLINTR : Z := 0x04.
Definition MPBOOT : Z := 0x02.

Section Mp.
(** The memory, and what [inb(0x23)] returns. *)
Context (mem : Z -> Z) (imcr : Z).

Definition mp_physaddr (mp : Z) : Z := ld32 mem (mp + 4).
Definition mp_imcrp (mp : Z) : Z := mem (mp + 12).
Definition conf_length (conf : Z) : Z := mem (conf + 4) + 256 * mem (conf + 5).
Definition conf_version (conf : Z) : Z := mem (conf + 6).
Definition conf_lapicaddr (conf : Z) : Z := ld32 mem (conf + 36).

Fixpoint sum_loop (n : nat) (addr sum : Z) : Z :=
  match n with
  | O => sum
  | S n => sum_loop n (addr + 1) (i32 (sum + mem addr))
  end.
Definition sum (addr len : Z) : Z := u8 (sum_loop (Z.to_nat len) addr 0).

(** ["_MP_"] and ["PCMP"] *)
Definition mp_sig : list Z := [95; 77; 80; 95].
Definition conf_sig : list Z := [80; 67; 77; 80].
Definition has_sig (p : Z) (sig : list Z) : bool := memcmp (from mem p) (of_list sig) 4 =? 0.

(** The addresses are tried in steps of the size of the structure; [None] is
    the null pointer. *)
Fixpoint mpsearch1_loop (n : nat) (p e : Z) : option Z :=
  if negb (p <? e) then None else
  if has_sig p mp_sig && (sum p sizeof_mp =? 0) then Some p else
  match n with O => None | S n => mpsearch1_loop n (p + sizeof_mp) e end.
Definition mpsearch1 (a len : Z) : option Z := mpsearch1_loop (Z.to_nat len) a (a + len).

Definition mpsearch : option Z :=
  let p := u32 (Z.shiftl (Z.lor (Z.shiftl (mem 0x40F) 8) (mem 0x40E)) 4) in
  let mp :=
    if negb (p =? 0) then mpsearch1 p 1024
    else mpsearch1 (u32 (Z.lor (Z.shiftl (mem 0x414) 8) (mem 0x413) * 1024 - 1024)) 1024 in
  match mp with Some mp => Some mp | None => mpsearch1 0xF0000 0x10000 end.

(** The floating pointer and the table. *)
Definition mpconfig : option (Z * Z) :=
  match mpsearch with
  | None => None
  | Some mp =>
      if mp_physaddr mp =? 0 then None else
      let conf := mp_physaddr mp in
      if negb (has_sig conf conf_sig) then None else
      if negb (conf_version conf =? 1) && negb (conf_version conf =? 4) then None else
      if negb (sum conf (conf_length conf) =? 0) then None else
      Some (mp, conf)
  end.

(** The loop over the entries of the table.  The [default] case leaves [p]
    where it is. *)
Fixpoint mpinit_loop (fuel : nat) (p e : Z) : M mpstate unit :=
  if negb (p <? e) then ret tt else
  match fuel with
  | O => exhausted
  | S fuel =>
      if mem p =? MPPROC then
        let! n := gets ncpu in
        (if negb (n =? mem (p + 1)) then modify (set_ismp 0) else ret tt) ;;;
        (if negb (Z.land (mem (p + 3)) MPBOOT =? 0) then modify (set_bcpu n) else ret tt) ;;;
        (if NCPU <=? n then fault "cpus" else modify (fun s => set_cpu_id (<[Z.to_nat n := u8 n]> (cpu_id s)) s)) ;;;
        modify (set_ncpu (n + 1)) ;;;
        mpinit_loop fuel (p + sizeof_mpproc) e
      else if mem p =? MPIOAPIC then
        modify (set_ioapicid (mem (p + 1))) ;;;
        mpinit_loop fuel (p + sizeof_mpioapic) e
      else if (mem p =? MPBUS) || (mem p =? MPIOINTR) || (mem p =? MPLINTR) then
        mpinit_loop fuel (p + 8) e
      else
        modify (set_ismp 0) ;;;
        mpinit_loop fuel p e
  end.

Definition mpinit (fuel : nat) : M mpstate unit :=
  modify (set_bcpu 0) ;;;
  match mpconfig with
  | None => ret tt
  | Some (mp, conf) =>
      modify (set_ismp 1) ;;;
      modify (set_lapic (conf_lapicaddr conf)) ;;;
      mpinit_loop fuel (conf + sizeof_mpconf) (conf + conf_length conf) ;;;
      let! i := gets ismp in
      if i =? 0 then
        modify (set_ncpu 1) ;;;
        modify (set_lapic 0) ;;;
        modify (set_ioapicid 0)
      else if negb (mp_imcrp mp =? 0) then
        modify (mp_outb 0x22 0x70) ;;;
        modify (mp_outb 0x23 (Z.lor imcr 1))
      else ret tt
  end.
End Mp.

(** ** What the table says *)

Inductive mpentry :=
| EProc (apicid flags : Z)
| EIoapic (apicno : Z)
| EOther (type : Z).

Definition entry_size (x : mpentry) : Z := match x with EProc _ _ => 20 | _ => 8 end.
Definition entry_at (mem : Z -> Z) (p : Z) (x : mpentry) : Prop :=
  match x with
  | EProc apicid flags => mem p = MPPROC /\ mem (p + 1) = apicid /\ mem (p + 3) = flags
  | EIoapic apicno => mem p = MPIOAPIC /\ mem (p + 1) = apicno
  | EOther type => mem p = type /\ (type = MPBUS \/ type = MPIOINTR \/ type = MPLINTR)
  end.
(** The entries of [l] fill the memory from [p] to [e]. *)
Fixpoint table (mem : Z -> Z) (p : Z) (l : list mpentry) (e : Z) : Prop :=
  match l with
  | [] => p = e
  | x :: l => entry_at mem p x /\ table mem (p + entry_size x) l e
  end.

(** The processors of the table in order, the last I/O APIC, and the last
    processor marked as the one that boots. *)
Fixpoint apicids (l : list mpentry) : list Z :=
  match l with
  | [] => []
  | EProc id _ :: l => id :: apicids l
  | _ :: l => apicids l
  end.
Fixpoint last_ioapic (v : Z) (l : list mpentry) : Z :=
  match l with
  | [] => v
  | EIoapic id :: l => last_ioapic id l
  | _ :: l => last_ioapic v l
  end.
Fixpoint boot_cpu (n b : Z) (l : list mpentry) : Z :=
  match l with
  | [] => b
  | EProc _ fl :: l => boot_cpu (n + 1) (if Z.land fl MPBOOT =? 0 then b else n) l
  | _ :: l => boot_cpu n b l
  end.
(** The identifiers are the numbers from [n] on, in order. *)
Fixpoint in_order (n : Z) (ids : list Z) : bool :=
  match ids with
  | [] => true
  | id :: ids => (id =? n) && in_order (n + 1) ids
  end.

Lemma in_order_seqZ n ids : in_order n ids = true <-> ids = seqZ n (Z.of_nat (length ids)).
Proof.
  revert n. induction ids as [|x ids IH]; intros n; [done|]. cbn [in_order length].
  rewrite seqZ_cons by lia. rewrite andb_true_iff, Z.eqb_eq, IH.
  replace (Z.pred (Z.of_nat (S (length ids)))) with (Z.of_nat (length ids)) by lia. replace (Z.succ n) with (n + 1) by lia.
  split; [intros [-> E]; by f_equal|]. intros [= ? ?]. done.
Qed.

(** What the loop leaves of a state. *)
Definition learned (s : mpstate) (l : list mpentry) (s' : mpstate) : Prop :=
  ismp s' = (if in_order (ncpu s) (apicids l) then ismp s else 0) /\
  ncpu s' = ncpu s + Z.of_nat (length (apicids l)) /\
  lapic s' = lapic s /\ ioapicid s' = last_ioapic (ioapicid s) l /\ bcpu s' = boot_cpu (ncpu s) (bcpu s) l /\
  mp_outs s' = mp_outs s /\
  (forall i : nat, cpu_id s' !! i = if (ncpu s <=? Z.of_nat i) && (Z.of_nat i <? ncpu s') then Some (Z.of_nat i) else cpu_id s !! i).

Definition learn_entry (s : mpstate) (x : mpentry) : mpstate :=
  match x with
  | EProc id fl =>
      let n := ncpu s in
      Mpstate (if n =? id then ismp s else 0) (n + 1) (lapic s) (ioapicid s) (if Z.land fl MPBOOT =? 0 then bcpu s else n)
        (<[Z.to_nat n := u8 n]> (cpu_id s)) (mp_outs s)
  | EIoapic id => set_ioapicid id s
  | EOther _ => s
  end.

Lemma table_le mem p l e : table mem p l e -> p <= e.
Proof. revert p. induction l as [|x l IH]; intros p; simpl; [lia|]. intros [_ H]. apply IH in H. destruct x; simpl in H; lia. Qed.

Lemma mpinit_entry mem x p e s fuel :
  entry_at mem p x -> p < e -> (match x with EProc _ _ => ncpu s < NCPU | _ => True end) ->
  mpinit_loop mem (S fuel) p e s = mpinit_loop mem fuel (p + entry_size x) e (learn_entry s x).
Proof.
  intros Hx Hp Hn. cbn [mpinit_loop]. rewrite (proj2 (Z.ltb_lt p e)) by done. cbn [negb].
  destruct x as [id fl|id|ty]; cbn [entry_at entry_size] in Hx |- *.
  - destruct Hx as (-> & -> & ->). rewrite Z.eqb_refl, bind_gets, (proj2 (Z.leb_gt _ _)) by done.
    unfold learn_entry. by destruct (ncpu s =? id), (Z.land fl MPBOOT =? 0).
  - destruct Hx as (-> & ->). done.
  - destruct Hx as (-> & [->|[->| ->]]); done.
Qed.

Lemma learned_step s x l s' :
  length (cpu_id s) = 8%nat -> 0 <= ncpu s -> (match x with EProc _ _ => ncpu s < NCPU | _ => True end) ->
  learned (learn_entry s x) l s' -> learned s (x :: l) s'.
Proof.
  intros Hc H0 Hn (H1 & H2 & H3 & H4 & H5 & H6 & H7). unfold NCPU in Hn. destruct x as [id fl|id|ty]; cbn in *.
  - unfold learned. cbn [apicids in_order length last_ioapic boot_cpu].
    split; [rewrite H1, (Z.eqb_sym id); by destruct (ncpu s =? id), (in_order _ _)|].
    split; [lia|]. do 4 (split; [done|]). intros i. rewrite H7.
    destruct (Z.eqb_spec (Z.of_nat i) (ncpu s)) as [E|Hne].
    + rewrite <- E, Nat2Z.id, list_lookup_insert_eq by lia. rewrite u8_small by lia. case_cmp; first [done|lia].
    + rewrite list_lookup_insert_ne by lia. case_cmp; first [done|lia].
  - done.
  - done.
Qed.

Lemma mpinit_loop_run mem l p e s fuel :
  table mem p l e -> (length l <= fuel)%nat -> length (cpu_id s) = 8%nat -> 0 <= ncpu s ->
  ncpu s + Z.of_nat (length (apicids l)) <= NCPU ->
  exists s', mpinit_loop mem fuel p e s = Done tt s' /\ learned s l s'.
Proof.
  revert p s fuel. induction l as [|x l IH]; intros p s fuel Ht Hf Hc Hn Hm.
  - simpl in Ht. subst e. exists s. split; [destruct fuel; cbn [mpinit_loop]; by rewrite Z.ltb_irrefl|].
    repeat split; simpl; try lia. intros i. case_cmp; first [done|lia].
  - destruct fuel as [|fuel]; [simpl in Hf; lia|].
    assert (match x with EProc _ _ => ncpu s < NCPU | _ => True end) as Hx by (destruct x; simpl in Hm; [lia|done|done]).
    destruct Ht as [Hat Ht]. pose proof (table_le _ _ _ _ Ht) as Hle.
    rewrite (mpinit_entry _ _ _ _ _ _ Hat) by (done || destruct x; simpl in Hle; lia).
    destruct (IH (p + entry_size x) (learn_entry s x) fuel) as (s' & R & HL); [done|simpl in Hf; lia| | | |].
    + destruct x; cbn; [by rewrite length_insert|done|done].
    + destruct x; cbn; lia.
    + destruct x; cbn in *; lia.
    + exists s'. split; [exact R|]. by apply learned_step.
Qed.

(** An entry of a type the switch does not know is never left. *)
Lemma mpinit_loop_stuck mem p e s fuel :
  p < e -> 4 < mem p -> mpinit_loop mem fuel p e s = Exhausted.
Proof.
  intros Hp Hm. revert s. induction fuel as [|fuel IH]; intros s; cbn [mpinit_loop]; rewrite (proj2 (Z.ltb_lt _ _)) by done; [done|].
  cbn [negb]. unfold MPPROC, MPIOAPIC, MPBUS, MPIOINTR, MPLINTR. rewrite !(proj2 (Z.eqb_neq _ _)) by lia. cbn [orb].
  rewrite bind_modify. apply IH.
Qed.
Lemma mpinit_loop_unknown mem l p q e s fuel :
  table mem p l q -> q < e -> 4 < mem q -> ncpu s + Z.of_nat (length (apicids l)) <= NCPU ->
  mpinit_loop mem fuel p e s = Exhausted.
Proof.
  intros Ht Hq Hm. revert p s fuel Ht. induction l as [|x l IH]; intros p s fuel Ht Hn.
  - simpl in Ht. subst q. by apply mpinit_loop_stuck.
  - assert (match x with EProc _ _ => ncpu s < NCPU | _ => True end) as Hx by (destruct x; simpl in Hn; [lia|done|done]).
    pose proof (table_le _ _ _ _ Ht) as Hle. destruct fuel as [|fuel].
    + cbn [mpinit_loop]. by rewrite (proj2 (Z.ltb_lt _ _)) by lia.
    + destruct Ht as [Hat Ht]. rewrite (mpinit_entry _ _ _ _ _ _ Hat) by (done || lia).
      apply IH; [done|]. destruct x; cbn in *; lia.
Qed.

(** *** The search *)

(** The floating pointer found is the first valid one of the area. *)
Definition mp_valid (mem : Z -> Z) (p : Z) : bool := has_sig mem p mp_sig && (sum mem p sizeof_mp =? 0).
Lemma mpsearch1_first mem a len :
  0 <= len ->
  match mpsearch1 mem a len with
  | Some p => exists k, 0 <= k /\ p = a + 16 * k /\ p < a + len /\ mp_valid mem p = true /\
      forall j, 0 <= j < k -> mp_valid mem (a + 16 * j) = false
  | None => forall j, 0 <= j -> a + 16 * j < a + len -> mp_valid mem (a + 16 * j) = false
  end.
Proof.
  intros Hl. unfold mpsearch1. set (n := Z.to_nat len). set (e := a + len).
  assert (e <= a + 16 * Z.of_nat n) as Hn by lia. clearbody n e. clear Hl len. revert a Hn.
  induction n as [|n IH]; intros a Hn; cbn [mpsearch1_loop]; destruct (Z.ltb_spec a e) as [Hlt|Hge]; cbn [negb]; try lia.
  change sizeof_mp with 16. change (has_sig mem a mp_sig && (sum mem a 16 =? 0)) with (mp_valid mem a).
  destruct (mp_valid mem a) eqn:Ev.
  { exists 0. split; [lia|]. split; [lia|]. split; [done|]. split; [done|]. intros j Hj. lia. }
  specialize (IH (a + 16) ltac:(lia)). destruct (mpsearch1_loop mem n (a + 16) e) as [p|].
  - destruct IH as (k & H0 & -> & H1 & H2 & H3). exists (k + 1). split; [lia|]. split; [lia|]. split; [lia|]. split; [done|].
    intros j Hj. destruct (decide (j = 0)) as [->|Hne]; [by rewrite Z.mul_0_r, Z.add_0_r|].
    specialize (H3 (j - 1) ltac:(lia)). by replace (a + 16 * j) with (a + 16 + 16 * (j - 1)) by lia.
  - intros j Hj He. destruct (decide (j = 0)) as [->|Hne]; [by rewrite Z.mul_0_r, Z.add_0_r|].
    specialize (IH (j - 1) ltac:(lia) ltac:(lia)). by replace (a + 16 * j) with (a + 16 + 16 * (j - 1)) by lia.
Qed.

Definition mp_start : mpstate := Mpstate 0 0 0 0 0 (replicate 8 0) [].


Definition demo_bios : Z -> Z :=
  store 0xF0000 [95; 77; 80; 95; 0; 16; 0; 0; 1; 4; 144; 0; 0; 0; 0; 0]
    (store 0x1000 ([80; 67; 77; 80; 84; 0; 4; 149] ++ replicate 28 0 ++ [0; 0; 224; 254] ++ replicate 4 0 ++
       [0; 0; 0; 3] ++ replicate 16 0 ++ [0; 1; 0; 1] ++ replicate 16 0) (fun _ => 0)).
