(* ===== verification/Lapic.v ===== *)
(** Lapic: lapic.c, the local APIC, the start of the other processors and the
    clock of the CMOS.

    The state is the sequence of writes to the APIC, to the ports and to the
    warm reset vector, and the numbers of readings made of the APIC and of the
    CMOS; what a register shows at its n-th reading is a parameter. *)

From S2P Require Import Prelude Irq.

Inductive event :=
| Lapic_write (index value : Z)
| Port_write (port value : Z)
| Wrv_write (i value : Z).

Record lap := Lap { events : list event; lreads : nat; creads : nat }.
Definition emit (x : event) : M lap unit := modify (fun s => Lap (events s ++ [x]) (lreads s) (creads s)).

Definition ID : Z := 0x0020 / 4.
Definition VER : Z := 0x0030 / 4.
Definition TPR : Z := 0x0080 / 4.
Definition EOI : Z := 0x00B0 / 4.
Definition SVR : Z := 0x00F0 / 4.
Definition ENABLE : Z := 0x00000100.
Definition ESR : Z := 0x0280 / 4.
Definition ICRLO : Z := 0x0300 / 4.
Definition INIT : Z := 0x00000500.
Definition STARTUP : Z := 0x00000600.
Definition DELIVS : Z := 0x00001000.
Definition ASSERT : Z := 0x00004000.
Definition LEVEL : Z := 0x00008000.
Definition BCAST : Z := 0x00080000.
Definition ICRHI : Z := 0x0310 / 4.
Definition TIMER : Z := 0x0320 / 4.
Definition X1 : Z := 0x0000000B.
Definition PERIODIC : Z := 0x00020000.
Definition PCINT : Z := 0x0340 / 4.
Definition LINT0 : Z := 0x0350 / 4.
Definition LINT1 : Z := 0x0360 / 4.
Definition ERROR : Z := 0x0370 / 4.
Definition MASKED : Z := 0x00010000.
Definition TICR : Z := 0x0380 / 4.
Definition TDCR : Z := 0x03E0 / 4.
Definition IRQ_ERROR : Z := 19.
Definition IRQ_SPURIOUS : Z := 31.

Definition CMOS_PORT : Z := 0x70.
Definition CMOS_RETURN : Z := 0x71.
Definition CMOS_STATA : Z := 0x0a.
Definition CMOS_STATB : Z := 0x0b.
Definition CMOS_UIP : Z := Z.shiftl 1 7.
Definition SECS : Z := 0x00.
Definition MINS : Z := 0x02.
Definition HOURS : Z := 0x04.
Definition DAY : Z := 0x07.
Definition MONTH : Z := 0x08.
Definition YEAR : Z := 0x09.

Record rtcdate := Rtcdate { second : Z; minute : Z; hour : Z; day : Z; month : Z; year : Z }.
#[global] Instance rtcdate_eq_dec : EqDecision rtcdate.
Proof. solve_decision. Defined.

Section Lapic.
(** [lapic]: the APIC was found.  The registers of the APIC and of the CMOS by
    the number of the reading. *)
Context (lapic : bool) (lapic_reg : nat -> Z -> Z) (cmos : nat -> Z -> Z).

(** [lapic[index]] *)
Definition lapicr (index : Z) : M lap Z :=
  let! n := gets lreads in
  modify (fun s => Lap (events s) (S n) (creads s)) ;;;
  ret (u32 (lapic_reg n index)).
Definition lapicw (index value : Z) : M lap unit :=
  emit (Lapic_write index (u32 value)) ;;;
  let! _x := lapicr ID in
  ret tt.

(** [while(lapic[ICRLO] & DELIVS)] *)
Fixpoint wait_delivered (fuel : nat) : M lap unit :=
  match fuel with
  | O => exhausted
  | S fuel =>
      let! v := lapicr ICRLO in
      if negb (Z.land v DELIVS =? 0) then wait_delivered fuel else ret tt
  end.

Definition lapicinit (fuel : nat) : M lap unit :=
  if negb lapic then ret tt else
  lapicw SVR (Z.lor ENABLE (T_IRQ0 + IRQ_SPURIOUS)) ;;;
  lapicw TDCR X1 ;;;
  lapicw TIMER (Z.lor PERIODIC (T_IRQ0 + IRQ_TIMER)) ;;;
  lapicw TICR 10000000 ;;;
  lapicw LINT0 MASKED ;;;
  lapicw LINT1 MASKED ;;;
  let! v := lapicr VER in
  (if 4 <=? Z.land (Z.shiftr v 16) 0xFF then lapicw PCINT MASKED else ret tt) ;;;
  lapicw ERROR (T_IRQ0 + IRQ_ERROR) ;;;
  lapicw ESR 0 ;;;
  lapicw ESR 0 ;;;
  lapicw EOI 0 ;;;
  lapicw ICRHI 0 ;;;
  lapicw ICRLO (Z.lor (Z.lor BCAST INIT) LEVEL) ;;;
  wait_delivered fuel ;;;
  lapicw TPR 0.

(** With interrupts on, [cpunum] prints a message the first time. *)
Definition cpunum : M lap Z :=
  if lapic then let! v := lapicr ID in ret (Z.shiftr v 24) else ret 0.

Definition lapiceoi : M lap unit := if lapic then lapicw EOI 0 else ret tt.

Definition microdelay (us : Z) : M lap unit := ret tt.

Definition startup_ipi (apicid addr : Z) : M lap unit :=
  lapicw ICRHI (Z.shiftl apicid 24) ;;;
  lapicw ICRLO (Z.lor STARTUP (Z.shiftr addr 12)) ;;;
  microdelay 200.
Definition lapicstartap (apicid addr : Z) : M lap unit :=
  emit (Port_write CMOS_PORT 0xF) ;;;
  emit (Port_write (CMOS_PORT + 1) 0x0A) ;;;
  emit (Wrv_write 0 0) ;;;
  emit (Wrv_write 1 (u16 (Z.shiftr addr 4))) ;;;
  lapicw ICRHI (Z.shiftl apicid 24) ;;;
  lapicw ICRLO (Z.lor (Z.lor INIT LEVEL) ASSERT) ;;;
  microdelay 200 ;;;
  lapicw ICRLO (Z.lor INIT LEVEL) ;;;
  microdelay 100 ;;;
  startup_ipi apicid addr ;;;
  startup_ipi apicid addr.

(** ** The clock *)

Definition cmos_read (reg : Z) : M lap Z :=
  emit (Port_write CMOS_PORT (u8 reg)) ;;;
  microdelay 200 ;;;
  let! n := gets creads in
  modify (fun s => Lap (events s) (lreads s) (S n)) ;;;
  ret (u8 (cmos n reg)).

Definition fill_rtcdate : M lap rtcdate :=
  let! s := cmos_read SECS in
  let! m := cmos_read MINS in
  let! h := cmos_read HOURS in
  let! d := cmos_read DAY in
  let! mo := cmos_read MONTH in
  let! y := cmos_read YEAR in
  ret (Rtcdate s m h d mo y).

(** The [for (;;)] loop: the date read twice alike. *)
Fixpoint read_stable (fuel : nat) : M lap rtcdate :=
  match fuel with
  | O => exhausted
  | S fuel =>
      let! t1 := fill_rtcdate in
      let! a := cmos_read CMOS_STATA in
      if negb (Z.land a CMOS_UIP =? 0) then read_stable fuel else
      let! t2 := fill_rtcdate in
      if bool_decide (t1 = t2) then ret t1 else read_stable fuel
  end.

Definition CONV (x : Z) : Z := u32 (Z.shiftr x 4 * 10 + Z.land x 0xf).
Definition conv_date (t : rtcdate) : rtcdate :=
  Rtcdate (CONV (second t)) (CONV (minute t)) (CONV (hour t)) (CONV (day t)) (CONV (month t)) (CONV (year t)).

Definition cmostime (fuel : nat) : M lap rtcdate :=
  let! sb := cmos_read CMOS_STATB in
  let bcd := Z.land sb (Z.shiftl 1 2) =? 0 in
  let! t1 := read_stable fuel in
  let t1 := if bcd then conv_date t1 else t1 in
  ret (Rtcdate (second t1) (minute t1) (hour t1) (day t1) (month t1) (u32 (year t1 + 2000))).
End Lapic.

(** ** The date is one the clock showed twice *)

Section Clock.
Context (cmos : nat -> Z -> Z).

(** The six registers as read from the n-th reading on *)
Definition date_at (n : nat) : rtcdate :=
  Rtcdate (u8 (cmos n SECS)) (u8 (cmos (n + 1) MINS)) (u8 (cmos (n + 2) HOURS)) (u8 (cmos (n + 3) DAY))
    (u8 (cmos (n + 4) MONTH)) (u8 (cmos (n + 5) YEAR)).
Definition updating (n : nat) : bool := negb (Z.land (u8 (cmos n CMOS_STATA)) CMOS_UIP =? 0).

Lemma cmos_read_run reg s :
  exists s', cmos_read cmos reg s = Done (u8 (cmos (creads s) reg)) s' /\ creads s' = S (creads s).
Proof. by eexists. Qed.
Lemma fill_run s :
  exists s', fill_rtcdate cmos s = Done (date_at (creads s)) s' /\ creads s' = (creads s + 6)%nat.
Proof.
  unfold fill_rtcdate, date_at.
  destruct (cmos_read_run SECS s) as (s1 & R1 & E1). rewrite (bind_Done _ _ _ _ _ R1).
  destruct (cmos_read_run MINS s1) as (s2 & R2 & E2). rewrite (bind_Done _ _ _ _ _ R2).
  destruct (cmos_read_run HOURS s2) as (s3 & R3 & E3). rewrite (bind_Done _ _ _ _ _ R3).
  destruct (cmos_read_run DAY s3) as (s4 & R4 & E4). rewrite (bind_Done _ _ _ _ _ R4).
  destruct (cmos_read_run MONTH s4) as (s5 & R5 & E5). rewrite (bind_Done _ _ _ _ _ R5).
  destruct (cmos_read_run YEAR s5) as (s6 & R6 & E6). rewrite (bind_Done _ _ _ _ _ R6).
  exists s6. split; [|lia]. unfold ret. do 2 f_equal; do 2 f_equal; lia.
Qed.

(** From the N-th reading on the clock stands still. *)
Definition settled (N : nat) : Prop :=
  forall n m, (N <= n)%nat -> (N <= m)%nat -> date_at n = date_at m /\ updating n = false.

Lemma read_stable_run N fuel s :
  settled N -> (N < creads s + fuel)%nat -> (0 < fuel)%nat ->
  exists n s', read_stable cmos fuel s = Done (date_at n) s' /\ (creads s <= n)%nat /\
    date_at (n + 7) = date_at n /\ updating (n + 6) = false.
Proof.
  intros HN. revert s. induction fuel as [|fuel IH]; intros s Hf H0; [lia|]. cbn [read_stable].
  destruct (fill_run s) as (s1 & R1 & E1). rewrite (bind_Done _ _ _ _ _ R1).
  destruct (cmos_read_run CMOS_STATA s1) as (s2 & R2 & E2). rewrite (bind_Done _ _ _ _ _ R2), E1.
  fold (updating (creads s + 6)). destruct (updating (creads s + 6)) eqn:Eu.
  - assert (creads s < N)%nat. { destruct (decide (N <= creads s)%nat); [|lia]. destruct (HN (creads s + 6)%nat (creads s)); [lia|lia|congruence]. }
    destruct (IH s2) as (n & s' & R & Hn & Hd); [lia|lia|]. exists n, s'. split; [exact R|]. split; [lia|exact Hd].
  - destruct (fill_run s2) as (s3 & R3 & E3). rewrite (bind_Done _ _ _ _ _ R3).
    replace (creads s2) with (creads s + 7)%nat in * by lia. case_bool_decide as Ed.
    + exists (creads s), s3. split; [done|]. split; [lia|]. by rewrite <- Ed.
    + assert (creads s < N)%nat. { destruct (decide (N <= creads s)%nat); [|lia]. destruct (HN (creads s) (creads s + 7)%nat); [lia|lia|congruence]. }
      destruct (IH s3) as (n & s' & R & Hn & Hd); [lia|lia|]. exists n, s'. split; [exact R|]. split; [lia|exact Hd].
Qed.
End Clock.

(** The code of a date in the registers: two decimal digits in a byte, or the
    number itself. *)
Definition code (bcd : bool) (x : Z) : Z := if bcd then 16 * (x / 10) + x mod 10 else x.
Definition code_date (bcd : bool) (t : rtcdate) : rtcdate :=
  Rtcdate (code bcd (second t)) (code bcd (minute t)) (code bcd (hour t)) (code bcd (day t)) (code bcd (month t)) (code bcd (year t)).
Definition two_digits (t : rtcdate) : Prop :=
  Forall (fun x => 0 <= x < 100) [second t; minute t; hour t; day t; month t; year t].

Lemma CONV_code x : 0 <= x < 100 -> CONV (code true x) = x.
Proof.
  intros H. unfold CONV, code. change 0xf with (Z.ones 4). rewrite Z.land_ones, Z.shiftr_div_pow2 by lia. change (2 ^ 4) with 16.
  pose proof (Z.div_mod x 10 ltac:(lia)). pose proof (Z.mod_pos_bound x 10 ltac:(lia)).
  replace (16 * (x / 10) + x mod 10) with (x mod 10 + x / 10 * 16) by lia. rewrite Z_div_plus, Z_mod_plus by lia.
  rewrite (Z.div_small (x mod 10)), (Z.mod_small (x mod 10)) by lia.
  rewrite u32_small by lia. lia.
Qed.

(** [cmostime] returns as soon as the clock stands still for two readings
    of its registers.  What it returns was read twice alike, with no update in
    progress between, and if the registers hold a date in the code the clock
    is set to, in decimal digits or in binary, it is that date. *)
Theorem cmostime_consistent (cmos : nat -> Z -> Z) (N fuel : nat) (s : lap) :
  settled cmos N -> (N < creads s + fuel)%nat -> (0 < fuel)%nat ->
  let bcd := Z.land (u8 (cmos (creads s) CMOS_STATB)) 4 =? 0 in
  exists n r s', cmostime cmos fuel s = Done r s' /\ (creads s < n)%nat /\
    date_at cmos (n + 7) = date_at cmos n /\ updating cmos (n + 6) = false /\
    forall t, two_digits t -> date_at cmos n = code_date bcd t ->
      r = Rtcdate (second t) (minute t) (hour t) (day t) (month t) (year t + 2000).
Proof.
  intros HN Hf H0 bcd. unfold cmostime. destruct (cmos_read_run cmos CMOS_STATB s) as (s1 & R1 & E1).
  rewrite (bind_Done _ _ _ _ _ R1). change (Z.shiftl 1 2) with 4. fold bcd.
  destruct (read_stable_run cmos N fuel s1 HN ltac:(lia) H0) as (n & s2 & R2 & Hn & Hd & Hu). rewrite (bind_Done _ _ _ _ _ R2).
  eexists n, _, s2. split; [reflexivity|]. split; [lia|]. split; [exact Hd|]. split; [exact Hu|].
  intros t Ht ->. unfold two_digits in Ht. rewrite !Forall_cons in Ht. destruct Ht as (? & ? & ? & ? & ? & ? & _).
  unfold code_date, conv_date. destruct bcd; cbn [second minute hour day month year].
  - rewrite !CONV_code by done. by rewrite u32_small by lia.
  - unfold code. by rewrite u32_small by lia.
Qed.

Definition demo_cmos (n : nat) (reg : Z) : Z :=
  if reg =? SECS then 0x59 else if reg =? MINS then 0x30 else if reg =? HOURS then 0x23 else if reg =? DAY then 0x31
  else if reg =? MONTH then 0x12 else if reg =? YEAR then 0x26 else if reg =? CMOS_STATA then (if (n <? 10)%nat then 0x80 else 0) else 0.
Lemma cmostime_consistent_witness :
  (exists r s', cmostime demo_cmos 12 (Lap [] 0 0) = Done r s') /\
  match cmostime demo_cmos 12 (Lap [] 0 0) with Done r _ => r = Rtcdate 59 30 23 31 12 2026 | _ => False end.
Proof.
  split; [|vm_compute; reflexivity].
  destruct (cmostime_consistent demo_cmos 10 12 (Lap [] 0 0)) as (n & r & s' & R & _); [|simpl; lia|lia|by exists r, s'].
  intros n m Hn Hm. split; [reflexivity|]. unfold updating, demo_cmos. cbn -[Nat.ltb]. by rewrite (proj2 (Nat.ltb_ge _ _)).
Defined.

(** *** The other processors *)

(** The writes of [lapicstartap]: the shutdown code and the warm reset vector,
    then INIT asserted and released, and the startup interrupt twice. *)
Lemma lapicstartap_events lreg apicid addr s :
  exists s', lapicstartap lreg apicid addr s = Done tt s' /\
    events s' = events s ++
      [Port_write 0x70 0xF; Port_write 0x71 0x0A; Wrv_write 0 0; Wrv_write 1 (u16 (Z.shiftr addr 4));
       Lapic_write ICRHI (u32 (Z.shiftl apicid 24)); Lapic_write ICRLO 0xC500; Lapic_write ICRLO 0x8500] ++
      concat (replicate 2 [Lapic_write ICRHI (u32 (Z.shiftl apicid 24)); Lapic_write ICRLO (u32 (Z.lor STARTUP (Z.shiftr addr 12)))]).
Proof.
  unfold lapicstartap, startup_ipi, lapicw, lapicr, emit, microdelay. cbn [bind obind modify gets ret events lreads creads].
  eexists. split; [reflexivity|]. cbn [events]. rewrite <- !app_assoc. done.
Qed.
