(* ===== verification/Boot.v ===== *)
(** Boot: bootmain.c, the boot loader.

    The state is the physical memory and the number of times the status port
    of the disk has been read.  The disk, a list of 512 bytes for each sector,
    and the status it shows at each reading are parameters. *)

From S2P Require Import Prelude StringLib Bytes Words IdeDisk Exec.

Record boot := Boot_ { bmem : Z -> Z; polls : nat }.
Definition set_bmem (m : Z -> Z) (b : boot) : boot := Boot_ m (polls b).
Definition set_polls (n : nat) (b : boot) : boot := Boot_ (bmem b) n.

Definition SECTSIZE : Z := 512.

Section Boot.
(** [fuel] bounds the readings of one wait. *)
Context (disk : Z -> list Z) (status : nat -> Z) (fuel : nat).

(** [inb(0x1F7)] *)
Definition inb_status : M boot Z :=
  let! n := gets polls in
  modify (set_polls (S n)) ;;;
  ret (status n).

Fixpoint waitdisk_loop (fuel : nat) : M boot unit :=
  match fuel with
  | O => exhausted
  | S fuel =>
      let! s := inb_status in
      if negb (Z.land s 0xC0 =? 0x40) then waitdisk_loop fuel else ret tt
  end.
Definition waitdisk : M boot unit := waitdisk_loop fuel.

(** The four address ports take 28 bits of [offset]; [insl] stores the sector
    they name. *)
Definition readsect (dst offset : Z) : M boot unit :=
  waitdisk ;;;
  waitdisk ;;;
  modify (fun b => set_bmem (store dst (disk (lba offset)) (bmem b)) b).

(** [for(; pa < epa; pa += SECTSIZE, offset++)] *)
Fixpoint readseg_loop (turns : nat) (pa epa offset : Z) : M boot unit :=
  if negb (pa <? epa) then ret tt else
  match turns with
  | O => exhausted
  | S turns =>
      readsect pa offset ;;;
      readseg_loop turns (u32 (pa + SECTSIZE)) epa (u32 (offset + 1))
  end.

Definition readseg (pa count offset : Z) : M boot unit :=
  let epa := u32 (pa + count) in
  let pa := u32 (pa - offset mod SECTSIZE) in
  let offset := u32 (offset / SECTSIZE + 1) in
  readseg_loop (Z.to_nat (count / SECTSIZE + 2)) pa epa offset.

(** The body of the loop over the program headers *)
Definition load_segment (ph : Z) : M boot unit :=
  let! pa := gets (fun b => ld32 (bmem b) (ph + 12)) in
  let! filesz := gets (fun b => ld32 (bmem b) (ph + 16)) in
  let! off := gets (fun b => ld32 (bmem b) (ph + 4)) in
  readseg pa filesz off ;;;
  let! memsz := gets (fun b => ld32 (bmem b) (ph + 20)) in
  let! filesz := gets (fun b => ld32 (bmem b) (ph + 16)) in
  if filesz <? memsz then
    modify (fun b => set_bmem (stosb (u32 (pa + filesz)) 0 (Z.to_nat (memsz - filesz)) (bmem b)) b)
  else ret tt.

Fixpoint load_all (n : nat) (ph eph : Z) : M boot unit :=
  if negb (ph <? eph) then ret tt else
  match n with
  | O => exhausted
  | S n => load_segment ph ;;; load_all n (u32 (ph + 32)) eph
  end.

(** The scratch space of the ELF header *)
Definition elf : Z := 0x10000.

(** [Some entry] is the call of the kernel; [None] the return to bootasm.S
    when the disk holds no ELF file. *)
Definition bootmain : M boot (option Z) :=
  readseg elf 4096 0 ;;;
  let! magic := gets (fun b => ld32 (bmem b) elf) in
  if negb (magic =? ELF_MAGIC) then ret None else
  let! phoff := gets (fun b => ld32 (bmem b) (elf + 28)) in
  let! phnum := gets (fun b => bmem b (elf + 44) + 256 * bmem b (elf + 45)) in
  let ph := u32 (elf + phoff) in
  load_all (Z.to_nat phnum) ph (u32 (ph + 32 * phnum)) ;;;
  let! entry := gets (fun b => ld32 (bmem b) (elf + 24)) in
  ret (Some entry).
End Boot.
