(* ===== verification/BootProof.v ===== *)
(** BootProof: the boot loader puts every segment of the kernel where its
    program header says. *)

From S2P Require Import Prelude StringLib Bytes Words IdeDisk Exec Boot.

Section Load.
Context (disk : Z -> list Z) (status : nat -> Z) (fuel : nat) (file : Z -> Z).
(** The disk gets ready within [fuel] readings of its status. *)
Context (Hready : forall t, exists d, (d < fuel)%nat /\ Z.land (status (t + d)%nat) 0xC0 = 0x40).
(** The file lies on the disk from sector 1 on. *)
Context (Hdisk : forall s, 1 <= s < 2 ^ 28 -> length (disk s) = 512%nat /\
  forall i, 0 <= i < 512 -> disk s !! Z.to_nat i = Some (file (512 * (s - 1) + i))).

Lemma wait_run n d b :
  (d < n)%nat -> Z.land (status (polls b + d)%nat) 0xC0 = 0x40 ->
  exists t, waitdisk_loop status n b = Done tt (set_polls t b).
Proof.
  revert n b. induction d as [|d IH]; intros n b Hd Hs; destruct n as [|n]; try lia.
  - exists (S (polls b)). cbn [waitdisk_loop inb_status bind obind gets modify ret]. rewrite Nat.add_0_r in Hs.
    by rewrite Hs, Z.eqb_refl.
  - cbn [waitdisk_loop inb_status bind obind gets modify ret].
    destruct (Z.land (status (polls b)) 0xC0 =? 0x40); [by eexists|]. cbn [negb].
    destruct (IH n (set_polls (S (polls b)) b)) as (t & ->); [lia|cbn; by rewrite <- Nat.add_succ_r|]. by exists t.
Qed.

Lemma readsect_run dst s b :
  1 <= s < 2 ^ 28 ->
  exists b', readsect disk status fuel dst s b = Done tt b' /\
    forall x, bmem b' x = if (dst <=? x) && (x <? dst + 512) then file (512 * (s - 1) + (x - dst)) else bmem b x.
Proof.
  intros Hs. unfold readsect, waitdisk. destruct (Hready (polls b)) as (d & Hd & E).
  destruct (wait_run fuel d b Hd E) as (t & R). rewrite (bind_Done _ _ _ _ _ R).
  destruct (Hready t) as (d' & Hd' & E'). destruct (wait_run fuel d' (set_polls t b) Hd' E') as (t' & R').
  rewrite (bind_Done _ _ _ _ _ R'). eexists. split; [reflexivity|]. intros x. cbn [bmem set_bmem set_polls].
  rewrite lba_small by lia. destruct (Hdisk s Hs) as [Hl Hb]. rewrite store_spec, Hl. change (Z.of_nat 512) with 512.
  case_cmp; try done. by rewrite Hb by lia.
Qed.

(** A range of memory holds the bytes of the file from [off] on, and nothing
    below [lo] has changed. *)
Definition holds_file (m : Z -> Z) (pa epa off : Z) : Prop := forall x, pa <= x < epa -> m x = file (off + (x - pa)).
Definition same_below (lo : Z) (m m' : Z -> Z) : Prop := forall x, x < lo -> m' x = m x.

Lemma readseg_loop_run n pa epa s b :
  0 <= pa -> epa + 512 <= 2 ^ 32 -> epa <= pa + 512 * Z.of_nat n -> 1 <= s -> s + Z.of_nat n < 2 ^ 28 ->
  exists b', readseg_loop disk status fuel n pa epa s b = Done tt b' /\
    holds_file (bmem b') pa epa (512 * (s - 1)) /\ same_below pa (bmem b) (bmem b').
Proof.
  revert pa s b. induction n as [|n IH]; intros pa s b H0 He Hn H1 Hs.
  - exists b. cbn [readseg_loop]. rewrite (proj2 (Z.ltb_ge _ _)) by lia. split; [done|]. split; [intros x Hx; lia|done].
  - cbn [readseg_loop]. destruct (Z.ltb_spec pa epa) as [Hlt|Hge]; cbn [negb].
    + destruct (readsect_run pa s b ltac:(lia)) as (b1 & R1 & M1). rewrite (bind_Done _ _ _ _ _ R1).
      unfold SECTSIZE. rewrite !u32_small by lia.
      destruct (IH (pa + 512) (s + 1) b1) as (b2 & R2 & F2 & S2); try lia. exists b2. split; [exact R2|]. split.
      * intros x Hx. destruct (Z.lt_ge_cases x (pa + 512)).
        -- rewrite S2, M1 by lia. case_cmp; first [done|lia].
        -- rewrite F2 by lia. f_equal. lia.
      * intros x Hx. rewrite S2, M1 by lia. case_cmp; first [done|lia].
    + exists b. split; [done|]. split; [intros x Hx; lia|done].
Qed.

Lemma readseg_run pa count off b :
  0 <= count -> 0 <= off -> off mod 512 <= pa -> pa + count + 512 <= 2 ^ 32 -> off + count + 2048 < 2 ^ 28 * 512 ->
  exists b', readseg disk status fuel pa count off b = Done tt b' /\
    holds_file (bmem b') pa (pa + count) off /\ same_below (pa - off mod 512) (bmem b) (bmem b').
Proof.
  intros Hc Ho Hp Hw Hd. pose proof (Z.mod_pos_bound off 512 ltac:(lia)) as Hm. pose proof (Z.div_mod off 512 ltac:(lia)) as Hdm.
  pose proof (Z.div_mod count 512 ltac:(lia)). pose proof (Z.mod_pos_bound count 512 ltac:(lia)).
  unfold readseg. change SECTSIZE with 512. rewrite !u32_small by lia.
  destruct (readseg_loop_run (Z.to_nat (count / 512 + 2)) (pa - off mod 512) (pa + count) (off / 512 + 1) b) as (b' & R & F & S); try lia.
  exists b'. split; [exact R|]. split; [|exact S]. intros x Hx. rewrite F by lia. f_equal. lia.
Qed.

(** *** The segments *)

Context (Hbyte : forall x, 0 <= file x < 256).

Definition phoff : Z := ld32 file 28.
Definition phnum : Z := file 44 + 256 * file 45.
(** The fields of program header [i], in the file *)
Definition seg_off (i : Z) : Z := ld32 file (phoff + 32 * i + 4).
Definition seg_paddr (i : Z) : Z := ld32 file (phoff + 32 * i + 12).
Definition seg_filesz (i : Z) : Z := ld32 file (phoff + 32 * i + 16).
Definition seg_memsz (i : Z) : Z := ld32 file (phoff + 32 * i + 20).
Definition seg_end (i : Z) : Z := seg_paddr i + Z.max (seg_filesz i) (seg_memsz i).
(** Reading the first sector of a segment starts here. *)
Definition seg_start (i : Z) : Z := seg_paddr i - seg_off i mod 512.

Definition seg_loaded (m : Z -> Z) (i : Z) : Prop :=
  holds_file m (seg_paddr i) (seg_paddr i + seg_filesz i) (seg_off i) /\
  forall x, seg_paddr i + seg_filesz i <= x < seg_paddr i + seg_memsz i -> m x = 0.

(** The headers lie in the first page of the file, the segments above the
    scratch page, inside the memory and the disk, and each where reading it
    does not reach the ones before it. *)
Record loadable : Prop := {
  l_headers : phoff + 32 * phnum <= 4096;
  l_above : forall i, 0 <= i < phnum -> 0x11000 <= seg_start i;
  l_top : forall i, 0 <= i < phnum -> seg_end i + 512 <= 2 ^ 32;
  l_disk : forall i, 0 <= i < phnum -> seg_off i + seg_filesz i + 2048 < 2 ^ 28 * 512;
  l_order : forall i j, 0 <= i < j -> j < phnum -> seg_end i <= seg_start j
}.
Context (Hload : loadable).

(** The headers of the scratch page are those of the file. *)
Definition headers (m : Z -> Z) : Prop := holds_file m elf (elf + 4096) 0.

Lemma rd_file_range a : 0 <= ld32 file a < 2 ^ 32.
Proof.
  unfold ld32. pose proof (Hbyte a). pose proof (Hbyte (a + 1)). pose proof (Hbyte (a + 2)). pose proof (Hbyte (a + 3)). lia.
Qed.
Lemma rd_headers m o : headers m -> 0 <= o -> o + 4 <= 4096 -> ld32 m (elf + o) = ld32 file o.
Proof.
  intros Hh H0 H1. unfold ld32. rewrite !Hh by lia.
  replace (0 + (elf + o - elf)) with o by lia. replace (0 + (elf + o + 1 - elf)) with (o + 1) by lia.
  replace (0 + (elf + o + 2 - elf)) with (o + 2) by lia. replace (0 + (elf + o + 3 - elf)) with (o + 3) by lia. done.
Qed.

Lemma load_segment_run i b :
  0 <= i < phnum -> headers (bmem b) ->
  exists b', load_segment disk status fuel (elf + phoff + 32 * i) b = Done tt b' /\ headers (bmem b') /\
    same_below (seg_start i) (bmem b) (bmem b') /\ seg_loaded (bmem b') i.
Proof.
  intros Hi Hh. destruct Hload as [Hhd Hab Htop Hdk _]. specialize (Hab i Hi). specialize (Htop i Hi). specialize (Hdk i Hi).
  pose proof (rd_file_range 28) as Hpo. fold phoff in Hpo.
  assert (forall m o, headers m -> 0 <= o -> o + 4 <= 32 -> ld32 m (elf + phoff + 32 * i + o) = ld32 file (phoff + 32 * i + o)) as Hrd.
  { intros m o Hm ??. replace (elf + phoff + 32 * i + o) with (elf + (phoff + 32 * i + o)) by lia. apply rd_headers; [done|lia|lia]. }
  unfold load_segment. rewrite !bind_gets, !Hrd by (done || lia).
  fold (seg_paddr i) (seg_filesz i) (seg_off i). pose proof (rd_file_range (phoff + 32 * i + 16)) as Hf. fold (seg_filesz i) in Hf.
  pose proof (rd_file_range (phoff + 32 * i + 20)) as Hm. fold (seg_memsz i) in Hm.
  pose proof (rd_file_range (phoff + 32 * i + 4)) as Ho. fold (seg_off i) in Ho.
  unfold seg_end, seg_start in *. pose proof (Z.mod_pos_bound (seg_off i) 512 ltac:(lia)).
  destruct (readseg_run (seg_paddr i) (seg_filesz i) (seg_off i) b) as (b1 & R1 & F1 & S1); try lia.
  rewrite (bind_Done _ _ _ _ _ R1). assert (headers (bmem b1)) as Hh1.
  { intros x Hx. unfold elf in Hx. rewrite S1 by lia. apply Hh. unfold elf. lia. }
  rewrite !bind_gets, !Hrd by (done || lia). fold (seg_memsz i) (seg_filesz i).
  destruct (Z.ltb_spec (seg_filesz i) (seg_memsz i)) as [Hlt|Hge].
  - eexists. split; [reflexivity|]. cbn [bmem set_bmem]. rewrite u32_small by lia.
    assert (forall x, stosb (seg_paddr i + seg_filesz i) 0 (Z.to_nat (seg_memsz i - seg_filesz i)) (bmem b1) x =
      if (seg_paddr i + seg_filesz i <=? x) && (x <? seg_paddr i + seg_memsz i) then 0 else bmem b1 x) as St.
    { intros x. rewrite stosb_spec, Z2Nat.id by lia.
      by replace (seg_paddr i + seg_filesz i + (seg_memsz i - seg_filesz i)) with (seg_paddr i + seg_memsz i) by lia. }
    split; [|split; [|split]].
    + intros x Hx. rewrite St. unfold elf in *. case_cmp; try lia; by apply Hh1.
    + intros x Hx. rewrite St. case_cmp; try lia; by apply S1.
    + intros x Hx. rewrite St. case_cmp; try lia; by apply F1.
    + intros x Hx. rewrite St. case_cmp; first [done|lia].
  - exists b1. split; [done|]. split; [done|]. split; [done|]. split; [done|]. intros x Hx. lia.
Qed.

Lemma load_all_run n i b :
  0 <= i -> i + Z.of_nat n = phnum -> headers (bmem b) -> (forall j, 0 <= j < i -> seg_loaded (bmem b) j) ->
  exists b', load_all disk status fuel n (elf + phoff + 32 * i) (elf + phoff + 32 * phnum) b = Done tt b' /\ headers (bmem b') /\
    forall j, 0 <= j < phnum -> seg_loaded (bmem b') j.
Proof.
  pose proof (l_headers Hload). pose proof (rd_file_range 28) as Hpo. fold phoff in Hpo.
  revert i b. induction n as [|n IH]; intros i b Hi Hn Hh Hs.
  - exists b. cbn [load_all]. rewrite (proj2 (Z.ltb_ge _ _)) by lia. split; [done|]. split; [done|]. intros j Hj. apply Hs. lia.
  - cbn [load_all]. rewrite (proj2 (Z.ltb_lt _ _)) by lia. cbn [negb].
    destruct (load_segment_run i b ltac:(lia) Hh) as (b1 & R1 & Hh1 & S1 & L1). rewrite (bind_Done _ _ _ _ _ R1).
    unfold elf at 1. rewrite u32_small by lia. change 65536 with elf.
    replace (elf + phoff + 32 * i + 32) with (elf + phoff + 32 * (i + 1)) by lia. apply IH; [lia|lia|done|].
    intros j Hj. destruct (decide (j = i)) as [->|Hne]; [done|].
    pose proof (l_order Hload j i ltac:(lia) ltac:(lia)) as Ho. unfold seg_end in Ho.
    destruct (Hs j ltac:(lia)) as [Hf Hz]. split; intros x Hx; rewrite S1 by lia; [by apply Hf|by apply Hz].
Qed.
End Load.

(** C17: the boot loader, with a disk that gets ready and an ELF file on it
    from sector 1 on whose segments lie above the scratch page, each where
    reading whole sectors for it does not reach the earlier ones: it returns
    the entry point, every segment is in memory at its physical address, and
    what the file does not provide of it is zero.  A disk without the ELF
    magic number makes it return to bootasm.S. *)
Theorem bootmain_loads_kernel (disk : Z -> list Z) (status : nat -> Z) (fuel : nat) (file : Z -> Z) b :
  (forall t, exists d, (d < fuel)%nat /\ Z.land (status (t + d)%nat) 0xC0 = 0x40) ->
  (forall s, 1 <= s < 2 ^ 28 -> length (disk s) = 512%nat /\
     forall i, 0 <= i < 512 -> disk s !! Z.to_nat i = Some (file (512 * (s - 1) + i))) ->
  (forall x, 0 <= file x < 256) ->
  (ld32 file 0 <> ELF_MAGIC -> exists b', bootmain disk status fuel b = Done None b') /\
  (ld32 file 0 = ELF_MAGIC -> loadable file ->
   exists b', bootmain disk status fuel b = Done (Some (ld32 file 24)) b' /\
     forall i, 0 <= i < phnum file -> seg_loaded file (bmem b') i).
Proof.
  intros Hr Hd Hb. destruct (readseg_run disk status fuel file Hr Hd elf 4096 0 b) as (b1 & R1 & F1 & _); [lia|lia|by vm_compute|by vm_compute|lia|].
  assert (headers file (bmem b1)) as Hh by exact F1. unfold bootmain.
  pose proof (rd_headers file (bmem b1) 0 Hh ltac:(lia) ltac:(lia)) as H0. rewrite Z.add_0_r in H0.
  split; intros Hm; rewrite (bind_Done _ _ _ _ _ R1), bind_gets, H0.
  - rewrite (proj2 (Z.eqb_neq _ _)) by done. by exists b1.
  - intros Hl. rewrite Hm, Z.eqb_refl. cbn [negb]. rewrite !bind_gets, (rd_headers file (bmem b1)) by (done || lia).
    rewrite !Hh by (unfold elf; lia). change (0 + (elf + 44 - elf)) with 44. change (0 + (elf + 45 - elf)) with 45.
    fold (phoff file) (phnum file). pose proof (l_headers _ Hl) as Hhd. pose proof (rd_file_range file Hb 28) as Hpo. fold (phoff file) in Hpo.
    assert (0 <= phnum file) as Hpn by (unfold phnum; pose proof (Hb 44); pose proof (Hb 45); lia).
    rewrite !(u32_small _) by (unfold elf; rewrite ?u32_small; lia).
    destruct (load_all_run disk status fuel file Hr Hd Hb Hl (Z.to_nat (phnum file)) 0 b1) as (b2 & R2 & Hh2 & L2); [lia|lia|done|lia|].
    rewrite Z.mul_0_r, Z.add_0_r in R2. rewrite (bind_Done _ _ _ _ _ R2), bind_gets, (rd_headers file (bmem b2)) by (done || lia).
    exists b2. split; [done|exact L2].
Qed.

Definition demo_file : Z -> Z :=
  wr 100 0x04030201 (wr 72 8 (wr 68 4 (wr 64 0x100000 (wr 56 100
    (wr 44 1 (wr 28 52 (wr 24 0x10000c (wr 0 ELF_MAGIC (fun _ => 0))))))))).
Definition demo_disk (s : Z) : list Z := map (fun i => demo_file (512 * (s - 1) + i)) (seqZ 0 512).
Lemma wr_byte a v m : (forall x, 0 <= m x < 256) -> forall x, 0 <= wr a v m x < 256.
Proof.
  intros H x. unfold wr. rewrite store_spec. case_if; [|done]. unfold word_bytes. generalize (Z.to_nat (x - a)). intros n.
  destruct n as [|[|[|[|n]]]]; simpl; try apply u8_range. lia.
Qed.
Lemma bootmain_loads_kernel_witness :
  exists b', bootmain demo_disk (fun _ => 0x50) 1 (Boot_ (fun _ => 9) 0) = Done (Some 0x10000c) b' /\
    map (bmem b') [0x100000; 0x100001; 0x100002; 0x100003; 0x100004; 0x100007] = [1; 2; 3; 4; 0; 0].
Proof.
  destruct (bootmain_loads_kernel demo_disk (fun _ => 0x50) 1 demo_file (Boot_ (fun _ => 9) 0)) as [_ H].
  - intros t. exists 0%nat. split; [lia|reflexivity].
  - intros s Hs. unfold demo_disk. split; [by rewrite length_map, length_seqZ|]. intros i Hi.
    rewrite list_lookup_fmap, lookup_seqZ_lt by lia. simpl. do 2 f_equal. lia.
  - unfold demo_file. repeat apply wr_byte. intros x. lia.
  - assert (phnum demo_file = 1) as Hp by (vm_compute; reflexivity).
    assert (seg_start demo_file 0 = 1048476 /\ seg_end demo_file 0 = 1048584 /\ seg_off demo_file 0 = 100 /\ seg_filesz demo_file 0 = 4 /\ seg_memsz demo_file 0 = 8 /\ seg_paddr demo_file 0 = 1048576) as (H1 & H2 & H3 & H4 & H5 & H6) by (vm_compute; repeat split).
    destruct H as (b' & R & L); [vm_compute; reflexivity| |].
    + split; rewrite ?Hp; try (intros i Hi; assert (i = 0) as -> by lia; lia); [vm_compute; discriminate|lia].
    + exists b'. split; [exact R|]. destruct (L 0 ltac:(lia)) as [Lf Lz]. rewrite H4, H5, H6, ?H3 in *.
      cbn [map]. rewrite !Lf, !Lz by lia. vm_compute. reflexivity.
Defined.
