(* ===== verification/Umalloc.v ===== *)
(** Umalloc: umalloc.c, the memory allocator of user programs (Kernighan and
    Ritchie, section 8.7).

    The state is the memory of the process, byte by byte, the two static
    variables and the process size [sbrk] moves.  A [Header] is 8 bytes, the
    pointer and then the size in units of a header; pointers are unsigned
    32-bit addresses.  Whether the kernel has the pages to grow the process is
    a parameter. *)

From S2P Require Import Prelude Kernel StringLib Words.

Record heap := Heap {
  mem : Z -> Z;
  freep : Z;
  brk : Z
}.
Definition set_mem (m : Z -> Z) (h : heap) : heap := Heap m (freep h) (brk h).
Definition set_freep (p : Z) (h : heap) : heap := Heap (mem h) p (brk h).
Definition set_brk (b : Z) (h : heap) : heap := Heap (mem h) (freep h) b.

Definition ptr (p : Z) : M heap Z := gets (fun h => ld32 (mem h) p).
Definition size (p : Z) : M heap Z := gets (fun h => ld32 (mem h) (p + 4)).
Definition set_ptr (p v : Z) : M heap unit := modify (fun h => set_mem (wr p v (mem h)) h).
Definition set_size (p v : Z) : M heap unit := modify (fun h => set_mem (wr (p + 4) v (mem h)) h).

(** [p + n] for a [Header *p] *)
Definition hdr (p n : Z) : Z := u32 (p + 8 * n).

Section Sbrk.
(** Whether the kernel finds the pages for a process of [sz] bytes to grow by
    [n]. *)
Context (pages : Z -> Z -> bool).

(** The system call: [n] is an [int], the result [(char * )-1] on failure.
    Growing fails at [KERNBASE]; when [sz + n] wraps around the process keeps
    its size and the call succeeds. *)
Definition sbrk (n : Z) : M heap Z :=
  let! sz := gets brk in
  let n := i32 n in
  let new := u32 (sz + n) in
  if 0 <? n then
    if KERNBASE <=? new then ret (u32 (-1))
    else if new <? sz then ret sz
    else if pages sz n then modify (set_brk new) ;;; ret sz
    else ret (u32 (-1))
  else if n <? 0 then
    if (if sz <=? new then sz else new) =? 0 then ret (u32 (-1))
    else modify (set_brk (if sz <=? new then sz else new)) ;;; ret sz
  else ret sz.
End Sbrk.

(** ** [free] *)

(** The [for] loop of [free]: the block after which [bp] goes. *)
Fixpoint free_find (fuel : nat) (bp p : Z) : M heap Z :=
  let! n := ptr p in
  if (p <? bp) && (bp <? n) then ret p
  else if (n <=? p) && ((p <? bp) || (bp <? n)) then ret p
  else match fuel with O => exhausted | S fuel => free_find fuel bp n end.

(** The two conditionals that link [bp] in after [p]: joined to the block
    above it or not, and to the block below it or not. *)
Definition join_upper (bp p : Z) : M heap unit :=
  let! bs := size bp in
  let! n := ptr p in
  if hdr bp bs =? n then
    let! ns := size n in
    set_size bp (u32 (bs + ns)) ;;;
    let! n := ptr p in
    let! nn := ptr n in
    set_ptr bp nn
  else set_ptr bp n.

Definition join_lower (bp p : Z) : M heap unit :=
  let! ps := size p in
  if hdr p ps =? bp then
    let! bs := size bp in
    set_size p (u32 (ps + bs)) ;;;
    let! bn := ptr bp in
    set_ptr p bn
  else set_ptr p bp.

Definition free (fuel : nat) (ap : Z) : M heap unit :=
  let bp := hdr ap (-1) in
  let! fp := gets freep in
  let! p := free_find fuel bp fp in
  join_upper bp p ;;;
  join_lower bp p ;;;
  modify (set_freep p).

(** ** [malloc] *)

Section Malloc.
(** [&base], and the pages of the kernel *)
Context (base : Z) (pages : Z -> Z -> bool).

Definition morecore (fuel : nat) (nu : Z) : M heap Z :=
  let nu := if nu <? 4096 then 4096 else nu in
  let! p := sbrk pages (u32 (nu * 8)) in
  if p =? u32 (-1) then ret 0 else
  set_size p nu ;;;
  free fuel (hdr p 1) ;;;
  gets freep.

(** [nunits] for a request of [nbytes], in unsigned arithmetic *)
Definition nunits (nbytes : Z) : Z := u32 (u32 (nbytes + 8 - 1) / 8 + 1).

(** The block [p] is big enough: the whole of it, or its tail end. *)
Definition allot (nu prevp p : Z) : M heap Z :=
  let! s := size p in
  let! p :=
    (if s =? nu then
       let! n := ptr p in
       set_ptr prevp n ;;;
       ret p
     else
       set_size p (u32 (s - nu)) ;;;
       let! s := size p in
       let p := hdr p s in
       set_size p nu ;;;
       ret p) in
  modify (set_freep prevp) ;;;
  ret (hdr p 1).

(** The [for] loop of [malloc]. *)
Fixpoint malloc_loop (fuel : nat) (nu prevp p : Z) : M heap Z :=
  let! s := size p in
  if nu <=? s then
    allot nu prevp p
  else
    let! fp := gets freep in
    match fuel with
    | O => exhausted
    | S fuel =>
        if p =? fp then
          let! p := morecore (S fuel) nu in
          if p =? 0 then ret 0 else
          let! n := ptr p in
          malloc_loop fuel nu p n
        else
          let! n := ptr p in
          malloc_loop fuel nu p n
    end.

Definition malloc (fuel : nat) (nbytes : Z) : M heap Z :=
  let nu := nunits nbytes in
  let! fp := gets freep in
  let! prevp :=
    (if fp =? 0 then
       modify (set_freep base) ;;;
       set_ptr base base ;;;
       set_size base 0 ;;;
       ret base
     else ret fp) in
  let! p := ptr prevp in
  malloc_loop fuel nu prevp p.
End Malloc.
