(* ===== verification/UmallocProof.v ===== *)
(** UmallocProof: the heap of umalloc.c as a row of cells, and the correctness
    of [free], [morecore] and [malloc] against it. *)

From Stdlib Require Import Sorted.
From S2P Require Import Prelude Kernel StringLib Words Umalloc.

(** ** A row of cells

    The heap from [h0] to the end of the process is a row of cells, each of a
    number of units and free or in use. *)

Notation cell := (Z * bool)%type.

Definition total (T : list cell) : Z := sum_list (map fst T).

(** The addresses of the free cells of a row that starts at [a], and the
    addresses and sizes of those in use. *)
Fixpoint frees (a : Z) (T : list cell) : list Z :=
  match T with
  | [] => []
  | (n, b) :: T => (if b : bool then [a] else []) ++ frees (a + 8 * n) T
  end.
Fixpoint used (a : Z) (T : list cell) : list (Z * Z) :=
  match T with
  | [] => []
  | (n, b) :: T => (if b : bool then [] else [(a, n)]) ++ used (a + 8 * n) T
  end.

(** Free neighbours merged. *)
Fixpoint norm (T : list cell) : list cell :=
  match T with
  | [] => []
  | (n, b) :: T =>
      match norm T with
      | (k, true) :: T' => if b then (n + k, true) :: T' else (n, b) :: (k, true) :: T'
      | T' => (n, b) :: T'
      end
  end.

(** A free cell of [n] units gives its upper [nu] units. *)
Definition carve (n nu : Z) : list cell :=
  if n =? nu then [(nu, false)] else [(n - nu, true); (nu, false)].

Lemma total_app T1 T2 : total (T1 ++ T2) = total T1 + total T2.
Proof. unfold total. by rewrite map_app, sum_list_app. Qed.
Lemma total_cons n b T : total ((n, b) :: T) = n + total T.
Proof. done. Qed.
Lemma total_carve n nu : total (carve n nu) = n.
Proof. unfold carve. case_cmp; rewrite !total_cons; change (total []) with 0; lia. Qed.

Lemma frees_app a T1 T2 : frees a (T1 ++ T2) = frees a T1 ++ frees (a + 8 * total T1) T2.
Proof.
  revert a. induction T1 as [|[n b] T1 IH]; intros a; simpl.
  { change (total []) with 0. by rewrite Z.mul_0_r, Z.add_0_r. }
  rewrite IH, <- app_assoc, total_cons. do 3 f_equal. lia.
Qed.
Lemma used_app a T1 T2 : used a (T1 ++ T2) = used a T1 ++ used (a + 8 * total T1) T2.
Proof.
  revert a. induction T1 as [|[n b] T1 IH]; intros a; simpl.
  { change (total []) with 0. by rewrite Z.mul_0_r, Z.add_0_r. }
  rewrite IH, <- app_assoc, total_cons. do 3 f_equal. lia.
Qed.

(** *** Merging *)

Lemma norm_cons_used n T : norm ((n, false) :: T) = (n, false) :: norm T.
Proof. simpl. destruct (norm T) as [|[k []] T']; done. Qed.
Lemma norm_cons_free n T :
  norm ((n, true) :: T) =
    match norm T with (k, true) :: T' => (n + k, true) :: T' | T' => (n, true) :: T' end.
Proof. simpl. destruct (norm T) as [|[k []] T']; done. Qed.
Lemma total_norm T : total (norm T) = total T.
Proof.
  induction T as [|[n b] T IH]; [done|]. rewrite total_cons, <- IH.
  destruct b; [rewrite norm_cons_free|rewrite norm_cons_used; done].
  destruct (norm T) as [|[k []] T']; rewrite ?total_cons; lia.
Qed.
Lemma used_norm a T : used a (norm T) = used a T.
Proof.
  revert a. induction T as [|[n b] T IH]; intros a; [done|]. cbn [used]. rewrite <- IH.
  destruct b; [rewrite norm_cons_free|rewrite norm_cons_used; done].
  destruct (norm T) as [|[k []] T']; simpl; try done. f_equal. lia.
Qed.
Lemma length_norm T : (length (norm T) <= length T)%nat.
Proof.
  induction T as [|[n b] T IH]; [done|]. simpl.
  destruct (norm T) as [|[k []] T'], b; simpl in *; lia.
Qed.
Lemma norm_tail c T : norm (c :: T) = c :: T -> norm T = T.
Proof.
  destruct c as [n []]; [|rewrite norm_cons_used; by intros [= ->]].
  rewrite norm_cons_free. intros H. destruct (norm T) as [|[k []] T'] eqn:E; simplify_eq; try done.
  pose proof (length_norm T) as HL. rewrite E in HL. simpl in HL. lia.
Qed.

(** A merged row has no two free neighbours. *)
Lemma norm_no_adj T1 n k T2 : norm (T1 ++ (n, true) :: (k, true) :: T2) <> T1 ++ (n, true) :: (k, true) :: T2.
Proof.
  induction T1 as [|c T1 IH].
  - intros H. apply (f_equal length) in H. simpl app in H. rewrite norm_cons_free in H.
    pose proof (length_norm ((k, true) :: T2)) as HL.
    rewrite norm_cons_free in H, HL. destruct (norm T2) as [|[j []] T']; simpl in *; lia.
  - intros H. by apply norm_tail, IH in H.
Qed.
Lemma norm_app_r T1 T2 : norm (T1 ++ T2) = T1 ++ T2 -> norm T2 = T2.
Proof. induction T1 as [|c T1 IH]; [done|]. intros H. by apply norm_tail, IH in H. Qed.

(** [norm] looks at the head of the rest only. *)
Definition head_free (T : list cell) : bool := match T with (_, b) :: _ => b | [] => false end.
Lemma norm_cons n b T : norm T = T -> (b = true -> head_free T = false) -> norm ((n, b) :: T) = (n, b) :: T.
Proof.
  intros HT Hb. destruct b; [|by rewrite norm_cons_used, HT].
  rewrite norm_cons_free, HT. destruct T as [|[k []] T]; [done| |done]. by discriminate Hb.
Qed.
Lemma norm_head_free n T : norm ((n, true) :: T) = (n, true) :: T -> head_free T = false.
Proof.
  intros H. destruct T as [|[k []] T]; [done| |done]. by apply (norm_no_adj [] n k T) in H.
Qed.
(** The rest of a merged row can be exchanged for another that starts alike. *)
Lemma norm_swap T1 T2 T2' :
  norm (T1 ++ T2) = T1 ++ T2 -> norm T2' = T2' -> (head_free T2' = true -> head_free T2 = true) ->
  norm (T1 ++ T2') = T1 ++ T2'.
Proof.
  intros H H2 Hh. induction T1 as [|[n b] T1 IH]; [done|]. simpl app in *.
  pose proof (norm_tail _ _ H) as H'. apply norm_cons; [by apply IH|]. intros ->.
  apply norm_head_free in H. destruct T1 as [|c T1]; [|exact H].
  simpl app in *. destruct (head_free T2') eqn:E; [|done]. by rewrite Hh in H.
Qed.
Lemma norm_swap_used T1 k Y X :
  norm (T1 ++ (k, false) :: Y) = T1 ++ (k, false) :: Y -> norm X = X ->
  norm (T1 ++ (k, false) :: X) = T1 ++ (k, false) :: X.
Proof. intros H HX. apply (norm_swap _ _ _ H); [|done]. by rewrite norm_cons_used, HX. Qed.
Lemma norm_idem T : norm (norm T) = norm T.
Proof.
  induction T as [|[n b] T IH]; [done|]. destruct b; [|by rewrite !norm_cons_used, IH].
  rewrite norm_cons_free. destruct (norm T) as [|[k []] T'] eqn:E; [done| |].
  - apply norm_cons; [by eapply norm_tail|]. intros _. by eapply norm_head_free.
  - by apply norm_cons.
Qed.
Lemma norm_app_norm T1 X : norm (T1 ++ norm X) = norm (T1 ++ X).
Proof. induction T1 as [|[n b] T1 IH]; simpl app; [apply norm_idem|]. simpl. by rewrite IH. Qed.
Lemma norm_merge_left T1 n1 n T2 : norm (T1 ++ (n1, true) :: (n, true) :: T2) = norm (T1 ++ (n1 + n, true) :: T2).
Proof.
  induction T1 as [|[k b] T1 IH]; [|by simpl app; simpl; rewrite IH]. simpl app.
  rewrite !norm_cons_free. destruct (norm T2) as [|[j []] T']; try done. do 2 f_equal. lia.
Qed.

(** ** Rows in memory *)

(** Every cell has its size in its header. *)
Fixpoint sized (m : Z -> Z) (a : Z) (T : list cell) : Prop :=
  match T with
  | [] => True
  | (n, _) :: T => 1 <= n /\ ld32 m (a + 4) = n /\ sized m (a + 8 * n) T
  end.
(** The headers of [l] are linked in this order, and the last one points to
    [z]. *)
Fixpoint linked (m : Z -> Z) (l : list Z) (z : Z) : Prop :=
  match l with
  | [] => True
  | x :: l => ld32 m x = hd z l /\ linked m l z
  end.

Lemma sized_app m a T1 T2 : sized m a (T1 ++ T2) <-> sized m a T1 /\ sized m (a + 8 * total T1) T2.
Proof.
  revert a. induction T1 as [|[n b] T1 IH]; intros a; simpl.
  { change (total []) with 0. rewrite Z.mul_0_r, Z.add_0_r. tauto. }
  rewrite IH, total_cons. replace (a + 8 * n + 8 * total T1) with (a + 8 * (n + total T1)) by lia. tauto.
Qed.
Lemma sized_total m a T : sized m a T -> 0 <= total T.
Proof.
  revert a. induction T as [|[n b] T IH]; intros a; [done|]. rewrite total_cons. intros (? & _ & H).
  apply IH in H. lia.
Qed.
Lemma sized_nonempty m a T : sized m a T -> T <> [] -> 1 <= total T.
Proof.
  destruct T as [|[n b] T]; [done|]. rewrite total_cons. intros (? & _ & H) _. apply sized_total in H. lia.
Qed.
Lemma sized_ext m m' a T :
  (forall x, a <= x < a + 8 * total T -> m' x = m x) -> sized m a T -> sized m' a T.
Proof.
  revert a. induction T as [|[n b] T IH]; intros a Hx; [done|]. intros (Hn & Hr & H).
  rewrite total_cons in Hx. pose proof (sized_total _ _ _ H). split; [done|]. split.
  - rewrite <- Hr. apply ld32_ext. intros x ?. apply Hx. lia.
  - apply IH; [|done]. intros x ?. apply Hx. lia.
Qed.

Lemma links_app m l1 l2 z : linked m (l1 ++ l2) z <-> linked m l1 (hd z l2) /\ linked m l2 z.
Proof.
  induction l1 as [|x l1 IH]; simpl; [tauto|]. rewrite IH. destruct l1 as [|y l1]; simpl; tauto.
Qed.
Lemma links_frame m m' l z : (forall x, x ∈ l -> ld32 m' x = ld32 m x) -> linked m l z -> linked m' l z.
Proof.
  induction l as [|y l IH]; intros Hx; [done|]. intros [H1 H2]. split.
  - by rewrite Hx by apply list_elem_of_here.
  - apply IH; [|done]. intros x ?. apply Hx. by apply list_elem_of_further.
Qed.

Lemma frees_range m a T x :
  sized m a T -> x ∈ frees a T -> a <= x /\ x + 8 <= a + 8 * total T.
Proof.
  revert a. induction T as [|[n b] T IH]; intros a; [intros _ H; by apply not_elem_of_nil in H|].
  intros (Hn & _ & HT) Hx. cbn [frees] in Hx. rewrite total_cons. pose proof (sized_total _ _ _ HT).
  apply elem_of_app in Hx as [Hx|Hx].
  - destruct b; [|by apply not_elem_of_nil in Hx]. apply list_elem_of_singleton in Hx as ->. lia.
  - apply IH in Hx; [lia|done].
Qed.
Lemma frees_split m a T x :
  sized m a T -> x ∈ frees a T ->
  exists T1 n T2, T = T1 ++ (n, true) :: T2 /\ x = a + 8 * total T1.
Proof.
  revert a. induction T as [|[n b] T IH]; intros a; [intros _ H; by apply not_elem_of_nil in H|].
  intros (Hn & _ & HT) Hx. cbn [frees] in Hx. apply elem_of_app in Hx as [Hx|Hx].
  - destruct b; [|by apply not_elem_of_nil in Hx]. apply list_elem_of_singleton in Hx as ->.
    exists [], n, T. split; [done|]. change (total []) with 0. lia.
  - apply IH in Hx as (T1 & k & T2 & -> & ->); [|done]. exists ((n, b) :: T1), k, T2.
    split; [done|]. rewrite total_cons. lia.
Qed.
Lemma used_split m a T y k :
  sized m a T -> (y, k) ∈ used a T ->
  exists T1 T2, T = T1 ++ (k, false) :: T2 /\ y = a + 8 * total T1.
Proof.
  revert a. induction T as [|[n b] T IH]; intros a; [intros _ H; by apply not_elem_of_nil in H|].
  intros (Hn & _ & HT) Hx. cbn [used] in Hx. apply elem_of_app in Hx as [Hx|Hx].
  - destruct b; [by apply not_elem_of_nil in Hx|]. apply list_elem_of_singleton in Hx as [= -> ->].
    exists [], T. split; [done|]. change (total []) with 0. lia.
  - apply IH in Hx as (T1 & T2 & -> & ->); [|done]. exists ((n, b) :: T1), T2.
    split; [done|]. rewrite total_cons. lia.
Qed.
Lemma used_range m a T y k :
  sized m a T -> (y, k) ∈ used a T -> a <= y /\ y + 8 * k <= a + 8 * total T /\ 1 <= k.
Proof.
  intros HT Hy. destruct (used_split _ _ _ _ _ HT Hy) as (T1 & T2 & -> & ->).
  apply sized_app in HT as [H1 (Hk & _ & H2)]. rewrite total_app, total_cons.
  pose proof (sized_total _ _ _ H1). pose proof (sized_total _ _ _ H2). lia.
Qed.

(** ** The invariant *)

Section Heap.
Context (base h0 : Z).
Context (Hbase : 0 < base) (Hlow : base + 8 <= h0).

(** The ring of the free cells, from [base] on. *)
Definition ring (T : list cell) : list Z := base :: frees h0 T.

Record heap_ok (h : heap) (T : list cell) : Prop := {
  ok_sized : sized (mem h) h0 T;
  ok_ring : linked (mem h) (ring T) base;
  ok_base : ld32 (mem h) (base + 4) = 0;
  ok_freep : freep h ∈ ring T;
  ok_norm : norm T = T;
  ok_brk : brk h = h0 + 8 * total T;
  ok_top : brk h < KERNBASE
}.

(** The bytes of the cells in use, headers included, are the same. *)
Definition keeps (T : list cell) (m m' : Z -> Z) : Prop :=
  forall a k x, (a, k) ∈ used h0 T -> a <= x < a + 8 * k -> m' x = m x.

(** *** The ring *)

Lemma frees_sorted m a T : sized m a T -> StronglySorted Z.lt (frees a T).
Proof.
  revert a. induction T as [|[n b] T IH]; intros a; [constructor|]. intros (Hn & _ & HT).
  cbn [frees]. destruct b; simpl; [|by apply IH].
  constructor; [by apply IH|]. apply Forall_forall. intros x Hx. eapply frees_range in Hx; [|done..]. lia.
Qed.
Lemma ring_sorted m T : sized m h0 T -> StronglySorted Z.lt (ring T).
Proof.
  intros HT. constructor; [by eapply frees_sorted|]. apply Forall_forall. intros x Hx.
  eapply frees_range in Hx; [|done..]. lia.
Qed.
Lemma sorted_NoDup (l : list Z) : StronglySorted Z.lt l -> NoDup l.
Proof.
  induction 1 as [|x l _ IH HF]; constructor; [|done]. intros Hx.
  rewrite Forall_forall in HF. specialize (HF x Hx). lia.
Qed.
Lemma NoDup_split_eq {A} (l1 l1' l2 l2' : list A) x :
  NoDup (l1 ++ x :: l2) -> l1 ++ x :: l2 = l1' ++ x :: l2' -> l1 = l1' /\ l2 = l2'.
Proof.
  revert l1'. induction l1 as [|y l1 IH]; intros [|y' l1'] Hn E; simpl in *.
  - injection E as ->. done.
  - injection E as <- ->. exfalso. apply NoDup_cons in Hn as [Hn _]. apply Hn, elem_of_app. right. left.
  - injection E as -> <-. exfalso. apply NoDup_cons in Hn as [Hn _]. apply Hn, elem_of_app. right. left.
  - injection E as <- E. apply NoDup_cons in Hn as [_ Hn]. destruct (IH _ Hn E) as [-> ->]. done.
Qed.

(** From any element of the ring the links lead to any other. *)
Lemma ring_path m L f p :
  linked m L (hd 0 L) -> NoDup L -> f ∈ L -> p ∈ L -> f <> p ->
  exists R, linked m (f :: R) p /\ (forall x, x ∈ f :: R -> x ∈ L /\ x <> p) /\ (length R < length L)%nat.
Proof.
  intros HL HN Hf Hp Hne. apply list_elem_of_split in Hf as (la & lb & ->).
  apply elem_of_app in Hp as [Hp|Hp].
  - apply list_elem_of_split in Hp as (lc & ld & ->). exists (lb ++ lc). split; [|split].
    + rewrite <- app_assoc in HL. apply links_app in HL as [Hc HL]. simpl in HL.
      destruct HL as [_ HL]. apply links_app in HL as [_ HL]. apply (links_app m (f :: lb) lc p).
      split; [|by simpl in Hc]. destruct lc; simpl in *; exact HL.
    + intros x Hx. rewrite !elem_of_app, !elem_of_cons. rewrite elem_of_cons, elem_of_app in Hx.
      split; [tauto|]. intros ->. rewrite <- app_assoc in HN. apply NoDup_app in HN as (_ & Hd & HN).
      apply NoDup_cons in HN as [HN _]. rewrite elem_of_app, elem_of_cons in HN.
      destruct Hx as [->|[Hx|Hx]]; [tauto|tauto|]. apply (Hd _ Hx). left.
    + rewrite !length_app. simpl. rewrite ?length_app. simpl. lia.
  - apply elem_of_cons in Hp as [->|Hp]; [done|]. apply list_elem_of_split in Hp as (lc & ld & ->).
    exists lc. split; [|split].
    + apply links_app in HL as [_ HL]. by apply (links_app m (f :: lc) (p :: ld)) in HL as [HL _].
    + intros x Hx. rewrite elem_of_app, elem_of_cons, elem_of_app. split; [rewrite elem_of_cons in Hx; tauto|].
      intros ->. apply NoDup_app in HN as (_ & _ & HN). apply (NoDup_app (f :: lc)) in HN as (_ & Hd & _).
      apply (Hd _ Hx). left.
    + rewrite length_app. simpl. rewrite length_app. simpl. lia.
Qed.

Lemma sorted_mid la x lb :
  StronglySorted Z.lt (la ++ x :: lb) ->
  (forall y, y ∈ la -> y < x) /\ (forall y, y ∈ lb -> x < y /\ hd x lb <= y).
Proof.
  induction la as [|z la IH]; simpl; intros H; apply StronglySorted_inv in H as [H HF].
  - split; [intros y Hy; by apply not_elem_of_nil in Hy|]. intros y Hy.
    rewrite Forall_forall in HF. split; [by apply HF|]. destruct lb as [|w lb]; [by apply not_elem_of_nil in Hy|].
    apply StronglySorted_inv in H as [_ H]. rewrite Forall_forall in H. simpl.
    apply elem_of_cons in Hy as [->|Hy]; [lia|]. specialize (H _ Hy). lia.
  - destruct (IH H) as [H1 H2]. split; [|done]. intros y Hy. apply elem_of_cons in Hy as [->|Hy]; [|by apply H1].
    rewrite Forall_forall in HF. apply HF. apply elem_of_app. right. left.
Qed.

(** *** The place of a block in the ring *)

(** The test of the loop of [free] *)
Definition stops (m : Z -> Z) (bp x : Z) : bool :=
  ((x <? bp) && (bp <? ld32 m x)) || ((ld32 m x <=? x) && ((x <? bp) || (bp <? ld32 m x))).

Lemma free_find_run h bp p R q fuel :
  linked (mem h) (q :: R) p -> (forall x, x ∈ q :: R -> stops (mem h) bp x = false) ->
  stops (mem h) bp p = true -> (length R < fuel)%nat -> free_find fuel bp q h = Done p h.
Proof.
  intros HL Hq Hp. revert q fuel HL Hq. induction R as [|y R IH]; intros q fuel [Hr HL] Hq Hf.
  - destruct fuel as [|fuel]; [simpl in Hf; lia|]. specialize (Hq q (list_elem_of_here _ _)).
    cbn [free_find]. unfold ptr. rewrite bind_gets. unfold stops in Hq. apply orb_false_elim in Hq as [-> ->].
    simpl in Hr. rewrite Hr. destruct fuel; cbn [free_find]; unfold ptr; rewrite bind_gets;
      unfold stops in Hp; destruct (_ && _); [done| |done|]; simpl in Hp; by rewrite Hp.
  - destruct fuel as [|fuel]; [simpl in Hf; lia|]. pose proof (Hq q (list_elem_of_here _ _)) as Hs.
    cbn [free_find]. unfold ptr. rewrite bind_gets. unfold stops in Hs. apply orb_false_elim in Hs as [-> ->].
    simpl in Hr. rewrite Hr. apply IH; [exact HL| |simpl in Hf; lia]. intros x Hx. apply Hq. by right.
Qed.
Lemma free_find_here h bp p fuel : stops (mem h) bp p = true -> free_find fuel bp p h = Done p h.
Proof.
  intros Hp. destruct fuel; cbn [free_find]; unfold ptr; rewrite bind_gets;
    unfold stops in Hp; destruct (_ && _); [done| |done|]; simpl in Hp; by rewrite Hp.
Qed.

Lemma stops_pred m bp l1 p lB x :
  StronglySorted Z.lt (l1 ++ p :: lB) -> linked m (l1 ++ p :: lB) base -> (forall y, y ∈ l1 ++ p :: lB -> base <= y) ->
  p < bp -> (forall y, y ∈ lB -> bp < y) -> x ∈ l1 ++ p :: lB ->
  stops m bp x = bool_decide (x = p).
Proof.
  intros HS HL Hb Hp HB Hx. pose proof (sorted_NoDup _ HS) as HN. pose proof (sorted_mid _ _ _ HS) as [S1 S2].
  pose proof Hx as Hx'. apply list_elem_of_split in Hx as (la & lb & E).
  pose proof HS as HS'. rewrite E in HS'. apply sorted_mid in HS' as [S3 S4].
  rewrite E in HL. apply links_app in HL as [_ [HL _]]. unfold stops. rewrite HL.
  assert (base <= p) by (apply Hb, elem_of_app; right; left).
  destruct (decide (x = p)) as [->|Hne].
  - rewrite bool_decide_true by done. apply NoDup_split_eq in E as [_ <-]; [|done].
    destruct lB as [|y lB]; simpl; [case_cmp; first [done|lia]|].
    specialize (HB y (list_elem_of_here _ _)). case_cmp; first [done|lia].
  - rewrite bool_decide_false by done. apply elem_of_app in Hx' as [Hx|Hx].
    + specialize (S1 _ Hx). assert (p ∈ lb) as Hpb.
      { assert (p ∈ la ++ x :: lb) as Hin by (rewrite <- E; apply elem_of_app; right; left).
        apply elem_of_app in Hin as [Hin|Hin]; [specialize (S3 _ Hin); lia|].
        apply elem_of_cons in Hin as [->|Hin]; [done|done]. }
      destruct (S4 _ Hpb) as [_ Hle]. destruct lb as [|y lb]; [by apply not_elem_of_nil in Hpb|].
      destruct (S4 y (list_elem_of_here _ _)) as [Hy _]. simpl in *. case_cmp; first [done|lia].
    + apply elem_of_cons in Hx as [->|Hx]; [done|]. specialize (HB _ Hx).
      destruct lb as [|y lb]; simpl; [case_cmp; first [done|lia]|].
      destruct (S4 y (list_elem_of_here _ _)) as [Hy _]. case_cmp; first [done|lia].
Qed.

(** *** Joining neighbours *)

Lemma hdr_small p n : 0 <= p + 8 * n < 2 ^ 32 -> hdr p n = p + 8 * n.
Proof. apply u32_small. Qed.
Lemma links_ext m m' l z :
  (forall x y, x ∈ l -> x <= y < x + 4 -> m' y = m y) -> linked m l z -> linked m' l z.
Proof. intros H. apply links_frame. intros x Hx. apply ld32_ext. intros y. by apply H. Qed.

(** The first free cell of a row is its first cell exactly when that is free. *)
Lemma first_free m a T :
  sized m a T -> base + 8 <= a -> (a =? hd base (frees a T)) = head_free T.
Proof.
  intros HT Ha. destruct T as [|[k []] T]; simpl; [case_cmp; first [done|lia]|case_cmp; first [done|lia]|].
  destruct HT as (Hk & _ & HT). destruct (frees (a + 8 * k) T) as [|y l] eqn:E; simpl; [case_cmp; first [done|lia]|].
  assert (y ∈ frees (a + 8 * k) T) as Hy by (rewrite E; left). eapply frees_range in Hy; [|done].
  case_cmp; first [done|lia].
Qed.

Lemma first_range m a T :
  sized m a T -> h0 <= a -> a + 8 * total T < KERNBASE -> 0 <= hd base (frees a T) < 2 ^ 32.
Proof.
  intros HT Ha Ht. change KERNBASE with 2147483648 in *. pose proof (sized_total _ _ _ HT).
  destruct (frees a T) as [|y l] eqn:E; simpl hd; [lia|].
  assert (y ∈ frees a T) as Hy by (rewrite E; left). eapply frees_range in Hy; [|done]. lia.
Qed.

(** What [join_upper] leaves: the block at [bp] is a free cell of [N] units
    linked to the rest of the ring, and nothing else has changed. *)
Definition upper_joined (bp n : Z) (T2 : list cell) (m m' : Z -> Z) : Prop :=
  exists N T2', norm ((n, true) :: T2) = (N, true) :: T2' /\
    sized m' bp ((N, true) :: T2') /\ linked m' (bp :: frees (bp + 8 * N) T2') base /\
    (forall x, x < bp \/ bp + 8 <= x -> m' x = m x).

Lemma upper_joined_intro bp n N k T2 T2' m m' :
  norm ((n, true) :: T2) = (N, true) :: T2' -> 1 <= N -> ld32 m' (bp + 4) = N -> bp + 8 * N = bp + 8 * k ->
  sized m (bp + 8 * k) T2' -> linked m (frees (bp + 8 * k) T2') base -> ld32 m' bp = hd base (frees (bp + 8 * k) T2') ->
  (forall x, x < bp \/ bp + 8 <= x -> m' x = m x) -> upper_joined bp n T2 m m'.
Proof.
  intros Hnorm HN Hs Hk HT HL Hp Hout. exists N, T2'. rewrite <- Hk in *. split; [done|]. split; [|split; [|done]].
  - split; [done|]. split; [done|]. eapply sized_ext; [|exact HT]. intros x Hx. apply Hout. lia.
  - split; [done|]. eapply links_ext; [|exact HL].
    intros x y Hx Hy. eapply frees_range in Hx; [|done]. apply Hout. lia.
Qed.

Lemma join_upper_run h bp n p T2 :
  ld32 (mem h) (bp + 4) = n -> 1 <= n -> sized (mem h) (bp + 8 * n) T2 ->
  ld32 (mem h) p = hd base (frees (bp + 8 * n) T2) -> linked (mem h) (frees (bp + 8 * n) T2) base ->
  h0 <= bp -> p + 8 <= bp -> bp + 8 * n + 8 * total T2 < KERNBASE -> norm T2 = T2 ->
  exists m', join_upper bp p h = Done tt (set_mem m' h) /\ upper_joined bp n T2 (mem h) m'.
Proof.
  intros Hr Hn HT Hp HL Hb Hpb Htop Hnorm. pose proof (first_range _ _ _ HT ltac:(lia) ltac:(lia)) as Hq.
  change KERNBASE with 2147483648 in *. pose proof (sized_total _ _ _ HT) as Ht.
  unfold join_upper, size, ptr, set_size, set_ptr.
  rewrite !bind_gets, Hr, Hp, hdr_small, (first_free _ _ _ HT) by lia.
  destruct (head_free T2) eqn:Eh.
  - destruct T2 as [|[k b] T2]; [done|]. simpl in Eh. subst b. destruct HT as (Hk & Hrk & HT).
    simpl frees in *. destruct HL as [Hx HL]. simpl hd in *. rewrite total_cons in *.
    pose proof (sized_total _ _ _ HT). pose proof (first_range _ _ _ HT ltac:(lia) ltac:(change KERNBASE with 2147483648; lia)) as Hnx.
    set (nx := hd base (frees (bp + 8 * n + 8 * k) T2)) in *.
    set (m1 := wr (bp + 4) (u32 (n + k)) (mem h)). exists (wr bp nx m1).
    rewrite bind_gets, Hrk, bind_modify, !bind_gets. cbn [mem set_mem]. fold m1.
    assert (ld32 m1 p = bp + 8 * n) as -> by (unfold m1; rewrite ld32_wr_far by lia; exact Hp).
    assert (ld32 m1 (bp + 8 * n) = nx) as -> by (unfold m1; rewrite ld32_wr_far by lia; exact Hx).
    split; [done|]. replace (bp + 8 * n + 8 * k) with (bp + 8 * (n + k)) in * by lia.
    apply (upper_joined_intro bp n (n + k) (n + k) ((k, true) :: T2) T2); try done; try lia.
    + by rewrite norm_cons_free, Hnorm.
    + unfold m1. rewrite ld32_wr_far, ld32_wr, u32_idemp by lia. apply u32_small. lia.
    + rewrite ld32_wr, u32_small by done. unfold nx. do 2 f_equal. lia.
    + intros x Hx'. unfold m1. rewrite !wr_out by lia. done.
  - set (q := hd base (frees (bp + 8 * n) T2)) in *. exists (wr bp q (mem h)). split; [done|].
    apply (upper_joined_intro bp n n n T2 T2); try done.
    + by apply norm_cons.
    + by rewrite ld32_wr_far by lia.
    + rewrite ld32_wr. by apply u32_small.
    + intros x Hx'. rewrite wr_out by lia. done.
Qed.

(** The last free cell of a row, if it has one. *)
Lemma last_free m T1 l1 p :
  sized m h0 T1 -> ring T1 = l1 ++ [p] ->
  (p = base /\ l1 = [] /\ frees h0 T1 = []) \/
  exists Ta k Tb, T1 = Ta ++ (k, true) :: Tb /\ p = h0 + 8 * total Ta /\ l1 = ring Ta /\ frees (p + 8 * k) Tb = [].
Proof.
  intros HT E. destruct l1 as [|x l1]; injection E as E; [left; by subst|]. right. subst x.
  assert (p ∈ frees h0 T1) as Hp by (rewrite H; apply elem_of_app; right; left).
  pose proof (sorted_NoDup _ (frees_sorted _ _ _ HT)) as HN.
  destruct (frees_split _ _ _ _ HT Hp) as (Ta & k & Tb & -> & ->). exists Ta, k, Tb.
  rewrite frees_app in H, HN. cbn [frees] in H, HN. simpl app in H, HN.
  apply NoDup_split_eq in H as [H ->]; [|done]. unfold ring. by rewrite H.
Qed.

(** Writing the pointer of a free cell, or of [base], changes no size. *)
Lemma sized_ptr m T y v : sized m h0 T -> y ∈ ring T -> sized (wr y v m) h0 T.
Proof.
  intros HT Hy. apply elem_of_cons in Hy as [->|Hy].
  { eapply sized_ext; [|done]. intros x Hx. apply wr_out. lia. }
  destruct (frees_split _ _ _ _ HT Hy) as (Ta & k & Tb & -> & ->).
  apply sized_app in HT as [Ha (Hk1 & Hk2 & Hb)]. apply sized_app.
  split; [eapply sized_ext; [|done]; intros x Hx; apply wr_out; lia|].
  split; [done|]. split; [rewrite ld32_wr_far by lia; done|].
  eapply sized_ext; [|done]; intros x Hx; apply wr_out; lia.
Qed.

(** What [join_lower] leaves. *)
Definition lower_joined (p : Z) (T : list cell) (m m' : Z -> Z) : Prop :=
  sized m' h0 T /\ linked m' (ring T) base /\ ld32 m' (base + 4) = 0 /\ p ∈ ring T /\
  (forall x, x < p \/ p + 8 <= x -> m' x = m x).

Lemma lower_apart h bp N T1 T2 l1 p m' :
  sized (mem h) h0 T1 -> bp = h0 + 8 * total T1 ->
  sized (mem h) bp ((N, true) :: T2) -> linked (mem h) (bp :: frees (bp + 8 * N) T2) base ->
  ring T1 = l1 ++ [p] -> linked (mem h) l1 p -> ld32 (mem h) (base + 4) = 0 ->
  bp < KERNBASE -> m' = wr p bp (mem h) ->
  lower_joined p (T1 ++ (N, true) :: T2) (mem h) m'.
Proof.
  intros H1 Ebp H2 L2 Hr L1 Hb Hk ->. change KERNBASE with 2147483648 in *.
  pose proof (ring_sorted _ _ H1) as HS. rewrite Hr in HS. apply sorted_mid in HS as [HS _].
  pose proof (sized_total _ _ _ H1) as Ht1.
  assert (p = base \/ h0 <= p /\ p + 8 <= bp) as Hp.
  { assert (p ∈ ring T1) as Hp by (rewrite Hr; apply elem_of_app; right; left).
    apply elem_of_cons in Hp as [->|Hp]; [by left|]. right. eapply frees_range in Hp; [|done]. lia. }
  assert (ring (T1 ++ (N, true) :: T2) = l1 ++ p :: bp :: frees (bp + 8 * N) T2) as ER.
  { unfold ring. rewrite frees_app, app_comm_cons. change (base :: frees h0 T1) with (ring T1).
    rewrite Hr, <- Ebp. by rewrite <- app_assoc. }
  split; [|split; [|split; [|split]]].
  - apply sized_app. rewrite <- Ebp. split.
    + apply sized_ptr; [done|]. rewrite Hr. apply elem_of_app. right. left.
    + eapply sized_ext; [|done]. intros x Hx. apply wr_out. lia.
  - rewrite ER. apply links_app. split.
    + eapply links_frame; [|exact L1]. intros x Hx. specialize (HS _ Hx). apply ld32_wr_far.
      assert (x ∈ ring T1) as Hx' by (rewrite Hr; apply elem_of_app; by left).
      destruct (last_free _ _ _ _ H1 Hr) as [(_ & -> & _)|(Ta & k & Tb & -> & Ep & -> & _)]; [by apply not_elem_of_nil in Hx|].
      apply elem_of_cons in Hx as [->|Hx]; [lia|]. apply sized_app in H1 as [Ha _].
      eapply frees_range in Hx; [|exact Ha]. lia.
    + split; [rewrite ld32_wr; cbn [hd]; apply u32_small; lia|]. eapply links_ext; [|exact L2]. intros x y Hx Hy. apply wr_out.
      apply elem_of_cons in Hx as [->|Hx]; [lia|]. destruct H2 as (? & _ & H2). eapply frees_range in Hx; [|exact H2]. lia.
  - by rewrite ld32_wr_far by lia.
  - rewrite ER. apply elem_of_app. right. left.
  - intros x Hx. apply wr_out. lia.
Qed.

Lemma lower_merged h bp N Ta k T2 p m' :
  sized (mem h) h0 (Ta ++ [(k, true)]) -> p = h0 + 8 * total Ta -> bp = p + 8 * k ->
  sized (mem h) bp ((N, true) :: T2) -> linked (mem h) (bp :: frees (bp + 8 * N) T2) base ->
  linked (mem h) (ring Ta) p -> ld32 (mem h) (base + 4) = 0 ->
  bp + 8 * N + 8 * total T2 < KERNBASE ->
  m' = wr p (ld32 (wr (p + 4) (u32 (k + N)) (mem h)) bp) (wr (p + 4) (u32 (k + N)) (mem h)) ->
  lower_joined p (Ta ++ (k + N, true) :: T2) (mem h) m'.
Proof.
  intros H1 Ep Ebp (HN & _ & H2) [Hx L2] L1 Hb Htop ->. apply sized_app in H1 as [Ha (Hk & _ & _)].
  pose proof (first_range _ _ _ H2) as Hfr. change KERNBASE with 2147483648 in *.
  pose proof (sized_total _ _ _ Ha). pose proof (sized_total _ _ _ H2). specialize (Hfr ltac:(lia) ltac:(lia)).
  rewrite ld32_wr_far by lia. rewrite Hx. set (nx := hd base (frees (bp + 8 * N) T2)) in *.
  set (m' := wr p nx (wr (p + 4) (u32 (k + N)) (mem h))).
  assert (forall x, x < p \/ p + 8 <= x -> m' x = mem h x) as Hout.
  { intros x Hx'. unfold m'. by rewrite !wr_out by lia. }
  assert (ring (Ta ++ (k + N, true) :: T2) = ring Ta ++ p :: frees (bp + 8 * N) T2) as ER.
  { unfold ring. rewrite frees_app, <- Ep. replace (bp + 8 * N) with (p + 8 * (k + N)) by lia. done. }
  split; [|split; [|split; [|split]]].
  - apply sized_app. split; [eapply sized_ext; [|exact Ha]; intros x ?; apply Hout; lia|].
    split; [lia|]. rewrite <- Ep. split.
    + unfold m'. rewrite ld32_wr_far, ld32_wr, u32_idemp by lia. apply u32_small. lia.
    + replace (p + 8 * (k + N)) with (bp + 8 * N) by lia. eapply sized_ext; [|exact H2]. intros x ?. apply Hout. lia.
  - rewrite ER. apply links_app. split; [|split].
    + eapply links_ext; [|exact L1]. intros x y Hx' ?. apply Hout.
      apply elem_of_cons in Hx' as [->|Hx']; [lia|]. eapply frees_range in Hx'; [|exact Ha]. lia.
    + unfold m'. rewrite ld32_wr. by apply u32_small.
    + eapply links_ext; [|exact L2]. intros x y Hx' ?. apply Hout. eapply frees_range in Hx'; [|exact H2]. lia.
  - rewrite <- Hb. apply ld32_ext. intros x ?. apply Hout. lia.
  - rewrite ER. apply elem_of_app. right. left.
  - exact Hout.
Qed.

Lemma join_lower_run h bp n N T1 T2 T2' l1 p :
  norm (T1 ++ (n, false) :: T2) = T1 ++ (n, false) :: T2 ->
  sized (mem h) h0 T1 -> bp = h0 + 8 * total T1 ->
  sized (mem h) bp ((N, true) :: T2') -> linked (mem h) (bp :: frees (bp + 8 * N) T2') base ->
  norm ((N, true) :: T2') = (N, true) :: T2' ->
  ring T1 = l1 ++ [p] -> linked (mem h) l1 p -> ld32 (mem h) (base + 4) = 0 ->
  bp + 8 * N + 8 * total T2' < KERNBASE ->
  exists m', join_lower bp p h = Done tt (set_mem m' h) /\
    lower_joined p (norm (T1 ++ (N, true) :: T2')) (mem h) m'.
Proof.
  intros Hn H1 Ebp H2 L2 HX Hr L1 Hb Htop. unfold join_lower, size, ptr, set_size, set_ptr. rewrite bind_gets.
  assert (bp < KERNBASE) as Hbk. { destruct H2 as (? & _ & H2). apply sized_total in H2. lia. }
  pose proof (sized_total _ _ _ H1). pose proof (lower_apart h bp N T1 T2' l1 p _ H1 Ebp H2 L2 Hr L1 Hb Hbk eq_refl) as HA.
  destruct (last_free _ _ _ _ H1 Hr) as [(-> & -> & Hf)|(Ta & k & Tb & -> & Ep & -> & Hf)].
  - change KERNBASE with 2147483648 in *. rewrite Hb, hdr_small by lia. destruct (Z.eqb_spec (base + 8 * 0) bp); [lia|].
    eexists. split; [reflexivity|]. replace (norm _) with (T1 ++ (N, true) :: T2'); [exact HA|]. symmetry.
    destruct T1 as [|c T1 _] using rev_ind; [exact HX|]. destruct c as [k []].
    + rewrite frees_app in Hf. apply app_eq_nil in Hf as [_ Hf]. done.
    + rewrite <- app_assoc in *. by eapply norm_swap_used.
  - pose proof H1 as H1'. apply sized_app in H1 as [Ha (Hk & Hk' & Hb')]. rewrite <- Ep in *.
    rewrite total_app, total_cons in *. pose proof (sized_total _ _ _ Ha). pose proof (sized_total _ _ _ Hb').
    rewrite Hk', hdr_small by (change KERNBASE with 2147483648 in *; lia). destruct (Z.eqb_spec (p + 8 * k) bp) as [E|E].
    + assert (Tb = []) as ->. { destruct Tb; [done|]. pose proof (sized_nonempty _ _ _ Hb' ltac:(done)). lia. }
      destruct H2 as (HN & HNr & H2). rewrite bind_gets, HNr, bind_modify, bind_gets. eexists. split; [reflexivity|].
      rewrite <- app_assoc. simpl app. rewrite norm_merge_left.
      replace (norm _) with (Ta ++ (k + N, true) :: T2').
      * apply (lower_merged h bp N Ta k T2' p); try done.
      * symmetry. rewrite <- app_assoc in Hn. apply (norm_swap _ _ _ Hn); [|done].
        apply norm_cons; [by eapply norm_tail|]. intros _. by eapply norm_head_free.
    + eexists. split; [reflexivity|]. replace (norm _) with ((Ta ++ (k, true) :: Tb) ++ (N, true) :: T2'); [exact HA|].
      symmetry. destruct Tb as [|[j []] Tb _] using rev_ind; [change (total []) with 0 in *; lia| |].
      * rewrite frees_app in Hf. apply app_eq_nil in Hf as [_ Hf]. done.
      * rewrite app_comm_cons, app_assoc in *. rewrite <- (app_assoc _ [(j, false)]) in *. by eapply norm_swap_used.
Qed.

(** *** [free] *)

Lemma length_ring T : (length (ring T) <= S (length T))%nat.
Proof.
  unfold ring. simpl. apply le_n_S. generalize h0. induction T as [|[n b] T IH]; intros a; [done|].
  cbn [frees]. rewrite length_app. specialize (IH (a + 8 * n)). destruct b; simpl; lia.
Qed.
Lemma used_apart m T a k x y :
  sized m h0 T -> (a, k) ∈ used h0 T -> a <= x < a + 8 * k -> y ∈ ring T -> x < y \/ y + 8 <= x.
Proof.
  intros HT Hu Hx Hy. pose proof (used_range _ _ _ _ _ HT Hu). apply elem_of_cons in Hy as [->|Hy]; [lia|].
  destruct (frees_split _ _ _ _ HT Hy) as (T1 & n & T2 & -> & ->). rewrite used_app in Hu.
  apply sized_app in HT as [H1 (Hn & _ & H2)]. apply elem_of_app in Hu as [Hu|Hu].
  - pose proof (used_range _ _ _ _ _ H1 Hu). lia.
  - pose proof (used_range _ _ _ _ _ H2 Hu). lia.
Qed.
Lemma ring_used T1 n T2 : ring (T1 ++ (n, false) :: T2) = ring T1 ++ frees (h0 + 8 * total T1 + 8 * n) T2.
Proof. unfold ring. by rewrite frees_app. Qed.
Lemma ring_below m T x : sized m h0 T -> x ∈ ring T -> x = base \/ h0 <= x /\ x + 8 <= h0 + 8 * total T.
Proof. intros HT Hx. apply elem_of_cons in Hx as [->|Hx]; [by left|]. right. by eapply frees_range in Hx. Qed.

(** The loop of [free] finds the free cell below the block. *)
Lemma free_find_pred h T1 n T2 l1 p fuel :
  heap_ok h (T1 ++ (n, false) :: T2) -> ring T1 = l1 ++ [p] -> (length (T1 ++ T2) + 3 <= fuel)%nat ->
  free_find fuel (h0 + 8 * total T1) (freep h) h = Done p h.
Proof.
  intros [Hs Hl _ Hf _ _ _] Hr Hfuel. pose proof (ring_sorted _ _ Hs) as HS. pose proof (length_ring (T1 ++ (n, false) :: T2)) as Hlen.
  pose proof Hs as Hs'. apply sized_app in Hs' as [H1 (Hn & _ & H2)]. pose proof (sized_total _ _ _ H1).
  assert (p ∈ ring T1) as Hp by (rewrite Hr; apply elem_of_app; right; left). pose proof (ring_below _ _ _ H1 Hp) as Hpb.
  rewrite ring_used, Hr, <- app_assoc in *. simpl app in *.
  assert (forall x, x ∈ l1 ++ p :: frees (h0 + 8 * total T1 + 8 * n) T2 -> stops (mem h) (h0 + 8 * total T1) x = bool_decide (x = p)) as St.
  { intros x. eapply stops_pred; try done; [|lia|].
    - intros y Hy. rewrite cons_middle, app_assoc, <- Hr, <- ring_used in Hy. eapply ring_below in Hy; [|done]. lia.
    - intros y Hy. eapply frees_range in Hy; [|done]. lia. }
  assert (p ∈ l1 ++ p :: frees (h0 + 8 * total T1 + 8 * n) T2) as Hpin by (apply elem_of_app; right; left).
  destruct (decide (freep h = p)) as [->|Hne]; [apply free_find_here; by rewrite St, bool_decide_true|].
  destruct (ring_path (mem h) (l1 ++ p :: frees (h0 + 8 * total T1 + 8 * n) T2) (freep h) p) as (R & HR & Hin & Hlr); try done.
  { replace (hd 0 _) with base; [done|]. by destruct l1; injection Hr. }
  { by apply sorted_NoDup. }
  eapply free_find_run; [exact HR| |by rewrite St, bool_decide_true|].
  - intros x Hx. destruct (Hin _ Hx). by rewrite St, bool_decide_false.
  - rewrite !length_app in *. simpl in *. lia.
Qed.

Lemma free_run h T1 n T2 fuel :
  heap_ok h (T1 ++ (n, false) :: T2) -> (length (T1 ++ T2) + 3 <= fuel)%nat ->
  exists h', free fuel (h0 + 8 * total T1 + 8) h = Done tt h' /\
    heap_ok h' (norm (T1 ++ (n, true) :: T2)) /\ brk h' = brk h /\
    keeps (T1 ++ (n, true) :: T2) (mem h) (mem h').
Proof.
  intros Hok Hfuel. destruct (exists_last (l := ring T1)) as (l1 & p & Hr); [done|].
  pose proof (free_find_pred _ _ _ _ _ _ _ Hok Hr Hfuel) as Hfind. destruct Hok as [Hs Hl Hb _ Hn Hbrk Htop].
  pose proof Hs as Hs'. apply sized_app in Hs' as [H1 (Hn1 & Hrn & H2)]. pose proof (sized_total _ _ _ H1). pose proof (sized_total _ _ _ H2).
  assert (p ∈ ring T1) as Hp by (rewrite Hr; apply elem_of_app; right; left). pose proof (ring_below _ _ _ H1 Hp) as Hpb.
  rewrite ring_used, Hr, <- app_assoc in Hl. apply links_app in Hl as [L1 [Lp L2]]. cbn [hd] in L1. simpl app in L1, Lp.
  rewrite total_app, total_cons in Hbrk. set (bp := h0 + 8 * total T1) in *.
  destruct (join_upper_run h bp n p T2) as (m1 & R1 & N & T2' & HN & S1 & LN & Out1); try done; try lia.
  { by apply norm_app_r, norm_tail in Hn. }
  assert (N + total T2' = n + total T2) as HNt by (rewrite <- !(total_cons _ true), <- HN; apply total_norm).
  assert (linked m1 l1 p) as L1'.
  { eapply links_ext; [|exact L1]. intros x y Hx Hy. apply Out1.
    assert (x ∈ ring T1) as Hx' by (rewrite Hr; apply elem_of_app; by left). eapply ring_below in Hx'; [|done]. lia. }
  destruct (join_lower_run (set_mem m1 h) bp n N T1 T2 T2' l1 p) as (m2 & R2 & S2 & LR & Hb2 & Hin & Out2); try done; try lia.
  { cbn [mem set_mem]. eapply sized_ext; [|exact H1]. intros x Hx. apply Out1. lia. }
  { rewrite <- HN. apply norm_idem. }
  { cbn [mem set_mem]. rewrite <- Hb. apply ld32_ext. intros x Hx. apply Out1. lia. }
  cbn [mem set_mem] in *. assert (norm (T1 ++ (N, true) :: T2') = norm (T1 ++ (n, true) :: T2)) as EN.
  { rewrite <- HN. apply norm_app_norm. }
  rewrite EN in *. exists (set_freep p (set_mem m2 (set_mem m1 h))). split; [|split; [|split]].
  - unfold free. rewrite hdr_small by (change KERNBASE with 2147483648 in *; lia).
    replace (bp + 8 + 8 * -1) with bp by lia. rewrite bind_gets, (bind_Done _ _ _ _ _ Hfind), (bind_Done _ _ _ _ _ R1), (bind_Done _ _ _ _ _ R2). done.
  - split; try done; [apply norm_idem|]. cbn. rewrite total_norm, total_app, total_cons. lia.
  - done.
  - intros a k x Hu Hx. cbn [mem set_mem set_freep].
    assert (sized m2 h0 (norm (T1 ++ (n, true) :: T2))) as S2' by done. rewrite <- used_norm in Hu.
    pose proof (used_apart _ _ _ _ _ _ S2' Hu Hx Hin). rewrite Out2 by lia. apply Out1.
    rewrite used_norm, used_app in Hu. fold bp in Hu. apply elem_of_app in Hu as [Hu|Hu].
    + pose proof (used_range _ _ _ _ _ H1 Hu). lia.
    + pose proof (used_range _ _ _ _ _ H2 Hu). lia.
Qed.

(** *** Taking a cell *)

Lemma ring_apart m T x y : sized m h0 T -> x ∈ ring T -> y ∈ ring T -> x <> y -> x + 8 <= y \/ y + 8 <= x.
Proof.
  intros HT Hx Hy Hne. pose proof (ring_below _ _ _ HT Hx) as Hbx. pose proof (ring_below _ _ _ HT Hy) as Hby.
  apply elem_of_cons in Hx as [->|Hx]; [lia|]. destruct (frees_split _ _ _ _ HT Hx) as (T1 & n & T2 & -> & Ex).
  apply sized_app in HT as [H1 (Hn & _ & H2)]. apply elem_of_cons in Hy as [->|Hy]; [lia|].
  rewrite frees_app in Hy. cbn [frees] in Hy. rewrite !elem_of_app, list_elem_of_singleton in Hy.
  destruct Hy as [Hy|[Hy|Hy]]; [|lia|].
  - eapply frees_range in Hy; [|exact H1]. lia.
  - eapply frees_range in Hy; [|exact H2]. lia.
Qed.
Lemma ring_free T1 n T2 : ring (T1 ++ (n, true) :: T2) = ring T1 ++ (h0 + 8 * total T1) :: frees (h0 + 8 * total T1 + 8 * n) T2.
Proof. unfold ring. by rewrite frees_app. Qed.
Lemma norm_carve T1 n nu T2 :
  norm (T1 ++ (n, true) :: T2) = T1 ++ (n, true) :: T2 -> norm (T1 ++ carve n nu ++ T2) = T1 ++ carve n nu ++ T2.
Proof.
  intros H. assert (norm T2 = T2) as H2 by by apply norm_app_r, norm_tail in H.
  apply (norm_swap _ _ _ H); [|done]. unfold carve. case_cmp; simpl app; [by apply norm_cons|].
  apply norm_cons; [by apply norm_cons|done].
Qed.

(** The cell before a free cell in the ring *)
Lemma ring_pred m T1 n T2 y :
  sized m h0 (T1 ++ (n, true) :: T2) -> linked m (ring (T1 ++ (n, true) :: T2)) base ->
  y ∈ ring (T1 ++ (n, true) :: T2) -> ld32 m y = h0 + 8 * total T1 -> exists la, ring T1 = la ++ [y].
Proof.
  intros HT HL Hy Hr. pose proof (sorted_NoDup _ (ring_sorted _ _ HT)) as HN.
  apply list_elem_of_split in Hy as (la & lb & E). rewrite E in HL. apply links_app in HL as [_ [HL _]].
  apply sized_app in HT as [H1 _]. apply sized_total in H1. rewrite Hr in HL.
  destruct lb as [|x lb]; simpl in HL; [lia|]. subst x. exists la.
  rewrite ring_free in E, HN. rewrite (cons_middle y la), app_assoc in E.
  by apply NoDup_split_eq in E as [-> _].
Qed.

Lemma take_exact h T1 n T2 y :
  heap_ok h (T1 ++ (n, true) :: T2) -> y ∈ ring (T1 ++ (n, true) :: T2) -> ld32 (mem h) y = h0 + 8 * total T1 ->
  heap_ok (set_freep y (set_mem (wr y (ld32 (mem h) (h0 + 8 * total T1)) (mem h)) h)) (T1 ++ (n, false) :: T2).
Proof.
  intros [Hs HL Hb Hf Hn Hbrk Htop] Hy Hr. destruct (ring_pred _ _ _ _ _ Hs HL Hy Hr) as (la & Ela).
  pose proof (first_range (mem h) (h0 + 8 * total T1 + 8 * n) T2) as Hfr. pose proof (fun x Hx => ring_apart _ _ x y Hs Hx Hy) as Hap.
  pose proof Hs as Hs'. apply sized_app in Hs' as [H1 (Hn1 & _ & H2)]. pose proof (sized_total _ _ _ H1). pose proof (sized_total _ _ _ H2).
  rewrite total_app, total_cons in Hbrk. specialize (Hfr H2 ltac:(lia) ltac:(lia)).
  pose proof (sorted_NoDup _ (ring_sorted _ _ Hs)) as HN. rewrite ring_free, Ela in HL, HN, Hap. rewrite <- app_assoc in HL, HN, Hap.
  simpl app in HL, HN, Hap. apply links_app in HL as [La (_ & Hx & L2)]. cbn [hd] in La. rewrite Hx.
  apply NoDup_app in HN as (_ & Hd & HN). apply NoDup_cons in HN as [HN _].
  split; cbn [mem set_mem set_freep freep brk]; try done.
  - apply (sized_ptr _ _ y (hd base (frees (h0 + 8 * total T1 + 8 * n) T2))) in Hs; [|done]. by apply sized_app in Hs as [? ?]; apply sized_app.
  - rewrite ring_used, Ela, <- app_assoc. apply links_app. split; [|split].
    + eapply links_frame; [|exact La]. intros x Hx'. apply ld32_wr_far.
      assert (x <> y) as Hne by (intros ->; apply (Hd _ Hx'); left).
      destruct (Hap x); [apply elem_of_app; by left|done|lia|lia].
    + cbn [hd]. rewrite ld32_wr. by apply u32_small.
    + eapply links_frame; [|exact L2]. intros x Hx'. apply ld32_wr_far.
      assert (x <> y) as Hne by (intros ->; apply HN; by right).
      destruct (Hap x); [apply elem_of_app; right; right; by right|done|lia|lia].
  - rewrite ld32_wr_far; [done|]. pose proof (ring_below _ _ _ Hs Hy). lia.
  - rewrite ring_used, Ela. apply elem_of_app. left. apply elem_of_app. right. left.
  - pose proof (norm_carve _ _ n _ Hn) as Hc. unfold carve in Hc. by rewrite Z.eqb_refl in Hc.
  - rewrite total_app, total_cons. lia.
Qed.
End Heap.
