(* ===== verification/UmallocMain.v ===== *)
(** UmallocMain: [malloc] and [free] of umalloc.c refine the row of cells of
    UmallocProof.v. *)

From Stdlib Require Import Sorted.
From S2P Require Import Prelude Kernel StringLib Words Umalloc UmallocProof.

Section Malloc.
Context (base h0 : Z) (pages : Z -> Z -> bool).
Context (Hbase : 0 < base) (Hlow : base + 8 <= h0).

Notation ring := (ring base h0).
Notation heap_ok := (heap_ok base h0).
Notation keeps := (keeps h0).

(** ** Taking a cell *)

Lemma take_split h T1 n T2 nu y :
  heap_ok h (T1 ++ (n, true) :: T2) -> y ∈ ring (T1 ++ (n, true) :: T2) -> 1 <= nu < n ->
  let x := h0 + 8 * total T1 in
  heap_ok (set_freep y (set_mem (wr (x + 8 * (n - nu) + 4) nu (wr (x + 4) (n - nu) (mem h))) h))
    (T1 ++ [(n - nu, true); (nu, false)] ++ T2).
Proof.
  intros [Hs HL Hb Hf Hn Hbrk Htop] Hy Hnu x. pose proof Hs as Hs'. apply sized_app in Hs' as [H1 (Hn1 & _ & H2)].
  pose proof (sized_total _ _ _ H1). pose proof (sized_total _ _ _ H2). fold x in H2.
  rewrite total_app, total_cons in Hbrk. change KERNBASE with 2147483648 in *.
  set (m' := wr _ _ _). assert (forall z, z < x + 4 \/ x + 8 <= z -> z < x + 8 * n - 8 * nu \/ x + 8 * n <= z -> m' z = mem h z) as Hout.
  { intros z Hz Hz'. unfold m'. rewrite !wr_out by lia. done. }
  assert (ring (T1 ++ [(n - nu, true); (nu, false)] ++ T2) = ring (T1 ++ (n, true) :: T2)) as ER.
  { cbn [app]. rewrite !ring_free. cbn [frees app].
    by replace (h0 + 8 * total T1 + 8 * (n - nu) + 8 * nu) with (h0 + 8 * total T1 + 8 * n) by lia. }
  split; cbn [mem set_mem set_freep freep brk]; try done.
  - apply sized_app. split; [eapply sized_ext; [|exact H1]; intros z Hz; apply Hout; lia|]. fold x.
    split; [lia|]. split; [unfold m'; rewrite ld32_wr_far, ld32_wr by lia; apply u32_small; lia|].
    split; [lia|]. split; [unfold m'; rewrite ld32_wr; apply u32_small; lia|].
    replace (x + 8 * (n - nu) + 8 * nu) with (x + 8 * n) by lia.
    eapply sized_ext; [|exact H2]. intros z Hz. apply Hout; lia.
  - rewrite ER. eapply links_ext; [|exact HL]. intros z w Hz Hw.
    rewrite ring_free in Hz. fold x in Hz. rewrite elem_of_app, elem_of_cons in Hz. destruct Hz as [Hz|[->|Hz]].
    + pose proof (ring_below _ _ _ _ _ H1 Hz). apply Hout; lia.
    + apply Hout; lia.
    + eapply frees_range in Hz; [|exact H2]. apply Hout; lia.
  - rewrite <- Hb. apply ld32_ext. intros z Hz. apply Hout; lia.
  - by rewrite ER.
  - pose proof (norm_carve T1 n nu T2 Hn) as Hc. unfold carve in Hc. by rewrite (proj2 (Z.eqb_neq _ _)) in Hc by lia.
  - rewrite !total_app, !total_cons. change (total []) with 0. lia.
Qed.

(** What [malloc] grants out of a row: the upper [nu] units of a free cell. *)
Definition granted (nu : Z) (T T' : list (Z * bool)) (r : Z) : Prop :=
  exists T1 n T2, T = T1 ++ (n, true) :: T2 /\ nu <= n /\ T' = T1 ++ carve n nu ++ T2 /\
    r = h0 + 8 * (total T1 + (n - nu)) + 8.

Lemma keeps_wr T m m' w v z :
  sized m h0 T -> keeps T m m' -> z ∈ ring T -> z <= w -> w + 4 <= z + 8 -> keeps T m (wr w v m').
Proof.
  intros HT HK Hz H1 H2 a k x Hu Hx. pose proof (used_apart _ _ Hlow _ _ _ _ _ _ HT Hu Hx Hz).
  rewrite wr_out by lia. by eapply HK.
Qed.
Lemma keeps_refl T m : keeps T m m.
Proof. done. Qed.

Lemma allot_run h T nu y x :
  heap_ok h T -> y ∈ ring T -> x ∈ ring T -> ld32 (mem h) y = x -> 1 <= nu <= ld32 (mem h) (x + 4) ->
  exists r h' T', allot nu y x h = Done r h' /\ heap_ok h' T' /\ granted nu T T' r /\ keeps T (mem h) (mem h').
Proof.
  intros Hok Hy Hx Hr Hnu. pose proof Hok as [Hs HL Hb Hf Hn Hbrk Htop].
  apply elem_of_cons in Hx as [->|Hx]; [lia|].
  destruct (frees_split _ _ _ _ Hs Hx) as (T1 & n & T2 & -> & Ex).
  pose proof Hs as Hs'. apply sized_app in Hs' as [H1 (Hn1 & Hrn & H2)]. rewrite <- Ex in Hrn.
  pose proof (sized_total _ _ _ H1). pose proof (sized_total _ _ _ H2). rewrite Hrn in Hnu.
  assert (x ∈ ring (T1 ++ (n, true) :: T2)) as Hxin by by right.
  change KERNBASE with 2147483648 in *. rewrite Hbrk, total_app, total_cons in Htop.
  unfold allot, size, ptr, set_ptr, set_size. rewrite bind_gets, Hrn.
  destruct (Z.eqb_spec n nu) as [->|Hne]; cbn [bind obind gets modify ret mem set_mem].
  - eexists (x + 8), _, (T1 ++ (nu, false) :: T2). unfold hdr. rewrite Z.mul_1_r, u32_small by lia.
    split; [reflexivity|]. rewrite Ex in Hr. split; [rewrite Ex; by apply (take_exact _ _ Hbase Hlow)|]. split.
    + exists T1, nu, T2. unfold carve. rewrite Z.eqb_refl. repeat split; lia.
    + cbn [mem set_mem set_freep]. eapply keeps_wr; [exact Hs|apply keeps_refl|exact Hy|lia|lia].
  - rewrite ld32_wr, u32_idemp, (u32_small (n - nu)) by lia. unfold hdr. rewrite Z.mul_1_r, (u32_small (x + _)), u32_small by (rewrite ?u32_small; lia).
    eexists _, _, _. split; [reflexivity|]. split; [|split].
    + rewrite Ex. apply (take_split h T1 n T2 nu y); [done|done|lia].
    + exists T1, n, T2. unfold carve. rewrite (proj2 (Z.eqb_neq _ _)) by done. repeat split; lia.
    + cbn [mem set_mem set_freep]. intros a k z Hu Hz.
      assert (z < x \/ x + 8 * n <= z) as Hzx.
      { rewrite used_app in Hu. rewrite <- Ex in *. apply elem_of_app in Hu as [Hu|Hu].
        - pose proof (used_range _ _ _ _ _ H1 Hu). lia.
        - pose proof (used_range _ _ _ _ _ H2 Hu). lia. }
      rewrite !wr_out by lia. done.
Qed.

(** ** The search *)

Lemma ring_round h T :
  heap_ok h T -> exists R, linked (mem h) (freep h :: R) (freep h) /\ (length R <= length T)%nat /\
    (forall x, x ∈ R -> x ∈ ring T /\ x <> freep h) /\ (forall x, x ∈ ring T -> x = freep h \/ x ∈ R).
Proof.
  intros [Hs HL _ Hf _ _ _]. pose proof (sorted_NoDup _ (ring_sorted _ _ Hlow _ _ Hs)) as HN.
  pose proof (length_ring base h0 T) as Hlen.
  assert (hd 0 (ring T) = base) as Hh by done. apply list_elem_of_split in Hf as (la & lb & E). rewrite E in *.
  exists (lb ++ la). split; [|split; [|split]].
  - apply links_app in HL as [L1 L2]. apply (links_app _ (freep h :: lb)). split; [|exact L1].
    destruct la as [|z la]; simpl in Hh; subst; exact L2.
  - rewrite length_app in *. simpl in Hlen. lia.
  - apply NoDup_app in HN as (_ & Hd & HN). apply NoDup_cons in HN as [HN _].
    intros x Hx. rewrite elem_of_app, elem_of_cons. rewrite elem_of_app in Hx. split; [tauto|]. intros ->.
    destruct Hx as [Hx|Hx]; [done|]. apply (Hd _ Hx). left.
  - intros x Hx. rewrite elem_of_app, elem_of_cons in Hx. rewrite elem_of_app. tauto.
Qed.

(** A turn of the loop at a block that is too small *)
Lemma malloc_loop_small h nu q p fuel :
  ld32 (mem h) (p + 4) < nu ->
  malloc_loop pages (S fuel) nu q p h =
    (if p =? freep h then
       let! p := morecore pages (S fuel) nu in
       if p =? 0 then ret 0 else
       let! n := ptr p in
       malloc_loop pages fuel nu p n
     else malloc_loop pages fuel nu p (ld32 (mem h) p)) h.
Proof.
  intros Hs. cbn [malloc_loop]. unfold size. rewrite bind_gets, (proj2 (Z.leb_gt _ _)) by done.
  rewrite bind_gets. by destruct (p =? freep h).
Qed.
Lemma malloc_loop_fits h nu q p fuel :
  nu <= ld32 (mem h) (p + 4) -> malloc_loop pages fuel nu q p h = allot nu q p h.
Proof.
  intros Hs. destruct fuel; cbn [malloc_loop]; unfold size; by rewrite bind_gets, (proj2 (Z.leb_le _ _)).
Qed.

(** The loop stops at the first block that is big enough, or comes back to
    where it began. *)
Lemma malloc_scan h T nu R q fuel :
  heap_ok h T -> linked (mem h) (q :: R) (freep h) -> q ∈ ring T -> (forall x, x ∈ R -> x ∈ ring T /\ x <> freep h) ->
  (length R < fuel)%nat ->
  (exists y x, y ∈ ring T /\ x ∈ ring T /\ ld32 (mem h) y = x /\ nu <= ld32 (mem h) (x + 4) /\
     malloc_loop pages fuel nu q (hd (freep h) R) h = allot nu y x h) \/
  ((forall x, x = freep h \/ x ∈ R -> ld32 (mem h) (x + 4) < nu) /\
   exists q', malloc_loop pages fuel nu q (hd (freep h) R) h = malloc_loop pages (fuel - length R) nu q' (freep h) h).
Proof.
  intros Hok. pose proof (ok_freep _ _ _ _ Hok) as Hfp. revert q fuel. induction R as [|p R IH]; intros q fuel [Hq HL] Hqin Hin Hf; cbn [hd].
  - destruct (Z.lt_ge_cases (ld32 (mem h) (freep h + 4)) nu) as [Hs|Hs].
    + right. split; [|exists q; by rewrite Nat.sub_0_r]. intros x [->|Hx]; [done|by apply not_elem_of_nil in Hx].
    + left. exists q, (freep h). split; [done|]. split; [done|]. split; [done|]. split; [done|]. by apply malloc_loop_fits.
  - destruct (Hin p (list_elem_of_here _ _)) as [Hpin Hpne].
    destruct (Z.lt_ge_cases (ld32 (mem h) (p + 4)) nu) as [Hs|Hs].
    + destruct fuel as [|fuel]; [simpl in Hf; lia|]. rewrite malloc_loop_small, (proj2 (Z.eqb_neq _ _)) by done.
      destruct HL as [Hp HL]. rewrite Hp.
      destruct (IH p fuel) as [Hl|[Hall (q' & Hr)]]; [by split|done| |simpl in Hf; lia|by left|].
      { intros x Hx. apply Hin. by right. }
      right. split; [|by exists q'; rewrite Hr]. intros x [->|Hx]; [by apply Hall; left|].
      apply elem_of_cons in Hx as [->|Hx]; [done|]. apply Hall. by right.
    + left. exists q, p. split; [done|]. split; [done|]. split; [done|]. split; [done|]. by apply malloc_loop_fits.
Qed.

(** ** More memory *)

Definition can_grow (sz N : Z) : bool := (sz + 8 * N <? KERNBASE) && pages sz (8 * N).

Lemma sbrk_run h N :
  0 < N -> 8 * N < 2 ^ 31 -> 0 <= brk h < KERNBASE ->
  sbrk pages (u32 (N * 8)) h =
    if can_grow (brk h) N then Done (brk h) (set_brk (brk h + 8 * N) h) else Done (u32 (-1)) h.
Proof.
  intros H1 H2 H3. change KERNBASE with 2147483648 in *. unfold sbrk, can_grow. rewrite bind_gets.
  rewrite (u32_small (N * 8)), (i32_small (N * 8)), (u32_small (brk h + N * 8)), (Z.mul_comm N) by lia.
  change KERNBASE with 2147483648. rewrite (proj2 (Z.ltb_lt _ _)) by lia.
  destruct (Z.leb_spec 2147483648 (brk h + 8 * N)), (Z.ltb_spec (brk h + 8 * N) 2147483648); try lia; [done|].
  rewrite (proj2 (Z.ltb_ge _ _)) by lia. by destruct (pages (brk h) (8 * N)).
Qed.

Lemma morecore_run h T nu fuel :
  heap_ok h T -> 1 <= nu -> let N := Z.max 4096 nu in 8 * N < 2 ^ 31 -> (length T + 3 <= fuel)%nat ->
  if can_grow (brk h) N then
    exists h', morecore pages fuel nu h = Done (freep h') h' /\ heap_ok h' (norm (T ++ [(N, true)])) /\
      keeps T (mem h) (mem h')
  else morecore pages fuel nu h = Done 0 h.
Proof.
  intros Hok Hnu N HN Hf. pose proof Hok as [Hs HL Hb Hfp Hn Hbrk Htop]. pose proof (sized_total _ _ _ Hs).
  assert (morecore pages fuel nu h = (let! p := sbrk pages (u32 (N * 8)) in
      if p =? u32 (-1) then ret 0 else set_size p N ;;; free fuel (hdr p 1) ;;; gets freep) h) as ->.
  { unfold morecore, N. case_cmp; [by rewrite Z.max_l by lia|by rewrite Z.max_r by lia]. }
  pose proof (sbrk_run h N ltac:(lia) HN ltac:(lia)) as Hsb. destruct (can_grow (brk h) N) eqn:Eg; [|by rewrite (bind_Done _ _ _ _ _ Hsb)].
  rewrite (bind_Done _ _ _ _ _ Hsb). unfold can_grow in Eg. b2p. change KERNBASE with 2147483648 in *.
  rewrite (proj2 (Z.eqb_neq _ _)) by (change (u32 (-1)) with 4294967295; lia). unfold set_size. rewrite bind_modify.
  set (h1 := set_mem _ _). assert (forall x, x < brk h -> mem h1 x = mem h x) as Hout by (intros x Hx; apply wr_out; lia).
  assert (heap_ok h1 (T ++ [(N, false)])) as Hok1.
  { assert (ring (T ++ [(N, false)]) = ring T) as ER by (rewrite ring_used; simpl; by rewrite app_nil_r). split; try rewrite ER; try done.
    - apply sized_app. split; [eapply sized_ext; [|exact Hs]; intros x Hx; apply Hout; lia|].
      split; [lia|]. split; [|done]. unfold h1. cbn [mem set_mem]. rewrite <- Hbrk, ld32_wr. apply u32_small. lia.
    - eapply links_ext; [|exact HL]. intros x y Hx Hy. apply Hout. eapply ring_below in Hx; [|done]. lia.
    - rewrite <- Hb. apply ld32_ext. intros x Hx. apply Hout. lia.
    - rewrite <- (app_nil_r T) in Hn. by apply (norm_swap _ _ _ Hn).
    - unfold h1. cbn [brk set_mem set_brk]. rewrite total_app, total_cons. change (total []) with 0. lia. }
  destruct (free_run _ _ Hbase Hlow h1 T N [] fuel Hok1) as (h' & R & Hok' & _ & HK); [rewrite app_nil_r; lia|].
  exists h'. unfold hdr. rewrite Z.mul_1_r, u32_small by lia. rewrite <- Hbrk in R. split; [by rewrite (bind_Done _ _ _ _ _ R)|].
  split; [done|]. intros a k x Hu Hx. pose proof (used_range _ _ _ _ _ Hs Hu). rewrite <- Hout by lia. eapply HK; [|exact Hx].
  rewrite used_app. apply elem_of_app. by left.
Qed.

(** ** [malloc] *)

(** Some free cell of the row has [nu] units. *)
Definition fits (nu : Z) (T : list (Z * bool)) : bool := existsb (fun c => c.2 && (nu <=? c.1)) T.

Lemma fits_ring h T nu :
  heap_ok h T -> 1 <= nu -> fits nu T = true <-> exists x, x ∈ ring T /\ nu <= ld32 (mem h) (x + 4).
Proof.
  intros [Hs _ Hb _ _ _ _] Hnu. unfold fits. rewrite existsb_exists. split.
  - intros ([n b] & Hin & Hc). simpl in Hc. apply andb_prop in Hc as [-> Hc]. apply Z.leb_le in Hc.
    apply list_elem_of_In, list_elem_of_split in Hin as (T1 & T2 & ->).
    exists (h0 + 8 * total T1). apply sized_app in Hs as [_ (_ & -> & _)]. split; [|done].
    rewrite ring_free. apply elem_of_app. right. left.
  - intros (x & Hx & Hn). apply elem_of_cons in Hx as [->|Hx]; [lia|].
    destruct (frees_split _ _ _ _ Hs Hx) as (T1 & n & T2 & -> & ->). apply sized_app in Hs as [_ (_ & Hr & _)].
    exists (n, true). split; [apply list_elem_of_In, elem_of_app; right; left|]. rewrite Hr in Hn. simpl. by apply Z.leb_le.
Qed.
Lemma sized_pos m a T : sized m a T -> Forall (fun c => 1 <= c.1) T.
Proof. revert a. induction T as [|[n b] T IH]; intros a; [constructor|]. intros (Hn & _ & HT). constructor; [done|by eapply IH]. Qed.
Lemma norm_pos T : Forall (fun c => 1 <= c.1) T -> Forall (fun c => 1 <= c.1) (norm T).
Proof.
  induction 1 as [|[n b] T Hn HT IH]; [constructor|]. simpl in Hn.
  destruct b; [rewrite norm_cons_free|rewrite norm_cons_used; by constructor].
  destruct (norm T) as [|[k []] T']; [by constructor| |by constructor].
  apply Forall_cons in IH as [Hk IH]. simpl in Hk. constructor; [simpl; lia|done].
Qed.
Lemma fits_cons nu n b T : fits nu ((n, b) :: T) = (b && (nu <=? n)) || fits nu T.
Proof. done. Qed.
Lemma fits_norm nu T : Forall (fun c => 1 <= c.1) T -> fits nu T = true -> fits nu (norm T) = true.
Proof.
  induction 1 as [|[n b] T Hn HT IH]; [done|]. simpl in Hn.
  destruct b; [|by rewrite norm_cons_used, !fits_cons]. rewrite norm_cons_free, fits_cons. intros Hf.
  pose proof (norm_pos T HT) as Hp. destruct (norm T) as [|[k []] T'].
  - rewrite fits_cons. apply orb_true_iff in Hf as [Hf|Hf]; [by rewrite Hf|by apply IH in Hf].
  - apply Forall_cons in Hp as [Hk _]. simpl in Hk. rewrite fits_cons in *.
    apply orb_true_iff in Hf as [Hf|Hf]; [b2p; by rewrite (proj2 (Z.leb_le _ _)) by lia|].
    apply IH, orb_true_iff in Hf as [Hf|Hf]; [b2p; by rewrite (proj2 (Z.leb_le _ _)) by lia|]. rewrite Hf. apply orb_true_r.
  - rewrite !fits_cons. apply orb_true_iff in Hf as [Hf|Hf]; [by rewrite Hf|]. apply IH in Hf. rewrite fits_cons in Hf. rewrite Hf. apply orb_true_r.
Qed.

(** One round of the ring *)
Lemma malloc_round h T nu fuel :
  heap_ok h T -> 1 <= nu -> (length T < fuel)%nat ->
  if fits nu T then
    exists r h' T', malloc_loop pages fuel nu (freep h) (ld32 (mem h) (freep h)) h = Done r h' /\
      heap_ok h' T' /\ granted nu T T' r /\ keeps T (mem h) (mem h')
  else ld32 (mem h) (freep h + 4) < nu /\ exists fuel' q, (fuel - length T <= fuel')%nat /\
    malloc_loop pages fuel nu (freep h) (ld32 (mem h) (freep h)) h = malloc_loop pages fuel' nu q (freep h) h.
Proof.
  intros Hok Hnu Hf. destruct (ring_round _ _ Hok) as (R & HL & Hlen & Hin & Hall).
  pose proof (fits_ring _ _ nu Hok Hnu) as Hfit. pose proof HL as [Hr _]. rewrite Hr.
  destruct (malloc_scan h T nu R (freep h) fuel Hok HL (ok_freep _ _ _ _ Hok) Hin ltac:(lia)) as [(y & x & Hy & Hx & Hyx & Hn & E)|[Hno (q & E)]].
  - rewrite (proj2 Hfit) by eauto. rewrite E. by apply allot_run.
  - destruct (fits nu T).
    + exfalso. destruct (proj1 Hfit eq_refl) as (x & Hx & Hn). specialize (Hno x (Hall _ Hx)). lia.
    + split; [apply Hno; by left|]. exists (fuel - length R)%nat, q. split; [lia|done].
Qed.

(** The outcome of a request of [nu] units on the row [T] of a process of
    [sz] bytes: null when no free cell is big enough and the process cannot
    grow, and else the units of a free cell, after growing only if it must. *)
Definition malloc_outcome (sz nu : Z) (T T' : list (Z * bool)) (r : Z) : Prop :=
  let N := Z.max 4096 nu in
  if fits nu T then granted nu T T' r
  else if can_grow sz N then granted nu (norm (T ++ [(N, true)])) T' r
  else r = 0 /\ T' = T.

Lemma malloc_search h T nu fuel :
  heap_ok h T -> 1 <= nu -> 8 * Z.max 4096 nu < 2 ^ 31 -> (2 * length T + 3 <= fuel)%nat ->
  exists r h' T', malloc_loop pages fuel nu (freep h) (ld32 (mem h) (freep h)) h = Done r h' /\
    heap_ok h' T' /\ malloc_outcome (brk h) nu T T' r /\ keeps T (mem h) (mem h').
Proof.
  intros Hok Hnu HN Hf. unfold malloc_outcome. pose proof (malloc_round h T nu fuel Hok Hnu ltac:(lia)) as H1.
  destruct (fits nu T) eqn:Ef; [done|]. destruct H1 as [Hs (fuel' & q & Hf' & ->)].
  destruct fuel' as [|fuel']; [lia|]. rewrite malloc_loop_small, Z.eqb_refl by done.
  pose proof (morecore_run h T nu (S fuel') Hok Hnu HN ltac:(lia)) as H2. cbv zeta in H2.
  destruct (can_grow (brk h) (Z.max 4096 nu)); [|by exists 0, h, T; rewrite (bind_Done _ _ _ _ _ H2)].
  destruct H2 as (h1 & R & Hok1 & HK1). rewrite (bind_Done _ _ _ _ _ R). pose proof Hok1 as [Hs1 _ _ Hfp1 _ _ _].
  assert (freep h1 <> 0) as Hne by (pose proof (ring_below _ _ _ _ _ Hs1 Hfp1); lia).
  rewrite (proj2 (Z.eqb_neq _ _)) by done. unfold ptr. rewrite bind_gets.
  set (N := Z.max 4096 nu) in *. set (T0 := norm (T ++ [(N, true)])) in *.
  pose proof (length_norm (T ++ [(N, true)])) as Hlen. rewrite length_app in Hlen. simpl in Hlen. fold T0 in Hlen.
  pose proof (malloc_round h1 T0 nu fuel' Hok1 Hnu ltac:(lia)) as H3.
  assert (fits nu T0 = true) as Hfit.
  { apply fits_norm.
    - apply Forall_app. split; [by eapply sized_pos, Hok|]. constructor; [simpl; lia|constructor].
    - unfold fits. rewrite existsb_app. simpl. rewrite (proj2 (Z.leb_le nu N)) by lia. apply orb_true_r. }
  rewrite Hfit in H3. destruct H3 as (r & h' & T' & E & Hok' & Hg & HK). exists r, h', T'. split; [done|].
  split; [done|]. split; [done|]. intros a k x Hu Hx. rewrite <- (HK1 a k x Hu Hx). apply (HK a k x); [|done].
  unfold T0. rewrite used_norm, used_app. apply elem_of_app. by left.
Qed.

(** The heap of a program that has called only [malloc] and [free]: not used
    yet, or a row of cells. *)
Definition heap_rep (h : heap) (T : list (Z * bool)) : Prop :=
  (freep h = 0 /\ T = [] /\ brk h = h0 /\ h0 < KERNBASE) \/ heap_ok h T.

(** Memory in which the program has written into the blocks it was given. *)
Definition owned (T : list (Z * bool)) (m m' : Z -> Z) : Prop :=
  forall x, m' x = m x \/ exists a k, (a, k) ∈ used h0 T /\ a + 8 <= x < a + 8 * k.

Lemma nunits_range nbytes :
  0 <= nbytes <= 2 ^ 31 - 16 ->
  1 <= nunits nbytes /\ 8 * Z.max 4096 (nunits nbytes) < 2 ^ 31 /\ nbytes <= 8 * (nunits nbytes - 1).
Proof.
  intros H. unfold nunits. rewrite (u32_small (nbytes + 8 - 1)) by lia.
  pose proof (Z.div_mod (nbytes + 8 - 1) 8 ltac:(lia)). pose proof (Z.mod_pos_bound (nbytes + 8 - 1) 8 ltac:(lia)).
  rewrite u32_small by lia. lia.
Qed.

(** The first call makes the ring of [base] alone. *)
Lemma init_ok h :
  brk h = h0 -> h0 < KERNBASE ->
  heap_ok (set_mem (wr (base + 4) 0 (wr base base (mem h))) (set_freep base h)) [].
Proof.
  intros Hb Hk. change KERNBASE with 2147483648 in *. split; cbn [mem set_mem set_freep freep brk]; try done.
  - split; [|done]. cbn [hd frees]. rewrite ld32_wr_far, ld32_wr by lia. apply u32_small. lia.
  - rewrite ld32_wr. done.
  - left.
  - rewrite Hb. change (total []) with 0. lia.
  - by rewrite Hb.
Qed.

(** The inside of a block in use meets no header. *)
Lemma header_apart m a T1 n b T2 y k x :
  sized m a (T1 ++ (n, b) :: T2) -> (y, k) ∈ used a (T1 ++ (n, b) :: T2) -> y + 8 <= x < y + 8 * k ->
  x < a + 8 * total T1 \/ a + 8 * total T1 + 8 <= x.
Proof.
  intros HT Hu Hx. apply sized_app in HT as [H1 (Hn & _ & H2)]. rewrite used_app in Hu. cbn [used] in Hu.
  rewrite !elem_of_app in Hu. destruct Hu as [Hu|[Hu|Hu]].
  - pose proof (used_range _ _ _ _ _ H1 Hu). lia.
  - destruct b; [by apply not_elem_of_nil in Hu|]. apply list_elem_of_singleton in Hu. injection Hu as -> ->. lia.
  - pose proof (used_range _ _ _ _ _ H2 Hu). lia.
Qed.
Lemma sized_heads m m' a T :
  (forall T1 c T2, T = T1 ++ c :: T2 -> ld32 m' (a + 8 * total T1 + 4) = ld32 m (a + 8 * total T1 + 4)) ->
  sized m a T -> sized m' a T.
Proof.
  revert a. induction T as [|[n b] T IH]; intros a Hh; [done|]. intros (Hn & Hr & HT). split; [done|]. split.
  - rewrite <- Hr. specialize (Hh [] (n, b) T eq_refl). change (total []) with 0 in Hh. by rewrite Z.mul_0_r, Z.add_0_r in Hh.
  - apply IH; [|done]. intros T1 c T2 ->. specialize (Hh ((n, b) :: T1) c T2 eq_refl). rewrite total_cons in Hh.
    by replace (a + 8 * n + 8 * total T1) with (a + 8 * (n + total T1)) by lia.
Qed.

Lemma owned_ok h T m : heap_ok h T -> owned T (mem h) m -> heap_ok (set_mem m h) T.
Proof.
  intros [Hs HL Hb Hf Hn Hbrk Htop] Ho.
  assert (forall T1 c T2, T = T1 ++ c :: T2 -> forall x, h0 + 8 * total T1 <= x < h0 + 8 * total T1 + 8 -> m x = mem h x) as Hh.
  { intros T1 [n b] T2 -> x Hx. destruct (Ho x) as [->|(y & k & Hu & Hy)]; [done|].
    pose proof (header_apart _ _ _ _ _ _ _ _ _ Hs Hu Hy). lia. }
  assert (forall x, x < h0 -> m x = mem h x) as Hlo.
  { intros x Hx. destruct (Ho x) as [->|(y & k & Hu & Hy)]; [done|]. pose proof (used_range _ _ _ _ _ Hs Hu). lia. }
  split; cbn [mem set_mem freep brk]; try done.
  - eapply sized_heads; [|exact Hs]. intros T1 c T2 E. apply ld32_ext. intros x Hx. apply (Hh _ _ _ E). lia.
  - eapply links_ext; [|exact HL]. intros x y Hx Hy. apply elem_of_cons in Hx as [->|Hx]; [apply Hlo; lia|].
    destruct (frees_split _ _ _ _ Hs Hx) as (T1 & n & T2 & E & ->). apply (Hh _ _ _ E). lia.
  - rewrite <- Hb. apply ld32_ext. intros x Hx. apply Hlo. lia.
Qed.

(** A merged row with nothing in use is one cell. *)
Lemma all_free a T : norm T = T -> used a T = [] -> T <> [] -> T = [(total T, true)].
Proof.
  intros Hn Hu Hne. destruct T as [|[n []] T]; [done| |done]. destruct T as [|[k []] T]; [| |done].
  - by rewrite total_cons, Z.add_0_r.
  - by apply (norm_no_adj [] n k T) in Hn.
Qed.
End Malloc.

(** C31: [malloc] on any heap a program reaches with [malloc], [free] and writes
    into its own blocks.  It always returns.  It fails exactly when no free
    cell is big enough and the process cannot grow; otherwise the block is a
    part of what was free, has room for the bytes asked for, and the process
    grows only when nothing fits.  The blocks in use keep their bytes. *)
Theorem malloc_correct (base h0 : Z) (pages : Z -> Z -> bool) h T nbytes fuel :
  0 < base -> base + 8 <= h0 -> heap_rep base h0 h T -> 0 <= nbytes <= 2 ^ 31 - 16 -> (2 * length T + 3 <= fuel)%nat ->
  nbytes <= 8 * (nunits nbytes - 1) /\
  exists r h' T', malloc base pages fuel nbytes h = Done r h' /\ heap_rep base h0 h' T' /\
    malloc_outcome h0 pages (brk h) (nunits nbytes) T T' r /\ keeps h0 T (mem h) (mem h').
Proof.
  intros Hb Hl Hrep Hn Hf. destruct (nunits_range _ Hn) as (H1 & H2 & H3). split; [done|].
  unfold malloc. rewrite bind_gets. destruct Hrep as [(E0 & -> & Hbrk & Hk)|Hok].
  - rewrite E0, Z.eqb_refl. unfold set_ptr, set_size. cbn [bind obind modify ret]. unfold ptr. rewrite bind_gets.
    pose proof (init_ok base h0 Hb Hl h Hbrk Hk) as Hok. set (h1 := set_mem _ _) in *.
    destruct (malloc_search base h0 pages Hb Hl h1 [] (nunits nbytes) fuel Hok H1 H2 Hf) as (r & h' & T' & R & Hok' & Ho & _).
    exists r, h', T'. split; [exact R|]. split; [by right|]. split; [exact Ho|].
    intros a k x Hu. by apply not_elem_of_nil in Hu.
  - assert (freep h <> 0) as Hne by (pose proof (ring_below _ _ _ _ _ (ok_sized _ _ _ _ Hok) (ok_freep _ _ _ _ Hok)); lia).
    rewrite (proj2 (Z.eqb_neq _ _)), bind_ret by done. unfold ptr. rewrite bind_gets.
    destruct (malloc_search base h0 pages Hb Hl h T (nunits nbytes) fuel Hok H1 H2 Hf) as (r & h' & T' & R & Hok' & Ho & HK).
    exists r, h', T'. split; [exact R|]. split; [by right|done].
Qed.

Lemma malloc_correct_witness :
  let h := Heap (fun _ => 7) 0 8192 in
  (exists r h' T', malloc 4096 (fun _ _ => true) 3 10 h = Done r h' /\ heap_rep 4096 8192 h' T' /\
     granted 8192 3 [(4096, true)] T' r) /\
  match malloc 4096 (fun _ _ => true) 3 10 h with Done r h' => (r, freep h', brk h') | _ => (0, 0, 0) end = (40944, 4096, 40960).
Proof.
  intros h. split; [|vm_compute; reflexivity].
  destruct (malloc_correct 4096 8192 (fun _ _ => true) h [] 10 3) as (_ & r & h' & T' & R & Hrep & Ho & _);
    [lia|lia|by left|lia|simpl; lia|]. exists r, h', T'. split; [exact R|]. split; [exact Hrep|]. exact Ho.
Defined.

(** C32: [free] of a block in use, whatever the program has written into its
    blocks: the call returns, the block is free and merged with its free
    neighbours, the other blocks keep their bytes, and when it was the last
    one the whole heap is one free cell again. *)
Theorem free_correct (base h0 : Z) h T m T1 n T2 fuel :
  0 < base -> base + 8 <= h0 -> heap_rep base h0 h T -> T = T1 ++ (n, false) :: T2 -> owned h0 T (mem h) m ->
  (length T + 3 <= fuel)%nat ->
  exists h', free fuel (h0 + 8 * total T1 + 8) (set_mem m h) = Done tt h' /\
    let T' := norm (T1 ++ (n, true) :: T2) in
    heap_rep base h0 h' T' /\ brk h' = brk h /\ used h0 T' = used h0 T1 ++ used (h0 + 8 * total T1 + 8 * n) T2 /\
    keeps h0 T' m (mem h') /\ (used h0 T' = [] -> T' = [(total T, true)]).
Proof.
  intros Hb Hl Hrep -> Ho Hf. destruct Hrep as [(_ & E & _)|Hok]; [by apply app_eq_nil in E as [_ E]|].
  pose proof (owned_ok _ _ Hl _ _ _ Hok Ho) as Hok1.
  destruct (free_run base h0 Hb Hl (set_mem m h) T1 n T2 fuel Hok1) as (h' & R & Hok' & Hbrk & HK).
  { rewrite !length_app in *. simpl in Hf. lia. }
  exists h'. split; [exact R|]. cbv zeta. split; [by right|]. split; [exact Hbrk|]. split; [|split].
  - rewrite used_norm, used_app. done.
  - intros a k x Hu. rewrite used_norm in Hu. by apply HK.
  - intros Hu. rewrite total_app, total_cons, <- (total_cons n true), <- total_app, <- total_norm.
    apply (all_free h0); [apply norm_idem|done|]. intros E. apply (f_equal total) in E.
    rewrite total_norm, total_app, total_cons in E. change (total []) with 0 in E.
    pose proof (ok_sized _ _ _ _ Hok) as Hs. apply sized_app in Hs as [Hs1 (Hn & _ & Hs2)].
    pose proof (sized_total _ _ _ Hs1). pose proof (sized_total _ _ _ Hs2). lia.
Qed.

Definition demo_heap : heap :=
  Heap (wr 40940 3 (wr 8196 4093 (wr 8192 4096 (wr 4100 0 (wr 4096 8192 (fun _ => 0)))))) 4096 40960.
Lemma free_correct_witness :
  exists h', free 5 40944 (set_mem (upd 40950 1 (mem demo_heap)) demo_heap) = Done tt h' /\
    heap_rep 4096 8192 h' [(4096, true)] /\ brk h' = 40960.
Proof.
  destruct (free_correct 4096 8192 demo_heap [(4093, true); (3, false)] (upd 40950 1 (mem demo_heap)) [(4093, true)] 3 [] 5)
    as (h' & R & Hrep & Hbrk & _); [lia|lia| |reflexivity| |simpl; lia|].
  - right. split; [vm_compute; intuition congruence|vm_compute; intuition congruence|reflexivity| |reflexivity|reflexivity|reflexivity].
    left.
  - intros x. destruct (decide (x = 40950)) as [->|Hx].
    + right. exists 40936, 3. split; [vm_compute; left|lia].
    + left. by apply upd_ne.
  - exists h'. split; [exact R|]. split; [exact Hrep|exact Hbrk].
Defined.

(** The arithmetic of sizes is unsigned: a request close to [2 ^ 32] bytes is
    taken for one of no bytes, and for one of [2 ^ 31] bytes [sbrk] is asked
    for a negative number and returns the end of the process, which has not
    grown. *)
Lemma nunits_wraps : nunits (2 ^ 32 - 7) = 1 /\ nunits (2 ^ 32 - 1) = 1.
Proof. by vm_compute. Qed.
Lemma sbrk_wraps pages h :
  0 < brk h < KERNBASE - 8 -> sbrk pages (u32 (nunits (2 ^ 31) * 8)) h = Done (brk h) h.
Proof.
  intros Hb. change KERNBASE with 2147483648 in Hb. unfold sbrk. rewrite bind_gets.
  change (i32 (u32 (nunits (2 ^ 31) * 8))) with (- 2147483640).
  assert (u32 (brk h + - 2147483640) = brk h + 2147483656) as ->.
  { unfold u32. rewrite <- (Z_mod_plus_full _ 1). rewrite Z.mod_small by lia. lia. }
  change (0 <? -2147483640) with false. change (-2147483640 <? 0) with true. cbv iota.
  rewrite (proj2 (Z.leb_le _ _)), (proj2 (Z.eqb_neq _ _)) by lia. by destruct h.
Qed.
