(* ===== verification/Programs.v ===== *)
(** Programs: the small user programs cat, wc, echo, kill, ln, mkdir, rm, ls,
    init and zombie, with [gets] and [stat] of ulib.c and the reading loop of
    the shell.

    A program is the tree of its system calls: one branch for each result,
    with the data a [read] or an [fstat] delivers.  [Spin] marks a loop cut
    at the given number of turns.  The text [printf] writes is that of
    Printf.v, one [write] for each character. *)

From S2P Require Import Prelude Kernel StringLib Ulib Printf.

(** ** System calls *)

Inductive call :=
| Read (fd n : Z)
| Write (fd : Z) (l : list Z)
| Open (path : list Z) (mode : Z)
| Close (fd : Z)
| Fstat (fd : Z)
| Dup (fd : Z)
| Fork
| Wait
| Exec (path : list Z) (argv : list (list Z))
| Kill (pid : Z)
| Link (old new : list Z)
| Mkdir (path : list Z)
| Unlink (path : list Z)
| Mknod (path : list Z) (major minor : Z)
| Sleep (n : Z).

Inductive prog (A : Type) :=
| Ret (a : A)
| Exit
| Sys (c : call) (k : Z -> list Z -> prog A)
| Spin.
Arguments Ret {A} a.
Arguments Exit {A}.
Arguments Sys {A} c k.
Arguments Spin {A}.

Fixpoint pbind {A B} (m : prog A) (f : A -> prog B) : prog B :=
  match m with
  | Ret a => f a
  | Exit => Exit
  | Sys c k => Sys c (fun r d => pbind (k r d) f)
  | Spin => Spin
  end.

(** ** Text *)

Definition text (s : string) : list Z := map (fun c => Z.of_N (Ascii.N_of_ascii c)) (String.list_ascii_of_string s).
Definition NL : list Z := [10].

(** An argument of [printf]; a string is passed as a pointer, here its
    position among the arguments. *)
Inductive arg := I (z : Z) | S_ (l : list Z).
Definition fmt (f : list Z) (args : list arg) : list Z :=
  printf (fun a => match args !! Z.to_nat (a - 1) with Some (S_ l) => l | _ => [] end) f
    (fun i => match args !! i with Some (I z) => z | Some (S_ _) => Z.of_nat i + 1 | None => 0 end).
(** [printf(fd, ...)]: [putc] writes each character. *)
Fixpoint puts (fd : Z) (l : list Z) : prog unit :=
  match l with
  | [] => Ret tt
  | c :: l => Sys (Write fd [c]) (fun _ _ => puts fd l)
  end.
Definition print (fd : Z) (f : list Z) (args : list arg) : prog unit := puts fd (fmt f args).

(** ** ulib.c *)

(** [gets]: the characters before the NUL; [n] is [max - 1 - i]. *)
Fixpoint gets (n : nat) : prog (list Z) :=
  match n with
  | O => Ret []
  | S n =>
      Sys (Read 0 1) (fun cc d =>
        if cc <? 1 then Ret [] else
        let c := default 0 (d !! O) in
        if (c =? 10) || (c =? 13) then Ret [c] else pbind (gets n) (fun l => Ret (c :: l)))
  end.
Definition O_RDONLY : Z := 0x000.
Definition O_RDWR : Z := 0x002.
(** The result and the fields [type], [dev], [ino], [nlink], [size]. *)
Definition stat (n : list Z) : prog (Z * list Z) :=
  Sys (Open n O_RDONLY) (fun fd _ =>
    if fd <? 0 then Ret (-1, []) else
    Sys (Fstat fd) (fun r st => Sys (Close fd) (fun _ _ => Ret (r, st)))).

(** ** cat.c *)

Fixpoint cat (fuel : nat) (fd : Z) : prog unit :=
  match fuel with
  | O => Spin
  | S fuel =>
      Sys (Read fd 512) (fun n buf =>
        if 0 <? n then Sys (Write 1 buf) (fun _ _ => cat fuel fd)
        else if n <? 0 then pbind (print 1 (text "cat: read error" ++ NL) []) (fun _ => Exit)
        else Ret tt)
  end.
Fixpoint cat_files (fuel : nat) (argv : list (list Z)) : prog unit :=
  match argv with
  | [] => Exit
  | a :: argv =>
      Sys (Open a 0) (fun fd _ =>
        if fd <? 0 then pbind (print 1 (text "cat: cannot open %s" ++ NL) [S_ a]) (fun _ => Exit)
        else pbind (cat fuel fd) (fun _ => Sys (Close fd) (fun _ _ => cat_files fuel argv)))
  end.
(** [argv] without the name of the program, here and below. *)
Definition cat_main (fuel : nat) (argv : list (list Z)) : prog unit :=
  match argv with
  | [] => pbind (cat fuel 0) (fun _ => Exit)
  | _ => cat_files fuel argv
  end.

(** ** wc.c *)

Record counts := Counts { c_l : Z; c_w : Z; c_c : Z; inword : Z }.
(** " \r\t\n\v" *)
Definition wc_space : list Z := [32; 13; 9; 10; 11].
Definition wc_byte (s : counts) (b : Z) : counts :=
  let c := i32 (c_c s + 1) in
  let l := if b =? 10 then i32 (c_l s + 1) else c_l s in
  match strchr 6 (of_list wc_space) b with
  | Some (Some _) => Counts l (c_w s) c 0
  | _ => if inword s =? 0 then Counts l (i32 (c_w s + 1)) c 1 else Counts l (c_w s) c (inword s)
  end.
Fixpoint wc_loop (fuel : nat) (fd : Z) (name : list Z) (s : counts) : prog unit :=
  match fuel with
  | O => Spin
  | S fuel =>
      Sys (Read fd 512) (fun n buf =>
        if 0 <? n then wc_loop fuel fd name (fold_left wc_byte buf s)
        else if n <? 0 then pbind (print 1 (text "wc: read error" ++ NL) []) (fun _ => Exit)
        else print 1 (text "%d %d %d %s" ++ NL) [I (c_l s); I (c_w s); I (c_c s); S_ name])
  end.
Definition wc (fuel : nat) (fd : Z) (name : list Z) : prog unit := wc_loop fuel fd name (Counts 0 0 0 0).
Fixpoint wc_files (fuel : nat) (argv : list (list Z)) : prog unit :=
  match argv with
  | [] => Exit
  | a :: argv =>
      Sys (Open a 0) (fun fd _ =>
        if fd <? 0 then pbind (print 1 (text "wc: cannot open %s" ++ NL) [S_ a]) (fun _ => Exit)
        else pbind (wc fuel fd a) (fun _ => Sys (Close fd) (fun _ _ => wc_files fuel argv)))
  end.
Definition wc_main (fuel : nat) (argv : list (list Z)) : prog unit :=
  match argv with
  | [] => pbind (wc fuel 0 []) (fun _ => Exit)
  | _ => wc_files fuel argv
  end.

(** ** echo.c, kill.c, ln.c, mkdir.c, rm.c *)

Fixpoint echo_main (argv : list (list Z)) : prog unit :=
  match argv with
  | [] => Exit
  | [a] => pbind (print 1 (text "%s%s") [S_ a; S_ NL]) (fun _ => Exit)
  | a :: argv => pbind (print 1 (text "%s%s") [S_ a; S_ (text " ")]) (fun _ => echo_main argv)
  end.
Fixpoint kill_loop (argv : list (list Z)) : prog unit :=
  match argv with
  | [] => Exit
  | a :: argv => Sys (Kill (default 0 (atoi (length a + 1) (of_list a)))) (fun _ _ => kill_loop argv)
  end.
Definition kill_main (argv : list (list Z)) : prog unit :=
  match argv with
  | [] => pbind (print 2 (text "usage: kill pid..." ++ NL) []) (fun _ => Exit)
  | _ => kill_loop argv
  end.
Definition ln_main (argv : list (list Z)) : prog unit :=
  match argv with
  | [old; new] =>
      Sys (Link old new) (fun r _ =>
        if r <? 0 then pbind (print 2 (text "link %s %s: failed" ++ NL) [S_ old; S_ new]) (fun _ => Exit) else Exit)
  | _ => pbind (print 2 (text "Usage: ln old new" ++ NL) []) (fun _ => Exit)
  end.
Fixpoint mkdir_loop (argv : list (list Z)) : prog unit :=
  match argv with
  | [] => Exit
  | a :: argv =>
      Sys (Mkdir a) (fun r _ =>
        if r <? 0 then pbind (print 2 (text "mkdir: %s failed to create" ++ NL) [S_ a]) (fun _ => Exit) else mkdir_loop argv)
  end.
Definition mkdir_main (argv : list (list Z)) : prog unit :=
  match argv with
  | [] => pbind (print 2 (text "Usage: mkdir files..." ++ NL) []) (fun _ => Exit)
  | _ => mkdir_loop argv
  end.
Fixpoint rm_loop (argv : list (list Z)) : prog unit :=
  match argv with
  | [] => Exit
  | a :: argv =>
      Sys (Unlink a) (fun r _ =>
        if r <? 0 then pbind (print 2 (text "rm: %s failed to delete" ++ NL) [S_ a]) (fun _ => Exit) else rm_loop argv)
  end.
Definition rm_main (argv : list (list Z)) : prog unit :=
  match argv with
  | [] => pbind (print 2 (text "Usage: rm files..." ++ NL) []) (fun _ => Exit)
  | _ => rm_loop argv
  end.
