(* ===== verification/Grep.v ===== *)
(** Grep: the user program grep.c, its pattern matcher and its line buffer.

    A C string is the list of its bytes before the NUL.  The system calls of
    [grep] are the data that [read] delivers and the bytes given to [write]:
    each read returns as much of the input as the caller asks for, cut at a
    length the system chooses. *)

From S2P Require Import Prelude.

(** ** The matcher *)

Section Star.
Context (matchhere : list Z -> bool) (c : Z).

(** [matchstar(c, re, text)]; the argument is [matchhere(re, .)]. *)
Fixpoint matchstar (text : list Z) : bool :=
  if matchhere text then true else
  match text with
  | t :: text => if (t =? c) || (c =? 46) then matchstar text else false
  | [] => false
  end.
End Star.

(** The characters: * is 42, $ is 36, . is 46, ^ is 94. *)
Fixpoint matchhere (re text : list Z) : bool :=
  match re with
  | [] => true
  | c :: re1 =>
      match re1 with
      | 42 :: re2 => matchstar (matchhere re2) c text
      | _ =>
          if (c =? 36) && (match re1 with [] => true | _ => false end)
          then match text with [] => true | _ => false end
          else
          match text with
          | t :: text => if (c =? 46) || (c =? t) then matchhere re1 text else false
          | [] => false
          end
      end
  end.

Fixpoint match_anywhere (re text : list Z) : bool :=
  if matchhere re text then true else
  match text with
  | _ :: text => match_anywhere re text
  | [] => false
  end.
Definition match_ (re text : list Z) : bool :=
  match re with
  | 94 :: re => matchhere re text
  | _ => match_anywhere re text
  end.

(** ** The line buffer *)

(** [strchr(p, c) - p] *)
Fixpoint strchr (p : list Z) (c : Z) : option nat :=
  match p with
  | [] => None
  | x :: p => if x =? 0 then None else if x =? c then Some O else S <$> strchr p c
  end.

(** The inner loop: the bytes written, and the text after the last newline.
    Each turn takes a byte at least. *)
Fixpoint scan (n : nat) (pattern p : list Z) : list Z * list Z :=
  match n, strchr p 10 with
  | S n, Some q =>
      let r := scan n pattern (drop (q + 1) p) in
      ((if match_ pattern (take q p) then take (q + 1) p else []) ++ fst r, snd r)
  | _, _ => ([], p)
  end.

Definition bufsize : nat := 1024.

(** [grep]: [buf] is the first [m] bytes of the buffer; [cuts] bounds what the
    successive reads return.  The bytes written. *)
Fixpoint grep (pattern : list Z) (cuts : list nat) (input buf : list Z) : list Z :=
  match cuts with
  | [] => []
  | cut :: cuts =>
      let n := Nat.min cut (bufsize - length buf - 1) in
      match take n input with
      | [] => []
      | chunk =>
          let text := buf ++ chunk in
          let r := scan (length text) pattern text in
          fst r ++
          grep pattern cuts (drop n input)
            (if bool_decide (length (snd r) = length text) then [] else snd r)
      end
  end.

(** ** What a pattern means *)

Inductive item := One (c : Z) | Star (c : Z) | Eol.

Fixpoint items (re : list Z) : list item :=
  match re with
  | [] => []
  | c :: re1 =>
      match re1 with
      | 42 :: re2 => Star c :: items re2
      | _ => if (c =? 36) && (match re1 with [] => true | _ => false end) then [Eol] else One c :: items re1
      end
  end.

Definition fits (c t : Z) : Prop := c = 46 \/ c = t.

(** [denotes l u v]: the items match [u] when [v] follows it in the line. *)
Inductive denotes : list item -> list Z -> list Z -> Prop :=
| D_nil v : denotes [] [] v
| D_one c t l u v : fits c t -> denotes l u v -> denotes (One c :: l) (t :: u) v
| D_star c w l u v : Forall (fits c) w -> denotes l u v -> denotes (Star c :: l) (w ++ u) v
| D_eol : denotes [Eol] [] [].

(** Induction along the matcher's recursion on the pattern. *)
Lemma items_ind (P : list Z -> Prop) :
  P [] -> (forall c re, P re -> P (c :: 42 :: re)) -> P [36] ->
  (forall c re, items (c :: re) = One c :: items re ->
     (forall text, matchhere (c :: re) text =
        match text with t :: text => if (c =? 46) || (c =? t) then matchhere re text else false | [] => false end) ->
     P re -> P (c :: re)) ->
  forall re, P re.
Proof.
  intros H0 Hs He H1. enough (forall n re, (length re <= n)%nat -> P re) as H by (intros re; by eapply H).
  induction n as [|n IH]; intros [|c re1] Hn; simpl in Hn; try done; [lia|].
  assert (P re1) as IH1 by (apply IH; lia).
  assert ((exists re2, re1 = 42 :: re2) \/
    (items (c :: re1) = (if (c =? 36) && (match re1 with [] => true | _ => false end) then [Eol] else One c :: items re1)
     /\ forall text, matchhere (c :: re1) text =
       if (c =? 36) && (match re1 with [] => true | _ => false end)
          then match text with [] => true | _ => false end
          else
          match text with
          | t :: text => if (c =? 46) || (c =? t) then matchhere re1 text else false
          | [] => false
          end)) as [[re2 ->]|[E1 E2]].
  { destruct re1 as [|d re2]; [by right|]. destruct (decide (d = 42)) as [->|Hd]; [left; by exists re2|right].
    simpl items. simpl matchhere. repeat (destruct d as [|d|d]; try done). }
  - apply Hs, IH. simpl in Hn. lia.
  - destruct ((c =? 36) && _) eqn:E.
    + apply andb_true_iff in E as [->%Z.eqb_eq E]. by destruct re1.
    + by apply H1.
Qed.

Lemma matchstar_spec P c text :
  matchstar P c text = true <-> exists w r, text = w ++ r /\ Forall (fits c) w /\ P r = true.
Proof.
  induction text as [|t text IH]; simpl.
  - destruct (P []) eqn:E; split; try done; [by exists [], []|].
    intros ([|? ?] & r & Er & _ & Hr); [|done]. simpl in Er. subst. congruence.
  - destruct (P (t :: text)) eqn:E; [split; [by exists [], (t :: text)|done]|].
    assert ((t =? c) || (c =? 46) = true <-> fits c t) as Hf by (unfold fits; rewrite orb_true_iff, !Z.eqb_eq; intuition congruence).
    destruct ((t =? c) || (c =? 46)).
    + rewrite IH. split.
      * intros (w & r & -> & Hw & Hr). exists (t :: w), r. split; [done|]. split; [constructor; [by apply Hf|done]|done].
      * intros ([|x w] & r & Er & Hw & Hr); simpl in Er; [by rewrite <- Er, E in Hr|]. injection Er as -> ->.
        exists w, r. by inversion Hw.
    + split; [done|]. intros ([|x w] & r & Er & Hw & Hr); simpl in Er; [by rewrite <- Er, E in Hr|]. injection Er as -> ->.
      apply Forall_cons in Hw as [Hx _]. by apply Hf in Hx.
Qed.

Lemma matchhere_spec re text :
  matchhere re text = true <-> exists u v, text = u ++ v /\ denotes (items re) u v.
Proof.
  revert re text. apply (items_ind (fun re => forall text, matchhere re text = true <-> exists u v, text = u ++ v /\ denotes (items re) u v)).
  - intros text. split; [|done]. intros _. exists [], text. split; [done|constructor].
  - intros c re IH text. simpl. rewrite matchstar_spec. split.
    + intros (w & r & -> & Hw & Hr). apply IH in Hr as (u & v & -> & Hd). exists (w ++ u), v. by rewrite app_assoc; repeat constructor.
    + intros (u & v & -> & Hd). inversion Hd; subst. exists w, (u0 ++ v). rewrite app_assoc. split; [done|]. split; [done|].
      apply IH. by exists u0, v.
  - intros text. simpl. split.
    + destruct text; [|done]. intros _. exists [], []. by split; [|constructor].
    + intros (u & v & -> & Hd). by inversion Hd.
  - intros c re Ei Em IH text. rewrite Ei, Em. split.
    + destruct text as [|t text]; [done|]. destruct ((c =? 46) || (c =? t)) eqn:E; [|done].
      apply orb_true_iff in E. rewrite !Z.eqb_eq in E. intros (u & v & -> & Hd)%IH. exists (t :: u), v. by split; [|constructor].
    + intros (u & v & -> & Hd). inversion Hd as [|? t ? u0 ? Hf Hd'| |]; subst. simpl.
      assert ((c =? 46) || (c =? t) = true) as -> by (apply orb_true_iff; by rewrite !Z.eqb_eq). apply IH. by exists u0, v.
Qed.

Lemma match_anywhere_spec re text :
  match_anywhere re text = true <-> exists pre r, text = pre ++ r /\ matchhere re r = true.
Proof.
  induction text as [|t text IH]; cbn [match_anywhere].
  - destruct (matchhere re []) eqn:E; split; try done; [by exists [], []|].
    intros ([|] & r & Er & Hr); [|done]. simpl in Er. subst. congruence.
  - destruct (matchhere re (t :: text)) eqn:E; [split; [by exists [], (t :: text)|done]|]. rewrite IH. split.
    + intros (pre & r & -> & Hr). by exists (t :: pre), r.
    + intros ([|x pre] & r & Er & Hr); simpl in Er; [by rewrite <- Er, E in Hr|]. injection Er as -> ->. by exists pre, r.
Qed.

(** C38: the matcher decides the language of the pattern.  [match(re, text)]
    is true exactly when some part of the text is denoted by the items of the
    pattern (a character, a dot for any character, a starred character, a
    final dollar for the end of the text), a part that starts the text when
    the pattern begins with a caret. *)
Theorem match_decides re text :
  match_ re text = true <->
  exists pre u post, text = pre ++ u ++ post /\
    match re with
    | 94 :: re' => pre = [] /\ denotes (items re') u post
    | _ => denotes (items re) u post
    end.
Proof.
  assert (forall re, match_anywhere re text = true <-> exists pre u post, text = pre ++ u ++ post /\ denotes (items re) u post) as Ha.
  { intros re'. rewrite match_anywhere_spec. split.
    - intros (pre & r & -> & (u & v & -> & Hd)%matchhere_spec). by exists pre, u, v.
    - intros (pre & u & v & -> & Hd). exists pre, (u ++ v). split; [done|]. apply matchhere_spec. by exists u, v. }
  destruct re as [|c re']; [apply Ha|]. destruct (decide (c = 94)) as [->|Hc].
  - simpl. rewrite matchhere_spec. split.
    + intros (u & v & -> & Hd). by exists [], u, v.
    + intros (pre & u & v & -> & -> & Hd). by exists u, v.
  - unfold match_. specialize (Ha (c :: re')). revert Ha. generalize (items (c :: re')). intros its Ha.
    repeat (destruct c as [|c|c]; try done).
Qed.

(** ** The lines of a text *)

(** The complete lines, and what follows the last newline. *)
Fixpoint lines (p : list Z) : list (list Z) * list Z :=
  match p with
  | [] => ([], [])
  | x :: p =>
      let r := lines p in
      if x =? 10 then ([] :: fst r, snd r) else
      match fst r with
      | l :: ls => ((x :: l) :: ls, snd r)
      | [] => ([], x :: snd r)
      end
  end.

(** The lines that match, as grep prints them. *)
Definition matching (pattern : list Z) (ls : list (list Z)) : list Z :=
  concat (map (fun l => if match_ pattern l then l ++ [10] else []) ls).

Lemma matching_app pattern a b : matching pattern (a ++ b) = matching pattern a ++ matching pattern b.
Proof. unfold matching. by rewrite map_app, concat_app. Qed.

Lemma lines_app a b :
  fst (lines (a ++ b)) = fst (lines a) ++ fst (lines (snd (lines a) ++ b)) /\
  snd (lines (a ++ b)) = snd (lines (snd (lines a) ++ b)).
Proof.
  induction a as [|x a [IH1 IH2]]; [done|]. simpl. destruct (Z.eqb_spec x 10); [by simpl; rewrite IH1, IH2|].
  rewrite IH1, IH2. destruct (fst (lines a)) as [|l ls]; [|done]. simpl.
  destruct (Z.eqb_spec x 10); [done|]. done.
Qed.
Lemma lines_rest a : lines (snd (lines a)) = ([], snd (lines a)).
Proof.
  induction a as [|x a IH]; [done|]. simpl. destruct (Z.eqb_spec x 10); [done|].
  destruct (fst (lines a)) as [|l ls] eqn:E; [|done]. simpl. rewrite IH. simpl. by destruct (Z.eqb_spec x 10).
Qed.
Lemma lines_line l r : 10 ∉ l -> lines (l ++ 10 :: r) = (l :: fst (lines r), snd (lines r)).
Proof.
  induction l as [|x l IH]; intros Hl; [done|]. apply not_elem_of_cons in Hl as [Hx Hl]. simpl. rewrite IH by done.
  destruct (Z.eqb_spec x 10); [congruence|]. done.
Qed.
Lemma lines_none p : 10 ∉ p -> lines p = ([], p).
Proof.
  induction p as [|x p IH]; intros Hp; [done|]. apply not_elem_of_cons in Hp as [Hx Hp]. simpl. rewrite IH by done.
  destruct (Z.eqb_spec x 10); [congruence|]. done.
Qed.

Lemma strchr_Some p q : 0 ∉ p -> strchr p 10 = Some q -> exists r, p = take q p ++ 10 :: r /\ 10 ∉ take q p /\ drop (q + 1) p = r.
Proof.
  revert q. induction p as [|x p IH]; intros q Hp; [done|]. apply not_elem_of_cons in Hp as [Hx Hp]. simpl.
  destruct (Z.eqb_spec x 0); [congruence|]. destruct (Z.eqb_spec x 10) as [->|Hx10].
  - intros [= <-]. exists p. simpl. split; [done|]. split; [set_solver|done].
  - destruct (strchr p 10) as [q'|]; [|done]. intros [= <-]. destruct (IH q' Hp eq_refl) as (r & E & Hn & Ed).
    exists r. simpl. split; [by f_equal|]. split; [set_solver|done].
Qed.
Lemma strchr_None p : 0 ∉ p -> strchr p 10 = None -> 10 ∉ p.
Proof.
  induction p as [|x p IH]; intros Hp; [set_solver|]. apply not_elem_of_cons in Hp as [Hx Hp]. simpl.
  destruct (Z.eqb_spec x 0); [congruence|]. destruct (Z.eqb_spec x 10); [done|].
  destruct (strchr p 10); [done|]. intros _. rewrite not_elem_of_cons. split; [congruence|]. by apply IH.
Qed.

Lemma scan_spec n pattern : forall p, 0 ∉ p -> (length p <= n)%nat -> scan n pattern p = (matching pattern (fst (lines p)), snd (lines p)).
Proof.
  induction n as [|n IH]; intros p H0 Hn; [by destruct p; [|simpl in Hn; lia]|]. simpl scan.
  destruct (strchr p 10) as [q|] eqn:E.
  - destruct (strchr_Some _ _ H0 E) as (r & Ep & Hn10 & Ed). rewrite Ed.
    assert (take (q + 1) p = take q p ++ [10]) as ->.
    { rewrite Ep at 1. apply (f_equal length) in Ep as El. rewrite length_app in El. simpl in El.
      rewrite length_take in *. rewrite take_app_ge by (rewrite length_take; lia).
      f_equal. by replace (q + 1 - length (take q p))%nat with 1%nat by (rewrite length_take; lia). }
    rewrite IH.
    + pose proof (lines_line (take q p) r Hn10) as L. rewrite <- Ep in L. by rewrite L.
    + intros H. apply H0. rewrite Ep. set_solver.
    + apply (f_equal length) in Ep. rewrite length_app in Ep. simpl in Ep. lia.
  - rewrite lines_none; [done|]. by apply strchr_None.
Qed.

Lemma snd_lines_10 p : 10 ∉ snd (lines p).
Proof.
  induction p as [|x p IH]; [set_solver|]. simpl. destruct (Z.eqb_spec x 10); [done|].
  destruct (fst (lines p)); [|done]. simpl. set_solver.
Qed.
Lemma lines_fst_nil p : 10 ∉ p <-> fst (lines p) = [].
Proof.
  split; [by intros ->%lines_none|]. induction p as [|x p IH]; [set_solver|]. simpl.
  destruct (Z.eqb_spec x 10); [done|]. destruct (fst (lines p)) eqn:E; [|done]. intros _. set_solver.
Qed.
Lemma lines_length p : (length (snd (lines p)) <= length p)%nat /\ (length (snd (lines p)) = length p -> 10 ∉ p).
Proof.
  induction p as [|x p [IH1 IH2]]; [split; [done|set_solver]|]. simpl. destruct (Z.eqb_spec x 10); simpl; [split; lia|].
  destruct (fst (lines p)); simpl; (split; [lia|]); intros H; [|lia]. rewrite not_elem_of_cons. split; [congruence|]. apply IH2. lia.
Qed.
Lemma lines_elem p x : x ∈ snd (lines p) -> x ∈ p.
Proof.
  induction p as [|y p IH]; [done|]. simpl. destruct (y =? 10); [set_solver|]. destruct (fst (lines p)); set_solver.
Qed.

(** A line that starts with [a] is at least as long. *)
Lemma lines_long a b : 10 ∉ a -> Forall (fun l => (length l < length a)%nat) (fst (lines (a ++ b))) -> fst (lines b) = [].
Proof.
  intros Ha H. destruct (fst (lines b)) as [|l ls] eqn:E; [done|]. exfalso.
  assert (exists l', fst (lines (a ++ b)) = (a ++ l') :: ls) as [l' El].
  { clear H. induction a as [|x a IH]; [by exists l|]. apply not_elem_of_cons in Ha as [Hx Ha].
    destruct (IH Ha) as [l' El]. exists l'. simpl. rewrite El. by destruct (Z.eqb_spec x 10); [congruence|]. }
  rewrite El in H. apply Forall_cons in H as [H _]. rewrite length_app in H. lia.
Qed.

Lemma grep_run pattern cuts : forall input buf,
  Forall (fun c => (bufsize <= c)%nat) cuts -> (length input < length cuts)%nat -> 0 ∉ buf ++ input ->
  10 ∉ buf -> (length buf < bufsize - 1)%nat ->
  Forall (fun l => (length l < bufsize - 1)%nat) (fst (lines (buf ++ input))) ->
  grep pattern cuts input buf = matching pattern (fst (lines (buf ++ input))).
Proof.
  induction cuts as [|cut cuts IH]; intros input buf Hc Hlen H0 H10 Hb Hl; [simpl in Hlen; lia|].
  apply Forall_cons in Hc as [Hcut Hc]. cbn [grep]. simpl in Hlen.
  replace (Nat.min cut (bufsize - length buf - 1)) with (bufsize - length buf - 1)%nat by lia.
  set (n := (bufsize - length buf - 1)%nat). destruct (take n input) as [|x ch] eqn:Et.
  { destruct input as [|y input]; [rewrite app_nil_r, lines_none by done; done|]. destruct n eqn:En; [unfold n in En; lia|done]. }
  rewrite <- Et. set (chunk := take n input). set (text := buf ++ chunk).
  assert (buf ++ input = text ++ drop n input) as Ei by (unfold text, chunk; by rewrite <- app_assoc, take_drop).
  rewrite Ei in H0, Hl |- *. apply not_elem_of_app in H0 as H0'. destruct H0' as [Ht H0'].
  assert (length input <> O) as Hi by (destruct input; [by rewrite take_nil in Et|done]).
  rewrite scan_spec by done. cbn [fst snd]. destruct (lines_app text (drop n input)) as [E1 _]. rewrite E1 in Hl |- *.
  rewrite matching_app. f_equal. destruct (lines_length text) as [Hle Heq]. case_bool_decide as Eq.
  - specialize (Heq Eq). rewrite (lines_none text Heq) in *. cbn [fst snd app] in *.
    destruct (decide (length input <= n)%nat) as [Hs|Hs].
    + rewrite drop_ge, app_nil_r, (lines_none text) by done. destruct cuts; [done|]. cbn [grep fst]. by rewrite take_nil.
    + assert (length text = (bufsize - 1)%nat) as Etl by (unfold text, chunk; rewrite length_app, length_take; lia).
      rewrite <- Etl in Hl. pose proof (lines_long _ _ Heq Hl) as Hn. apply lines_fst_nil in Hn.
      rewrite IH; [|done|rewrite length_drop; lia|done|apply not_elem_of_nil|unfold bufsize; simpl; lia|].
      * cbn [app]. rewrite (lines_none (drop n input)), (lines_none (text ++ _)); [done|by apply not_elem_of_app|done].
      * cbn [app]. by rewrite (lines_none (drop n input)).
  - apply IH; [done|rewrite length_drop; lia| |apply snd_lines_10| |].
    + rewrite elem_of_app. intros [H|H]; apply H0; rewrite elem_of_app; [left; by apply lines_elem|by right].
    + assert (length text <= bufsize - 1)%nat by (unfold text, chunk; rewrite length_app, length_take; lia). lia.
    + by apply Forall_app in Hl as [_ Hl].
Qed.

(** C39: grep on a file.  When the reads return as much as they are asked for,
    and every line is shorter than the buffer, [grep] writes exactly the
    lines that match, each with its newline, in their order; text after the
    last newline is not written.  There are at most as many reads as bytes. *)
Theorem grep_writes_matching_lines pattern cuts input :
  Forall (fun c => (bufsize <= c)%nat) cuts -> (length input < length cuts)%nat -> 0 ∉ input ->
  Forall (fun l => (length l < bufsize - 1)%nat) (fst (lines input)) ->
  grep pattern cuts input [] = matching pattern (fst (lines input)).
Proof. intros. apply grep_run; try done; [set_solver|unfold bufsize; simpl; lia]. Qed.

(** A read without a newline is forgotten: the line it begins is matched and
    written without its beginning. *)
Lemma grep_forgets_partial_line pattern cut cuts input :
  (0 < cut < bufsize)%nat -> input <> [] -> 0 ∉ take cut input -> 10 ∉ take cut input ->
  grep pattern (cut :: cuts) input [] = grep pattern cuts (drop cut input) [].
Proof.
  intros Hc Hi H0 H10. cbn [grep length]. replace (Nat.min cut (bufsize - 0 - 1)) with cut by lia.
  destruct (take cut input) as [|x ch] eqn:E; [by destruct cut, input; try lia|]. cbn [app].
  rewrite scan_spec by done. rewrite lines_none by done. simpl. by rewrite bool_decide_eq_true_2.
Qed.

(** ** Witnesses *)

(** "a.c" on "abc", "xyz", "aac" *)
Definition demo_text : list Z := [97; 98; 99; 10; 120; 121; 122; 10; 97; 97; 99; 10].
Lemma grep_writes_matching_lines_witness :
  grep [97; 46; 99] (replicate 13 1024%nat) demo_text [] = [97; 98; 99; 10; 97; 97; 99; 10].
Proof.
  rewrite (grep_writes_matching_lines [97; 46; 99] (replicate 13 1024%nat) demo_text).
  - reflexivity.
  - apply Forall_replicate. unfold bufsize. lia.
  - rewrite length_replicate. simpl. lia.
  - unfold demo_text. set_solver.
  - repeat constructor; simpl; unfold bufsize; lia.
Defined.
