(* ===== verification/Sh.v ===== *)
(** Sh: the shell, sh.c.

    The line to parse is the list of its bytes before the NUL; [es] is its
    length and a pointer into it is an index.  The parser's state is the
    pointer [*ps].  [runcmd] is the tree of the system calls a command
    makes, one branch for each result.  Messages printed are not modelled,
    and the memory of the nodes comes from malloc, which is taken to
    succeed. *)

From S2P Require Import Prelude Sysfile.

(** ** Commands *)

(** The five structs with their types EXEC, REDIR, PIPE, LIST and BACK; a
    string is of type [A]: the ends [q] and [eq] of a token while parsing. *)
Inductive cmd (A : Type) :=
| EXEC (argv : list A)
| REDIR (c : cmd A) (file : A) (mode fd : Z)
| PIPE (left right : cmd A)
| LIST (left right : cmd A)
| BACK (c : cmd A).
Arguments EXEC {A} argv.
Arguments REDIR {A} c file mode fd.
Arguments PIPE {A} left right.
Arguments LIST {A} left right.
Arguments BACK {A} c.

Definition MAXARGS : nat := 10.

Definition token : Type := nat * nat.

(** The redirections [parseredirs] wraps around a command, in their order. *)
Definition wrap {A} (rs : list (A * Z * Z)) (c : cmd A) : cmd A :=
  foldl (fun c r => match r with (file, mode, fd) => REDIR c file mode fd end) c rs.

(** ** Tokens *)

(** [strchr(s, c) != 0] for a [c] that is not NUL *)
Definition has (s : list Z) (c : Z) : bool := existsb (Z.eqb c) s.

(** space, tab, return, newline, vertical tab *)
Definition whitespace : list Z := [32; 9; 13; 10; 11].
(** less, bar, greater, ampersand, semicolon, parentheses *)
Definition symbols : list Z := [60; 124; 62; 38; 59; 40; 41].

Definition wordchar (c : Z) : bool := negb (has whitespace c) && negb (has symbols c).

Section Parser.
Context (buf : list Z).

Definition es : nat := length buf.
(** [*s]; the NUL at [es] *)
Definition at_ (s : nat) : Z := default 0 (buf !! s).

(** [while(s < es && p( *s)) s++], [n] characters from [es] *)
Fixpoint skip_loop (p : Z -> bool) (n s : nat) : nat :=
  match n with
  | O => s
  | S n => if p (at_ s) then skip_loop p n (S s) else s
  end.
Definition skip (p : Z -> bool) (s : nat) : nat := skip_loop p (es - s) s.

(** The token at [s]: its type and its end. *)
Definition token_at (s : nat) : Z * nat :=
  let c := at_ s in
  if c =? 0 then (0, s)
  else if has [124; 40; 41; 59; 38; 60] c then (c, S s)
  else if c =? 62 then if at_ (S s) =? 62 then (43, S (S s)) else (62, S s)
  else (97, skip wordchar s).

Definition gettoken : M nat (Z * token) := fun s =>
  let q := skip (has whitespace) s in
  match token_at q with
  | (ret, eq) => Done (ret, (q, eq)) (skip (has whitespace) eq)
  end.

Definition peek (toks : list Z) : M nat bool := fun s =>
  let s := skip (has whitespace) s in
  Done (negb (at_ s =? 0) && has toks (at_ s)) s.

(** ** The parser *)

(** Every turn of a loop, and every nested call, takes a character at least. *)
Fixpoint parseredirs (n : nat) : M nat (list (token * Z * Z)) :=
  match n with
  | O => exhausted
  | S n =>
      let! b := peek [60; 62] in
      if negb b then ret [] else
      let! t := gettoken in
      let! f := gettoken in
      if negb (fst f =? 97) then panic "missing file for redirection" else
      let! rs := parseredirs n in
      ret ((snd f, (if fst t =? 60 then O_RDONLY else Z.lor O_WRONLY O_CREATE), if fst t =? 60 then 0 else 1) :: rs)
  end.

(** The loop of [parseexec]: the arguments so far and the redirections so
    far.  The EXEC node is filled in while redirections already point to it;
    [args] is its [argv]. *)
Fixpoint parsewords (n : nat) (args : list token) (rs : list (token * Z * Z)) : M nat (cmd token) :=
  match n with
  | O => exhausted
  | S n =>
      let! b := peek [124; 41; 38; 59] in
      if (b : bool) then ret (wrap rs (EXEC args)) else
      let! t := gettoken in
      if fst t =? 0 then ret (wrap rs (EXEC args)) else
      if negb (fst t =? 97) then panic "syntax" else
      let args := args ++ [snd t] in
      if bool_decide (MAXARGS <= length args)%nat then panic "too many args" else
      let! rs' := parseredirs (S es) in
      parsewords n args (rs ++ rs')
  end.

(** The loop of [parseline] over ampersands. *)
Fixpoint parseback (n : nat) (c : cmd token) : M nat (cmd token) :=
  match n with
  | O => exhausted
  | S n =>
      let! b := peek [38] in
      if negb b then ret c else
      let! _t := gettoken in
      parseback n (BACK c)
  end.

Fixpoint parseline (f : nat) : M nat (cmd token) :=
  match f with
  | O => exhausted
  | S f =>
      let! c := parsepipe f in
      let! c := parseback (S es) c in
      let! b := peek [59] in
      if negb b then ret c else
      let! _t := gettoken in
      let! r := parseline f in
      ret (LIST c r)
  end
with parsepipe (f : nat) : M nat (cmd token) :=
  match f with
  | O => exhausted
  | S f =>
      let! c := parseexec f in
      let! b := peek [124] in
      if negb b then ret c else
      let! _t := gettoken in
      let! r := parsepipe f in
      ret (PIPE c r)
  end
with parseexec (f : nat) : M nat (cmd token) :=
  match f with
  | O => exhausted
  | S f =>
      let! b := peek [40] in
      if (b : bool) then parseblock f else
      let! rs := parseredirs (S es) in
      parsewords (S es) [] rs
  end
with parseblock (f : nat) : M nat (cmd token) :=
  match f with
  | O => exhausted
  | S f =>
      let! b := peek [40] in
      if negb b then panic "parseblock" else
      let! _t := gettoken in
      let! c := parseline f in
      let! b := peek [41] in
      if negb b then panic "syntax - missing )" else
      let! _t := gettoken in
      let! rs := parseredirs (S es) in
      ret (wrap rs c)
  end.

(** Before [nulterminate]. *)
Definition parse : M nat (cmd token) :=
  let! c := parseline (4 * es + 4) in
  let! _b := peek [] in
  let! s := gets id in
  if bool_decide (s <> es) then panic "syntax" else ret c.
End Parser.

(** ** The strings of a command *)

(** The buffer with its NUL; [*p = 0] outside of it is not meant to happen. *)
Definition nul (p : nat) (b : list Z) : list Z := <[p := 0]> b.
Fixpoint nulterminate (c : cmd token) (b : list Z) : list Z :=
  match c with
  | EXEC argv => foldl (fun b t => nul (snd t) b) b argv
  | REDIR c file _ _ => nul (snd file) (nulterminate c b)
  | PIPE l r | LIST l r => nulterminate r (nulterminate l b)
  | BACK c => nulterminate c b
  end.

(** [parsecmd]: the tree, and the buffer its strings are in. *)
Definition parsecmd (buf : list Z) : outcome nat (cmd token * list Z) :=
  obind (parse buf O) (fun c => ret (c, nulterminate c (buf ++ [0]))).

(** The C string at a pointer. *)
Fixpoint until_nul (l : list Z) : list Z :=
  match l with
  | [] => []
  | c :: l => if c =? 0 then [] else c :: until_nul l
  end.
Definition cstr (b : list Z) (p : nat) : list Z := until_nul (drop p b).

(** The command with a string for each pointer. *)
Fixpoint cmd_map {A B} (f : A -> B) (c : cmd A) : cmd B :=
  match c with
  | EXEC argv => EXEC (map f argv)
  | REDIR c file mode fd => REDIR (cmd_map f c) (f file) mode fd
  | PIPE l r => PIPE (cmd_map f l) (cmd_map f r)
  | LIST l r => LIST (cmd_map f l) (cmd_map f r)
  | BACK c => BACK (cmd_map f c)
  end.
Definition strings (b : list Z) (c : cmd token) : cmd (list Z) := cmd_map (fun t => cstr b (fst t)) c.
