(* ===== verification/ShProof.v ===== *)
(** ShProof: the parser of the shell.  It always returns or reports an error,
    the strings of the tree it returns are the words of the line, and a
    command printed and parsed again is the same command. *)

From S2P Require Import Prelude Sysfile Sh.

(** ** The parser returns, with the words of the line *)

(** A run that returns with [Q] or reports an error. *)
Definition returns {A} (o : outcome nat A) (Q : A -> nat -> Prop) : Prop :=
  match o with
  | Done a s => Q a s
  | Panicked _ _ => True
  | _ => False
  end.

Lemma returns_bind {A B} (m : M nat A) (k : A -> M nat B) s Q :
  returns (m s) (fun a s' => returns (k a s') Q) -> returns (bind m k s) Q.
Proof. unfold bind. by destruct (m s). Qed.
Lemma returns_mono {A} (o : outcome nat A) (Q R : A -> nat -> Prop) :
  returns o Q -> (forall a s, Q a s -> R a s) -> returns o R.
Proof. destruct o; simpl; auto. Qed.

(** The strings of a command. *)
Fixpoint cmd_all {A} (P : A -> Prop) (c : cmd A) : Prop :=
  match c with
  | EXEC argv => Forall P argv
  | REDIR c file _ _ => cmd_all P c /\ P file
  | PIPE l r | LIST l r => cmd_all P l /\ cmd_all P r
  | BACK c => cmd_all P c
  end.
Lemma cmd_all_wrap {A} (P : A -> Prop) rs c : cmd_all P c -> Forall (fun r => P (fst (fst r))) rs -> cmd_all P (wrap rs c).
Proof.
  revert c. induction rs as [|[[f m] d] rs IH]; intros c Hc Hrs; [done|]. apply Forall_cons in Hrs as [Hf Hrs].
  simpl. by apply IH.
Qed.

Section Total.
Context (buf : list Z) (Hbuf : 0 ∉ buf).
Local Notation es := (es buf).
Local Notation at_ := (at_ buf).

Lemma at_end s : (es <= s)%nat -> at_ s = 0.
Proof. intros H. unfold at_. by rewrite lookup_ge_None_2. Qed.
Lemma at_in s : (s < es)%nat -> at_ s <> 0.
Proof.
  intros H. unfold at_. destruct (lookup_lt_is_Some_2 buf s H) as [c Hc]. rewrite Hc. simpl. intros ->.
  apply Hbuf. by eapply list_elem_of_lookup_2.
Qed.

Lemma skip_loop_spec p n : forall s, (s + n = es)%nat ->
  let e := skip_loop buf p n s in
  (s <= e <= es)%nat /\ (forall i, (s <= i < e)%nat -> p (at_ i) = true) /\ (e = es \/ p (at_ e) = false).
Proof.
  induction n as [|n IH]; intros s Hs; simpl; [split; [lia|]; split; [lia|left; lia]|].
  destruct (p (at_ s)) eqn:E; [|split; [lia|]; split; [lia|by right]].
  destruct (IH (S s) ltac:(lia)) as (H1 & H2 & H3). split; [lia|]. split; [|done].
  intros i Hi. destruct (decide (i = s)) as [->|]; [done|]. apply H2. lia.
Qed.
Lemma skip_spec p s : (s <= es)%nat ->
  let e := skip buf p s in
  (s <= e <= es)%nat /\ (forall i, (s <= i < e)%nat -> p (at_ i) = true) /\ (e = es \/ p (at_ e) = false).
Proof. intros Hs. apply skip_loop_spec. lia. Qed.
Lemma skip_range p s : (s <= es)%nat -> (s <= skip buf p s <= es)%nat.
Proof. intros H. by apply skip_spec. Qed.

(** A word of the line: its characters, and what ends it. *)
Record word (t : token) : Prop := {
  wd_range : (fst t < snd t <= es)%nat;
  wd_chars : forall i, (fst t <= i < snd t)%nat -> wordchar (at_ i) = true;
  wd_end : snd t = es \/ wordchar (at_ (snd t)) = false
}.

Lemma has_whitespace c : has whitespace c = true -> wordchar c = false.
Proof. unfold wordchar. by intros ->. Qed.

Lemma token_at_spec s : (s <= es)%nat -> s = es \/ has whitespace (at_ s) = false ->
  let r := token_at buf s in
  (s <= snd r <= es)%nat /\ (at_ s <> 0 -> (s < snd r)%nat) /\ (fst r = 97 -> word (s, snd r)) /\ (fst r = 0 <-> s = es).
Proof.
  intros Hs Hw. unfold token_at. destruct (Z.eqb_spec (at_ s) 0) as [E|E].
  { assert (s = es) as -> by (destruct (decide (s = es)); [done|]; destruct (at_in s); [lia|done]). simpl. split; [lia|]. done. }
  assert (s < es)%nat as Hlt by (destruct (decide (s = es)) as [->|]; [by rewrite at_end in E|lia]).
  assert (s = es <-> False) as Hes by lia. destruct Hw as [->|Hw]; [lia|].
  destruct (has [124; 40; 41; 59; 38; 60] (at_ s)) eqn:H1.
  { simpl. split; [lia|]. split; [lia|]. split; [|by rewrite Hes]. intros Ea. by rewrite Ea in H1. }
  destruct (Z.eqb_spec (at_ s) 62) as [E2|E2].
  { destruct (Z.eqb_spec (at_ (S s)) 62) as [E3|E3]; simpl.
    - assert (S s < es)%nat by (destruct (decide (S s = es)) as [E4|]; [by rewrite at_end in E3 by lia|lia]).
      split; [lia|]. split; [lia|]. split; [done|by rewrite Hes].
    - split; [lia|]. split; [lia|]. split; [done|by rewrite Hes]. }
  simpl. destruct (skip_spec wordchar s Hs) as (R1 & R2 & R3).
  assert (wordchar (at_ s) = true) as Hc.
  { unfold wordchar. rewrite Hw. simpl. revert H1 E2. unfold has, symbols. simpl.
    destruct (at_ s =? 124), (at_ s =? 40), (at_ s =? 41), (at_ s =? 59), (at_ s =? 38), (at_ s =? 60); try done.
    destruct (Z.eqb_spec (at_ s) 62); done. }
  assert (s < skip buf wordchar s)%nat by (destruct R3 as [R3|R3]; [lia|]; destruct (decide (skip buf wordchar s = s)) as [Es|]; [rewrite Es in R3; congruence|lia]).
  split; [lia|]. split; [done|]. split; [|by rewrite Hes]. intros _. split; simpl; [lia|done|done].
Qed.

(** A token takes a character, unless the line is at its end. *)
Lemma gettoken_returns s : (s <= es)%nat ->
  returns (gettoken buf s) (fun t s' => (s <= s' <= es)%nat /\ (skip buf (has whitespace) s < es -> s < s')%nat /\
    (fst t = 97 -> word (snd t)) /\ (fst t = 0 <-> skip buf (has whitespace) s = es)).
Proof.
  intros Hs. unfold gettoken. destruct (skip_spec (has whitespace) s Hs) as (R1 & R2 & R3).
  set (q := skip buf (has whitespace) s) in *. destruct (token_at_spec q ltac:(lia) R3) as (T1 & T2 & T3 & T4).
  destruct (token_at buf q) as [r e]. simpl in *. pose proof (skip_range (has whitespace) e ltac:(lia)).
  split; [lia|]. split; [|done]. intros Hq. specialize (T2 (at_in q Hq)). lia.
Qed.
Lemma peek_returns toks s : (s <= es)%nat ->
  returns (peek buf toks s) (fun b s' => (s <= s' <= es)%nat /\ skip buf (has whitespace) s' = s' /\ (b = true -> s' < es)%nat).
Proof.
  intros Hs. destruct (skip_spec (has whitespace) s Hs) as (R1 & R2 & R3). unfold peek. simpl.
  set (q := skip buf (has whitespace) s) in *. split; [lia|]. split.
  - unfold skip. destruct (es - q)%nat eqn:E; [done|]. cbn [skip_loop]. destruct R3 as [R3|R3]; [lia|]. by rewrite R3.
  - intros Hb. destruct (decide (q = es)) as [E|]; [|lia]. rewrite at_end in Hb by lia. done.
Qed.

Lemma parseredirs_returns n : forall s, (s <= es < n + s)%nat ->
  returns (parseredirs buf n s) (fun rs s' => (s <= s' <= es)%nat /\ Forall (fun r => word (fst (fst r))) rs).
Proof.
  induction n as [|n IH]; intros s Hs; [lia|]. simpl parseredirs. apply returns_bind.
  eapply returns_mono; [apply peek_returns; lia|]. intros b s1 (H1 & E1 & Hb). simpl.
  destruct b; simpl; [|done]. specialize (Hb eq_refl). apply returns_bind.
  eapply returns_mono; [apply gettoken_returns; lia|]. intros t s2 (H2 & H2' & _ & _). simpl. rewrite E1 in H2'. specialize (H2' Hb).
  apply returns_bind. eapply returns_mono; [apply gettoken_returns; lia|]. intros f s3 (H3 & _ & Hw & _). simpl.
  destruct (Z.eqb_spec (fst f) 97) as [Ef|]; [|done]. simpl. apply returns_bind.
  eapply returns_mono; [apply IH; lia|]. intros rs s4 [H4 Hrs]. simpl. split; [lia|]. constructor; [by apply Hw|done].
Qed.

Lemma parsewords_returns n : forall args rs s, (s <= es < n + s)%nat ->
  Forall word args -> (length args < MAXARGS)%nat -> Forall (fun r => word (fst (fst r))) rs ->
  returns (parsewords buf n args rs s) (fun c s' => (s <= s' <= es)%nat /\ cmd_all word c).
Proof.
  induction n as [|n IH]; intros args rs s Hs Ha Hl Hr; [lia|]. cbn [parsewords]. apply returns_bind.
  assert (cmd_all word (wrap rs (EXEC args))) as Hdone by (by apply cmd_all_wrap).
  eapply returns_mono; [apply peek_returns; lia|]. intros b s1 (H1 & E1 & _). destruct b; [done|]. apply returns_bind.
  eapply returns_mono; [apply gettoken_returns; lia|]. intros t s2 (H2 & H2' & Hw & He). cbv beta. rewrite E1 in H2', He.
  destruct (Z.eqb_spec (fst t) 0) as [|H0]; [simpl; split; [lia|done]|].
  destruct (Z.eqb_spec (fst t) 97) as [Et|]; [|done]. cbn [negb]. cbv zeta. case_bool_decide as Hm; [done|].
  apply returns_bind. eapply returns_mono; [apply parseredirs_returns; lia|]. intros rs' s3 [H3 Hr']. cbv beta.
  assert (s1 < es)%nat by (destruct (decide (s1 = es)); [by destruct H0; apply He|lia]).
  eapply returns_mono; [apply IH; [lia| |lia|]|].
  - apply Forall_app. split; [done|]. constructor; [by apply Hw|constructor].
  - by apply Forall_app.
  - intros c s4 [H4 Hc]. split; [lia|done].
Qed.

Lemma parseback_returns n : forall c s, (s <= es < n + s)%nat -> cmd_all word c ->
  returns (parseback buf n c s) (fun c s' => (s <= s' <= es)%nat /\ cmd_all word c).
Proof.
  induction n as [|n IH]; intros c s Hs Hc; [lia|]. simpl parseback. apply returns_bind.
  eapply returns_mono; [apply peek_returns; lia|]. intros b s1 (H1 & E1 & Hb). simpl. destruct b; [|done]. simpl.
  specialize (Hb eq_refl). apply returns_bind. eapply returns_mono; [apply gettoken_returns; lia|].
  intros t s2 (H2 & H2' & _). rewrite E1 in H2'. eapply returns_mono; [apply (IH (BACK c)); [lia|done]|].
  intros c' s3 [H3 Hc']. split; [lia|done].
Qed.

(** What a parsing function returns from [s]. *)
Definition parses (o : outcome nat (cmd token)) (s : nat) : Prop :=
  returns o (fun c s' => (s <= s' <= es)%nat /\ cmd_all word c).

(** Fuel for [4 * (es - s)] nested calls and the levels above. *)
Lemma parse_returns f : forall s, (s <= es)%nat ->
  ((4 * (es - s) + 4 <= f)%nat -> parses (parseline buf f s) s) /\
  ((4 * (es - s) + 3 <= f)%nat -> parses (parsepipe buf f s) s) /\
  ((4 * (es - s) + 2 <= f)%nat -> parses (parseexec buf f s) s) /\
  ((4 * (es - s) + 1 <= f)%nat -> parses (parseblock buf f s) s).
Proof.
  induction f as [|f IH]; intros s Hs; [lia|]. unfold parses in *. split_and!; intros Hf.
  - cbn [parseline]. apply returns_bind. eapply returns_mono; [apply IH; lia|]. intros c s1 [H1 Hc].
    apply returns_bind. eapply returns_mono; [apply parseback_returns; [lia|done]|]. intros c2 s2 [H2 Hc2].
    apply returns_bind. eapply returns_mono; [apply peek_returns; lia|]. intros b s3 (H3 & E3 & Hb).
    destruct b; [|split; [lia|done]]. specialize (Hb eq_refl). simpl negb. cbv iota.
    apply returns_bind. eapply returns_mono; [apply gettoken_returns; lia|]. intros t s4 (H4 & H4' & _). rewrite E3 in H4'.
    apply returns_bind. eapply returns_mono; [apply IH; lia|]. intros r s5 [H5 Hr]. split; [lia|done].
  - cbn [parsepipe]. apply returns_bind. eapply returns_mono; [apply IH; lia|]. intros c s1 [H1 Hc].
    apply returns_bind. eapply returns_mono; [apply peek_returns; lia|]. intros b s3 (H3 & E3 & Hb).
    destruct b; [|split; [lia|done]]. specialize (Hb eq_refl). simpl negb. cbv iota.
    apply returns_bind. eapply returns_mono; [apply gettoken_returns; lia|]. intros t s4 (H4 & H4' & _). rewrite E3 in H4'.
    apply returns_bind. eapply returns_mono; [apply IH; lia|]. intros r s5 [H5 Hr]. split; [lia|done].
  - cbn [parseexec]. apply returns_bind. eapply returns_mono; [apply peek_returns; lia|]. intros b s3 (H3 & E3 & Hb).
    destruct b; [eapply returns_mono; [apply IH; lia|]; intros c s4 [H4 Hc]; split; [lia|done]|].
    apply returns_bind. eapply returns_mono; [apply parseredirs_returns; lia|]. intros rs s4 [H4 Hr].
    eapply returns_mono; [apply parsewords_returns; [lia|constructor|unfold MAXARGS; simpl; lia|done]|].
    intros c s5 [H5 Hc]. split; [lia|done].
  - cbn [parseblock]. apply returns_bind. eapply returns_mono; [apply peek_returns; lia|]. intros b s3 (H3 & E3 & Hb).
    destruct b; [|done]. specialize (Hb eq_refl). simpl negb. cbv iota.
    apply returns_bind. eapply returns_mono; [apply gettoken_returns; lia|]. intros t s4 (H4 & H4' & _). rewrite E3 in H4'.
    apply returns_bind. eapply returns_mono; [apply IH; lia|]. intros c s5 [H5 Hc].
    apply returns_bind. eapply returns_mono; [apply peek_returns; lia|]. intros b2 s6 (H6 & _ & _). destruct b2; [|done].
    apply returns_bind. eapply returns_mono; [apply gettoken_returns; lia|]. intros t2 s7 (H7 & _).
    apply returns_bind. eapply returns_mono; [apply parseredirs_returns; lia|]. intros rs s8 [H8 Hr].
    split; [lia|]. by apply cmd_all_wrap.
Qed.
End Total.

(** ** Terminating the strings *)

Lemma cmd_all_impl {A} (P Q : A -> Prop) c : cmd_all P c -> (forall x, P x -> Q x) -> cmd_all Q c.
Proof.
  intros H I. induction c as [argv|c IH f m d|l IHl r IHr|l IHl r IHr|c IH]; simpl in *; try tauto; [|naive_solver].
  by eapply Forall_impl.
Qed.
Lemma cmd_all_map {A B} (f : A -> B) (P : B -> Prop) c : cmd_all P (cmd_map f c) <-> cmd_all (fun x => P (f x)) c.
Proof.
  induction c as [argv|c IH fl m d|l IHl r IHr|l IHl r IHr|c IH]; simpl; try tauto. by rewrite Forall_fmap.
Qed.
Lemma cmd_map_ext {A B} (f g : A -> B) c : cmd_all (fun x => f x = g x) c -> cmd_map f c = cmd_map g c.
Proof.
  induction c as [argv|c IH fl m d|l IHl r IHr|l IHl r IHr|c IH]; simpl.
  - intros H. f_equal. apply map_ext_Forall. done.
  - intros [H ->]. by rewrite IH.
  - intros [H1 H2]. by rewrite IHl, IHr.
  - intros [H1 H2]. by rewrite IHl, IHr.
  - intros H. by rewrite IH.
Qed.

Lemma nul_keep p b i : p <> i -> nul p b !! i = b !! i.
Proof. intros. by apply list_lookup_insert_ne. Qed.
Lemma nul_zero p b i : b !! i = Some 0 -> nul p b !! i = Some 0.
Proof.
  intros H. unfold nul. destruct (decide (p = i)) as [->|]; [|by rewrite list_lookup_insert_ne].
  apply list_lookup_insert_eq. by eapply lookup_lt_Some.
Qed.
Lemma nulterminate_keep c : forall b i, cmd_all (fun t => snd t <> i) c -> nulterminate c b !! i = b !! i.
Proof.
  induction c as [argv|c IH f m d|l IHl r IHr|l IHl r IHr|c IH]; intros b i; cbn [nulterminate cmd_all].
  - revert b. induction argv as [|t argv IH]; intros b; [done|]. intros [Ht H]%Forall_cons. simpl. rewrite IH by done. by apply nul_keep.
  - intros [H Hf]. rewrite nul_keep by done. by apply IH.
  - intros [H1 H2]. by rewrite IHr, IHl.
  - intros [H1 H2]. by rewrite IHr, IHl.
  - apply IH.
Qed.
Lemma nulterminate_zero c : forall b i, b !! i = Some 0 -> nulterminate c b !! i = Some 0.
Proof.
  induction c as [argv|c IH f m d|l IHl r IHr|l IHl r IHr|c IH]; intros b i H; cbn [nulterminate]; try by auto using nul_zero.
  revert b H. induction argv as [|t argv IH]; intros b H; [done|]. simpl. by apply IH, nul_zero.
Qed.
Lemma nul_length p b : length (nul p b) = length b.
Proof. apply length_insert. Qed.
Lemma nulterminate_length c : forall b, length (nulterminate c b) = length b.
Proof.
  induction c as [argv|c IH f m d|l IHl r IHr|l IHl r IHr|c IH]; intros b; cbn [nulterminate]; rewrite ?nul_length, ?IHr, ?IHl, ?IH; try done.
  revert b. induction argv as [|t argv IH]; intros b; [done|]. simpl. by rewrite IH, nul_length.
Qed.
Lemma nulterminate_ends c : forall b, cmd_all (fun t => (snd t < length b)%nat) c ->
  cmd_all (fun t => nulterminate c b !! snd t = Some 0) c.
Proof.
  induction c as [argv|c IH f m d|l IHl r IHr|l IHl r IHr|c IH]; intros b; cbn [nulterminate cmd_all].
  - revert b. induction argv as [|t argv IH]; intros b; [constructor|]. intros [Ht H]%Forall_cons. simpl. constructor.
    + apply (nulterminate_zero (EXEC argv)). unfold nul. by apply list_lookup_insert_eq.
    + apply IH. by rewrite nul_length.
  - intros [H Hf]. split.
    + eapply cmd_all_impl; [by apply IH|]. intros t. simpl. apply nul_zero.
    + unfold nul. apply list_lookup_insert_eq. by rewrite nulterminate_length.
  - intros [H1 H2]. split; [eapply cmd_all_impl; [by apply IHl|]; intros t; apply nulterminate_zero|].
    apply IHr. by rewrite nulterminate_length.
  - intros [H1 H2]. split; [eapply cmd_all_impl; [by apply IHl|]; intros t; apply nulterminate_zero|].
    apply IHr. by rewrite nulterminate_length.
  - apply IH.
Qed.

(** The characters of a token. *)
Definition slice (buf : list Z) (t : token) : list Z := take (snd t - fst t) (drop (fst t) buf).

Lemma until_nul_app w l : 0 ∉ w -> until_nul (w ++ 0 :: l) = w.
Proof.
  induction w as [|c w IH]; intros H; [done|]. apply not_elem_of_cons in H as [Hc H]. simpl.
  destruct (Z.eqb_spec c 0); [congruence|]. by rewrite IH.
Qed.

Lemma cstr_slice buf b' t :
  0 ∉ buf -> word buf t -> (forall i, (fst t <= i < snd t)%nat -> b' !! i = buf !! i) -> b' !! snd t = Some 0 ->
  cstr b' (fst t) = slice buf t.
Proof.
  intros H0 [[H1 H2] _ _] Hk He. unfold cstr, slice. set (w := take (snd t - fst t) (drop (fst t) buf)).
  assert (length w = snd t - fst t)%nat as Hw by (unfold w, es in *; rewrite length_take, length_drop; lia).
  assert (take (snd t - fst t) (drop (fst t) b') = w) as Ew.
  { apply list_eq. intros i. destruct (decide (i < snd t - fst t)%nat) as [Hi|Hi].
    - unfold w. rewrite !lookup_take_lt, !lookup_drop by done. apply Hk. lia.
    - unfold w. by rewrite !lookup_take_ge by lia. }
  rewrite <- (take_drop (snd t - fst t) (drop (fst t) b')), Ew, drop_drop.
  replace (fst t + (snd t - fst t))%nat with (snd t) by lia. rewrite (drop_S _ _ _ He). apply until_nul_app.
  unfold w. intros Hin. apply H0. apply elem_of_take in Hin as (i & Hi & _). eapply list_elem_of_lookup_2.
  by rewrite lookup_drop in Hi.
Qed.

Lemma nulterminate_strings buf c :
  0 ∉ buf -> cmd_all (word buf) c -> strings (nulterminate c (buf ++ [0])) c = cmd_map (slice buf) c.
Proof.
  intros H0 Hc. unfold strings. apply cmd_map_ext.
  assert (cmd_all (fun t => word buf t /\ nulterminate c (buf ++ [0]) !! snd t = Some 0) c) as Hce.
  { assert (cmd_all (fun t => nulterminate c (buf ++ [0]) !! snd t = Some 0) c) as He.
    { apply nulterminate_ends. eapply cmd_all_impl; [done|]. intros t [[_ H] _ _]. rewrite length_app. unfold es in H. simpl. lia. }
    revert Hc He. generalize (nulterminate c (buf ++ [0])) as b. intros b.
    induction c as [argv|c IH f m d|l IHl r IHr|l IHl r IHr|c IH]; simpl; try tauto. rewrite !Forall_forall. naive_solver. }
  eapply cmd_all_impl; [apply Hce|]. intros t [Hw He]. simpl. apply cstr_slice; try done.
  intros i Hi. pose proof (wd_range _ _ Hw). rewrite nulterminate_keep.
  - apply lookup_app_l. unfold es in *. lia.
  - eapply cmd_all_impl; [apply Hc|]. intros t' [_ _ He'] <-. pose proof (wd_chars _ _ Hw _ Hi) as Hch.
    destruct He' as [E|E]; [lia|congruence].
Qed.


(** ** Printing a command *)

Definition word_text (w : list Z) : list Z := w ++ [32].
Definition redir_text (r : list Z * Z * Z) : list Z :=
  match r with (file, _, fd) => (if fd =? 0 then 60 else 62) :: word_text file end.

(** How tightly a command binds: a simple command, a pipe, in the
    background, a list. *)
Definition lev {A} (c : cmd A) : nat :=
  match c with EXEC _ | REDIR _ _ _ _ => 0 | PIPE _ _ => 1 | BACK _ => 2 | LIST _ _ => 3 end.
(** The text of a command of level [k] where one of level [n] stands. *)
Definition enclose (n k : nat) (text : list Z) : list Z := if (k <=? n)%nat then text else 40 :: text ++ [41].

Fixpoint print (c : cmd (list Z)) : list Z :=
  match c with
  | EXEC argv => concat (map word_text argv)
  | REDIR c file mode fd => enclose 0 (lev c) (print c) ++ redir_text (file, mode, fd)
  | PIPE l r => enclose 0 (lev l) (print l) ++ 124 :: enclose 1 (lev r) (print r)
  | BACK c => enclose 2 (lev c) (print c) ++ [38]
  | LIST l r => enclose 2 (lev l) (print l) ++ 59 :: print r
  end.

Definition good_word (w : list Z) : Prop := w <> [] /\ Forall (fun c => wordchar c = true /\ c <> 0) w.
Definition good_redir (r : list Z * Z * Z) : Prop :=
  match r with (file, mode, fd) =>
    good_word file /\ ((mode = O_RDONLY /\ fd = 0) \/ (mode = Z.lor O_WRONLY O_CREATE /\ fd = 1)) end.
(** The commands the parser can return. *)
Fixpoint good (c : cmd (list Z)) : Prop :=
  match c with
  | EXEC argv => Forall good_word argv /\ (length argv < MAXARGS)%nat
  | REDIR c file mode fd => good c /\ good_redir (file, mode, fd)
  | PIPE l r | LIST l r => good l /\ good r
  | BACK c => good c
  end.

Section RoundTrip.
Context (buf : list Z) (Hbuf : 0 ∉ buf).
Local Notation es := (es buf).
Local Notation at_ := (at_ buf).

(** The text [t] is what is left of the line at [s]. *)
Definition here (s : nat) (t : list Z) : Prop := (s <= es)%nat /\ drop s buf = t.

Lemma here_cons s c t : here s (c :: t) -> at_ s = c /\ (s < es)%nat /\ here (S s) t.
Proof.
  intros [Hs Hd]. assert (buf !! s = Some c) as Hc by (rewrite <- (Nat.add_0_r s), <- lookup_drop, Hd; done).
  pose proof (lookup_lt_Some _ _ _ Hc). unfold at_, here, Sh.es in *. rewrite Hc. split; [done|]. split; [done|]. split; [lia|].
  rewrite (drop_S _ _ _ Hc) in Hd. by injection Hd.
Qed.
Lemma here_nil s : here s [] -> s = es /\ at_ s = 0.
Proof.
  intros [Hs Hd]. apply (f_equal length) in Hd. rewrite length_drop in Hd. simpl in Hd. unfold Sh.es in *.
  split; [lia|]. apply at_end. unfold Sh.es. lia.
Qed.
Lemma here_app s w t : here s (w ++ t) -> here (s + length w) t.
Proof.
  revert s. induction w as [|c w IH]; intros s H; [by rewrite Nat.add_0_r|]. apply here_cons in H as (_ & _ & H).
  apply IH in H. by rewrite Nat.add_succ_comm in H.
Qed.
Lemma here_length s t : here s t -> (s + length t = es)%nat.
Proof. intros [Hs Hd]. rewrite <- Hd, length_drop. unfold Sh.es in *. lia. Qed.

(** Text that does not start with a blank. *)
Definition norm (t : list Z) : Prop := match t with [] => True | c :: _ => has whitespace c = false end.
(** [toks] starts the text. *)
Definition starts (toks t : list Z) : bool := match t with [] => false | c :: _ => has toks c end.

Lemma skip_none p s t : here s t -> match t with [] => True | c :: _ => p c = false end -> skip buf p s = s.
Proof.
  intros H Hp. unfold skip. destruct (es - s)%nat eqn:E; [done|]. cbn [skip_loop]. destruct t as [|c t].
  - apply here_nil in H as [H _]. lia.
  - apply here_cons in H as (-> & _ & _). by rewrite Hp.
Qed.
Lemma skip_word p s w t : here s (w ++ t) -> Forall (fun c => p c = true) w ->
  match t with [] => True | c :: _ => p c = false end -> skip buf p s = (s + length w)%nat.
Proof.
  revert s. induction w as [|c w IH]; intros s H Hw Ht; [rewrite Nat.add_0_r; by eapply skip_none|].
  apply here_cons in H as (Ea & Hlt & H). apply Forall_cons in Hw as [Hc Hw]. unfold skip.
  destruct (es - s)%nat as [|n] eqn:E; [lia|]. cbn [skip_loop]. rewrite Ea, Hc.
  replace n with (es - S s)%nat by lia. change (skip_loop buf p (es - S s) (S s)) with (skip buf p (S s)).
  rewrite IH by done. simpl. lia.
Qed.

Lemma here_skip s t : here s t -> norm t -> skip buf (has whitespace) s = s.
Proof. intros. by eapply skip_none. Qed.

Lemma peek_here toks s t : here s t -> norm t -> 0 ∉ t -> peek buf toks s = Done (starts toks t) s.
Proof.
  intros H Hn H0. unfold peek. rewrite (here_skip s t) by done. destruct t as [|c t]; simpl.
  - apply here_nil in H as [_ ->]. done.
  - apply here_cons in H as (-> & _ & _). apply not_elem_of_cons in H0 as [H0 _]. by destruct (Z.eqb_spec c 0).
Qed.
Lemma here_0 s t : here s t -> 0 ∉ t.
Proof. intros [_ <-] H. apply Hbuf. apply list_elem_of_lookup_1 in H as [i Hi]. rewrite lookup_drop in Hi. by eapply list_elem_of_lookup_2. Qed.

Lemma gettoken_sym c s t : has [124; 40; 41; 59; 38; 60] c = true -> here s (c :: t) -> norm t ->
  exists k, gettoken buf s = Done (c, k) (S s) /\ here (S s) t.
Proof.
  intros Hc H Hn. assert (has whitespace c = false) as Hw.
  { unfold has in Hc. apply existsb_exists in Hc as (x & Hx & ->%Z.eqb_eq). simpl in Hx. by repeat (destruct Hx as [<-|Hx]; [done|]). }
  assert (0 ∉ c :: t) as H0 by by eapply here_0. unfold gettoken. rewrite (here_skip s (c :: t)) by done.
  apply here_cons in H as (Ea & _ & H). unfold token_at. rewrite Ea, Hc. destruct (Z.eqb_spec c 0); [set_solver|].
  rewrite (here_skip (S s) t) by done. eauto.
Qed.
Lemma gettoken_gt s t : here s (62 :: t) -> norm t -> starts [62] t = false ->
  exists k, gettoken buf s = Done (62, k) (S s) /\ here (S s) t.
Proof.
  intros H Hn Hs. unfold gettoken. rewrite (here_skip s (62 :: t)) by done.
  apply here_cons in H as (Ea & _ & H). unfold token_at. rewrite Ea. simpl.
  assert (at_ (S s) =? 62 = false) as ->.
  { destruct t as [|d t]; [apply here_nil in H as [_ ->]; done|]. apply here_cons in H as (-> & _ & _).
    simpl in Hs. rewrite orb_false_r in Hs. by rewrite Z.eqb_sym in Hs; rewrite Z.eqb_sym. }
  rewrite (here_skip (S s) t) by done. eauto.
Qed.

Lemma wordchar_facts c : wordchar c = true -> has whitespace c = false /\ has symbols c = false.
Proof. unfold wordchar. rewrite andb_true_iff, !negb_true_iff. done. Qed.

Lemma gettoken_word s w t : good_word w -> here s (word_text w ++ t) -> norm t ->
  exists k s', gettoken buf s = Done (97, k) s' /\ here s' t /\ slice buf k = w.
Proof.
  intros [Hne Hw] H Hn. unfold word_text in H. rewrite <- app_assoc in H. simpl in H.
  assert (Forall (fun c => wordchar c = true) w) as Hw1 by (eapply Forall_impl; [done|]; intros ? [? _]; done).
  pose proof (skip_word wordchar s w (32 :: t) H Hw1 eq_refl) as Es.
  assert (here (s + length w) (32 :: t)) as H1 by by apply here_app. pose proof H1 as H2. apply here_cons in H2 as (_ & _ & H2).
  unfold gettoken. destruct w as [|c w]; [done|]. apply Forall_cons in Hw as [[Hc Hc0] _]. apply wordchar_facts in Hc as [Hcw Hcs].
  rewrite (skip_none _ s _ H) by done. pose proof H as H'. simpl in H'. apply here_cons in H' as (Ea & _ & _).
  unfold token_at. rewrite Ea. destruct (Z.eqb_spec c 0); [done|].
  assert (has [124; 40; 41; 59; 38; 60] c = false /\ (c =? 62) = false) as [-> ->].
  { revert Hcs. unfold has, symbols. simpl. destruct (c =? 60), (c =? 124), (c =? 62), (c =? 38), (c =? 59), (c =? 40), (c =? 41); done. }
  rewrite Es. pose proof (skip_word (has whitespace) _ [32] t H1 ltac:(by repeat constructor) Hn) as ->.
  eexists _, _. split; [done|]. split; [by rewrite Nat.add_comm|].
  unfold slice. cbn [fst snd]. destruct H as [_ ->]. replace (s + length (c :: w) - s)%nat with (length (c :: w)) by lia.
  apply take_app_length.
Qed.

(** ** Redirections and words *)

Definition res_redir (r : token * Z * Z) : list Z * Z * Z := match r with (f, mode, fd) => (slice buf f, mode, fd) end.
Local Notation res := (cmd_map (slice buf)).

Lemma res_wrap rs : forall c, res (wrap rs c) = wrap (map res_redir rs) (res c).
Proof. induction rs as [|[[f m] d] rs IH]; intros c; [done|]. simpl. by rewrite IH. Qed.

Definition redirs_text (rs : list (list Z * Z * Z)) : list Z := concat (map redir_text rs).

Lemma norm_redirs rs t : norm t -> norm (redirs_text rs ++ t).
Proof. destruct rs as [|[[f m] d] rs]; [done|]. intros _. simpl. by destruct (d =? 0). Qed.
Lemma good_word_head w t : good_word w -> exists c t', word_text w ++ t = c :: t' /\ wordchar c = true.
Proof. intros [H1 H2]. destruct w as [|c w]; [done|]. apply Forall_cons in H2 as [[H2 _] _]. simpl. eauto. Qed.
Lemma norm_word w t : good_word w -> norm (word_text w ++ t).
Proof. intros H. destruct (good_word_head w t H) as (c & t' & -> & Hc). by apply wordchar_facts in Hc as [Hc _]. Qed.
Lemma starts_word toks w t : good_word w -> (forall c, has toks c = true -> has symbols c = true) -> starts toks (word_text w ++ t) = false.
Proof.
  intros H Hsub. destruct (good_word_head w t H) as (c & t' & -> & Hc). apply wordchar_facts in Hc as [_ Hc]. simpl.
  destruct (has toks c) eqn:E; [|done]. apply Hsub in E. congruence.
Qed.
Lemma has_sub toks c : Forall (fun x => has symbols x = true) toks -> has toks c = true -> has symbols c = true.
Proof. intros H E. apply existsb_exists in E as (x & Hx & ->%Z.eqb_eq). rewrite Forall_forall in H. apply H. by apply list_elem_of_In. Qed.
Lemma starts_words toks w t : good_word w -> Forall (fun x => has symbols x = true) toks -> starts toks (word_text w ++ t) = false.
Proof. intros H Hs. apply starts_word; [done|]. intros c. by apply has_sub. Qed.

Lemma parseredirs_run rs : forall n s t, Forall good_redir rs -> here s (redirs_text rs ++ t) -> norm t -> starts [60; 62] t = false ->
  (length rs < n)%nat ->
  exists rs' s', parseredirs buf n s = Done rs' s' /\ here s' t /\ map res_redir rs' = rs.
Proof.
  induction rs as [|[[f m] d] rs IH]; intros n s t Hg H Hn Hs Hlen; (destruct n as [|n]; [simpl in Hlen; lia|]); cbn [parseredirs];
    rewrite (bind_Done _ _ _ _ _ (peek_here _ _ _ H (norm_redirs _ _ Hn) (here_0 _ _ H))).
  - change (redirs_text [] ++ t) with t in *. rewrite Hs. exists [], s. done.
  - apply Forall_cons in Hg as [[Hf Hmd] Hg]. unfold redirs_text in H |- *. cbn [map concat] in H. unfold redir_text at 1 in H.
    rewrite <- app_assoc, <- app_comm_cons in H. fold (redirs_text rs) in H.
    assert (exists k1, gettoken buf s = Done (if d =? 0 then 60 else 62, k1) (S s) /\ here (S s) (word_text f ++ redirs_text rs ++ t)) as (k1 & Hk1 & H1).
    { destruct (d =? 0); [apply gettoken_sym|apply gettoken_gt]; try done; try by apply norm_word. by apply starts_words; [|repeat constructor]. }
    destruct (gettoken_word _ f _ Hf H1 (norm_redirs _ _ Hn)) as (k2 & s2 & Hk2 & H2 & Ef).
    assert (starts [60; 62] ((concat (map redir_text ((f, m, d) :: rs))) ++ t) = true) as Est by (simpl; by destruct (d =? 0)).
    rewrite Est. cbn [negb]. rewrite (bind_Done _ _ _ _ _ Hk1), (bind_Done _ _ _ _ _ Hk2). cbn [fst snd]. change (97 =? 97) with true. cbn [negb].
    destruct (IH n s2 t) as (rs' & s' & Hr & H' & Er); try done; [simpl in Hlen; lia|].
    rewrite (bind_Done _ _ _ _ _ Hr). eexists _, s'. split; [done|]. split; [done|]. simpl. rewrite Ef, Er. f_equal.
    destruct Hmd as [[-> ->]|[-> ->]]; done.
Qed.

Definition words_text (argv : list (list Z)) : list Z := concat (map word_text argv).
(** What may follow a simple command. *)
Definition stop (toks t : list Z) : Prop := t = [] \/ exists c t', t = c :: t' /\ has toks c = true.

Lemma stop_norm toks t : Forall (fun x => has whitespace x = false) toks -> stop toks t -> norm t.
Proof.
  intros Hf [->|(c & t' & -> & Hc)]; [done|]. apply existsb_exists in Hc as (x & Hx & ->%Z.eqb_eq). rewrite Forall_forall in Hf.
  apply Hf. by apply list_elem_of_In.
Qed.
Lemma stop_starts toks t : stop toks t -> starts toks t = match t with [] => false | _ => true end.
Proof. intros [->|(c & t' & -> & Hc)]; [done|]. simpl. by rewrite Hc. Qed.
Lemma stop_other toks others t : stop toks t -> Forall (fun x => has others x = false) toks -> starts others t = false.
Proof.
  intros [->|(c & t' & -> & Hc)] Hf; [done|]. simpl. apply existsb_exists in Hc as (x & Hx & ->%Z.eqb_eq). rewrite Forall_forall in Hf.
  apply Hf. by apply list_elem_of_In.
Qed.

Lemma gettoken_end s : here s [] -> exists k, gettoken buf s = Done (0, k) s.
Proof.
  intros H. unfold gettoken. rewrite (here_skip s []) by done. unfold token_at. pose proof H as H'. apply here_nil in H' as [_ ->]. simpl.
  rewrite (here_skip s []) by done. eauto.
Qed.

(** The loop at the end of a simple command. *)
Lemma parsewords_end n args rs s t : here s t -> stop [124; 41; 38; 59] t ->
  parsewords buf (S n) args rs s = Done (wrap rs (EXEC args)) s.
Proof.
  intros H Hs. cbn [parsewords]. assert (norm t) as Hn by (eapply stop_norm; [|done]; by repeat constructor).
  rewrite (bind_Done _ _ _ _ _ (peek_here _ _ _ H Hn (here_0 _ _ H))), (stop_starts _ _ Hs). destruct t as [|c t]; [|done].
  destruct (gettoken_end _ H) as [k Hk]. by rewrite (bind_Done _ _ _ _ _ Hk).
Qed.

Lemma parsewords_run argv : forall w n s t args rs0 rs, Forall good_word (w :: argv) -> Forall good_redir rs ->
  here s (words_text (w :: argv) ++ redirs_text rs ++ t) -> stop [124; 41; 38; 59] t ->
  (length argv + 1 < n)%nat -> (length args + length argv + 1 < MAXARGS)%nat -> (length rs <= es)%nat ->
  exists args' rs' s', parsewords buf n args rs0 s = Done (wrap (rs0 ++ rs') (EXEC (args ++ args'))) s' /\ here s' t /\
    map (slice buf) args' = w :: argv /\ map res_redir rs' = rs.
Proof.
  induction argv as [|w2 argv IH]; intros w n s t args rs0 rs Hw Hr H Hs Hn Hm Hrs; (destruct n as [|n]; [simpl in *; lia|]);
    apply Forall_cons in Hw as [Hw Hw'];
    assert (norm t) as Hnt by (eapply stop_norm; [|done]; by repeat constructor);
    assert (norm (redirs_text rs ++ t)) as Hnr by (by apply norm_redirs);
    unfold words_text in H; cbn [map concat] in H; rewrite <- app_assoc in H; cbn [parsewords];
    rewrite (bind_Done _ _ _ _ _ (peek_here _ _ _ H (norm_word _ _ Hw) (here_0 _ _ H)));
    (rewrite starts_words; [|done|by repeat constructor]).
  - simpl app in H. destruct (gettoken_word _ _ _ Hw H Hnr) as (k & s1 & Hk & H1 & Ek). rewrite (bind_Done _ _ _ _ _ Hk). cbn [fst snd].
    change (97 =? 0) with false. change (97 =? 97) with true. cbn [negb]. cbv zeta. rewrite bool_decide_eq_false_2 by (rewrite length_app; simpl in *; lia).
    destruct (parseredirs_run rs (S es) s1 t) as (rs' & s2 & Hr2 & H2 & Er); try done; [eapply stop_other; [done|by repeat constructor]|lia|].
    rewrite (bind_Done _ _ _ _ _ Hr2). destruct n as [|n]; [simpl in Hn; lia|]. rewrite (parsewords_end _ _ _ _ _ H2 Hs).
    exists [k], rs', s2. split; [done|]. split; [done|]. by rewrite <- Ek.
  - fold (words_text (w2 :: argv)) in H. apply Forall_cons in Hw' as Hw2. destruct Hw2 as [Hw2 _].
    assert (norm (words_text (w2 :: argv) ++ redirs_text rs ++ t) /\ starts [60; 62] (words_text (w2 :: argv) ++ redirs_text rs ++ t) = false) as [Hn2 Hs2].
    { unfold words_text. cbn [map concat]. rewrite <- app_assoc. split; [by apply norm_word|by apply starts_words; [|repeat constructor]]. }
    destruct (gettoken_word _ _ _ Hw H Hn2) as (k & s1 & Hk & H1 & Ek). rewrite (bind_Done _ _ _ _ _ Hk). cbn [fst snd].
    change (97 =? 0) with false. change (97 =? 97) with true. cbn [negb]. cbv zeta. rewrite bool_decide_eq_false_2 by (rewrite length_app; simpl in *; lia).
    destruct (parseredirs_run [] (S es) s1 _ ltac:(constructor) H1 Hn2 Hs2) as (rs1 & s2 & Hr2 & H2 & Er); [simpl; lia|].
    apply map_eq_nil in Er as ->. rewrite (bind_Done _ _ _ _ _ Hr2), app_nil_r.
    destruct (IH w2 n s2 t (args ++ [k]) rs0 rs) as (args' & rs' & s3 & Hr3 & H3 & Ea & Er); try done;
      [simpl in Hn; lia|rewrite length_app; simpl in *; lia|].
    exists (k :: args'), rs', s3. rewrite Hr3, <- app_assoc. split; [done|]. split; [done|]. simpl. by rewrite Ek, Ea.
Qed.

(** ** The levels of the grammar *)

Lemma norm_app a b : norm a -> norm b -> norm (a ++ b).
Proof. by destruct a. Qed.
Lemma redirs_length rs : (length rs <= length (redirs_text rs))%nat.
Proof. induction rs as [|[[f m] d] rs IH]; [done|]. unfold redirs_text in *. cbn [map concat]. rewrite length_app. simpl in *. lia. Qed.
Lemma words_length argv : (length argv <= length (words_text argv))%nat.
Proof. induction argv as [|w argv IH]; [done|]. unfold words_text, word_text in *. cbn [map concat]. rewrite !length_app. simpl in *. lia. Qed.
Lemma starts_redirs toks rs t : has toks 60 = false -> has toks 62 = false -> starts toks t = false -> starts toks (redirs_text rs ++ t) = false.
Proof. intros H1 H2 H3. destruct rs as [|[[f m] d] rs]; [done|]. simpl. by destruct (d =? 0). Qed.

(** The text [T] is parsed as [c]: by [parseexec] with redirections after
    it, by [parsepipe], by [parsepipe] and the loop over ampersands, and by
    [parseline]. *)
Definition is_exec (T : list Z) (c : cmd (list Z)) : Prop := forall f s rs t,
  Forall good_redir rs -> here s (T ++ redirs_text rs ++ t) -> stop [124; 41; 38; 59] t -> (4 * length T + 2 <= f)%nat ->
  exists c' s', parseexec buf f s = Done c' s' /\ here s' t /\ res c' = wrap rs c.
Definition is_pipe (T : list Z) (c : cmd (list Z)) : Prop := forall f s t,
  here s (T ++ t) -> stop [41; 38; 59] t -> (4 * length T + 3 <= f)%nat ->
  exists c' s', parsepipe buf f s = Done c' s' /\ here s' t /\ res c' = c.
Definition is_back (T : list Z) (c : cmd (list Z)) : Prop := forall f n s t,
  here s (T ++ t) -> stop [41; 38; 59] t -> (4 * length T + 3 <= f)%nat -> (es < n + s)%nat ->
  exists c0 s0 c' s' n', parsepipe buf f s = Done c0 s0 /\ parseback buf n c0 s0 = parseback buf n' c' s' /\
    here s' t /\ res c' = c /\ (es < n' + s')%nat.
Definition is_line (T : list Z) (c : cmd (list Z)) : Prop := forall f s t,
  here s (T ++ t) -> stop [41] t -> (4 * length T + 4 <= f)%nat ->
  exists c' s', parseline buf f s = Done c' s' /\ here s' t /\ res c' = c.

Lemma stop_weaken a b t : stop a t -> Forall (fun x => has b x = true) a -> stop b t.
Proof.
  intros [->|(c & t' & -> & Hc)] Hf; [by left|right]. exists c, t'. split; [done|]. rewrite Forall_forall in Hf.
  apply existsb_exists in Hc as (x & Hx & ->%Z.eqb_eq). apply Hf. by apply list_elem_of_In.
Qed.
Ltac weaken := eapply stop_weaken; [eassumption|by repeat constructor].

Lemma exec_words argv : Forall good_word argv -> (length argv < MAXARGS)%nat -> is_exec (words_text argv) (EXEC argv).
Proof.
  intros Hw Hm f s rs t Hr H Hs Hf. destruct f as [|f]; [lia|]. cbn [parseexec].
  assert (norm t) as Hnt by (eapply stop_norm; [|done]; by repeat constructor).
  assert (starts [40] t = false) as Ht by (eapply stop_other; [done|by repeat constructor]).
  assert (length rs <= es)%nat as Hrs.
  { pose proof (redirs_length rs). pose proof (here_length _ _ H) as E. rewrite !length_app in E. lia. }
  pose proof (words_length argv) as Hwl. pose proof (here_length _ _ H) as Hlen. rewrite !length_app in Hlen.
  destruct argv as [|w argv].
  - change (words_text [] ++ redirs_text rs ++ t) with (redirs_text rs ++ t) in H.
    rewrite (bind_Done _ _ _ _ _ (peek_here _ _ _ H (norm_redirs _ _ Hnt) (here_0 _ _ H))), starts_redirs by done.
    destruct (parseredirs_run rs (S es) s t) as (rs' & s' & Hr' & H' & Er); try done; [eapply stop_other; [done|by repeat constructor]|lia|].
    rewrite (bind_Done _ _ _ _ _ Hr'), (parsewords_end _ _ _ _ _ H' Hs). eexists _, s'. split; [done|]. split; [done|].
    by rewrite res_wrap, Er.
  - apply Forall_cons in Hw as Hw'. destruct Hw' as [Hw0 _].
    assert (words_text (w :: argv) ++ redirs_text rs ++ t = word_text w ++ words_text argv ++ redirs_text rs ++ t) as Et.
    { unfold words_text. cbn [map concat]. by rewrite <- app_assoc. }
    assert (norm (words_text (w :: argv) ++ redirs_text rs ++ t)) as Hn by (rewrite Et; by apply norm_word).
    rewrite (bind_Done _ _ _ _ _ (peek_here _ _ _ H Hn (here_0 _ _ H))).
    assert (forall toks, Forall (fun x => has symbols x = true) toks -> starts toks (words_text (w :: argv) ++ redirs_text rs ++ t) = false) as Hst
      by (intros; rewrite Et; by apply starts_words).
    rewrite Hst by by repeat constructor.
    destruct (parseredirs_run [] (S es) s _ ltac:(constructor) H Hn) as (rs1 & s1 & Hr1 & H1 & Er); [apply Hst; by repeat constructor|simpl; lia|].
    apply map_eq_nil in Er as ->. rewrite (bind_Done _ _ _ _ _ Hr1).
    destruct (parsewords_run argv w (S es) s1 t [] [] rs) as (args' & rs' & s' & Hrun & H' & Ea & Er); try done; [simpl in *; lia|simpl in *; lia|].
    exists (wrap rs' (EXEC args')), s'. split; [done|]. split; [done|]. rewrite res_wrap, Er. simpl. by rewrite Ea.
Qed.

Lemma exec_redir T c file mode fd : good_redir (file, mode, fd) -> is_exec T c -> is_exec (T ++ redir_text (file, mode, fd)) (REDIR c file mode fd).
Proof.
  intros Hg Hx f s rs t Hr H Hs Hf. rewrite <- app_assoc in H. rewrite length_app in Hf.
  apply (Hx f s ((file, mode, fd) :: rs) t); [by constructor| |done|lia].
  unfold redirs_text in *. cbn [map concat]. by rewrite <- app_assoc.
Qed.
Lemma exec_pipe T c : is_exec T c -> is_pipe T c.
Proof.
  intros Hx f s t H Hs Hf. destruct f as [|f]; [lia|]. cbn [parsepipe].
  destruct (Hx f s [] t) as (c' & s' & Hrun & H' & E); [constructor|done|weaken|lia|].
  rewrite (bind_Done _ _ _ _ _ Hrun). assert (norm t) as Hnt by (eapply stop_norm; [|done]; by repeat constructor).
  rewrite (bind_Done _ _ _ _ _ (peek_here _ _ _ H' Hnt (here_0 _ _ H'))).
  rewrite (stop_other _ _ _ Hs) by by repeat constructor. exists c', s'. done.
Qed.
Lemma pipe_pipe T1 T2 l r : is_exec T1 l -> is_pipe T2 r -> norm T2 -> is_pipe (T1 ++ 124 :: T2) (PIPE l r).
Proof.
  intros Hx Hp Hn f s t H Hs Hf. rewrite <- app_assoc in H. rewrite length_app in Hf. simpl in Hf, H.
  destruct f as [|f]; [lia|]. cbn [parsepipe].
  destruct (Hx f s [] (124 :: T2 ++ t)) as (c1 & s1 & Hrun & H1 & E1); [constructor|done|right; by eexists _, _|lia|].
  assert (norm t) as Hnt by (eapply stop_norm; [|done]; by repeat constructor).
  rewrite (bind_Done _ _ _ _ _ Hrun), (bind_Done _ _ _ _ _ (peek_here _ _ _ H1 ltac:(done) (here_0 _ _ H1))).
  change (starts [124] (124 :: T2 ++ t)) with true. cbn [negb].
  destruct (gettoken_sym 124 s1 (T2 ++ t)) as (k & Hk & H2); [done|done|by apply norm_app|]. rewrite (bind_Done _ _ _ _ _ Hk).
  destruct (Hp f (S s1) t H2 Hs) as (c2 & s2 & Hrun2 & H3 & E2); [lia|].
  rewrite (bind_Done _ _ _ _ _ Hrun2). exists (PIPE c1 c2), s2. split; [done|]. split; [done|]. simpl. by rewrite E1, E2.
Qed.
Lemma pipe_back T c : is_pipe T c -> is_back T c.
Proof.
  intros Hp f n s t H Hs Hf Hn. destruct (Hp f s t H Hs Hf) as (c' & s' & Hrun & H' & E).
  pose proof (here_length _ _ H) as L1. pose proof (here_length _ _ H') as L2. rewrite length_app in L1.
  exists c', s', c', s', n. split_and!; try done. lia.
Qed.
Lemma back_back T c : is_back T c -> is_back (T ++ [38]) (BACK c).
Proof.
  intros Hb f n s t H Hs Hf Hn. rewrite <- app_assoc in H. rewrite length_app in Hf. simpl in Hf, H.
  destruct (Hb f n s (38 :: t)) as (c0 & s0 & c1 & s1 & n1 & Hrun & Hback & H1 & E1 & Hn1); [done|right; by eexists _, _|lia|done|].
  assert (norm t) as Hnt by (eapply stop_norm; [|done]; by repeat constructor).
  pose proof (here_length _ _ H1) as L1. simpl in L1.
  destruct n1 as [|n1]; [lia|]. destruct (gettoken_sym 38 s1 t) as (k & Hk & H2); [done|done|done|].
  exists c0, s0, (BACK c1), (S s1), n1. split; [done|]. split; [|split; [done|split; [simpl; by rewrite E1|lia]]].
  rewrite Hback. cbn [parseback]. rewrite (bind_Done _ _ _ _ _ (peek_here _ _ _ H1 ltac:(done) (here_0 _ _ H1))).
  change (starts [38] (38 :: t)) with true. cbn [negb]. by rewrite (bind_Done _ _ _ _ _ Hk).
Qed.

Lemma parseback_end n c s t : here s t -> norm t -> starts [38] t = false -> (es < n + s)%nat -> parseback buf n c s = Done c s.
Proof.
  intros H Hn Hs Hlt. destruct n as [|n]; [destruct H; lia|]. cbn [parseback].
  by rewrite (bind_Done _ _ _ _ _ (peek_here _ _ _ H Hn (here_0 _ _ H))), Hs.
Qed.
Lemma back_line T c : is_back T c -> is_line T c.
Proof.
  intros Hb f s t H Hs Hf. destruct f as [|f]; [lia|]. cbn [parseline].
  destruct (Hb f (S es) s t) as (c0 & s0 & c1 & s1 & n1 & Hrun & Hback & H1 & E1 & Hn1); [done|weaken|lia|lia|].
  assert (norm t) as Hnt by (eapply stop_norm; [|done]; by repeat constructor).
  rewrite (parseback_end n1 c1 s1 t) in Hback; [|done|done|eapply stop_other; [done|by repeat constructor]|done].
  rewrite (bind_Done _ _ _ _ _ Hrun), (bind_Done _ _ _ _ _ Hback), (bind_Done _ _ _ _ _ (peek_here _ _ _ H1 Hnt (here_0 _ _ H1))).
  rewrite (stop_other _ _ _ Hs) by by repeat constructor. exists c1, s1. done.
Qed.
Lemma line_list T1 T2 l r : is_back T1 l -> is_line T2 r -> norm T2 -> is_line (T1 ++ 59 :: T2) (LIST l r).
Proof.
  intros Hb Hl Hn f s t H Hs Hf. rewrite <- app_assoc in H. rewrite length_app in Hf. simpl in Hf, H.
  destruct f as [|f]; [lia|]. cbn [parseline].
  destruct (Hb f (S es) s (59 :: T2 ++ t)) as (c0 & s0 & c1 & s1 & n1 & Hrun & Hback & H1 & E1 & Hn1); [done|right; by eexists _, _|lia|lia|].
  assert (norm t) as Hnt by (eapply stop_norm; [|done]; by repeat constructor).
  rewrite (parseback_end n1 c1 s1 (59 :: T2 ++ t)) in Hback by done.
  rewrite (bind_Done _ _ _ _ _ Hrun), (bind_Done _ _ _ _ _ Hback), (bind_Done _ _ _ _ _ (peek_here _ _ _ H1 ltac:(done) (here_0 _ _ H1))).
  change (starts [59] (59 :: T2 ++ t)) with true. cbn [negb].
  destruct (gettoken_sym 59 s1 (T2 ++ t)) as (k & Hk & H2); [done|done|by apply norm_app|]. rewrite (bind_Done _ _ _ _ _ Hk).
  destruct (Hl f (S s1) t H2 Hs) as (c2 & s2 & Hrun2 & H3 & E2); [lia|].
  rewrite (bind_Done _ _ _ _ _ Hrun2). exists (LIST c1 c2), s2. split; [done|]. split; [done|]. simpl. by rewrite E1, E2.
Qed.

(** A command in parentheses. *)
Lemma line_block T c : is_line T c -> norm T -> is_exec (40 :: T ++ [41]) c.
Proof.
  intros Hl Hn f s rs t Hr H Hs Hf. simpl in Hf, H. rewrite length_app in Hf. rewrite <- app_assoc in H. simpl in Hf, H.
  destruct f as [|[|f]]; [lia|lia|]. cbn [parseexec parseblock].
  assert (norm t) as Hnt by (eapply stop_norm; [|done]; by repeat constructor).
  pose proof (peek_here [40] _ _ H ltac:(done) (here_0 _ _ H)) as Hp. simpl in Hp.
  rewrite (bind_Done _ _ _ _ _ Hp). cbv iota. rewrite (bind_Done _ _ _ _ _ Hp). cbn [negb].
  destruct (gettoken_sym 40 s (T ++ 41 :: redirs_text rs ++ t)) as (k & Hk & H1); [done|done|by apply norm_app|].
  rewrite (bind_Done _ _ _ _ _ Hk).
  destruct (Hl f (S s) (41 :: redirs_text rs ++ t) H1) as (c1 & s1 & Hrun & H2 & E1); [right; by eexists _, _|lia|].
  rewrite (bind_Done _ _ _ _ _ Hrun), (bind_Done _ _ _ _ _ (peek_here _ _ _ H2 ltac:(done) (here_0 _ _ H2))).
  change (starts [41] (41 :: redirs_text rs ++ t)) with true. cbn [negb].
  destruct (gettoken_sym 41 s1 (redirs_text rs ++ t)) as (k2 & Hk2 & H3); [done|done|by apply norm_redirs|].
  rewrite (bind_Done _ _ _ _ _ Hk2). pose proof (redirs_length rs) as Hrl. pose proof (here_length _ _ H3) as L. rewrite length_app in L.
  destruct (parseredirs_run rs (S es) (S s1) t) as (rs' & s' & Hr' & H' & Er); try done; [eapply stop_other; [done|by repeat constructor]|lia|].
  rewrite (bind_Done _ _ _ _ _ Hr'). eexists _, s'. split; [done|]. split; [done|]. by rewrite res_wrap, Er, E1.
Qed.

Lemma norm_enclose n k t : norm t -> norm (enclose n k t).
Proof. unfold enclose. by destruct (k <=? n)%nat. Qed.
Lemma norm_print c : good c -> norm (print c).
Proof.
  induction c as [argv|c IH f m d|l IHl r IHr|l IHl r IHr|c IH]; simpl.
  - intros [Hw _]. destruct argv as [|w argv]; [done|]. apply Forall_cons in Hw as [Hw _]. by apply norm_word.
  - intros [Hc _]. apply norm_app; [by apply norm_enclose, IH|]. simpl. by destruct (d =? 0).
  - intros [Hl _]. apply norm_app; [by apply norm_enclose, IHl|done].
  - intros [Hl _]. apply norm_app; [by apply norm_enclose, IHl|done].
  - intros Hc. apply norm_app; [by apply norm_enclose, IH|done].
Qed.

(** Every level of the grammar reads its text of a command back. *)
Lemma levels c : good c ->
  is_exec (enclose 0 (lev c) (print c)) c /\ is_pipe (enclose 1 (lev c) (print c)) c /\
  is_back (enclose 2 (lev c) (print c)) c /\ is_line (print c) c.
Proof.
  induction c as [argv|c IH f m d|l IHl r IHr|l IHl r IHr|c IH]; intros Hg; pose proof (norm_print _ Hg) as Hn; unfold enclose; cbn [lev]; simpl Nat.leb; cbv iota.
  - destruct Hg as [Hw Hm]. assert (is_exec (print (EXEC argv)) (EXEC argv)) by (by apply exec_words).
    auto 8 using exec_pipe, pipe_back, back_line.
  - destruct Hg as [Hg Hr]. destruct (IH Hg) as (Hx & _).
    assert (is_exec (print (REDIR c f m d)) (REDIR c f m d)) by (by apply exec_redir). auto 8 using exec_pipe, pipe_back, back_line.
  - destruct Hg as [Hl Hr]. destruct (IHl Hl) as (Hx & _). destruct (IHr Hr) as (_ & Hp & _).
    assert (is_pipe (print (PIPE l r)) (PIPE l r)) by (apply pipe_pipe; auto using norm_enclose, norm_print).
    auto 8 using line_block, pipe_back, back_line.
  - destruct Hg as [Hl Hr]. destruct (IHl Hl) as (_ & _ & Hb & _). destruct (IHr Hr) as (_ & _ & _ & Hln).
    assert (is_line (print (LIST l r)) (LIST l r)) by (apply line_list; auto using norm_print).
    auto 8 using line_block, exec_pipe, pipe_back.
  - destruct (IH Hg) as (_ & _ & Hb & _). assert (is_back (print (BACK c)) (BACK c)) by (by apply back_back).
    auto 8 using line_block, exec_pipe, back_line.
Qed.
End RoundTrip.

Lemma print_no_nul c : good c -> 0 ∉ print c.
Proof.
  assert (forall n k t, 0 ∉ t -> 0 ∉ enclose n k t) as He.
  { intros n k t H. unfold enclose. destruct (k <=? n)%nat; [done|]. rewrite not_elem_of_cons, not_elem_of_app. set_solver. }
  assert (forall w, good_word w -> 0 ∉ word_text w) as Hw.
  { intros w [_ H] Hin. unfold word_text in Hin. apply elem_of_app in Hin as [Hin|Hin]; [|set_solver].
    rewrite Forall_forall in H. by apply H in Hin as [_ ?]. }
  induction c as [argv|c IH f m d|l IHl r IHr|l IHl r IHr|c IH]; cbn [print good].
  - intros [H _]. induction H as [|w argv H1 H2 IH]; [set_solver|]. cbn [map concat]. rewrite not_elem_of_app. split; [by apply Hw|done].
  - intros [Hc [Hf _]]. rewrite not_elem_of_app. split; [by apply He, IH|]. simpl. rewrite not_elem_of_cons. split; [by destruct (d =? 0)|by apply Hw].
  - intros [Hl Hr]. rewrite not_elem_of_app, not_elem_of_cons. auto.
  - intros [Hl Hr]. rewrite not_elem_of_app, not_elem_of_cons. auto.
  - intros Hc. rewrite not_elem_of_app. split; [auto|set_solver].
Qed.

(** C36: a round trip through the grammar.  A command with words, up to nine
    arguments and the redirections of the shell, printed with parentheses
    only where the grammar needs them, is parsed by [parsecmd] back into the
    same command: the same pipes (to the right), background marks, lists (to
    the right), nesting and redirections, with the same strings. *)
Theorem parsecmd_print c :
  good c -> exists t b s, parsecmd (print c) = Done (t, b) s /\ strings b t = c.
Proof.
  intros Hg. pose proof (print_no_nul c Hg) as H0. destruct (levels (print c) H0 c Hg) as (_ & _ & _ & Hl).
  destruct (Hl (4 * es (print c) + 4)%nat O []) as (t & s & Hrun & H & E).
  { split; [lia|]. by rewrite app_nil_r. }
  { by left. }
  { done. }
  pose proof (here_nil _ _ H) as [Es _].
  destruct (parse_returns (print c) H0 (4 * es (print c) + 4) O) as (Hp & _); [lia|]. specialize (Hp ltac:(lia)).
  rewrite Hrun in Hp. destruct Hp as [_ Hwords].
  exists t, (nulterminate t (print c ++ [0])), s. split; [|by rewrite nulterminate_strings].
  unfold parsecmd, parse. rewrite (bind_Done _ _ _ _ _ Hrun), (bind_Done _ _ _ _ _ (peek_here _ _ _ _ H ltac:(done) ltac:(apply not_elem_of_nil))).
  rewrite bind_gets. rewrite bool_decide_eq_false_2; [done|]. intros Hne. by apply Hne.
Qed.

(** ** Witnesses *)

(** "a <b | (c & ; d e)" *)
Definition demo_cmd : cmd (list Z) :=
  PIPE (REDIR (EXEC [[97]]) [98] O_RDONLY 0) (LIST (BACK (EXEC [[99]])) (EXEC [[100]; [101]])).


Lemma parsecmd_print_witness : exists t b s, parsecmd (print demo_cmd) = Done (t, b) s /\ strings b t = demo_cmd.
Proof.
  apply (parsecmd_print demo_cmd). cbn [good demo_cmd good_redir length MAXARGS].
  repeat split; repeat constructor; try discriminate; try (unfold MAXARGS; simpl; lia).
Defined.
