(* ===== verification/ShRun.v ===== *)
(** ShRun: the shell runs a command.  [runcmd] and the body of [main]'s loop
    are trees of system calls; their meaning on the descriptor tables of the
    processes shows which program runs with which standard input and output. *)

From S2P Require Import Prelude Kernel Sysfile Sh.

(** ** System calls of the shell *)

Inductive call :=
| Close (fd : Z)
| Dup (fd : Z)
| Open (file : list Z) (mode : Z)
| Fork
| Wait
| Chdir (path : list Z)
| Exec (path : list Z) (argv : list (list Z)).

(** A process: it exits, comes back to the loop of [main], or makes a call
    and goes on with its result; [pipe] also stores two descriptors. *)
Inductive prog :=
| Exit
| Loop
| Sys (c : call) (k : Z -> prog)
| Pipe (k : Z -> Z -> Z -> prog).

(** [fork1]: [panic] prints a message and exits. *)
Definition fork1 (k : Z -> prog) : prog := Sys Fork (fun pid => if pid =? -1 then Exit else k pid).

Fixpoint runcmd (c : cmd (list Z)) : prog :=
  match c with
  | EXEC [] => Exit
  | EXEC ((path :: _) as argv) => Sys (Exec path argv) (fun _ => Exit)
  | REDIR c file mode fd =>
      Sys (Close fd) (fun _ =>
      Sys (Open file mode) (fun r => if r <? 0 then Exit else runcmd c))
  | LIST l r =>
      fork1 (fun pid => if pid =? 0 then runcmd l else Sys Wait (fun _ => runcmd r))
  | PIPE l r =>
      Pipe (fun r0 p0 p1 =>
        if r0 <? 0 then Exit else
        fork1 (fun pid =>
          if pid =? 0 then
            Sys (Close 1) (fun _ => Sys (Dup p1) (fun _ => Sys (Close p0) (fun _ => Sys (Close p1) (fun _ => runcmd l))))
          else
          fork1 (fun pid =>
            if pid =? 0 then
              Sys (Close 0) (fun _ => Sys (Dup p0) (fun _ => Sys (Close p0) (fun _ => Sys (Close p1) (fun _ => runcmd r))))
            else
            Sys (Close p0) (fun _ => Sys (Close p1) (fun _ => Sys Wait (fun _ => Sys Wait (fun _ => Exit)))))))
  | BACK c => fork1 (fun pid => if pid =? 0 then runcmd c else Exit)
  end.

(** One turn of the loop of [main], on the line [getcmd] read.  The line of
    "cd" loses its last character; [strlen(buf) - 1] is at least 2 there. *)
Definition main_turn (buf : list Z) : prog :=
  match buf with
  | 99 :: 100 :: 32 :: _ => Sys (Chdir (drop 3 (take (length buf - 1) buf))) (fun _ => Loop)
  | _ =>
      fork1 (fun pid =>
        if pid =? 0 then
          match parsecmd buf with
          | Done (c, b) _ => runcmd (strings b c)
          | _ => Exit
          end
        else Sys Wait (fun _ => Loop))
  end.

(** ** Descriptors *)

(** An open file: one the shell was started with, one it opened, or an end
    of the [n]th pipe. *)
Inductive ofile := Given (n : nat) | File (name : list Z) (mode : Z) | PipeR (n : nat) | PipeW (n : nat).

Definition table : Type := list (option ofile).

(** The lowest free descriptor, as [fdalloc] in sysfile.c. *)
Definition lowest (t : table) : option nat := find_idx (fun o => match o with None => true | Some _ => false end) t.
Definition fd_alloc (o : ofile) (t : table) : Z * table :=
  match lowest t with
  | Some i => (Z.of_nat i, <[i := Some o]> t)
  | None => (-1, t)
  end.
Definition fd_close (fd : Z) (t : table) : table := <[Z.to_nat fd := None]> t.
Definition fd_get (fd : Z) (t : table) : option ofile := mjoin (t !! Z.to_nat fd).

(** The programs a process and its children execute, each with its
    descriptors; [n] numbers the pipes.  [fork] and [exec] succeed. *)
Fixpoint run (p : prog) (t : table) (n : nat) : list (list (list Z) * table) * nat :=
  match p with
  | Exit | Loop => ([], n)
  | Pipe k =>
      let r := fd_alloc (PipeR n) t in
      let w := fd_alloc (PipeW n) (snd r) in
      if (fst r <? 0) || (fst w <? 0) then run (k (-1) 0 0) t n
      else run (k 0 (fst r) (fst w)) (snd w) (S n)
  | Sys c k =>
      match c with
      | Close fd => run (k 0) (fd_close fd t) n
      | Dup fd =>
          match fd_get fd t with
          | Some o => run (k (fst (fd_alloc o t))) (snd (fd_alloc o t)) n
          | None => run (k (-1)) t n
          end
      | Open file mode => run (k (fst (fd_alloc (File file mode) t))) (snd (fd_alloc (File file mode) t)) n
      | Fork =>
          let child := run (k 0) t n in
          let parent := run (k 1) t (snd child) in
          (fst child ++ fst parent, snd parent)
      | Wait | Chdir _ => run (k 0) t n
      | Exec _ argv => ([(argv, t)], n)
      end
  end.

(** ** What a command means *)

(** The programs of a command, from the standard files [io]. *)
Fixpoint meaning (c : cmd (list Z)) (io : list ofile) (n : nat) : list (list (list Z) * list ofile) * nat :=
  match c with
  | EXEC [] => ([], n)
  | EXEC argv => ([(argv, io)], n)
  | REDIR c file mode fd => meaning c (<[Z.to_nat fd := File file mode]> io) n
  | PIPE l r =>
      let a := meaning l (<[1%nat := PipeW n]> io) (S n) in
      let b := meaning r (<[0%nat := PipeR n]> io) (snd a) in
      (fst a ++ fst b, snd b)
  | LIST l r =>
      let a := meaning l io n in
      let b := meaning r io (snd a) in
      (fst a ++ fst b, snd b)
  | BACK c => meaning c io n
  end.

(** Redirections of standard input and output. *)
Fixpoint std_redirs {A} (c : cmd A) : Prop :=
  match c with
  | EXEC _ => True
  | REDIR c _ _ fd => std_redirs c /\ (fd = 0 \/ fd = 1)
  | PIPE l r | LIST l r => std_redirs l /\ std_redirs r
  | BACK c => std_redirs c
  end.

(** Standard input, output and error; every other descriptor is closed. *)
Definition std (io : list ofile) : table := map Some io ++ replicate (NOFILE - 3) None.

(** C37: plumbing.  From a process with only its three standard descriptors
    open, [runcmd] runs the programs of the command, each with exactly the
    standard descriptors that its place in the command gives it and no other
    descriptor left open: a pipe joins the output of its left side to the
    input of its right side, a redirection replaces one of them, lists and
    background commands keep them. *)
Theorem runcmd_plumbing c io n :
  length io = 3%nat -> std_redirs c ->
  run (runcmd c) (std io) n =
    (map (fun r => (fst r, std (snd r))) (fst (meaning c io n)), snd (meaning c io n)).
Proof.
  revert io n. induction c as [argv|c IH f m d|l IHl r IHr|l IHl r IHr|c IH]; intros io n Hl Hg.
  - by destruct argv.
  - destruct Hg as [Hg Hd]. destruct io as [|a [|b [|e [|? ?]]]]; try done. cbn [meaning runcmd].
    rewrite <- IH; [|by destruct Hd as [-> | ->]|done]. by destruct Hd as [-> | ->].
  - destruct Hg as [Hg1 Hg2]. destruct io as [|a [|b [|e [|? ?]]]]; try done. cbn [meaning].
    specialize (IHl [a; PipeW n; e] (S n) eq_refl Hg1).
    specialize (IHr [PipeR n; b; e] (snd (meaning l [a; PipeW n; e] (S n))) eq_refl Hg2).
    change (<[1%nat := PipeW n]> [a; b; e]) with [a; PipeW n; e]. change (<[0%nat := PipeR n]> [a; b; e]) with [PipeR n; b; e].
    cbn [fst snd]. rewrite map_app.
    change (run (runcmd (PIPE l r)) (std [a; b; e]) n) with
      (let child := run (runcmd l) (std [a; PipeW n; e]) (S n) in
       let child2 := run (runcmd r) (std [PipeR n; b; e]) (snd child) in
       (fst child ++ fst child2 ++ [], snd child2)).
    cbv zeta. rewrite IHl. cbn [fst snd]. rewrite IHr. cbn [fst snd]. by rewrite app_nil_r.
  - destruct Hg as [Hg1 Hg2]. cbn [meaning].
    change (run (runcmd (LIST l r)) (std io) n) with
      (let child := run (runcmd l) (std io) n in let parent := run (runcmd r) (std io) (snd child) in (fst child ++ fst parent, snd parent)).
    cbv zeta. rewrite IHl by done. cbn [fst snd]. rewrite IHr by done. cbn [fst snd]. by rewrite map_app.
  - cbn [meaning]. change (run (runcmd (BACK c)) (std io) n) with
      (let child := run (runcmd c) (std io) n in (fst child ++ [], snd child)).
    cbv zeta. rewrite IH by done. cbn [fst snd]. by rewrite app_nil_r.
Qed.

(** "a | b | c" on a terminal *)
Lemma runcmd_plumbing_witness :
  run (runcmd (PIPE (EXEC [[97]]) (PIPE (EXEC [[98]]) (EXEC [[99]])))) (std [Given 0; Given 1; Given 2]) 0 =
    ([([[97]], std [Given 0; PipeW 0; Given 2]); ([[98]], std [PipeR 0; PipeW 1; Given 2]);
      ([[99]], std [PipeR 1; Given 1; Given 2])], 2%nat).
Proof.
  rewrite (runcmd_plumbing (PIPE (EXEC [[97]]) (PIPE (EXEC [[98]]) (EXEC [[99]]))) [Given 0; Given 1; Given 2] 0).
  - reflexivity.
  - reflexivity.
  - simpl. tauto.
Defined.
